(** * The DRM atomic state-transaction engine (drm_atomic.c)

    A shallow embedding of the atomic modeset core: the transaction
    container ([drm_atomic_state]), the lazily populated per-object entry
    tables, the get-or-create protocol with its wound/wait locks, the
    plane/CRTC/connector linking helpers, property dispatch, the
    consistency checker, the commit entry points and the ioctl assembly
    loop with its clear-and-retry on [-EDEADLK].

    C pointers to driver objects (CRTC, plane, connector) are modelled by
    the object's dense index ([drm_crtc_index] and friends), heap allocated
    state snapshots by addresses into per-kind heaps, and calls into code
    outside drm_atomic.c (driver hooks, the lock primitive, allocators,
    user-memory access) by the fields of a [drm_driver] record, so every
    theorem holds for all behaviours of those collaborators.  A computation
    that dereferences a NULL or dangling pointer, or indexes outside an
    array, has no result ([None]). *)

From Stdlib Require Import ZArith Bool List Lia Permutation.
From stdpp Require Import base option list gmap.

Local Open Scope Z_scope.

(** ** Error numbers (include/uapi/asm-generic/errno*.h) *)

Definition ENOENT : Z := 2.
Definition ENOMEM : Z := 12.
Definition EFAULT : Z := 14.
Definition EINVAL : Z := 22.
Definition ENOSPC : Z := 28.
Definition ERANGE : Z := 34.
Definition EDEADLK : Z := 35.

Definition INT_MAX : Z := 2147483647.

(** ** Fixed-width integers *)

Definition wrap32 (v : Z) : Z := v mod 2 ^ 32.
Definition wrap64 (v : Z) : Z := v mod 2 ^ 64.

(** Conversion of a [uint64_t] to the [int64_t] with the same bits. *)
Definition U642I64 (v : Z) : Z :=
  if wrap64 v <? 2 ^ 63 then wrap64 v else wrap64 v - 2 ^ 64.

(** Conversion to [int32_t] (and [int]): the low 32 bits, sign extended. *)
Definition to_s32 (v : Z) : Z :=
  if wrap32 v <? 2 ^ 31 then wrap32 v else wrap32 v - 2 ^ 32.

(** ** Data model *)

(** Address of a heap allocated object (a state snapshot, a commit record,
    a pending event). *)
Definition ptr := nat.

(** A [struct drm_property *]: properties are compared by identity only. *)
Definition drm_property := nat.

Record drm_framebuffer := {
  fb_base_id : Z;
  fb_width : Z;            (* unsigned int *)
  fb_height : Z;           (* unsigned int *)
  fb_pixel_format : Z
}.

Record drm_property_blob := {
  blob_base_id : Z;
  blob_length : Z;
  blob_data : list Z
}.

Global Instance drm_framebuffer_eq_dec : EqDecision drm_framebuffer.
Proof. solve_decision. Defined.

Global Instance drm_property_blob_eq_dec : EqDecision drm_property_blob.
Proof. solve_decision. Defined.

(** The three kinds of mode objects that carry atomic state. *)
Inductive obj_kind := KCrtc | KPlane | KConnector.

Global Instance obj_kind_eq_dec : EqDecision obj_kind.
Proof. solve_decision. Defined.

(** [struct drm_crtc_state]: the fields drm_atomic.c reads or writes. *)
Record drm_crtc_state := {
  cs_crtc : nat;                         (* back pointer to the CRTC *)
  cs_enable : bool;
  cs_active : bool;
  cs_mode_changed : bool;
  cs_active_changed : bool;
  cs_connectors_changed : bool;
  cs_color_mgmt_changed : bool;
  cs_plane_mask : Z;                     (* u32 *)
  cs_connector_mask : Z;                 (* u32 *)
  cs_mode : Z;                           (* struct drm_display_mode, opaque; 0 is the zeroed mode *)
  cs_mode_blob : option drm_property_blob;
  cs_degamma_lut : option drm_property_blob;
  cs_ctm : option drm_property_blob;
  cs_gamma_lut : option drm_property_blob;
  cs_event : option ptr;                 (* struct drm_pending_vblank_event * *)
  cs_state : bool                        (* back pointer to the transaction is set *)
}.

(** [struct drm_plane_state]. *)
Record drm_plane_state := {
  ps_plane : nat;                        (* back pointer to the plane *)
  ps_crtc : option nat;
  ps_fb : option drm_framebuffer;
  ps_fence : option Z;                   (* struct fence * *)
  ps_crtc_x : Z;                         (* int32_t *)
  ps_crtc_y : Z;                         (* int32_t *)
  ps_crtc_w : Z;                         (* uint32_t *)
  ps_crtc_h : Z;                         (* uint32_t *)
  ps_src_x : Z;                          (* uint32_t, 16.16 fixed point *)
  ps_src_y : Z;
  ps_src_w : Z;
  ps_src_h : Z;
  ps_rotation : Z;
  ps_zpos : Z;
  ps_state : bool
}.

(** [struct drm_connector_state]. *)
Record drm_connector_state := {
  cns_connector : nat;
  cns_crtc : option nat;
  cns_state : bool
}.

(** [struct drm_crtc_commit]: a reference count and the completion event. *)
Record drm_crtc_commit := {
  cc_ref : nat;
  cc_event : option ptr
}.

(** [struct drm_pending_vblank_event]. *)
Record drm_pending_vblank_event := {
  ev_user_data : Z;
  ev_fence : option Z;                   (* base.fence *)
  ev_file_priv : bool                    (* base.file_priv is set *)
}.

(** Driver objects with their current (committed) state. *)
Record drm_crtc := {
  crtc_base_id : Z;
  crtc_state : drm_crtc_state
}.

Record drm_plane := {
  plane_base_id : Z;
  plane_possible_crtcs : Z;
  plane_state : drm_plane_state;
  plane_fb : option drm_framebuffer;
  plane_old_fb : option drm_framebuffer;
  plane_crtc : option nat;
  plane_zpos_property : drm_property
}.

Record drm_connector := {
  connector_base_id : Z;
  connector_state : drm_connector_state
}.

(** [struct drm_mode_config]: object counts and the registered core
    property descriptors. *)
Record drm_mode_config := {
  num_crtc : nat;
  num_total_plane : nat;
  num_connector : nat;
  async_page_flip : bool;
  prop_active : drm_property;
  prop_mode_id : drm_property;
  degamma_lut_property : drm_property;
  ctm_property : drm_property;
  gamma_lut_property : drm_property;
  prop_out_fence_ptr : drm_property;
  prop_fb_id : drm_property;
  prop_in_fence_fd : drm_property;
  prop_crtc_id : drm_property;
  prop_crtc_x : drm_property;
  prop_crtc_y : drm_property;
  prop_crtc_w : drm_property;
  prop_crtc_h : drm_property;
  prop_src_x : drm_property;
  prop_src_y : drm_property;
  prop_src_w : drm_property;
  prop_src_h : drm_property;
  rotation_property : drm_property;
  dpms_property : drm_property
}.

(** The device: the canonical, committed configuration. *)
Record drm_device := {
  dev_crtcs : list drm_crtc;
  dev_planes : list drm_plane;
  dev_connectors : list drm_connector;
  mode_config : drm_mode_config;
  driver_atomic : bool;                  (* drm_core_check_feature(dev, DRIVER_ATOMIC) *)
  boost_gpu : bool
}.

(** Entries of the per-kind tables of a transaction
    ([struct __drm_crtcs_state] and friends). *)
Record crtcs_entry := {
  ce_ptr : option nat;
  ce_state : option ptr;
  ce_commit : option ptr;
  ce_out_fence_ptr : option Z
}.

Record planes_entry := {
  pe_ptr : option nat;
  pe_state : option ptr
}.

Record connectors_entry := {
  cne_ptr : option nat;
  cne_state : option ptr
}.

Definition empty_crtcs_entry : crtcs_entry :=
  {| ce_ptr := None; ce_state := None; ce_commit := None; ce_out_fence_ptr := None |}.
Definition empty_planes_entry : planes_entry := {| pe_ptr := None; pe_state := None |}.
Definition empty_connectors_entry : connectors_entry := {| cne_ptr := None; cne_state := None |}.

(** [struct drm_atomic_state].  [state->num_connector] is the length of
    [connectors]: the source keeps the two in step (krealloc, memset and
    the assignment in drm_atomic_get_connector_state). *)
Record drm_atomic_state := {
  allow_modeset : bool;
  acquire_ctx : bool;                    (* state->acquire_ctx is set *)
  st_dev : bool;                         (* state->dev is set *)
  crtcs : list crtcs_entry;
  planes : list planes_entry;
  connectors : list connectors_entry
}.

Inductive modeset_lock_id :=
| CrtcMutex (crtc : nat)
| PlaneMutex (plane : nat)
| ConnectionMutex.

(** Instrumentation: the calls that leave drm_atomic.c which the
    properties below count (locks, duplicate and destroy hooks, reference
    counting, the commit hook, lock back-off), and markers for the entry of
    drm_atomic_state_clear and drm_atomic_state_free, in program order. *)
Inductive event :=
| EvLock (l : modeset_lock_id) (ret : Z)
| EvDuplicate (k : obj_kind) (obj : nat) (res : option ptr)
| EvDestroy (k : obj_kind) (obj : nat) (st : option ptr)
| EvConnectorReference (connector : nat)
| EvConnectorUnreference (connector : nat)
| EvFramebufferReference (fb : Z)
| EvFramebufferUnreference (fb : Z)
| EvBlobReference (blob : Z)
| EvBlobUnreference (blob : Z)
| EvKfreeEvent (e : option ptr)
| EvCommitPut (commit : ptr)
| EvEventCancelFree (e : ptr)
| EvFencePut (fence : Z)
| EvPutUser (addr : Z) (val : Z)
| EvFdInstall (fd : Z) (file : Z)
| EvFput (file : Z)
| EvPutUnusedFd (fd : Z)
| EvAtomicCommit (nonblock : bool) (ret : Z)
| EvAlloc (ok : bool)
| EvStateClear
| EvStateFree
| EvBackoff
| EvDropLocks
| EvModeObjectUnreference (obj_id : Z)
| EvBoostKick (which : nat).

(** The whole machine: the device, the transaction under assembly (absent
    before allocation and after it was freed), the heaps of snapshots and
    records, the allocator and the trace of external calls. *)
Record world := {
  w_dev : drm_device;
  w_state : option drm_atomic_state;
  w_crtc_states : gmap ptr drm_crtc_state;
  w_plane_states : gmap ptr drm_plane_state;
  w_connector_states : gmap ptr drm_connector_state;
  w_commits : gmap ptr drm_crtc_commit;
  w_events : gmap ptr drm_pending_vblank_event;
  w_next : ptr;
  w_trace : list event
}.

Definition set_dev (d : drm_device) (w : world) : world :=
  {| w_dev := d; w_state := w_state w; w_crtc_states := w_crtc_states w;
     w_plane_states := w_plane_states w; w_connector_states := w_connector_states w;
     w_commits := w_commits w; w_events := w_events w; w_next := w_next w;
     w_trace := w_trace w |}.
Definition set_state (s : option drm_atomic_state) (w : world) : world :=
  {| w_dev := w_dev w; w_state := s; w_crtc_states := w_crtc_states w;
     w_plane_states := w_plane_states w; w_connector_states := w_connector_states w;
     w_commits := w_commits w; w_events := w_events w; w_next := w_next w;
     w_trace := w_trace w |}.
Definition set_crtc_states (h : gmap ptr drm_crtc_state) (w : world) : world :=
  {| w_dev := w_dev w; w_state := w_state w; w_crtc_states := h;
     w_plane_states := w_plane_states w; w_connector_states := w_connector_states w;
     w_commits := w_commits w; w_events := w_events w; w_next := w_next w;
     w_trace := w_trace w |}.
Definition set_plane_states (h : gmap ptr drm_plane_state) (w : world) : world :=
  {| w_dev := w_dev w; w_state := w_state w; w_crtc_states := w_crtc_states w;
     w_plane_states := h; w_connector_states := w_connector_states w;
     w_commits := w_commits w; w_events := w_events w; w_next := w_next w;
     w_trace := w_trace w |}.
Definition set_connector_states (h : gmap ptr drm_connector_state) (w : world) : world :=
  {| w_dev := w_dev w; w_state := w_state w; w_crtc_states := w_crtc_states w;
     w_plane_states := w_plane_states w; w_connector_states := h;
     w_commits := w_commits w; w_events := w_events w; w_next := w_next w;
     w_trace := w_trace w |}.
Definition set_commits (h : gmap ptr drm_crtc_commit) (w : world) : world :=
  {| w_dev := w_dev w; w_state := w_state w; w_crtc_states := w_crtc_states w;
     w_plane_states := w_plane_states w; w_connector_states := w_connector_states w;
     w_commits := h; w_events := w_events w; w_next := w_next w;
     w_trace := w_trace w |}.
Definition set_events (h : gmap ptr drm_pending_vblank_event) (w : world) : world :=
  {| w_dev := w_dev w; w_state := w_state w; w_crtc_states := w_crtc_states w;
     w_plane_states := w_plane_states w; w_connector_states := w_connector_states w;
     w_commits := w_commits w; w_events := h; w_next := w_next w;
     w_trace := w_trace w |}.
Definition set_next (n : ptr) (w : world) : world :=
  {| w_dev := w_dev w; w_state := w_state w; w_crtc_states := w_crtc_states w;
     w_plane_states := w_plane_states w; w_connector_states := w_connector_states w;
     w_commits := w_commits w; w_events := w_events w; w_next := n;
     w_trace := w_trace w |}.
Definition set_trace (t : list event) (w : world) : world :=
  {| w_dev := w_dev w; w_state := w_state w; w_crtc_states := w_crtc_states w;
     w_plane_states := w_plane_states w; w_connector_states := w_connector_states w;
     w_commits := w_commits w; w_events := w_events w; w_next := w_next w;
     w_trace := t |}.

(** ** The computation monad: state passing, [None] for undefined behaviour *)

Definition M (A : Type) : Type := world -> option (A * world).

Definition ret {A} (a : A) : M A := fun w => Some (a, w).
Definition bind {A B} (m : M A) (k : A -> M B) : M B :=
  fun w => match m w with
           | Some (a, w') => k a w'
           | None => None
           end.
Definition ub {A} : M A := fun _ => None.
Definition get_world : M world := fun w => Some (w, w).
Definition modify (f : world -> world) : M unit := fun w => Some (tt, f w).

Notation "'let*' x ':=' m 'in' k" := (bind m (fun x => k))
  (at level 10, x pattern, m at level 100, k at level 200).

(** Dereference of a possibly NULL or dangling pointer. *)
Definition deref {A} (o : option A) : M A :=
  match o with
  | Some a => ret a
  | None => ub
  end.

Definition log (e : event) : M unit :=
  modify (fun w => set_trace (w_trace w ++ [e]) w).

(** Fresh heap address. *)
Definition alloc : M ptr :=
  fun w => Some (w_next w, set_next (S (w_next w)) w).

(** [for (i = 0; i < n; i++) body(i)] *)
Fixpoint for_loop (n : nat) (body : nat -> M unit) : M unit :=
  match n with
  | O => ret tt
  | S n' => let* _ := for_loop n' body in body n'
  end.

(** A pointer-or-error result ([ERR_PTR], [IS_ERR], [PTR_ERR]). *)
Inductive errptr :=
| Ptr (p : ptr)
| ErrPtr (e : Z).

(** ** The ioctl argument and the objects it names *)

(** [struct drm_mode_atomic] (include/uapi/drm/drm_mode.h). *)
Record drm_mode_atomic := {
  flags : Z;
  count_objs : Z;
  objs_ptr : Z;
  count_props_ptr : Z;
  props_ptr : Z;
  prop_values_ptr : Z;
  reserved : Z;
  user_data : Z
}.

Definition DRM_MODE_PAGE_FLIP_EVENT : Z := 1.
Definition DRM_MODE_PAGE_FLIP_ASYNC : Z := 2.
Definition DRM_MODE_ATOMIC_TEST_ONLY : Z := 256.
Definition DRM_MODE_ATOMIC_NONBLOCK : Z := 512.
Definition DRM_MODE_ATOMIC_ALLOW_MODESET : Z := 1024.
Definition DRM_MODE_ATOMIC_FLAGS : Z := 1 + 2 + 256 + 512 + 1024.

(** [arg->flags & FLAG] as a truth value. *)
Definition has_flag (fl flag : Z) : bool := negb (Z.land fl flag =? 0).

(** [struct drm_file]: the one field the ioctl reads. *)
Record drm_file := {
  fp_atomic : bool
}.

(** What [obj->type] and the containing object of a [struct
    drm_mode_object] are. *)
Inductive mode_object_type :=
| ObjConnector (connector : nat)
| ObjCrtc (crtc : nat)
| ObjPlane (plane : nat)
| ObjOther.

Record drm_mode_object := {
  obj_type : mode_object_type;
  obj_properties : bool                 (* obj->properties is set *)
}.

(** [struct drm_out_fence_state] *)
Record drm_out_fence_state := {
  out_fence_ptr : option Z;
  sync_file : option Z;                 (* the sync file, named by its struct file *)
  fd : Z
}.

(** ** The external collaborators *)

(** A hook that may change the machine returns the new machine with its
    result. *)
Definition hook (A : Type) : Type := world -> A * world.

Record drm_driver := {
  (* the wound/wait lock primitive: 0, or a negative errno such as -EDEADLK *)
  drm_modeset_lock : world -> modeset_lock_id -> Z;
  (* per object kind: duplicate-state; [None] is a NULL return *)
  crtc_atomic_duplicate_state : world -> nat -> option drm_crtc_state;
  plane_atomic_duplicate_state : world -> nat -> option drm_plane_state;
  connector_atomic_duplicate_state : world -> nat -> option drm_connector_state;
  (* per object kind: the optional set-property extension *)
  crtc_atomic_set_property : nat -> option (ptr -> drm_property -> Z -> hook Z);
  plane_atomic_set_property : nat -> option (ptr -> drm_property -> Z -> hook Z);
  connector_atomic_set_property : nat -> option (ptr -> drm_property -> Z -> hook Z);
  (* config->funcs *)
  atomic_check : option (hook Z);
  atomic_commit : bool -> hook Z;
  atomic_state_alloc : option (world -> option drm_atomic_state);
  atomic_state_clear : option (hook unit);
  atomic_state_free : option (hook unit);
  (* allocators *)
  kcalloc_ok : world -> bool;
  krealloc_ok : world -> bool;
  kzalloc_ok : world -> bool;
  (* lookups by id *)
  drm_property_lookup_blob : world -> Z -> option drm_property_blob;
  drm_framebuffer_lookup : world -> Z -> option drm_framebuffer;
  drm_crtc_find : world -> Z -> option nat;
  (* helpers *)
  drm_mode_convert_umode : drm_property_blob -> Z * Z;   (* return code, converted mode *)
  sizeof_drm_mode_modeinfo : Z;
  sizeof_drm_color_ctm : Z;
  sync_file_get_fence : world -> Z -> option Z;
  drm_plane_check_pixel_format : nat -> Z -> Z;
  put_user : world -> Z -> Z -> bool;         (* true: the store faulted *)
  get_user : world -> Z -> option Z;          (* [None]: the load faulted *)
  (* the ioctl's lookups and resources *)
  drm_mode_object_find : world -> Z -> option drm_mode_object;
  drm_mode_obj_find_prop_id : world -> drm_mode_object -> Z -> option drm_property;
  drm_property_change_valid_get : world -> drm_property -> Z -> bool;
  drm_event_reserve_init : world -> ptr -> Z;
  drm_crtc_create_fence : world -> nat -> option Z;
  get_unused_fd_flags : world -> Z;
  sync_file_create : world -> Z -> option Z
}.

Definition run_hook {A} (h : hook A) : M A :=
  fun w => let '(a, w') := h w in Some (a, set_trace (w_trace w) w').

(** ** Access to the transaction and its tables *)

Definition get_state : M drm_atomic_state :=
  let* w := get_world in deref (w_state w).

Definition put_state (s : drm_atomic_state) : M unit :=
  modify (set_state (Some s)).

Definition set_crtcs (l : list crtcs_entry) (s : drm_atomic_state) : drm_atomic_state :=
  {| allow_modeset := allow_modeset s; acquire_ctx := acquire_ctx s; st_dev := st_dev s;
     crtcs := l; planes := planes s; connectors := connectors s |}.
Definition set_planes (l : list planes_entry) (s : drm_atomic_state) : drm_atomic_state :=
  {| allow_modeset := allow_modeset s; acquire_ctx := acquire_ctx s; st_dev := st_dev s;
     crtcs := crtcs s; planes := l; connectors := connectors s |}.
Definition set_connectors (l : list connectors_entry) (s : drm_atomic_state) : drm_atomic_state :=
  {| allow_modeset := allow_modeset s; acquire_ctx := acquire_ctx s; st_dev := st_dev s;
     crtcs := crtcs s; planes := planes s; connectors := l |}.

(** [state->crtcs[i]]: reading outside the array is undefined. *)
Definition crtcs_at (i : nat) : M crtcs_entry :=
  let* st := get_state in deref (crtcs st !! i).
Definition planes_at (i : nat) : M planes_entry :=
  let* st := get_state in deref (planes st !! i).
Definition connectors_at (i : nat) : M connectors_entry :=
  let* st := get_state in deref (connectors st !! i).

Definition crtcs_store (i : nat) (e : crtcs_entry) : M unit :=
  let* st := get_state in
  let* _ := deref (crtcs st !! i) in
  put_state (set_crtcs (<[i := e]> (crtcs st)) st).
Definition planes_store (i : nat) (e : planes_entry) : M unit :=
  let* st := get_state in
  let* _ := deref (planes st !! i) in
  put_state (set_planes (<[i := e]> (planes st)) st).
Definition connectors_store (i : nat) (e : connectors_entry) : M unit :=
  let* st := get_state in
  let* _ := deref (connectors st !! i) in
  put_state (set_connectors (<[i := e]> (connectors st)) st).

(** Snapshot heaps. *)
Definition load_crtc_state (p : ptr) : M drm_crtc_state :=
  let* w := get_world in deref (w_crtc_states w !! p).
Definition store_crtc_state (p : ptr) (s : drm_crtc_state) : M unit :=
  let* _ := load_crtc_state p in
  modify (fun w => set_crtc_states (<[p := s]> (w_crtc_states w)) w).
Definition load_plane_state (p : ptr) : M drm_plane_state :=
  let* w := get_world in deref (w_plane_states w !! p).
Definition store_plane_state (p : ptr) (s : drm_plane_state) : M unit :=
  let* _ := load_plane_state p in
  modify (fun w => set_plane_states (<[p := s]> (w_plane_states w)) w).
Definition load_connector_state (p : ptr) : M drm_connector_state :=
  let* w := get_world in deref (w_connector_states w !! p).
Definition store_connector_state (p : ptr) (s : drm_connector_state) : M unit :=
  let* _ := load_connector_state p in
  modify (fun w => set_connector_states (<[p := s]> (w_connector_states w)) w).

(** Field updates of the snapshots. *)
Definition cs_with_state (b : bool) (s : drm_crtc_state) : drm_crtc_state :=
  {| cs_crtc := cs_crtc s; cs_enable := cs_enable s; cs_active := cs_active s;
     cs_mode_changed := cs_mode_changed s; cs_active_changed := cs_active_changed s;
     cs_connectors_changed := cs_connectors_changed s;
     cs_color_mgmt_changed := cs_color_mgmt_changed s;
     cs_plane_mask := cs_plane_mask s; cs_connector_mask := cs_connector_mask s;
     cs_mode := cs_mode s; cs_mode_blob := cs_mode_blob s;
     cs_degamma_lut := cs_degamma_lut s; cs_ctm := cs_ctm s; cs_gamma_lut := cs_gamma_lut s;
     cs_event := cs_event s; cs_state := b |}.
Definition cs_with_plane_mask (m : Z) (s : drm_crtc_state) : drm_crtc_state :=
  {| cs_crtc := cs_crtc s; cs_enable := cs_enable s; cs_active := cs_active s;
     cs_mode_changed := cs_mode_changed s; cs_active_changed := cs_active_changed s;
     cs_connectors_changed := cs_connectors_changed s;
     cs_color_mgmt_changed := cs_color_mgmt_changed s;
     cs_plane_mask := m; cs_connector_mask := cs_connector_mask s;
     cs_mode := cs_mode s; cs_mode_blob := cs_mode_blob s;
     cs_degamma_lut := cs_degamma_lut s; cs_ctm := cs_ctm s; cs_gamma_lut := cs_gamma_lut s;
     cs_event := cs_event s; cs_state := cs_state s |}.
Definition cs_with_connector_mask (m : Z) (s : drm_crtc_state) : drm_crtc_state :=
  {| cs_crtc := cs_crtc s; cs_enable := cs_enable s; cs_active := cs_active s;
     cs_mode_changed := cs_mode_changed s; cs_active_changed := cs_active_changed s;
     cs_connectors_changed := cs_connectors_changed s;
     cs_color_mgmt_changed := cs_color_mgmt_changed s;
     cs_plane_mask := cs_plane_mask s; cs_connector_mask := m;
     cs_mode := cs_mode s; cs_mode_blob := cs_mode_blob s;
     cs_degamma_lut := cs_degamma_lut s; cs_ctm := cs_ctm s; cs_gamma_lut := cs_gamma_lut s;
     cs_event := cs_event s; cs_state := cs_state s |}.
Definition cs_with_event (e : option ptr) (s : drm_crtc_state) : drm_crtc_state :=
  {| cs_crtc := cs_crtc s; cs_enable := cs_enable s; cs_active := cs_active s;
     cs_mode_changed := cs_mode_changed s; cs_active_changed := cs_active_changed s;
     cs_connectors_changed := cs_connectors_changed s;
     cs_color_mgmt_changed := cs_color_mgmt_changed s;
     cs_plane_mask := cs_plane_mask s; cs_connector_mask := cs_connector_mask s;
     cs_mode := cs_mode s; cs_mode_blob := cs_mode_blob s;
     cs_degamma_lut := cs_degamma_lut s; cs_ctm := cs_ctm s; cs_gamma_lut := cs_gamma_lut s;
     cs_event := e; cs_state := cs_state s |}.
Definition cs_with_active (b : bool) (s : drm_crtc_state) : drm_crtc_state :=
  {| cs_crtc := cs_crtc s; cs_enable := cs_enable s; cs_active := b;
     cs_mode_changed := cs_mode_changed s; cs_active_changed := cs_active_changed s;
     cs_connectors_changed := cs_connectors_changed s;
     cs_color_mgmt_changed := cs_color_mgmt_changed s;
     cs_plane_mask := cs_plane_mask s; cs_connector_mask := cs_connector_mask s;
     cs_mode := cs_mode s; cs_mode_blob := cs_mode_blob s;
     cs_degamma_lut := cs_degamma_lut s; cs_ctm := cs_ctm s; cs_gamma_lut := cs_gamma_lut s;
     cs_event := cs_event s; cs_state := cs_state s |}.
Definition cs_with_mode (en : bool) (m : Z) (b : option drm_property_blob)
    (s : drm_crtc_state) : drm_crtc_state :=
  {| cs_crtc := cs_crtc s; cs_enable := en; cs_active := cs_active s;
     cs_mode_changed := cs_mode_changed s; cs_active_changed := cs_active_changed s;
     cs_connectors_changed := cs_connectors_changed s;
     cs_color_mgmt_changed := cs_color_mgmt_changed s;
     cs_plane_mask := cs_plane_mask s; cs_connector_mask := cs_connector_mask s;
     cs_mode := m; cs_mode_blob := b;
     cs_degamma_lut := cs_degamma_lut s; cs_ctm := cs_ctm s; cs_gamma_lut := cs_gamma_lut s;
     cs_event := cs_event s; cs_state := cs_state s |}.
Definition cs_with_luts (d c g : option drm_property_blob) (changed : bool)
    (s : drm_crtc_state) : drm_crtc_state :=
  {| cs_crtc := cs_crtc s; cs_enable := cs_enable s; cs_active := cs_active s;
     cs_mode_changed := cs_mode_changed s; cs_active_changed := cs_active_changed s;
     cs_connectors_changed := cs_connectors_changed s;
     cs_color_mgmt_changed := changed;
     cs_plane_mask := cs_plane_mask s; cs_connector_mask := cs_connector_mask s;
     cs_mode := cs_mode s; cs_mode_blob := cs_mode_blob s;
     cs_degamma_lut := d; cs_ctm := c; cs_gamma_lut := g;
     cs_event := cs_event s; cs_state := cs_state s |}.

Definition ps_with_state (b : bool) (s : drm_plane_state) : drm_plane_state :=
  {| ps_plane := ps_plane s; ps_crtc := ps_crtc s; ps_fb := ps_fb s; ps_fence := ps_fence s;
     ps_crtc_x := ps_crtc_x s; ps_crtc_y := ps_crtc_y s;
     ps_crtc_w := ps_crtc_w s; ps_crtc_h := ps_crtc_h s;
     ps_src_x := ps_src_x s; ps_src_y := ps_src_y s;
     ps_src_w := ps_src_w s; ps_src_h := ps_src_h s;
     ps_rotation := ps_rotation s; ps_zpos := ps_zpos s; ps_state := b |}.
Definition ps_with_crtc (c : option nat) (s : drm_plane_state) : drm_plane_state :=
  {| ps_plane := ps_plane s; ps_crtc := c; ps_fb := ps_fb s; ps_fence := ps_fence s;
     ps_crtc_x := ps_crtc_x s; ps_crtc_y := ps_crtc_y s;
     ps_crtc_w := ps_crtc_w s; ps_crtc_h := ps_crtc_h s;
     ps_src_x := ps_src_x s; ps_src_y := ps_src_y s;
     ps_src_w := ps_src_w s; ps_src_h := ps_src_h s;
     ps_rotation := ps_rotation s; ps_zpos := ps_zpos s; ps_state := ps_state s |}.
Definition ps_with_fb (f : option drm_framebuffer) (s : drm_plane_state) : drm_plane_state :=
  {| ps_plane := ps_plane s; ps_crtc := ps_crtc s; ps_fb := f; ps_fence := ps_fence s;
     ps_crtc_x := ps_crtc_x s; ps_crtc_y := ps_crtc_y s;
     ps_crtc_w := ps_crtc_w s; ps_crtc_h := ps_crtc_h s;
     ps_src_x := ps_src_x s; ps_src_y := ps_src_y s;
     ps_src_w := ps_src_w s; ps_src_h := ps_src_h s;
     ps_rotation := ps_rotation s; ps_zpos := ps_zpos s; ps_state := ps_state s |}.
Definition ps_with_fence (f : option Z) (s : drm_plane_state) : drm_plane_state :=
  {| ps_plane := ps_plane s; ps_crtc := ps_crtc s; ps_fb := ps_fb s; ps_fence := f;
     ps_crtc_x := ps_crtc_x s; ps_crtc_y := ps_crtc_y s;
     ps_crtc_w := ps_crtc_w s; ps_crtc_h := ps_crtc_h s;
     ps_src_x := ps_src_x s; ps_src_y := ps_src_y s;
     ps_src_w := ps_src_w s; ps_src_h := ps_src_h s;
     ps_rotation := ps_rotation s; ps_zpos := ps_zpos s; ps_state := ps_state s |}.
Definition ps_with_crtc_rect (x y w h : Z) (s : drm_plane_state) : drm_plane_state :=
  {| ps_plane := ps_plane s; ps_crtc := ps_crtc s; ps_fb := ps_fb s; ps_fence := ps_fence s;
     ps_crtc_x := x; ps_crtc_y := y; ps_crtc_w := w; ps_crtc_h := h;
     ps_src_x := ps_src_x s; ps_src_y := ps_src_y s;
     ps_src_w := ps_src_w s; ps_src_h := ps_src_h s;
     ps_rotation := ps_rotation s; ps_zpos := ps_zpos s; ps_state := ps_state s |}.
Definition ps_with_src_rect (x y w h : Z) (s : drm_plane_state) : drm_plane_state :=
  {| ps_plane := ps_plane s; ps_crtc := ps_crtc s; ps_fb := ps_fb s; ps_fence := ps_fence s;
     ps_crtc_x := ps_crtc_x s; ps_crtc_y := ps_crtc_y s;
     ps_crtc_w := ps_crtc_w s; ps_crtc_h := ps_crtc_h s;
     ps_src_x := x; ps_src_y := y; ps_src_w := w; ps_src_h := h;
     ps_rotation := ps_rotation s; ps_zpos := ps_zpos s; ps_state := ps_state s |}.
Definition ps_with_rotation_zpos (r z : Z) (s : drm_plane_state) : drm_plane_state :=
  {| ps_plane := ps_plane s; ps_crtc := ps_crtc s; ps_fb := ps_fb s; ps_fence := ps_fence s;
     ps_crtc_x := ps_crtc_x s; ps_crtc_y := ps_crtc_y s;
     ps_crtc_w := ps_crtc_w s; ps_crtc_h := ps_crtc_h s;
     ps_src_x := ps_src_x s; ps_src_y := ps_src_y s;
     ps_src_w := ps_src_w s; ps_src_h := ps_src_h s;
     ps_rotation := r; ps_zpos := z; ps_state := ps_state s |}.

Definition cns_with_state (b : bool) (s : drm_connector_state) : drm_connector_state :=
  {| cns_connector := cns_connector s; cns_crtc := cns_crtc s; cns_state := b |}.
Definition cns_with_crtc (c : option nat) (s : drm_connector_state) : drm_connector_state :=
  {| cns_connector := cns_connector s; cns_crtc := c; cns_state := cns_state s |}.

Definition st_with_allow_modeset (b : bool) (s : drm_atomic_state) : drm_atomic_state :=
  {| allow_modeset := b; acquire_ctx := acquire_ctx s; st_dev := st_dev s;
     crtcs := crtcs s; planes := planes s; connectors := connectors s |}.
Definition st_with_acquire_ctx (b : bool) (s : drm_atomic_state) : drm_atomic_state :=
  {| allow_modeset := allow_modeset s; acquire_ctx := b; st_dev := st_dev s;
     crtcs := crtcs s; planes := planes s; connectors := connectors s |}.
Definition st_with_dev (b : bool) (s : drm_atomic_state) : drm_atomic_state :=
  {| allow_modeset := allow_modeset s; acquire_ctx := acquire_ctx s; st_dev := b;
     crtcs := crtcs s; planes := planes s; connectors := connectors s |}.

(** What kzalloc returns for a [struct drm_atomic_state]. *)
Definition zeroed_atomic_state : drm_atomic_state :=
  {| allow_modeset := false; acquire_ctx := false; st_dev := false;
     crtcs := []; planes := []; connectors := [] |}.

(** [&state->dev->mode_config]: needs [state->dev]. *)
Definition state_config : M drm_mode_config :=
  let* st := get_state in
  if st_dev st then let* w := get_world in ret (mode_config (w_dev w)) else ub.

(** ** The engine *)

Section Engine.

Variable drv : drm_driver.

Definition modeset_lock (l : modeset_lock_id) : M Z :=
  let* w := get_world in
  let r := drm_modeset_lock drv w l in
  let* _ := log (EvLock l r) in
  ret r.

Definition kcalloc : M bool :=
  let* w := get_world in
  let ok := kcalloc_ok drv w in
  let* _ := log (EvAlloc ok) in ret ok.
Definition krealloc : M bool :=
  let* w := get_world in
  let ok := krealloc_ok drv w in
  let* _ := log (EvAlloc ok) in ret ok.
Definition kzalloc : M bool :=
  let* w := get_world in
  let ok := kzalloc_ok drv w in
  let* _ := log (EvAlloc ok) in ret ok.

(** The destroy hooks ([funcs->atomic_destroy_state]) release the snapshot
    they are handed. *)
Definition crtc_atomic_destroy_state (crtc : nat) (s : option ptr) : M unit :=
  let* _ := log (EvDestroy KCrtc crtc s) in
  modify (fun w => match s with
                   | Some p => set_crtc_states (delete p (w_crtc_states w)) w
                   | None => w
                   end).
Definition plane_atomic_destroy_state (plane : nat) (s : option ptr) : M unit :=
  let* _ := log (EvDestroy KPlane plane s) in
  modify (fun w => match s with
                   | Some p => set_plane_states (delete p (w_plane_states w)) w
                   | None => w
                   end).
Definition connector_atomic_destroy_state (connector : nat) (s : option ptr) : M unit :=
  let* _ := log (EvDestroy KConnector connector s) in
  modify (fun w => match s with
                   | Some p => set_connector_states (delete p (w_connector_states w)) w
                   | None => w
                   end).

Definition drm_connector_reference (connector : nat) : M unit :=
  log (EvConnectorReference connector).
Definition drm_connector_unreference (connector : nat) : M unit :=
  log (EvConnectorUnreference connector).

(** [kref_put(&commit->ref, crtc_commit_free)] *)
Definition drm_crtc_commit_put (commit : ptr) : M unit :=
  let* _ := log (EvCommitPut commit) in
  let* w := get_world in
  let* c := deref (w_commits w !! commit) in
  match cc_ref c with
  | O => ub
  | S O => modify (set_commits (delete commit (w_commits w)))
  | S n => modify (set_commits (<[commit := {| cc_ref := n; cc_event := cc_event c |}]> (w_commits w)))
  end.

Definition drm_atomic_state_default_release : M unit :=
  let* st := get_state in
  put_state (set_planes [] (set_crtcs [] (set_connectors [] st))).

Definition drm_atomic_state_init : M Z :=
  let* w := get_world in
  let config := mode_config (w_dev w) in
  let* st := get_state in
  let* _ := put_state (st_with_allow_modeset true st) in
  let* ok := kcalloc in
  if negb ok then
    let* _ := drm_atomic_state_default_release in ret (- ENOMEM)
  else
    let* st := get_state in
    let* _ := put_state (set_crtcs (replicate (num_crtc config) empty_crtcs_entry) st) in
    let* ok := kcalloc in
    if negb ok then
      let* _ := drm_atomic_state_default_release in ret (- ENOMEM)
    else
      let* st := get_state in
      let* _ := put_state
        (st_with_dev true
           (set_planes (replicate (num_total_plane config) empty_planes_entry) st)) in
      ret 0.

(** Returns whether a state was allocated (a non-NULL pointer). *)
Definition drm_atomic_state_alloc : M bool :=
  match atomic_state_alloc drv with
  | None =>
      let* ok := kzalloc in
      if negb ok then ret false
      else
        let* _ := put_state zeroed_atomic_state in
        let* r := drm_atomic_state_init in
        if r <? 0 then
          let* _ := modify (set_state None) in ret false
        else ret true
  | Some h =>
      let* w := get_world in
      match h w with
      | Some st => let* _ := put_state st in ret true
      | None => ret false
      end
  end.

Definition clear_connector (i : nat) : M unit :=
  let* e := connectors_at i in
  match cne_ptr e with
  | None => ret tt
  | Some connector =>
      let* _ := connector_atomic_destroy_state connector (cne_state e) in
      let* _ := connectors_store i {| cne_ptr := None; cne_state := None |} in
      drm_connector_unreference connector
  end.

(** The block under [if (state->crtcs[i].commit)] in
    drm_atomic_state_default_clear: free the event, forget it, drop the
    reference. *)
Definition cancel_commit (commit : ptr) : M unit :=
  let* w := get_world in
  let* c := deref (w_commits w !! commit) in
  let* _ := log (EvKfreeEvent (cc_event c)) in
  let* _ := modify (fun w => set_events
              (match cc_event c with
               | Some ev => delete ev (w_events w)
               | None => w_events w
               end) w) in
  let* _ := modify (fun w => set_commits
              (<[commit := {| cc_ref := cc_ref c; cc_event := None |}]> (w_commits w)) w) in
  drm_crtc_commit_put commit.

Definition clear_crtc (i : nat) : M unit :=
  let* e := crtcs_at i in
  match ce_ptr e with
  | None => ret tt
  | Some crtc =>
      let* _ := crtc_atomic_destroy_state crtc (ce_state e) in
      let* _ :=
        match ce_commit e with
        | Some commit => cancel_commit commit
        | None => ret tt
        end in
      crtcs_store i {| ce_ptr := None; ce_state := None; ce_commit := None;
                       ce_out_fence_ptr := ce_out_fence_ptr e |}
  end.

Definition clear_plane (i : nat) : M unit :=
  let* e := planes_at i in
  match pe_ptr e with
  | None => ret tt
  | Some plane =>
      let* _ := plane_atomic_destroy_state plane (pe_state e) in
      planes_store i {| pe_ptr := None; pe_state := None |}
  end.

Definition drm_atomic_state_default_clear : M unit :=
  let* config := state_config in
  let* st := get_state in
  let* _ := for_loop (length (connectors st)) clear_connector in
  let* _ := for_loop (num_crtc config) clear_crtc in
  for_loop (num_total_plane config) clear_plane.

Definition drm_atomic_state_clear : M unit :=
  let* _ := state_config in
  let* _ := log EvStateClear in
  match atomic_state_clear drv with
  | Some h => run_hook h
  | None => drm_atomic_state_default_clear
  end.

(** [drm_atomic_state_free(state)]; [present] tells whether [state] is
    non-NULL. *)
Definition drm_atomic_state_free (present : bool) : M unit :=
  if negb present then ret tt
  else
    let* _ := state_config in
    let* _ := drm_atomic_state_clear in
    let* _ := log EvStateFree in
    match atomic_state_free drv with
    | Some h => run_hook h
    | None =>
        let* _ := drm_atomic_state_default_release in
        modify (set_state None)
    end.

(** *** Get-or-create *)

(** Modelled from the spec: the inline helper
    drm_atomic_get_existing_crtc_state of drm_atomic.h is not among the
    sources; the spec describes get-existing as an O(1) lookup by dense
    index, without allocation and without locking. *)
Definition drm_atomic_get_existing_crtc_state (crtc : nat) : M (option ptr) :=
  let* e := crtcs_at crtc in ret (ce_state e).

(** Modelled from the spec: as above, for planes. *)
Definition drm_atomic_get_existing_plane_state (plane : nat) : M (option ptr) :=
  let* e := planes_at plane in ret (pe_state e).

Definition drm_atomic_get_crtc_state (crtc : nat) : M errptr :=
  let index := crtc in
  let* existing := drm_atomic_get_existing_crtc_state crtc in
  match existing with
  | Some crtc_state => ret (Ptr crtc_state)
  | None =>
      let* r := modeset_lock (CrtcMutex crtc) in
      if negb (r =? 0) then ret (ErrPtr r)
      else
        let* w := get_world in
        match crtc_atomic_duplicate_state drv w crtc with
        | None =>
            let* _ := log (EvDuplicate KCrtc crtc None) in
            ret (ErrPtr (- ENOMEM))
        | Some snapshot =>
            let* crtc_state := alloc in
            let* _ := log (EvDuplicate KCrtc crtc (Some crtc_state)) in
            let* _ := modify (fun w => set_crtc_states
                        (<[crtc_state := snapshot]> (w_crtc_states w)) w) in
            let* e := crtcs_at index in
            let* _ := crtcs_store index
                        {| ce_ptr := Some crtc; ce_state := Some crtc_state;
                           ce_commit := ce_commit e;
                           ce_out_fence_ptr := ce_out_fence_ptr e |} in
            let* _ := store_crtc_state crtc_state (cs_with_state true snapshot) in
            ret (Ptr crtc_state)
        end
  end.

Definition drm_atomic_get_plane_state (plane : nat) : M errptr :=
  let index := plane in
  let* existing := drm_atomic_get_existing_plane_state plane in
  match existing with
  | Some plane_state => ret (Ptr plane_state)
  | None =>
      let* r := modeset_lock (PlaneMutex plane) in
      if negb (r =? 0) then ret (ErrPtr r)
      else
        let* w := get_world in
        match plane_atomic_duplicate_state drv w plane with
        | None =>
            let* _ := log (EvDuplicate KPlane plane None) in
            ret (ErrPtr (- ENOMEM))
        | Some snapshot =>
            let* plane_state := alloc in
            let* _ := log (EvDuplicate KPlane plane (Some plane_state)) in
            let* _ := modify (fun w => set_plane_states
                        (<[plane_state := snapshot]> (w_plane_states w)) w) in
            let* _ := planes_at index in
            let* _ := planes_store index
                        {| pe_ptr := Some plane; pe_state := Some plane_state |} in
            let* _ := store_plane_state plane_state (ps_with_state true snapshot) in
            match ps_crtc snapshot with
            | Some crtc =>
                let* crtc_state := drm_atomic_get_crtc_state crtc in
                match crtc_state with
                | ErrPtr e => ret (ErrPtr e)
                | Ptr _ => ret (Ptr plane_state)
                end
            | None => ret (Ptr plane_state)
            end
        end
  end.

Definition drm_atomic_get_connector_state (connector : nat) : M errptr :=
  let* w := get_world in
  let config := mode_config (w_dev w) in
  let* r := modeset_lock ConnectionMutex in
  if negb (r =? 0) then ret (ErrPtr r)
  else
    let index := connector in
    let* st := get_state in
    let* grown :=
      if (length (connectors st) <=? index)%nat then
        let alloc := Nat.max (index + 1) (num_connector config) in
        let* ok := krealloc in
        if negb ok then ret false
        else
          let* _ := put_state
            (set_connectors
               (connectors st ++
                replicate (alloc - length (connectors st)) empty_connectors_entry) st) in
          ret true
      else ret true in
    if negb grown then ret (ErrPtr (- ENOMEM))
    else
      let* e := connectors_at index in
      match cne_state e with
      | Some connector_state => ret (Ptr connector_state)
      | None =>
          let* w := get_world in
          match connector_atomic_duplicate_state drv w connector with
          | None =>
              let* _ := log (EvDuplicate KConnector connector None) in
              ret (ErrPtr (- ENOMEM))
          | Some snapshot =>
              let* connector_state := alloc in
              let* _ := log (EvDuplicate KConnector connector (Some connector_state)) in
              let* _ := modify (fun w => set_connector_states
                          (<[connector_state := snapshot]> (w_connector_states w)) w) in
              let* _ := drm_connector_reference connector in
              let* _ := connectors_store index
                          {| cne_ptr := Some connector; cne_state := Some connector_state |} in
              let* _ := store_connector_state connector_state (cns_with_state true snapshot) in
              match cns_crtc snapshot with
              | Some crtc =>
                  let* crtc_state := drm_atomic_get_crtc_state crtc in
                  match crtc_state with
                  | ErrPtr e => ret (ErrPtr e)
                  | Ptr _ => ret (Ptr connector_state)
                  end
              | None => ret (Ptr connector_state)
              end
          end
      end.

(** *** CRTC properties *)

Definition set_out_fence_for_crtc (crtc : nat) (fence_ptr : option Z) : M unit :=
  let* e := crtcs_at crtc in
  crtcs_store crtc {| ce_ptr := ce_ptr e; ce_state := ce_state e; ce_commit := ce_commit e;
                      ce_out_fence_ptr := fence_ptr |}.

Definition get_out_fence_for_crtc (crtc : nat) : M (option Z) :=
  let* e := crtcs_at crtc in
  let fence_ptr := ce_out_fence_ptr e in
  let* _ := crtcs_store crtc {| ce_ptr := ce_ptr e; ce_state := ce_state e;
                                ce_commit := ce_commit e; ce_out_fence_ptr := None |} in
  ret fence_ptr.

(** [drm_property_unreference_blob]: NULL is ignored. *)
Definition drm_property_unreference_blob (b : option drm_property_blob) : M unit :=
  match b with
  | Some blob => log (EvBlobUnreference (blob_base_id blob))
  | None => ret tt
  end.

Definition drm_property_reference_blob (blob : drm_property_blob) : M unit :=
  log (EvBlobReference (blob_base_id blob)).

(** [drm_property_lookup_blob(dev, id)]: the parameter [id] is a
    [uint32_t], a 64-bit argument is narrowed to it; the blob found comes
    with a reference. *)
Definition lookup_blob (id : Z) : M (option drm_property_blob) :=
  let* w := get_world in
  match drm_property_lookup_blob drv w (wrap32 id) with
  | Some blob => let* _ := drm_property_reference_blob blob in ret (Some blob)
  | None => ret None
  end.

Definition drm_atomic_set_mode_prop_for_crtc (state : ptr)
    (blob : option drm_property_blob) : M Z :=
  let* s := load_crtc_state state in
  if decide (blob = cs_mode_blob s) then ret 0
  else
    let* _ := drm_property_unreference_blob (cs_mode_blob s) in
    let* _ := store_crtc_state state (cs_with_mode (cs_enable s) 0 None s) in
    match blob with
    | Some b =>
        let '(r, mode) := drm_mode_convert_umode drv b in
        if negb (blob_length b =? sizeof_drm_mode_modeinfo drv) then ret (- EINVAL)
        else
          let* s := load_crtc_state state in
          let* _ := store_crtc_state state (cs_with_mode (cs_enable s) mode None s) in
          if negb (r =? 0) then ret (- EINVAL)
          else
            let* _ := drm_property_reference_blob b in
            let* s := load_crtc_state state in
            let* _ := store_crtc_state state (cs_with_mode true (cs_mode s) (Some b) s) in
            ret 0
    | None =>
        let* s := load_crtc_state state in
        let* _ := store_crtc_state state (cs_with_mode false (cs_mode s) (cs_mode_blob s) s) in
        ret 0
    end.

(** Returns the new value of the member and whether it was replaced. *)
Definition drm_atomic_replace_property_blob (old_blob new_blob : option drm_property_blob)
    (replaced : bool) : M (option drm_property_blob * bool) :=
  if decide (old_blob = new_blob) then ret (old_blob, replaced)
  else
    let* _ := drm_property_unreference_blob old_blob in
    let* _ := match new_blob with
              | Some b => drm_property_reference_blob b
              | None => ret tt
              end in
    ret (new_blob, true).

(** The member is returned with the error code and the [replaced] flag. *)
Definition drm_atomic_replace_property_blob_from_id (blob : option drm_property_blob)
    (blob_id : Z) (expected_size : Z) (replaced : bool)
    : M (Z * option drm_property_blob * bool) :=
  let* found :=
    if negb (blob_id =? 0) then
      let* new_blob := lookup_blob blob_id in
      match new_blob with
      | None => ret (inl (- EINVAL))
      | Some b =>
          if (0 <? expected_size) && negb (expected_size =? blob_length b) then
            let* _ := drm_property_unreference_blob (Some b) in
            ret (inl (- EINVAL))
          else ret (inr (Some b))
      end
    else ret (inr None) in
  match found with
  | inl e => ret (e, blob, replaced)
  | inr new_blob =>
      let* (b, rep) := drm_atomic_replace_property_blob blob new_blob replaced in
      let* _ := drm_property_unreference_blob new_blob in
      ret (0, b, rep)
  end.

Definition user_put (addr val : Z) : M bool :=
  let* w := get_world in
  if put_user drv w addr val then ret true
  else let* _ := log (EvPutUser addr val) in ret false.

Definition drm_atomic_crtc_set_property (crtc : nat) (state : ptr)
    (property : drm_property) (val : Z) : M Z :=
  let* w := get_world in
  let config := mode_config (w_dev w) in
  let* s := load_crtc_state state in
  if decide (property = prop_active config) then
    let* _ := store_crtc_state state (cs_with_active (negb (val =? 0)) s) in
    ret 0
  else if decide (property = prop_mode_id config) then
    let* mode := lookup_blob val in
    let* r := drm_atomic_set_mode_prop_for_crtc state mode in
    let* _ := drm_property_unreference_blob mode in
    ret r
  else if decide (property = degamma_lut_property config) then
    let* (r, b, replaced) :=
      drm_atomic_replace_property_blob_from_id (cs_degamma_lut s) val (-1) false in
    let* _ := store_crtc_state state
                (cs_with_luts b (cs_ctm s) (cs_gamma_lut s)
                   (cs_color_mgmt_changed s || replaced) s) in
    ret r
  else if decide (property = ctm_property config) then
    let* (r, b, replaced) :=
      drm_atomic_replace_property_blob_from_id (cs_ctm s) val (sizeof_drm_color_ctm drv) false in
    let* _ := store_crtc_state state
                (cs_with_luts (cs_degamma_lut s) b (cs_gamma_lut s)
                   (cs_color_mgmt_changed s || replaced) s) in
    ret r
  else if decide (property = gamma_lut_property config) then
    let* (r, b, replaced) :=
      drm_atomic_replace_property_blob_from_id (cs_gamma_lut s) val (-1) false in
    let* _ := store_crtc_state state
                (cs_with_luts (cs_degamma_lut s) (cs_ctm s) b
                   (cs_color_mgmt_changed s || replaced) s) in
    ret r
  else if decide (property = prop_out_fence_ptr config) then
    let fence_ptr := wrap64 val in
    if fence_ptr =? 0 then ret 0
    else
      let* fault := user_put fence_ptr (-1) in
      if fault then ret (- EFAULT)
      else
        if cs_state s then
          let* _ := set_out_fence_for_crtc crtc (Some fence_ptr) in ret 0
        else ub
  else
    match crtc_atomic_set_property drv crtc with
    | Some h => run_hook (h state property val)
    | None => ret (- EINVAL)
    end.

(** [drm_atomic_crtc_check(crtc, state)], on the structures the two
    pointers lead to; [dev] is [crtc->dev]. *)
Definition drm_atomic_crtc_check (dev : drm_device) (crtc : drm_crtc)
    (state : drm_crtc_state) : Z :=
  if cs_active state && negb (cs_enable state) then - EINVAL
  else if driver_atomic dev && (cs_enable state && negb (bool_decide (is_Some (cs_mode_blob state))))
  then - EINVAL
  else if driver_atomic dev && (negb (cs_enable state) && bool_decide (is_Some (cs_mode_blob state)))
  then - EINVAL
  else if bool_decide (is_Some (cs_event state)) && negb (cs_active state)
          && negb (cs_active (crtc_state crtc))
  then - EINVAL
  else 0.

(** *** Linking *)

(** [1 << drm_crtc_index(crtc)] and the like; the mode-object tables of
    the kernel hold at most 32 objects of a kind. *)
Definition drm_crtc_mask (crtc : nat) : Z := Z.shiftl 1 (Z.of_nat crtc).
Definition drm_plane_bit (plane : nat) : Z := Z.shiftl 1 (Z.of_nat plane).
Definition drm_connector_bit (connector : nat) : Z := Z.shiftl 1 (Z.of_nat connector).

Definition drm_atomic_set_crtc_for_plane (plane_state : ptr) (crtc : option nat) : M Z :=
  let* ps := load_plane_state plane_state in
  let plane := ps_plane ps in
  if decide (ps_crtc ps = crtc) then ret 0
  else
    let* unlinked :=
      match ps_crtc ps with
      | Some old_crtc =>
          if negb (ps_state ps) then ub
          else
            let* crtc_state := drm_atomic_get_crtc_state old_crtc in
            match crtc_state with
            | ErrPtr e => ret (Some e)
            | Ptr p =>
                let* cs := load_crtc_state p in
                let* _ := store_crtc_state p
                  (cs_with_plane_mask
                     (wrap32 (Z.land (cs_plane_mask cs) (Z.lnot (drm_plane_bit plane)))) cs) in
                ret None
            end
      | None => ret None
      end in
    match unlinked with
    | Some e => ret e
    | None =>
      let* ps := load_plane_state plane_state in
      let* _ := store_plane_state plane_state (ps_with_crtc crtc ps) in
      match crtc with
      | Some new_crtc =>
          if negb (ps_state ps) then ub
          else
            let* crtc_state := drm_atomic_get_crtc_state new_crtc in
            match crtc_state with
            | ErrPtr e => ret e
            | Ptr p =>
                let* cs := load_crtc_state p in
                let* _ := store_crtc_state p
                  (cs_with_plane_mask
                     (wrap32 (Z.lor (cs_plane_mask cs) (drm_plane_bit plane))) cs) in
                ret 0
            end
      | None => ret 0
      end
    end.

Definition drm_framebuffer_reference (fb : drm_framebuffer) : M unit :=
  log (EvFramebufferReference (fb_base_id fb)).
Definition drm_framebuffer_unreference (fb : drm_framebuffer) : M unit :=
  log (EvFramebufferUnreference (fb_base_id fb)).

Definition drm_atomic_set_fb_for_plane (plane_state : ptr)
    (fb : option drm_framebuffer) : M unit :=
  let* ps := load_plane_state plane_state in
  let* _ := match ps_fb ps with
            | Some old => drm_framebuffer_unreference old
            | None => ret tt
            end in
  let* _ := match fb with
            | Some f => drm_framebuffer_reference f
            | None => ret tt
            end in
  store_plane_state plane_state (ps_with_fb fb ps).

Definition fence_put (fence : Z) : M unit := log (EvFencePut fence).

Definition drm_atomic_set_fence_for_plane (plane_state : ptr) (fence : Z) : M unit :=
  let* ps := load_plane_state plane_state in
  match ps_fence ps with
  | Some _ => fence_put fence
  | None => store_plane_state plane_state (ps_with_fence (Some fence) ps)
  end.

Definition drm_atomic_set_crtc_for_connector (conn_state : ptr) (crtc : option nat) : M Z :=
  let* cs0 := load_connector_state conn_state in
  if decide (cns_crtc cs0 = crtc) then ret 0
  else
    let* _ :=
      match cns_crtc cs0 with
      | Some old_crtc =>
          if negb (cns_state cs0) then ub
          else
            let* existing := drm_atomic_get_existing_crtc_state old_crtc in
            let* p := deref existing in
            let* cs := load_crtc_state p in
            let* _ := store_crtc_state p
              (cs_with_connector_mask
                 (wrap32 (Z.land (cs_connector_mask cs)
                            (Z.lnot (drm_connector_bit (cns_connector cs0))))) cs) in
            let* _ := drm_connector_unreference (cns_connector cs0) in
            store_connector_state conn_state (cns_with_crtc None cs0)
      | None => ret tt
      end in
    match crtc with
    | Some new_crtc =>
        if negb (cns_state cs0) then ub
        else
          let* crtc_state := drm_atomic_get_crtc_state new_crtc in
          match crtc_state with
          | ErrPtr e => ret e
          | Ptr p =>
              let* cs := load_crtc_state p in
              let* _ := store_crtc_state p
                (cs_with_connector_mask
                   (wrap32 (Z.lor (cs_connector_mask cs)
                              (drm_connector_bit (cns_connector cs0)))) cs) in
              let* _ := drm_connector_reference (cns_connector cs0) in
              let* c := load_connector_state conn_state in
              let* _ := store_connector_state conn_state (cns_with_crtc (Some new_crtc) c) in
              ret 0
          end
    | None => ret 0
    end.

(** *** Plane and connector properties *)

(** The look-ups by id ([drm_framebuffer_lookup], [drm_crtc_find]) take a
    [uint32_t]: the 64-bit property value is narrowed at the call. *)
Definition drm_atomic_plane_set_property (plane : nat) (state : ptr)
    (property : drm_property) (val : Z) : M Z :=
  let* w := get_world in
  let config := mode_config (w_dev w) in
  let* pl := deref (dev_planes (w_dev w) !! plane) in
  let* s := load_plane_state state in
  if decide (property = prop_fb_id config) then
    let fb := drm_framebuffer_lookup drv w (wrap32 val) in
    let* _ := match fb with
              | Some f => drm_framebuffer_reference f
              | None => ret tt
              end in
    let* _ := drm_atomic_set_fb_for_plane state fb in
    let* _ := match fb with
              | Some f => drm_framebuffer_unreference f
              | None => ret tt
              end in
    ret 0
  else if decide (property = prop_in_fence_fd config) then
    if bool_decide (is_Some (ps_fence s)) then ret (- EINVAL)
    else if U642I64 val =? -1 then ret 0
    else
      match sync_file_get_fence drv w (to_s32 val) with
      | Some fence =>
          let* _ := store_plane_state state (ps_with_fence (Some fence) s) in
          ret 0
      | None => ret (- EINVAL)
      end
  else if decide (property = prop_crtc_id config) then
    let crtc := drm_crtc_find drv w (wrap32 val) in
    drm_atomic_set_crtc_for_plane state crtc
  else if decide (property = prop_crtc_x config) then
    let* _ := store_plane_state state
      (ps_with_crtc_rect (to_s32 (U642I64 val)) (ps_crtc_y s) (ps_crtc_w s) (ps_crtc_h s) s) in
    ret 0
  else if decide (property = prop_crtc_y config) then
    let* _ := store_plane_state state
      (ps_with_crtc_rect (ps_crtc_x s) (to_s32 (U642I64 val)) (ps_crtc_w s) (ps_crtc_h s) s) in
    ret 0
  else if decide (property = prop_crtc_w config) then
    let* _ := store_plane_state state
      (ps_with_crtc_rect (ps_crtc_x s) (ps_crtc_y s) (wrap32 val) (ps_crtc_h s) s) in
    ret 0
  else if decide (property = prop_crtc_h config) then
    let* _ := store_plane_state state
      (ps_with_crtc_rect (ps_crtc_x s) (ps_crtc_y s) (ps_crtc_w s) (wrap32 val) s) in
    ret 0
  else if decide (property = prop_src_x config) then
    let* _ := store_plane_state state
      (ps_with_src_rect (wrap32 val) (ps_src_y s) (ps_src_w s) (ps_src_h s) s) in
    ret 0
  else if decide (property = prop_src_y config) then
    let* _ := store_plane_state state
      (ps_with_src_rect (ps_src_x s) (wrap32 val) (ps_src_w s) (ps_src_h s) s) in
    ret 0
  else if decide (property = prop_src_w config) then
    let* _ := store_plane_state state
      (ps_with_src_rect (ps_src_x s) (ps_src_y s) (wrap32 val) (ps_src_h s) s) in
    ret 0
  else if decide (property = prop_src_h config) then
    let* _ := store_plane_state state
      (ps_with_src_rect (ps_src_x s) (ps_src_y s) (ps_src_w s) (wrap32 val) s) in
    ret 0
  else if decide (property = rotation_property config) then
    let* _ := store_plane_state state (ps_with_rotation_zpos (wrap32 val) (ps_zpos s) s) in
    ret 0
  else if decide (property = plane_zpos_property pl) then
    let* _ := store_plane_state state (ps_with_rotation_zpos (ps_rotation s) (wrap32 val) s) in
    ret 0
  else
    match plane_atomic_set_property drv plane with
    | Some h => run_hook (h state property val)
    | None => ret (- EINVAL)
    end.

Definition drm_atomic_connector_set_property (connector : nat) (state : ptr)
    (property : drm_property) (val : Z) : M Z :=
  let* w := get_world in
  let config := mode_config (w_dev w) in
  if decide (property = prop_crtc_id config) then
    let crtc := drm_crtc_find drv w (wrap32 val) in
    drm_atomic_set_crtc_for_connector state crtc
  else if decide (property = dpms_property config) then ret (- EINVAL)
  else
    match connector_atomic_set_property drv connector with
    | Some h => run_hook (h state property val)
    | None => ret (- EINVAL)
    end.

(** *** The consistency checker *)

Definition plane_switching_crtc (plane : drm_plane) (new_state : drm_plane_state) : bool :=
  match ps_crtc (plane_state plane), ps_crtc new_state with
  | Some old_crtc, Some new_crtc => negb (bool_decide (old_crtc = new_crtc))
  | _, _ => false
  end.

(** The test "source coordinates are inside the fb" of
    drm_atomic_plane_check, on [unsigned int] and [uint32_t] values. *)
Definition src_coords_outside_fb (state : drm_plane_state) (fb : drm_framebuffer) : bool :=
  let fb_width := wrap32 (Z.shiftl (fb_width fb) 16) in
  let fb_height := wrap32 (Z.shiftl (fb_height fb) 16) in
  (fb_width <? ps_src_w state)
  || (wrap32 (fb_width - ps_src_w state) <? ps_src_x state)
  || (fb_height <? ps_src_h state)
  || (wrap32 (fb_height - ps_src_h state) <? ps_src_y state).

(** [drm_atomic_plane_check(plane, state)], on the structures the pointers
    lead to; [index] is [drm_plane_index(plane)]. *)
Definition drm_atomic_plane_check (index : nat) (plane : drm_plane)
    (state : drm_plane_state) : Z :=
  match ps_crtc state, ps_fb state with
  | Some _, None => - EINVAL
  | None, Some _ => - EINVAL
  | None, None => 0
  | Some crtc, Some fb =>
      if Z.land (plane_possible_crtcs plane) (drm_crtc_mask crtc) =? 0 then - EINVAL
      else
        let r := drm_plane_check_pixel_format drv index (fb_pixel_format fb) in
        if negb (r =? 0) then r
        else if (INT_MAX <? ps_crtc_w state)
                || (INT_MAX - to_s32 (ps_crtc_w state) <? ps_crtc_x state)
                || (INT_MAX <? ps_crtc_h state)
                || (INT_MAX - to_s32 (ps_crtc_h state) <? ps_crtc_y state)
        then - ERANGE
        else if src_coords_outside_fb state fb then - ENOSPC
        else if plane_switching_crtc plane state then - EINVAL
        else 0
  end.

(** [for (...) { ret = body(i); if (ret) return ret; }] over the given
    indices; 0 when no iteration returned. *)
Fixpoint first_error (indices : list nat) (body : nat -> M Z) : M Z :=
  match indices with
  | [] => ret 0
  | i :: rest =>
      let* r := body i in
      if negb (r =? 0) then ret r else first_error rest body
  end.

(** Modelled from the spec: the iteration macros for_each_plane_in_state
    and for_each_crtc_in_state of drm_atomic.h are not among the sources;
    the spec has one table entry per object index and lets the checker
    visit every populated entry.  The body runs for each index below the
    device's object count whose entry holds a snapshot. *)
Definition check_plane_entry (i : nat) : M Z :=
  let* e := planes_at i in
  match pe_state e with
  | None => ret 0
  | Some plane_state =>
      let* plane := deref (pe_ptr e) in
      let* w := get_world in
      let* pl := deref (dev_planes (w_dev w) !! plane) in
      let* s := load_plane_state plane_state in
      ret (drm_atomic_plane_check plane pl s)
  end.

Definition check_crtc_entry (i : nat) : M Z :=
  let* e := crtcs_at i in
  match ce_state e with
  | None => ret 0
  | Some crtc_state =>
      let* crtc := deref (ce_ptr e) in
      let* w := get_world in
      let* c := deref (dev_crtcs (w_dev w) !! crtc) in
      let* s := load_crtc_state crtc_state in
      ret (drm_atomic_crtc_check (w_dev w) c s)
  end.

(** Modelled from the spec: drm_atomic_crtc_needs_modeset of drm_atomic.h
    is not among the sources; the spec speaks of a CRTC "whose check
    indicates a mode-change requirement", which the snapshot records in its
    three change flags. *)
Definition drm_atomic_crtc_needs_modeset (state : drm_crtc_state) : bool :=
  cs_mode_changed state || cs_active_changed state || cs_connectors_changed state.

Definition check_modeset_entry (i : nat) : M Z :=
  let* e := crtcs_at i in
  match ce_state e with
  | None => ret 0
  | Some crtc_state =>
      let* s := load_crtc_state crtc_state in
      if drm_atomic_crtc_needs_modeset s then ret (- EINVAL) else ret 0
  end.

Definition drm_atomic_check_only : M Z :=
  let* config := state_config in
  let* r := first_error (seq 0 (num_total_plane config)) check_plane_entry in
  if negb (r =? 0) then ret r
  else
    let* r := first_error (seq 0 (num_crtc config)) check_crtc_entry in
    if negb (r =? 0) then ret r
    else
      let* r := match atomic_check drv with
                | Some h => run_hook h
                | None => ret 0
                end in
      if negb (r =? 0) then ret r
      else
        let* st := get_state in
        if negb (allow_modeset st) then
          let* config := state_config in
          first_error (seq 0 (num_crtc config)) check_modeset_entry
        else ret 0.

(** *** Commit *)

Definition call_atomic_commit (nonblock : bool) : M Z :=
  let* r := run_hook (atomic_commit drv nonblock) in
  let* _ := log (EvAtomicCommit nonblock r) in
  ret r.

Definition drm_atomic_commit : M Z :=
  let* _ := state_config in
  let* r := drm_atomic_check_only in
  if negb (r =? 0) then ret r
  else call_atomic_commit false.

Definition drm_atomic_nonblocking_commit : M Z :=
  let* _ := state_config in
  let* r := drm_atomic_check_only in
  if negb (r =? 0) then ret r
  else call_atomic_commit true.

(** *** The ioctl *)

(** [kzalloc] of the event and its initialisation. *)
Definition create_vblank_event (data : Z) : M (option ptr) :=
  let* ok := kzalloc in
  if negb ok then ret None
  else
    let* e := alloc in
    let* _ := modify (fun w => set_events
                (<[e := {| ev_user_data := data; ev_fence := None; ev_file_priv := false |}]>
                   (w_events w)) w) in
    ret (Some e).

Definition atomic_set_prop (obj : drm_mode_object) (prop : drm_property)
    (prop_value : Z) : M Z :=
  let* w := get_world in
  if negb (drm_property_change_valid_get drv w prop prop_value) then ret (- EINVAL)
  else
    match obj_type obj with
    | ObjConnector connector =>
        let* connector_state := drm_atomic_get_connector_state connector in
        match connector_state with
        | ErrPtr e => ret e
        | Ptr p => drm_atomic_connector_set_property connector p prop prop_value
        end
    | ObjCrtc crtc =>
        let* crtc_state := drm_atomic_get_crtc_state crtc in
        match crtc_state with
        | ErrPtr e => ret e
        | Ptr p => drm_atomic_crtc_set_property crtc p prop prop_value
        end
    | ObjPlane plane =>
        let* plane_state := drm_atomic_get_plane_state plane in
        match plane_state with
        | ErrPtr e => ret e
        | Ptr p => drm_atomic_plane_set_property plane p prop prop_value
        end
    | ObjOther => ret (- EINVAL)
    end.

Definition pl_with_fbs (fb old_fb : option drm_framebuffer) (crtc : option nat)
    (p : drm_plane) : drm_plane :=
  {| plane_base_id := plane_base_id p; plane_possible_crtcs := plane_possible_crtcs p;
     plane_state := plane_state p; plane_fb := fb; plane_old_fb := old_fb;
     plane_crtc := crtc; plane_zpos_property := plane_zpos_property p |}.

Definition dev_with_planes (l : list drm_plane) (d : drm_device) : drm_device :=
  {| dev_crtcs := dev_crtcs d; dev_planes := l; dev_connectors := dev_connectors d;
     mode_config := mode_config d; driver_atomic := driver_atomic d;
     boost_gpu := boost_gpu d |}.

Definition store_plane (i : nat) (p : drm_plane) : M unit :=
  modify (fun w => set_dev (dev_with_planes (<[i := p]> (dev_planes (w_dev w))) (w_dev w)) w).

Definition clean_old_fb_plane (plane_mask : Z) (r : Z) (i : nat) : M unit :=
  if Z.testbit plane_mask (Z.of_nat i) then
    let* w := get_world in
    let* plane := deref (dev_planes (w_dev w) !! i) in
    if r =? 0 then
      let new_fb := ps_fb (plane_state plane) in
      let* _ := match new_fb with
                | Some f => drm_framebuffer_reference f
                | None => ret tt
                end in
      let* _ := match plane_old_fb plane with
                | Some f => drm_framebuffer_unreference f
                | None => ret tt
                end in
      store_plane i (pl_with_fbs new_fb None (ps_crtc (plane_state plane)) plane)
    else
      store_plane i (pl_with_fbs (plane_fb plane) None (plane_crtc plane) plane)
  else ret tt.

Definition drm_atomic_clean_old_fb (plane_mask : Z) (r : Z) : M unit :=
  let* w := get_world in
  for_loop (length (dev_planes (w_dev w))) (clean_old_fb_plane plane_mask r).

Definition setup_out_fence (fence_state : drm_out_fence_state) (fence : Z)
    : M (Z * drm_out_fence_state) :=
  let* w := get_world in
  let new_fd := get_unused_fd_flags drv w in
  let fs := {| out_fence_ptr := out_fence_ptr fence_state;
               sync_file := sync_file fence_state; fd := new_fd |} in
  if new_fd <? 0 then ret (new_fd, fs)
  else
    let* fault := match out_fence_ptr fs with
                  | Some a => user_put a new_fd
                  | None => ret true
                  end in
    if fault then ret (- EFAULT, fs)
    else
      let* w := get_world in
      match sync_file_create drv w fence with
      | None => ret (- ENOMEM, fs)
      | Some file =>
          ret (0, {| out_fence_ptr := out_fence_ptr fs; sync_file := Some file; fd := new_fd |})
      end.

(** [for (...)] with early [return ret] and state carried from one
    iteration to the next. *)
Fixpoint first_error_acc {A} (indices : list nat) (body : nat -> A -> M (Z * A)) (a : A)
    : M (Z * A) :=
  match indices with
  | [] => ret (0, a)
  | i :: rest =>
      let* (r, a') := body i a in
      if negb (r =? 0) then ret (r, a') else first_error_acc rest body a'
  end.

(** The out-fence array: NULL or the elements, and [num_fences]. *)
Definition fence_array : Type := option (list drm_out_fence_state) * nat.

Definition prepare_crtc_entry (arg : drm_mode_atomic) (file_priv : option drm_file)
    (i : nat) (fences : fence_array) : M (Z * fence_array) :=
  let* e := crtcs_at i in
  match ce_state e with
  | None => ret (0, fences)
  | Some crtc_state =>
      let* crtc := deref (ce_ptr e) in
      let* s := load_crtc_state crtc_state in
      if negb (cs_state s) then ub
      else
        let* fence_ptr := get_out_fence_for_crtc crtc in
        let want_event := has_flag (flags arg) DRM_MODE_PAGE_FLIP_EVENT in
        let* created :=
          if want_event || bool_decide (is_Some fence_ptr) then
            let* ev := create_vblank_event (user_data arg) in
            match ev with
            | None => ret false
            | Some ev =>
                let* s := load_crtc_state crtc_state in
                let* _ := store_crtc_state crtc_state (cs_with_event (Some ev) s) in
                ret true
            end
          else ret true in
        if negb created then ret (- ENOMEM, fences)
        else
          let* reserved :=
            if want_event then
              match file_priv with
              | None => ret (inl tt)
              | Some _ =>
                  let* s := load_crtc_state crtc_state in
                  let* ev := deref (cs_event s) in
                  let* w := get_world in
                  let r := drm_event_reserve_init drv w ev in
                  if negb (r =? 0) then
                    let* _ := log (EvKfreeEvent (Some ev)) in
                    let* _ := modify (fun w => set_events (delete ev (w_events w)) w) in
                    let* _ := store_crtc_state crtc_state (cs_with_event None s) in
                    ret (inr r)
                  else
                    let* evr := deref (w_events w !! ev) in
                    let* _ := modify (fun w => set_events
                                (<[ev := {| ev_user_data := ev_user_data evr;
                                            ev_fence := ev_fence evr;
                                            ev_file_priv := true |}]> (w_events w)) w) in
                    ret (inr 0)
              end
            else ret (inr 0) in
          match reserved with
          | inl _ => ret (0, fences)                       (* continue *)
          | inr r =>
              if negb (r =? 0) then ret (r, fences)
              else
                match fence_ptr with
                | None => ret (0, fences)
                | Some fp =>
                    let '(fence_state, num_fences) := fences in
                    let* ok := krealloc in
                    if negb ok then ret (- ENOMEM, fences)
                    else
                      let old := take num_fences (default [] fence_state) in
                      let slot := {| out_fence_ptr := Some fp; sync_file := None; fd := 0 |} in
                      let f := old ++ [slot] in
                      let* w := get_world in
                      match drm_crtc_create_fence drv w crtc with
                      | None => ret (- ENOMEM, (Some f, num_fences))
                      | Some fence =>
                          let* (r, slot') := setup_out_fence slot fence in
                          let f' := old ++ [slot'] in
                          if negb (r =? 0) then
                            let* _ := fence_put fence in
                            ret (r, (Some f', S num_fences))
                          else
                            let* s := load_crtc_state crtc_state in
                            let* ev := deref (cs_event s) in
                            let* w := get_world in
                            let* evr := deref (w_events w !! ev) in
                            let* _ := modify (fun w => set_events
                                        (<[ev := {| ev_user_data := ev_user_data evr;
                                                    ev_fence := Some fence;
                                                    ev_file_priv := ev_file_priv evr |}]>
                                           (w_events w)) w) in
                            ret (0, (Some f', S num_fences))
                      end
                end
          end
  end.

Definition prepare_crtc_signaling (arg : drm_mode_atomic) (file_priv : option drm_file)
    (fences : fence_array) : M (Z * fence_array) :=
  if has_flag (flags arg) DRM_MODE_ATOMIC_TEST_ONLY then ret (0, fences)
  else
    let* config := state_config in
    first_error_acc (seq 0 (num_crtc config)) (prepare_crtc_entry arg file_priv) fences.

Definition cancel_crtc_event (i : nat) : M unit :=
  let* e := crtcs_at i in
  match ce_state e with
  | None => ret tt
  | Some crtc_state =>
      let* s := load_crtc_state crtc_state in
      match cs_event s with
      | None => ret tt
      | Some ev =>
          let* w := get_world in
          let* evr := deref (w_events w !! ev) in
          if bool_decide (is_Some (ev_fence evr)) || ev_file_priv evr then
            let* _ := log (EvEventCancelFree ev) in
            let* _ := modify (fun w => set_events (delete ev (w_events w)) w) in
            store_crtc_state crtc_state (cs_with_event None s)
          else ret tt
      end
  end.

Definition release_out_fence (fence_state : list drm_out_fence_state) (i : nat) : M unit :=
  let* f := deref (fence_state !! i) in
  let* _ := match sync_file f with
            | Some file => log (EvFput file)
            | None => ret tt
            end in
  let* _ := if 0 <=? fd f then log (EvPutUnusedFd (fd f)) else ret tt in
  match out_fence_ptr f with
  | Some a => let* _ := user_put a (-1) in ret tt
  | None => ret tt
  end.

Definition install_out_fence (fence_state : list drm_out_fence_state) (i : nat) : M unit :=
  let* f := deref (fence_state !! i) in
  let* file := deref (sync_file f) in
  log (EvFdInstall (fd f) file).

Definition complete_crtc_signaling (fences : fence_array) (install_fds : bool) : M unit :=
  let '(fence_state, num_fences) := fences in
  if install_fds then
    for_loop num_fences (install_out_fence (default [] fence_state))
  else
    let* config := state_config in
    let* _ := for_loop (num_crtc config) cancel_crtc_event in
    match fence_state with
    | None => ret tt
    | Some fs => for_loop num_fences (release_out_fence fs)
    end.

Definition user_get (addr : Z) : M (option Z) :=
  let* w := get_world in ret (get_user drv w addr).

Definition drm_mode_object_unreference (obj_id : Z) : M unit :=
  log (EvModeObjectUnreference obj_id).

(** One turn of the inner [for (j = 0; j < count_props; j++)] loop;
    the state carried along is [copied_props]. *)
Definition atomic_ioctl_prop (arg : drm_mode_atomic) (obj_id : Z) (obj : drm_mode_object)
    (j : nat) (copied_props : nat) : M (Z * nat) :=
  let* prop_id := user_get (props_ptr arg + 4 * Z.of_nat copied_props) in
  match prop_id with
  | None => let* _ := drm_mode_object_unreference obj_id in ret (- EFAULT, copied_props)
  | Some prop_id =>
      let* w := get_world in
      match drm_mode_obj_find_prop_id drv w obj prop_id with
      | None => let* _ := drm_mode_object_unreference obj_id in ret (- ENOENT, copied_props)
      | Some prop =>
          let* prop_value := user_get (prop_values_ptr arg + 8 * Z.of_nat copied_props) in
          match prop_value with
          | None =>
              let* _ := drm_mode_object_unreference obj_id in ret (- EFAULT, copied_props)
          | Some prop_value =>
              let* r := atomic_set_prop obj prop prop_value in
              if negb (r =? 0) then
                let* _ := drm_mode_object_unreference obj_id in ret (r, copied_props)
              else ret (0, S copied_props)
          end
      end
  end.

(** One turn of the outer [for (i = 0; i < arg->count_objs; i++)] loop;
    the state carried along is [copied_objs], [copied_props] and
    [plane_mask]. *)
Definition atomic_ioctl_obj (arg : drm_mode_atomic) (i : nat) (acc : nat * nat * Z)
    : M (Z * (nat * nat * Z)) :=
  let '(copied_objs, copied_props, plane_mask) := acc in
  let* obj_id := user_get (objs_ptr arg + 4 * Z.of_nat copied_objs) in
  match obj_id with
  | None => ret (- EFAULT, acc)
  | Some obj_id =>
      let* w := get_world in
      match drm_mode_object_find drv w obj_id with
      | None => ret (- ENOENT, acc)
      | Some obj =>
          if negb (obj_properties obj) then
            let* _ := drm_mode_object_unreference obj_id in ret (- ENOENT, acc)
          else
            let* count_props := user_get (count_props_ptr arg + 4 * Z.of_nat copied_objs) in
            match count_props with
            | None =>
                let* _ := drm_mode_object_unreference obj_id in ret (- EFAULT, acc)
            | Some count_props =>
                let copied_objs := S copied_objs in
                let* (r, copied_props) :=
                  first_error_acc (seq 0 (Z.to_nat count_props))
                    (atomic_ioctl_prop arg obj_id obj) copied_props in
                if negb (r =? 0) then ret (r, (copied_objs, copied_props, plane_mask))
                else
                  let* plane_mask :=
                    match obj_type obj with
                    | ObjPlane plane =>
                        if negb (count_props =? 0)
                           && negb (has_flag (flags arg) DRM_MODE_ATOMIC_TEST_ONLY) then
                          let* w := get_world in
                          let* pl := deref (dev_planes (w_dev w) !! plane) in
                          let* _ := store_plane plane
                                      (pl_with_fbs (plane_fb pl) (plane_fb pl) (plane_crtc pl) pl) in
                          ret (wrap32 (Z.lor plane_mask (drm_plane_bit plane)))
                        else ret plane_mask
                    | _ => ret plane_mask
                    end in
                  let* _ := drm_mode_object_unreference obj_id in
                  ret (0, (copied_objs, copied_props, plane_mask))
            end
      end
  end.

(** From the label [retry:] to the label [out:]: one assembly of the
    transaction and its check or commit.  Returns [ret], [plane_mask] and
    the out-fence array. *)
Definition atomic_ioctl_attempt (arg : drm_mode_atomic) (file_priv : drm_file)
    : M (Z * Z * fence_array) :=
  let* (r, acc) :=
    first_error_acc (seq 0 (Z.to_nat (count_objs arg))) (atomic_ioctl_obj arg) (O, O, 0) in
  let '(_, _, plane_mask) := acc in
  if negb (r =? 0) then ret (r, plane_mask, (None, O))
  else
    let* (r, fences) := prepare_crtc_signaling arg (Some file_priv) (None, O) in
    if negb (r =? 0) then ret (r, plane_mask, fences)
    else
      let* r :=
        if has_flag (flags arg) DRM_MODE_ATOMIC_TEST_ONLY then drm_atomic_check_only
        else if has_flag (flags arg) DRM_MODE_ATOMIC_NONBLOCK then drm_atomic_nonblocking_commit
        else drm_atomic_commit in
      ret (r, plane_mask, fences).

Definition drm_modeset_backoff : M unit := log EvBackoff.
Definition drm_modeset_drop_locks : M unit := log EvDropLocks.

(** The code from the label [out:] for a result other than [-EDEADLK]. *)
Definition atomic_ioctl_finish (arg : drm_mode_atomic) (r : Z) : M Z :=
  let* _ :=
    if negb (r =? 0) || has_flag (flags arg) DRM_MODE_ATOMIC_TEST_ONLY
    then drm_atomic_state_free true
    else ret tt in
  let* _ := drm_modeset_drop_locks in
  ret r.

(** The loop formed by [retry:] and [goto retry]; [fuel] bounds the number
    of assemblies, [None] is returned when it runs out. *)
Fixpoint atomic_ioctl_retry (fuel : nat) (arg : drm_mode_atomic) (file_priv : drm_file)
    : M (option Z) :=
  match fuel with
  | O => ret None
  | S fuel' =>
      let* (r, plane_mask, fences) := atomic_ioctl_attempt arg file_priv in
      let* _ := drm_atomic_clean_old_fb plane_mask r in
      let* _ := complete_crtc_signaling fences (r =? 0) in
      if r =? - EDEADLK then
        let* _ := drm_atomic_state_clear in
        let* _ := drm_modeset_backoff in
        atomic_ioctl_retry fuel' arg file_priv
      else
        let* r := atomic_ioctl_finish arg r in
        ret (Some r)
  end.

Definition drm_mode_atomic_ioctl (fuel : nat) (arg : drm_mode_atomic) (file_priv : drm_file)
    : M (option Z) :=
  let* w := get_world in
  let dev := w_dev w in
  if negb (driver_atomic dev) then ret (Some (- EINVAL))
  else if negb (fp_atomic file_priv) then ret (Some (- EINVAL))
  else if negb (Z.land (flags arg) (Z.lnot DRM_MODE_ATOMIC_FLAGS) =? 0) then ret (Some (- EINVAL))
  else if negb (reserved arg =? 0) then ret (Some (- EINVAL))
  else if has_flag (flags arg) DRM_MODE_PAGE_FLIP_ASYNC
          && negb (async_page_flip (mode_config dev)) then ret (Some (- EINVAL))
  else if has_flag (flags arg) DRM_MODE_ATOMIC_TEST_ONLY
          && has_flag (flags arg) DRM_MODE_PAGE_FLIP_EVENT then ret (Some (- EINVAL))
  else
    let* _ :=
      if negb (boost_gpu dev) && negb (has_flag (flags arg) DRM_MODE_ATOMIC_TEST_ONLY) then
        let* _ := log (EvBoostKick 0) in
        let* _ := log (EvBoostKick 1) in
        log (EvBoostKick 2)
      else ret tt in
    let* allocated := drm_atomic_state_alloc in
    if negb allocated then ret (Some (- ENOMEM))
    else
      let* st := get_state in
      let* _ := put_state
        (st_with_allow_modeset (has_flag (flags arg) DRM_MODE_ATOMIC_ALLOW_MODESET)
           (st_with_acquire_ctx true st)) in
      atomic_ioctl_retry fuel arg file_priv.

End Engine.

(** ** Observations used by the properties *)

(** The snapshot the transaction holds for an object, if any. *)
Definition stored (k : obj_kind) (o : nat) (w : world) : option ptr :=
  match w_state w with
  | None => None
  | Some st =>
      match k with
      | KCrtc => match crtcs st !! o with Some e => ce_state e | None => None end
      | KPlane => match planes st !! o with Some e => pe_state e | None => None end
      | KConnector => match connectors st !! o with Some e => cne_state e | None => None end
      end
  end.

(** The spec's words for the source rectangle of a plane: the 16.16
    fixed-point rectangle lies fully within the framebuffer's pixel
    dimensions. *)
Definition src_rect_inside_fb (state : drm_plane_state) (fb : drm_framebuffer) : Prop :=
  ps_src_x state + ps_src_w state <= fb_width fb * 2 ^ 16 /\
  ps_src_y state + ps_src_h state <= fb_height fb * 2 ^ 16.

(** A value of type [uint32_t]. *)
Definition is_u32 (v : Z) : Prop := 0 <= v < 2 ^ 32.

(** ** A concrete device and driver *)

Definition demo_config : drm_mode_config :=
  {| num_crtc := 2; num_total_plane := 2; num_connector := 1; async_page_flip := false;
     prop_active := 1%nat; prop_mode_id := 2%nat; degamma_lut_property := 3%nat;
     ctm_property := 4%nat; gamma_lut_property := 5%nat; prop_out_fence_ptr := 6%nat;
     prop_fb_id := 7%nat; prop_in_fence_fd := 8%nat; prop_crtc_id := 9%nat;
     prop_crtc_x := 10%nat; prop_crtc_y := 11%nat; prop_crtc_w := 12%nat;
     prop_crtc_h := 13%nat; prop_src_x := 14%nat; prop_src_y := 15%nat;
     prop_src_w := 16%nat; prop_src_h := 17%nat; rotation_property := 18%nat;
     dpms_property := 19%nat |}.

Definition demo_crtc_state (crtc : nat) (on : bool) (planes_on : Z) : drm_crtc_state :=
  {| cs_crtc := crtc; cs_enable := on; cs_active := on;
     cs_mode_changed := false; cs_active_changed := false; cs_connectors_changed := false;
     cs_color_mgmt_changed := false; cs_plane_mask := planes_on; cs_connector_mask := 0;
     cs_mode := 0;
     cs_mode_blob := if on then Some {| blob_base_id := 40; blob_length := 68; blob_data := [] |}
                     else None;
     cs_degamma_lut := None; cs_ctm := None; cs_gamma_lut := None;
     cs_event := None; cs_state := false |}.

Definition demo_fb (width height : Z) : drm_framebuffer :=
  {| fb_base_id := 50; fb_width := width; fb_height := height; fb_pixel_format := 875713112 |}.

Definition demo_plane_state (plane : nat) (crtc : option nat) (fb : option drm_framebuffer)
    (src_w src_h : Z) : drm_plane_state :=
  {| ps_plane := plane; ps_crtc := crtc; ps_fb := fb; ps_fence := None;
     ps_crtc_x := 0; ps_crtc_y := 0; ps_crtc_w := 100; ps_crtc_h := 100;
     ps_src_x := 0; ps_src_y := 0; ps_src_w := src_w; ps_src_h := src_h;
     ps_rotation := 1; ps_zpos := 0; ps_state := false |}.

Definition demo_plane (plane : nat) (crtc : option nat) : drm_plane :=
  {| plane_base_id := 30 + Z.of_nat plane; plane_possible_crtcs := 3;
     plane_state := demo_plane_state plane crtc
                      (match crtc with Some _ => Some (demo_fb 200 200) | None => None end)
                      (Z.shiftl 100 16) (Z.shiftl 100 16);
     plane_fb := None; plane_old_fb := None; plane_crtc := crtc;
     plane_zpos_property := 20%nat |}.

(** CRTC 0 is active and scans out plane 0; CRTC 1 is off; plane 1 is
    unused; the only connector is on CRTC 0. *)
Definition demo_device : drm_device :=
  {| dev_crtcs := [ {| crtc_base_id := 20; crtc_state := demo_crtc_state 0 true 1 |};
                    {| crtc_base_id := 21; crtc_state := demo_crtc_state 1 false 0 |} ];
     dev_planes := [ demo_plane 0 (Some 0%nat); demo_plane 1 None ];
     dev_connectors := [ {| connector_base_id := 10;
                            connector_state := {| cns_connector := 0; cns_crtc := Some 0%nat;
                                                  cns_state := false |} |} ];
     mode_config := demo_config; driver_atomic := true; boost_gpu := true |}.

(** A driver in the manner of the atomic helpers: duplicate copies the
    current state, nothing ever fails, check and commit accept. *)
Definition demo_driver : drm_driver :=
  {| drm_modeset_lock := fun _ _ => 0;
     crtc_atomic_duplicate_state := fun w c => crtc_state <$> dev_crtcs (w_dev w) !! c;
     plane_atomic_duplicate_state := fun w p => plane_state <$> dev_planes (w_dev w) !! p;
     connector_atomic_duplicate_state :=
       fun w c => connector_state <$> dev_connectors (w_dev w) !! c;
     crtc_atomic_set_property := fun _ => None;
     plane_atomic_set_property := fun _ => None;
     connector_atomic_set_property := fun _ => None;
     atomic_check := Some (fun w => (0, w));
     atomic_commit := fun _ w => (0, w);
     atomic_state_alloc := None;
     atomic_state_clear := None;
     atomic_state_free := None;
     kcalloc_ok := fun _ => true;
     krealloc_ok := fun _ => true;
     kzalloc_ok := fun _ => true;
     drm_property_lookup_blob := fun _ _ => None;
     drm_framebuffer_lookup := fun _ id => if id =? 50 then Some (demo_fb 200 200) else None;
     drm_crtc_find := fun _ id => if id =? 20 then Some 0%nat
                                  else if id =? 21 then Some 1%nat else None;
     drm_mode_convert_umode := fun _ => (0, 1);
     sizeof_drm_mode_modeinfo := 68;
     sizeof_drm_color_ctm := 72;
     sync_file_get_fence := fun _ fd => if 0 <=? fd then Some fd else None;
     drm_plane_check_pixel_format := fun _ _ => 0;
     put_user := fun _ _ _ => false;
     get_user := fun _ _ => None;
     drm_mode_object_find := fun _ _ => None;
     drm_mode_obj_find_prop_id := fun _ _ _ => None;
     drm_property_change_valid_get := fun _ _ _ => true;
     drm_event_reserve_init := fun _ _ => 0;
     drm_crtc_create_fence := fun _ _ => Some 7;
     get_unused_fd_flags := fun _ => 3;
     sync_file_create := fun _ _ => Some 9 |}.

(** The machine before the ioctl allocates a transaction. *)
Definition demo_idle : world :=
  {| w_dev := demo_device; w_state := None;
     w_crtc_states := ∅; w_plane_states := ∅; w_connector_states := ∅;
     w_commits := ∅; w_events := ∅; w_next := 100%nat; w_trace := [] |}.

(** The machine with a freshly allocated, empty transaction. *)
Definition demo_world : world :=
  set_state (Some {| allow_modeset := true; acquire_ctx := true; st_dev := true;
                     crtcs := replicate 2 empty_crtcs_entry;
                     planes := replicate 2 empty_planes_entry;
                     connectors := [] |}) demo_idle.

(** Plane states for the geometry examples: a source rectangle of
    100x100 pixels at the origin, on plane 0 and CRTC 0. *)
Definition demo_src_100 (fb : drm_framebuffer) : drm_plane_state :=
  demo_plane_state 0 (Some 0%nat) (Some fb) (Z.shiftl 100 16) (Z.shiftl 100 16).

(** One pixel at the origin, on a framebuffer of any size. *)
Definition demo_src_1 (fb : drm_framebuffer) : drm_plane_state :=
  demo_plane_state 0 (Some 0%nat) (Some fb) (Z.shiftl 1 16) (Z.shiftl 1 16).

(** The 100x100 source rectangle with a CRTC rectangle wider than INT_MAX. *)
Definition demo_src_100_wide_crtc (fb : drm_framebuffer) : drm_plane_state :=
  ps_with_crtc_rect 0 0 (2 ^ 31) 100 (demo_src_100 fb).

(** The machine after drm_atomic_get_crtc_state has duplicated the state
    of [crtc] into an empty entry [e]: the snapshot sits at the next free
    address, the entry names the CRTC and the snapshot, the snapshot points
    back to the transaction. *)
Definition crtc_state_added (crtc : nat) (snapshot : drm_crtc_state)
    (st : drm_atomic_state) (e : crtcs_entry) (w : world) : world :=
  {| w_dev := w_dev w;
     w_state := Some (set_crtcs
                  (<[crtc := {| ce_ptr := Some crtc; ce_state := Some (w_next w);
                                ce_commit := ce_commit e;
                                ce_out_fence_ptr := ce_out_fence_ptr e |}]> (crtcs st)) st);
     w_crtc_states := <[w_next w := cs_with_state true snapshot]>
                        (<[w_next w := snapshot]> (w_crtc_states w));
     w_plane_states := w_plane_states w;
     w_connector_states := w_connector_states w;
     w_commits := w_commits w; w_events := w_events w;
     w_next := S (w_next w);
     w_trace := w_trace w ++ [EvDuplicate KCrtc crtc (Some (w_next w))] |}.

(** The same for a plane, before the CRTC of the snapshot is acquired. *)
Definition plane_state_added (plane : nat) (snapshot : drm_plane_state)
    (st : drm_atomic_state) (w : world) : world :=
  {| w_dev := w_dev w;
     w_state := Some (set_planes
                  (<[plane := {| pe_ptr := Some plane; pe_state := Some (w_next w) |}]>
                     (planes st)) st);
     w_crtc_states := w_crtc_states w;
     w_plane_states := <[w_next w := ps_with_state true snapshot]>
                         (<[w_next w := snapshot]> (w_plane_states w));
     w_connector_states := w_connector_states w;
     w_commits := w_commits w; w_events := w_events w;
     w_next := S (w_next w);
     w_trace := w_trace w ++ [EvDuplicate KPlane plane (Some (w_next w))] |}.

(** The same for a connector; [st] is the transaction after its table was
    grown to hold the index. *)
Definition connector_state_added (connector : nat) (snapshot : drm_connector_state)
    (st : drm_atomic_state) (w : world) : world :=
  {| w_dev := w_dev w;
     w_state := Some (set_connectors
                  (<[connector := {| cne_ptr := Some connector;
                                     cne_state := Some (w_next w) |}]>
                     (connectors st)) st);
     w_crtc_states := w_crtc_states w;
     w_plane_states := w_plane_states w;
     w_connector_states := <[w_next w := cns_with_state true snapshot]>
                             (<[w_next w := snapshot]> (w_connector_states w));
     w_commits := w_commits w; w_events := w_events w;
     w_next := S (w_next w);
     w_trace := w_trace w ++ [EvDuplicate KConnector connector (Some (w_next w));
                              EvConnectorReference connector] |}.

(** The machine with one more event on its trace. *)
Definition logged (e : event) (w : world) : world := set_trace (w_trace w ++ [e]) w.

(** The transaction with its connector table grown to [alloc] entries. *)
Definition connectors_grown (alloc : nat) (st : drm_atomic_state) : drm_atomic_state :=
  set_connectors
    (connectors st ++ replicate (alloc - length (connectors st)) empty_connectors_entry) st.

(** What one get-or-create call can do to the machine, step by step: take
    a lock, allocate, be refused a duplicate, grow the connector table, or
    put a fresh snapshot into an entry that has none. *)
Inductive acquire_step : world -> world -> Prop :=
| step_lock l r w : acquire_step w (logged (EvLock l r) w)
| step_alloc ok w : acquire_step w (logged (EvAlloc ok) w)
| step_refused k o w :
    stored k o w = None -> acquire_step w (logged (EvDuplicate k o None) w)
| step_grow alloc st w :
    w_state w = Some st ->
    acquire_step w (set_state (Some (connectors_grown alloc st)) w)
| step_add_crtc crtc snapshot st e w :
    w_state w = Some st -> crtcs st !! crtc = Some e -> ce_state e = None ->
    acquire_step w (crtc_state_added crtc snapshot st e w)
| step_add_plane plane snapshot st e w :
    w_state w = Some st -> planes st !! plane = Some e -> pe_state e = None ->
    acquire_step w (plane_state_added plane snapshot st w)
| step_add_connector connector snapshot st e w :
    w_state w = Some st -> connectors st !! connector = Some e -> cne_state e = None ->
    acquire_step w (connector_state_added connector snapshot st w).

(** The tail of drm_atomic_get_connector_state, once the lock is held and
    the table [st] is long enough. *)
Definition connector_lookup_or_add (drv : drm_driver) (connector : nat) (st : drm_atomic_state) (w : world)
    : option (errptr * world) :=
  match connectors st !! connector with
  | None => None
  | Some e =>
      match cne_state e with
      | Some p => Some (Ptr p, w)
      | None =>
          match connector_atomic_duplicate_state drv w connector with
          | None => Some (ErrPtr (- ENOMEM), logged (EvDuplicate KConnector connector None) w)
          | Some snapshot =>
              let w2 := connector_state_added connector snapshot st w in
              match cns_crtc snapshot with
              | Some crtc =>
                  match drm_atomic_get_crtc_state drv crtc w2 with
                  | Some (ErrPtr err, w3) => Some (ErrPtr err, w3)
                  | Some (Ptr _, w3) => Some (Ptr (w_next w), w3)
                  | None => None
                  end
              | None => Some (Ptr (w_next w), w2)
              end
          end
      end
  end.

(** Counting on the trace: the calls of the duplicate-state hook of an
    object, and those among them that returned a snapshot. *)
Definition is_hook_call (k : obj_kind) (o : nat) (e : event) : bool :=
  match e with
  | EvDuplicate k' o' _ => bool_decide (k' = k) && bool_decide (o' = o)
  | _ => false
  end.

Definition is_snapshot (k : obj_kind) (o : nat) (e : event) : bool :=
  match e with
  | EvDuplicate k' o' (Some _) => bool_decide (k' = k) && bool_decide (o' = o)
  | _ => false
  end.

Definition hook_calls (k : obj_kind) (o : nat) (t : list event) : nat :=
  length (List.filter (is_hook_call k o) t).

Definition snapshots (k : obj_kind) (o : nat) (t : list event) : nat :=
  length (List.filter (is_snapshot k o) t).

(** A get-or-create call on an object of some kind. *)
Definition get_or_create (drv : drm_driver) (k : obj_kind) (o : nat) : M errptr :=
  match k with
  | KCrtc => drm_atomic_get_crtc_state drv o
  | KPlane => drm_atomic_get_plane_state drv o
  | KConnector => drm_atomic_get_connector_state drv o
  end.

(** A sequence of get-or-create calls on any objects, one after the other;
    the results are listed in call order. *)
Fixpoint run_gets (drv : drm_driver) (calls : list (obj_kind * nat)) : M (list errptr) :=
  match calls with
  | [] => ret []
  | (k, o) :: rest =>
      let* r := get_or_create drv k o in
      let* rs := run_gets drv rest in
      ret (r :: rs)
  end.

(** A driver whose CRTC duplicate hook finds no memory the first time it
    is called. *)
Definition flaky_driver : drm_driver :=
  {| drm_modeset_lock := drm_modeset_lock demo_driver;
     crtc_atomic_duplicate_state :=
       fun w c => if (hook_calls KCrtc c (w_trace w) =? 0)%nat then None
                  else crtc_atomic_duplicate_state demo_driver w c;
     plane_atomic_duplicate_state := plane_atomic_duplicate_state demo_driver;
     connector_atomic_duplicate_state := connector_atomic_duplicate_state demo_driver;
     crtc_atomic_set_property := crtc_atomic_set_property demo_driver;
     plane_atomic_set_property := plane_atomic_set_property demo_driver;
     connector_atomic_set_property := connector_atomic_set_property demo_driver;
     atomic_check := atomic_check demo_driver;
     atomic_commit := atomic_commit demo_driver;
     atomic_state_alloc := atomic_state_alloc demo_driver;
     atomic_state_clear := atomic_state_clear demo_driver;
     atomic_state_free := atomic_state_free demo_driver;
     kcalloc_ok := kcalloc_ok demo_driver;
     krealloc_ok := krealloc_ok demo_driver;
     kzalloc_ok := kzalloc_ok demo_driver;
     drm_property_lookup_blob := drm_property_lookup_blob demo_driver;
     drm_framebuffer_lookup := drm_framebuffer_lookup demo_driver;
     drm_crtc_find := drm_crtc_find demo_driver;
     drm_mode_convert_umode := drm_mode_convert_umode demo_driver;
     sizeof_drm_mode_modeinfo := sizeof_drm_mode_modeinfo demo_driver;
     sizeof_drm_color_ctm := sizeof_drm_color_ctm demo_driver;
     sync_file_get_fence := sync_file_get_fence demo_driver;
     drm_plane_check_pixel_format := drm_plane_check_pixel_format demo_driver;
     put_user := put_user demo_driver;
     get_user := get_user demo_driver;
     drm_mode_object_find := drm_mode_object_find demo_driver;
     drm_mode_obj_find_prop_id := drm_mode_obj_find_prop_id demo_driver;
     drm_property_change_valid_get := drm_property_change_valid_get demo_driver;
     drm_event_reserve_init := drm_event_reserve_init demo_driver;
     drm_crtc_create_fence := drm_crtc_create_fence demo_driver;
     get_unused_fd_flags := get_unused_fd_flags demo_driver;
     sync_file_create := sync_file_create demo_driver |}.

(** A driver on which every CRTC lock meets a deadlock, while plane and
    connection locks are free. *)
Definition crtc_contended_driver : drm_driver :=
  {| drm_modeset_lock := fun _ l => match l with CrtcMutex _ => - EDEADLK | _ => 0 end;
     crtc_atomic_duplicate_state := crtc_atomic_duplicate_state demo_driver;
     plane_atomic_duplicate_state := plane_atomic_duplicate_state demo_driver;
     connector_atomic_duplicate_state := connector_atomic_duplicate_state demo_driver;
     crtc_atomic_set_property := crtc_atomic_set_property demo_driver;
     plane_atomic_set_property := plane_atomic_set_property demo_driver;
     connector_atomic_set_property := connector_atomic_set_property demo_driver;
     atomic_check := atomic_check demo_driver;
     atomic_commit := atomic_commit demo_driver;
     atomic_state_alloc := atomic_state_alloc demo_driver;
     atomic_state_clear := atomic_state_clear demo_driver;
     atomic_state_free := atomic_state_free demo_driver;
     kcalloc_ok := kcalloc_ok demo_driver;
     krealloc_ok := krealloc_ok demo_driver;
     kzalloc_ok := kzalloc_ok demo_driver;
     drm_property_lookup_blob := drm_property_lookup_blob demo_driver;
     drm_framebuffer_lookup := drm_framebuffer_lookup demo_driver;
     drm_crtc_find := drm_crtc_find demo_driver;
     drm_mode_convert_umode := drm_mode_convert_umode demo_driver;
     sizeof_drm_mode_modeinfo := sizeof_drm_mode_modeinfo demo_driver;
     sizeof_drm_color_ctm := sizeof_drm_color_ctm demo_driver;
     sync_file_get_fence := sync_file_get_fence demo_driver;
     drm_plane_check_pixel_format := drm_plane_check_pixel_format demo_driver;
     put_user := put_user demo_driver;
     get_user := get_user demo_driver;
     drm_mode_object_find := drm_mode_object_find demo_driver;
     drm_mode_obj_find_prop_id := drm_mode_obj_find_prop_id demo_driver;
     drm_property_change_valid_get := drm_property_change_valid_get demo_driver;
     drm_event_reserve_init := drm_event_reserve_init demo_driver;
     drm_crtc_create_fence := drm_crtc_create_fence demo_driver;
     get_unused_fd_flags := get_unused_fd_flags demo_driver;
     sync_file_create := sync_file_create demo_driver |}.

(** A driver whose connection lock is granted until a snapshot of
    connector 0 has been duplicated, and refused with -EDEADLK from then
    on. *)
Definition relock_refusing_driver : drm_driver :=
  {| drm_modeset_lock :=
       fun w l => match l with
                  | ConnectionMutex =>
                      if (hook_calls KConnector 0 (w_trace w) =? 0)%nat then 0 else - EDEADLK
                  | _ => 0
                  end;
     crtc_atomic_duplicate_state := crtc_atomic_duplicate_state demo_driver;
     plane_atomic_duplicate_state := plane_atomic_duplicate_state demo_driver;
     connector_atomic_duplicate_state := connector_atomic_duplicate_state demo_driver;
     crtc_atomic_set_property := crtc_atomic_set_property demo_driver;
     plane_atomic_set_property := plane_atomic_set_property demo_driver;
     connector_atomic_set_property := connector_atomic_set_property demo_driver;
     atomic_check := atomic_check demo_driver;
     atomic_commit := atomic_commit demo_driver;
     atomic_state_alloc := atomic_state_alloc demo_driver;
     atomic_state_clear := atomic_state_clear demo_driver;
     atomic_state_free := atomic_state_free demo_driver;
     kcalloc_ok := kcalloc_ok demo_driver;
     krealloc_ok := krealloc_ok demo_driver;
     kzalloc_ok := kzalloc_ok demo_driver;
     drm_property_lookup_blob := drm_property_lookup_blob demo_driver;
     drm_framebuffer_lookup := drm_framebuffer_lookup demo_driver;
     drm_crtc_find := drm_crtc_find demo_driver;
     drm_mode_convert_umode := drm_mode_convert_umode demo_driver;
     sizeof_drm_mode_modeinfo := sizeof_drm_mode_modeinfo demo_driver;
     sizeof_drm_color_ctm := sizeof_drm_color_ctm demo_driver;
     sync_file_get_fence := sync_file_get_fence demo_driver;
     drm_plane_check_pixel_format := drm_plane_check_pixel_format demo_driver;
     put_user := put_user demo_driver;
     get_user := get_user demo_driver;
     drm_mode_object_find := drm_mode_object_find demo_driver;
     drm_mode_obj_find_prop_id := drm_mode_obj_find_prop_id demo_driver;
     drm_property_change_valid_get := drm_property_change_valid_get demo_driver;
     drm_event_reserve_init := drm_event_reserve_init demo_driver;
     drm_crtc_create_fence := drm_crtc_create_fence demo_driver;
     get_unused_fd_flags := get_unused_fd_flags demo_driver;
     sync_file_create := sync_file_create demo_driver |}.

(** The number of snapshots made for an object, plus one while it has
    none, never grows. *)
Definition owed (k : obj_kind) (o : nat) (w : world) : nat :=
  match stored k o w with Some _ => 0%nat | None => 1%nat end.

(** A sequence of calls that asks twice for plane 0 and for connector 0. *)
Definition demo_calls : list (obj_kind * nat) :=
  [(KPlane, 0%nat); (KCrtc, 0%nat); (KPlane, 0%nat); (KConnector, 0%nat);
   (KConnector, 0%nat)].

(** Get the state of a CRTC, clear the transaction as the ioctl does on
    -EDEADLK, and get the state of the CRTC again. *)
Definition get_clear_get (drv : drm_driver) (crtc : nat) : M (errptr * errptr) :=
  let* a := drm_atomic_get_crtc_state drv crtc in
  let* _ := drm_atomic_state_clear drv in
  let* b := drm_atomic_get_crtc_state drv crtc in
  ret (a, b).

(** The transaction after the state of the unused plane 1 was acquired:
    its snapshot lives at address 100. *)
Definition demo_plane1_state : drm_plane_state :=
  ps_with_state true (plane_state (demo_plane 1 None)).

Definition demo_world_plane1 : world :=
  set_plane_states (<[100%nat := demo_plane1_state]> ∅)
    (set_next 101%nat
       (set_state (Some {| allow_modeset := true; acquire_ctx := true; st_dev := true;
                           crtcs := replicate 2 empty_crtcs_entry;
                           planes := [empty_planes_entry;
                                      {| pe_ptr := Some 1%nat; pe_state := Some 100%nat |}];
                           connectors := [] |}) demo_idle)).

(** The same machine once the in-fence of plane 1 was set to fence 5. *)
Definition demo_world_plane1_fenced : world :=
  set_plane_states
    (<[100%nat := ps_with_fence (Some 5) demo_plane1_state]>
       (w_plane_states demo_world_plane1)) demo_world_plane1.

(** Every snapshot the tables refer to was handed out by the allocator. *)
Definition snapshots_allocated (w : world) : Prop :=
  forall k o p, stored k o w = Some p -> (p < w_next w)%nat.

(** The CRTC a plane or connector snapshot references. *)
Definition crtc_of (k : obj_kind) (p : ptr) (w : world) : option nat :=
  match k with
  | KCrtc => None
  | KPlane => match w_plane_states w !! p with Some s => ps_crtc s | None => None end
  | KConnector => match w_connector_states w !! p with Some s => cns_crtc s | None => None end
  end.

(** The linking invariant of a transaction: the CRTC referenced by a plane
    or connector snapshot of the transaction has its own snapshot in the
    transaction. *)
Definition linked (w : world) : Prop :=
  forall k o p c, stored k o w = Some p -> crtc_of k p w = Some c ->
                  is_Some (stored KCrtc c w).

(** The same, but for one plane or connector whose CRTC is still to be
    acquired. *)
Definition linked_except (k0 : obj_kind) (o0 : nat) (w : world) : Prop :=
  forall k o p c, (k, o) <> (k0, o0) -> stored k o w = Some p -> crtc_of k p w = Some c ->
                  is_Some (stored KCrtc c w).

(** A computation keeps a relation between the machine before and after
    it, whenever it has a result. *)
Definition preserves (R : world -> world -> Prop) {A} (m : M A) : Prop :=
  forall w a w', m w = Some (a, w') -> R w w'.

(** The trace is the same. *)
Definition same_trace (w w' : world) : Prop := w_trace w' = w_trace w.

(** The device, with the committed state of its objects, is the same. *)
Definition same_device (w w' : world) : Prop := w_dev w' = w_dev w.

(** The flags of the calls made to the commit hook. *)
Definition commit_calls (t : list event) : list bool :=
  flat_map (fun e => match e with EvAtomicCommit nonblock _ => [nonblock] | _ => [] end) t.

(** drm_atomic_check_only, called [n] times in a row; the results are
    listed in call order. *)
Fixpoint check_times (drv : drm_driver) (n : nat) : M (list Z) :=
  match n with
  | O => ret []
  | S n' =>
      let* r := drm_atomic_check_only drv in
      let* rs := check_times drv n' in
      ret (r :: rs)
  end.

(** The same transaction, but the snapshot of plane 1 names CRTC 0 and no
    framebuffer: the plane check rejects it. *)
Definition demo_world_plane1_bad : world :=
  set_plane_states
    (<[100%nat := ps_with_crtc (Some 0%nat) demo_plane1_state]>
       (w_plane_states demo_world_plane1)) demo_world_plane1.

(** No snapshot is held by two entries of a table. *)
Definition snapshots_distinct (w : world) : Prop :=
  forall k o o' p, stored k o w = Some p -> stored k o' w = Some p -> o = o'.

(** The plane-membership mask in the snapshot the transaction holds for a
    CRTC. *)
Definition plane_mask_of (crtc : nat) (w : world) : option Z :=
  match stored KCrtc crtc w with
  | Some q => cs_plane_mask <$> w_crtc_states w !! q
  | None => None
  end.

(** Membership of a plane in a mask. *)
Definition mask_has (m : Z) (plane : nat) : bool := Z.testbit m (Z.of_nat plane).

(** The machine after the plane mask of the snapshot at [q] was rewritten. *)
Definition mask_stored (q : ptr) (cs : drm_crtc_state) (m : Z) (w : world) : world :=
  set_crtc_states (<[q := cs_with_plane_mask m cs]> (w_crtc_states w)) w.

(** What drm_atomic_state_default_clear makes of an entry: a populated
    entry (one whose object pointer is set) is emptied, the out-fence
    pointer of a CRTC entry apart; an entry without object pointer is
    skipped. *)
Definition cleared_crtcs_entry (e : crtcs_entry) : crtcs_entry :=
  match ce_ptr e with
  | Some _ => {| ce_ptr := None; ce_state := None; ce_commit := None;
                 ce_out_fence_ptr := ce_out_fence_ptr e |}
  | None => e
  end.
Definition cleared_planes_entry (e : planes_entry) : planes_entry :=
  match pe_ptr e with
  | Some _ => {| pe_ptr := None; pe_state := None |}
  | None => e
  end.
Definition cleared_connectors_entry (e : connectors_entry) : connectors_entry :=
  match cne_ptr e with
  | Some _ => {| cne_ptr := None; cne_state := None |}
  | None => e
  end.

(** A snapshot in somebody's hands: the kind and index of its object, and
    its address. *)
Definition holding : Type := obj_kind * nat * option ptr.

(** The snapshots of the populated entries, in table order. *)
Definition held_crtcs (l : list crtcs_entry) : list holding :=
  flat_map (fun e => match ce_ptr e with
                     | Some c => [(KCrtc, c, ce_state e)]
                     | None => []
                     end) l.
Definition held_planes (l : list planes_entry) : list holding :=
  flat_map (fun e => match pe_ptr e with
                     | Some p => [(KPlane, p, pe_state e)]
                     | None => []
                     end) l.
Definition held_connectors (l : list connectors_entry) : list holding :=
  flat_map (fun e => match cne_ptr e with
                     | Some c => [(KConnector, c, cne_state e)]
                     | None => []
                     end) l.

(** The snapshots a transaction holds: those of its populated entries, in
    the order in which clear visits them. *)
Definition held (w : world) : list holding :=
  match w_state w with
  | Some st => held_connectors (connectors st) ++ held_crtcs (crtcs st)
               ++ held_planes (planes st)
  | None => []
  end.

(** The snapshots handed to the destroy hooks, and those returned by the
    duplicate hooks, on a trace. *)
Definition destroyed (t : list event) : list holding :=
  flat_map (fun e => match e with EvDestroy k o s => [(k, o, s)] | _ => [] end) t.
Definition duplicated (t : list event) : list holding :=
  flat_map (fun e => match e with
                     | EvDuplicate k o (Some p) => [(k, o, Some p)]
                     | _ => []
                     end) t.

(** What clear relies on: the transaction is initialised, its CRTC and
    plane tables have the device's object counts, an entry without object
    pointer holds nothing, and the commit records of the populated CRTC
    entries are live and not shared between entries. *)
Record clear_ready (w : world) (st : drm_atomic_state) : Prop := {
  cr_state : w_state w = Some st;
  cr_dev : st_dev st = true;
  cr_crtcs : length (crtcs st) = num_crtc (mode_config (w_dev w));
  cr_planes : length (planes st) = num_total_plane (mode_config (w_dev w));
  cr_crtc_paired : forall i e, crtcs st !! i = Some e -> ce_ptr e = None ->
                               ce_state e = None /\ ce_commit e = None;
  cr_plane_paired : forall i e, planes st !! i = Some e -> pe_ptr e = None ->
                                pe_state e = None;
  cr_connector_paired : forall i e, connectors st !! i = Some e -> cne_ptr e = None ->
                                    cne_state e = None;
  cr_commit_live : forall i e c, crtcs st !! i = Some e -> is_Some (ce_ptr e) ->
                                 ce_commit e = Some c ->
                                 exists cc, w_commits w !! c = Some cc /\ cc_ref cc <> O;
  cr_commit_own : forall i j e e' c, crtcs st !! i = Some e -> crtcs st !! j = Some e' ->
                                     is_Some (ce_ptr e) -> is_Some (ce_ptr e') ->
                                     ce_commit e = Some c -> ce_commit e' = Some c -> i = j
}.

(** The transaction with its three tables replaced. *)
Definition with_tables (cn : list connectors_entry) (cs : list crtcs_entry)
    (ps : list planes_entry) (st : drm_atomic_state) : drm_atomic_state :=
  set_planes ps (set_crtcs cs (set_connectors cn st)).

(** A table of which the first [i] entries have been through [f]. *)
Definition done_upto {E} (f : E -> E) (i : nat) (l : list E) : list E :=
  map f (take i l) ++ drop i l.

(** The loop of clear over the connectors of the transaction [st0] of the
    machine [w0], after [i] turns: the first [i] entries are cleared, their
    snapshots were handed to the destroy hook in table order, nothing was
    duplicated. *)
Definition connectors_cleared (w0 : world) (st0 : drm_atomic_state) (i : nat) (w : world)
    : Prop :=
  w_dev w = w_dev w0 /\
  w_state w = Some (with_tables
                      (done_upto cleared_connectors_entry i (connectors st0))
                      (crtcs st0) (planes st0) st0) /\
  w_commits w = w_commits w0 /\
  exists delta, w_trace w = w_trace w0 ++ delta /\
                destroyed delta = held_connectors (take i (connectors st0)) /\
                duplicated delta = [].

(** The loop of clear over the CRTCs, after [i] turns: the connectors are
    done, the first [i] CRTC entries are cleared, the commit records of the
    entries still to come are live. *)
Definition crtcs_cleared (w0 : world) (st0 : drm_atomic_state) (i : nat) (w : world)
    : Prop :=
  w_dev w = w_dev w0 /\
  w_state w = Some (with_tables
                      (map cleared_connectors_entry (connectors st0))
                      (done_upto cleared_crtcs_entry i (crtcs st0)) (planes st0) st0) /\
  (forall j e c, (i <= j)%nat -> crtcs st0 !! j = Some e -> is_Some (ce_ptr e) ->
                 ce_commit e = Some c ->
                 exists cc, w_commits w !! c = Some cc /\ cc_ref cc <> O) /\
  exists delta, w_trace w = w_trace w0 ++ delta /\
                destroyed delta = held_connectors (connectors st0)
                                  ++ held_crtcs (take i (crtcs st0)) /\
                duplicated delta = [].

(** The loop of clear over the planes, after [i] turns. *)
Definition planes_cleared (w0 : world) (st0 : drm_atomic_state) (i : nat) (w : world)
    : Prop :=
  w_dev w = w_dev w0 /\
  w_state w = Some (with_tables
                      (map cleared_connectors_entry (connectors st0))
                      (map cleared_crtcs_entry (crtcs st0))
                      (done_upto cleared_planes_entry i (planes st0)) st0) /\
  exists delta, w_trace w = w_trace w0 ++ delta /\
                destroyed delta = held_connectors (connectors st0)
                                  ++ held_crtcs (crtcs st0)
                                  ++ held_planes (take i (planes st0)) /\
                duplicated delta = [].

(** In every entry the object pointer and the snapshot are set together. *)
Definition tight (w : world) : Prop :=
  forall st, w_state w = Some st ->
    (forall i e, crtcs st !! i = Some e -> (ce_ptr e = None <-> ce_state e = None)) /\
    (forall i e, planes st !! i = Some e -> (pe_ptr e = None <-> pe_state e = None)) /\
    (forall i e, connectors st !! i = Some e -> (cne_ptr e = None <-> cne_state e = None)).

(** The snapshots duplicated so far are those destroyed so far and those
    the transaction holds. *)
Definition balanced (w : world) : Prop :=
  Permutation (duplicated (w_trace w)) (destroyed (w_trace w) ++ held w).

(** The machine after the calls of [demo_calls] on the fresh transaction:
    plane 0, CRTC 0 and connector 0 have their snapshots. *)
Definition demo_world_populated : world :=
  Eval vm_compute in
    match run_gets demo_driver demo_calls demo_world with
    | Some (_, w) => w
    | None => demo_world
    end.

(** The same, with a pending commit record (one reference, a completion
    event) in the entry of CRTC 0. *)
Definition demo_world_committing : world :=
  set_commits (<[7%nat := {| cc_ref := 1; cc_event := Some 8%nat |}]> ∅)
    (set_events (<[8%nat := {| ev_user_data := 0; ev_fence := None; ev_file_priv := false |}]> ∅)
       (set_state
          (match w_state demo_world_populated with
           | Some st =>
               Some (set_crtcs
                       (<[0%nat := {| ce_ptr := Some 0%nat; ce_state := Some 101%nat;
                                      ce_commit := Some 7%nat;
                                      ce_out_fence_ptr := None |}]> (crtcs st)) st)
           | None => None
           end) demo_world_populated)).

(** One assembly of the transaction with the clean-up that follows it:
    the code of drm_mode_atomic_ioctl from the label [retry:] to the test
    [ret == -EDEADLK]. *)
Definition atomic_ioctl_round (drv : drm_driver) (arg : drm_mode_atomic)
    (file_priv : drm_file) : M Z :=
  let* (r, plane_mask, fences) := atomic_ioctl_attempt drv arg file_priv in
  let* _ := drm_atomic_clean_old_fb plane_mask r in
  let* _ := complete_crtc_signaling drv fences (r =? 0) in
  ret r.

(** The events of a restart: a clear of the transaction, a back-off of
    the lock context. *)
Definition is_clear (e : event) : bool :=
  match e with EvStateClear => true | _ => false end.
Definition is_backoff (e : event) : bool :=
  match e with EvBackoff => true | _ => false end.
Definition is_restart (e : event) : bool := is_clear e || is_backoff e.

(** Between two machines no event selected by [p] happened. *)
Definition silent (p : event -> bool) (w w' : world) : Prop :=
  List.filter p (w_trace w') = List.filter p (w_trace w).

(** The number of back-offs on a trace. *)
Definition backoffs (t : list event) : nat := length (List.filter is_backoff t).

(** A driver whose lock primitive reports a deadlock until the lock
    context has backed off once, with a user memory that names one object,
    plane 0, and one property of it, CRTC_X = 5. *)
Definition contended_driver : drm_driver :=
  {| drm_modeset_lock := fun w _ => if (backoffs (w_trace w) =? 0)%nat then - EDEADLK else 0;
     crtc_atomic_duplicate_state := crtc_atomic_duplicate_state demo_driver;
     plane_atomic_duplicate_state := plane_atomic_duplicate_state demo_driver;
     connector_atomic_duplicate_state := connector_atomic_duplicate_state demo_driver;
     crtc_atomic_set_property := crtc_atomic_set_property demo_driver;
     plane_atomic_set_property := plane_atomic_set_property demo_driver;
     connector_atomic_set_property := connector_atomic_set_property demo_driver;
     atomic_check := atomic_check demo_driver;
     atomic_commit := atomic_commit demo_driver;
     atomic_state_alloc := atomic_state_alloc demo_driver;
     atomic_state_clear := atomic_state_clear demo_driver;
     atomic_state_free := atomic_state_free demo_driver;
     kcalloc_ok := kcalloc_ok demo_driver;
     krealloc_ok := krealloc_ok demo_driver;
     kzalloc_ok := kzalloc_ok demo_driver;
     drm_property_lookup_blob := drm_property_lookup_blob demo_driver;
     drm_framebuffer_lookup := drm_framebuffer_lookup demo_driver;
     drm_crtc_find := drm_crtc_find demo_driver;
     drm_mode_convert_umode := drm_mode_convert_umode demo_driver;
     sizeof_drm_mode_modeinfo := sizeof_drm_mode_modeinfo demo_driver;
     sizeof_drm_color_ctm := sizeof_drm_color_ctm demo_driver;
     sync_file_get_fence := sync_file_get_fence demo_driver;
     drm_plane_check_pixel_format := drm_plane_check_pixel_format demo_driver;
     put_user := put_user demo_driver;
     get_user := fun _ addr => if addr =? 1000 then Some 30
                               else if addr =? 2000 then Some 1
                               else if addr =? 3000 then Some 10
                               else if addr =? 4000 then Some 5 else None;
     drm_mode_object_find :=
       fun _ id => if id =? 30 then Some {| obj_type := ObjPlane 0; obj_properties := true |}
                   else None;
     drm_mode_obj_find_prop_id := fun _ _ id => Some (Z.to_nat id);
     drm_property_change_valid_get := drm_property_change_valid_get demo_driver;
     drm_event_reserve_init := drm_event_reserve_init demo_driver;
     drm_crtc_create_fence := drm_crtc_create_fence demo_driver;
     get_unused_fd_flags := get_unused_fd_flags demo_driver;
     sync_file_create := sync_file_create demo_driver |}.

(** A blocking commit of one object. *)
Definition demo_arg : drm_mode_atomic :=
  {| flags := 0; count_objs := 1; objs_ptr := 1000; count_props_ptr := 2000;
     props_ptr := 3000; prop_values_ptr := 4000; reserved := 0; user_data := 0 |}.

Definition demo_file : drm_file := {| fp_atomic := true |}.

(** The release of the transaction by drm_atomic_state_free. *)
Definition is_free (e : event) : bool :=
  match e with EvStateFree => true | _ => false end.

(** A call of the driver's atomic_commit hook. *)
Definition is_commit (e : event) : bool :=
  match e with EvAtomicCommit _ _ => true | _ => false end.

(** A lock acquisition that was refused: drm_modeset_lock returned an
    error. *)
Definition is_refusal (e : event) : bool :=
  match e with EvLock _ r => negb (r =? 0) | _ => false end.

(** What a run from [w] to [w'] that ended with the code [r] met at its
    locks: none was refused, or exactly one was, and [r] is the error it
    was refused with. *)
Definition refusal_outcome (r : Z) (w w' : world) : Prop :=
  silent is_refusal w w' \/
  exists l, r <> 0 /\
    List.filter is_refusal (w_trace w')
    = List.filter is_refusal (w_trace w) ++ [EvLock l r].

(** [PTR_ERR_OR_ZERO]: the error code of a pointer-or-error. *)
Definition PTR_ERR_OR_ZERO (p : errptr) : Z :=
  match p with Ptr _ => 0 | ErrPtr e => e end.

(** A computation hands the error of a refused lock to its caller: every
    run of it has the outcome above for the code [code] reads off its
    result. *)
Definition propagates {A} (code : A -> Z) (m : M A) : Prop :=
  forall w a w', m w = Some (a, w') -> refusal_outcome (code a) w w'.


(** ** Further observations and examples *)

(** The lock a get-or-create call on an object takes. *)
Definition lock_of (k : obj_kind) (o : nat) : modeset_lock_id :=
  match k with
  | KCrtc => CrtcMutex o
  | KPlane => PlaneMutex o
  | KConnector => ConnectionMutex
  end.

(** ** Reading properties back *)

(** Conversion of an [int64_t] to the [uint64_t] with the same bits. *)
Definition I642U64 (v : Z) : Z := wrap64 v.

(** The optional get-property extensions of the driver objects
    ([funcs->atomic_get_property]) and the field [connector->dpms], which
    drm_atomic.c only reads.  A get hook receives the state through a
    pointer to const; it returns its code and what it stores in [*val], if
    anything. *)
Record drm_getters := {
  crtc_atomic_get_property :
    nat -> option (drm_crtc_state -> drm_property -> Z * option Z);
  plane_atomic_get_property :
    nat -> option (drm_plane_state -> drm_property -> Z * option Z);
  connector_atomic_get_property :
    nat -> option (drm_connector_state -> drm_property -> Z * option Z);
  connector_dpms : nat -> Z
}.

Section Getters.

Variable g : drm_getters.

(** [(blob) ? blob->base.id : 0] *)
Definition blob_id_or_0 (b : option drm_property_blob) : Z :=
  match b with Some blob => blob_base_id blob | None => 0 end.

(** [(state->crtc) ? state->crtc->base.id : 0] *)
Definition crtc_id_or_0 (c : option nat) : M Z :=
  match c with
  | Some crtc =>
      let* w := get_world in
      let* cr := deref (dev_crtcs (w_dev w) !! crtc) in
      ret (crtc_base_id cr)
  | None => ret 0
  end.

(** The getters return the code and the value stored in [*val], if one
    was stored. *)
Definition drm_atomic_crtc_get_property (crtc : nat) (state : drm_crtc_state)
    (property : drm_property) : M (Z * option Z) :=
  let* w := get_world in
  let config := mode_config (w_dev w) in
  if decide (property = prop_active config) then
    ret (0, Some (if cs_active state then 1 else 0))
  else if decide (property = prop_mode_id config) then
    ret (0, Some (blob_id_or_0 (cs_mode_blob state)))
  else if decide (property = degamma_lut_property config) then
    ret (0, Some (blob_id_or_0 (cs_degamma_lut state)))
  else if decide (property = ctm_property config) then
    ret (0, Some (blob_id_or_0 (cs_ctm state)))
  else if decide (property = gamma_lut_property config) then
    ret (0, Some (blob_id_or_0 (cs_gamma_lut state)))
  else if decide (property = prop_out_fence_ptr config) then
    ret (0, Some 0)
  else
    match crtc_atomic_get_property g crtc with
    | Some h => ret (h state property)
    | None => ret (- EINVAL, None)
    end.

Definition drm_atomic_plane_get_property (plane : nat) (state : drm_plane_state)
    (property : drm_property) : M (Z * option Z) :=
  let* w := get_world in
  let config := mode_config (w_dev w) in
  let* pl := deref (dev_planes (w_dev w) !! plane) in
  if decide (property = prop_fb_id config) then
    ret (0, Some (match ps_fb state with Some fb => fb_base_id fb | None => 0 end))
  else if decide (property = prop_in_fence_fd config) then
    ret (0, Some (wrap64 (-1)))
  else if decide (property = prop_crtc_id config) then
    let* id := crtc_id_or_0 (ps_crtc state) in ret (0, Some id)
  else if decide (property = prop_crtc_x config) then
    ret (0, Some (I642U64 (ps_crtc_x state)))
  else if decide (property = prop_crtc_y config) then
    ret (0, Some (I642U64 (ps_crtc_y state)))
  else if decide (property = prop_crtc_w config) then
    ret (0, Some (ps_crtc_w state))
  else if decide (property = prop_crtc_h config) then
    ret (0, Some (ps_crtc_h state))
  else if decide (property = prop_src_x config) then
    ret (0, Some (ps_src_x state))
  else if decide (property = prop_src_y config) then
    ret (0, Some (ps_src_y state))
  else if decide (property = prop_src_w config) then
    ret (0, Some (ps_src_w state))
  else if decide (property = prop_src_h config) then
    ret (0, Some (ps_src_h state))
  else if decide (property = rotation_property config) then
    ret (0, Some (ps_rotation state))
  else if decide (property = plane_zpos_property pl) then
    ret (0, Some (ps_zpos state))
  else
    match plane_atomic_get_property g plane with
    | Some h => ret (h state property)
    | None => ret (- EINVAL, None)
    end.

Definition drm_atomic_connector_get_property (connector : nat)
    (state : drm_connector_state) (property : drm_property) : M (Z * option Z) :=
  let* w := get_world in
  let config := mode_config (w_dev w) in
  if decide (property = prop_crtc_id config) then
    let* id := crtc_id_or_0 (cns_crtc state) in ret (0, Some id)
  else if decide (property = dpms_property config) then
    ret (0, Some (connector_dpms g connector))
  else
    match connector_atomic_get_property g connector with
    | Some h => ret (h state property)
    | None => ret (- EINVAL, None)
    end.

(** [drm_atomic_get_property(obj, property, val)]: the value is read from
    the current state of the object ([connector->state] and the like). *)
Definition drm_atomic_get_property (obj : drm_mode_object) (property : drm_property)
    : M (Z * option Z) :=
  let* w := get_world in
  match obj_type obj with
  | ObjConnector connector =>
      let* c := deref (dev_connectors (w_dev w) !! connector) in
      drm_atomic_connector_get_property connector (connector_state c) property
  | ObjCrtc crtc =>
      let* c := deref (dev_crtcs (w_dev w) !! crtc) in
      drm_atomic_crtc_get_property crtc (crtc_state c) property
  | ObjPlane plane =>
      let* p := deref (dev_planes (w_dev w) !! plane) in
      drm_atomic_plane_get_property plane (plane_state p) property
  | ObjOther => ret (- EINVAL, None)
  end.

End Getters.

(** The core properties of a plane, in the order in which the property
    functions compare them. *)
Definition plane_core_props (config : drm_mode_config) (pl : drm_plane)
    : list drm_property :=
  [prop_fb_id config; prop_in_fence_fd config; prop_crtc_id config;
   prop_crtc_x config; prop_crtc_y config; prop_crtc_w config; prop_crtc_h config;
   prop_src_x config; prop_src_y config; prop_src_w config; prop_src_h config;
   rotation_property config; plane_zpos_property pl].

(** Those that hold a number: the CRTC and source rectangles, the rotation
    and the z position. *)
Definition plane_scalar_props (config : drm_mode_config) (pl : drm_plane)
    : list drm_property :=
  drop 3 (plane_core_props config pl).

(** What a plane snapshot keeps of a value written to a scalar property:
    the CRTC position is an [int32_t] read back through [I642U64], the
    others are [uint32_t]. *)
Definition plane_scalar_kept (config : drm_mode_config) (property : drm_property)
    (val : Z) : Z :=
  if decide (property = prop_crtc_x config) then I642U64 (to_s32 (U642I64 val))
  else if decide (property = prop_crtc_y config) then I642U64 (to_s32 (U642I64 val))
  else wrap32 val.

(** The core properties of a CRTC. *)
Definition crtc_core_props (config : drm_mode_config) : list drm_property :=
  [prop_active config; prop_mode_id config; degamma_lut_property config;
   ctm_property config; gamma_lut_property config; prop_out_fence_ptr config].

(** A driver without get-property extensions. *)
Definition demo_getters : drm_getters :=
  {| crtc_atomic_get_property := fun _ => None;
     plane_atomic_get_property := fun _ => None;
     connector_atomic_get_property := fun _ => None;
     connector_dpms := fun _ => 0 |}.

(** A value that a scalar plane property holds without loss: a [uint32_t],
    or for the CRTC position the [uint64_t] image of an [int32_t]. *)
Definition plane_scalar_fits (config : drm_mode_config) (property : drm_property)
    (val : Z) : Prop :=
  if decide (property = prop_crtc_x config \/ property = prop_crtc_y config)
  then exists v, - 2 ^ 31 <= v < 2 ^ 31 /\ val = wrap64 v
  else 0 <= val < 2 ^ 32.

(** ** Reference counting, as seen on the trace *)

(** The references to the blob [id] taken minus those dropped. *)
Definition blob_refs (id : Z) (t : list event) : Z :=
  fold_right (fun e n => match e with
                         | EvBlobReference b => if b =? id then n + 1 else n
                         | EvBlobUnreference b => if b =? id then n - 1 else n
                         | _ => n
                         end) 0 t.

(** Whether a blob member holds the blob [id]. *)
Definition holds_blob (id : Z) (b : option drm_property_blob) : Z :=
  match b with
  | Some blob => if blob_base_id blob =? id then 1 else 0
  | None => 0
  end.

(** The references to the blob [id] a CRTC snapshot holds through its
    four blob members. *)
Definition crtc_blobs_held (id : Z) (s : drm_crtc_state) : Z :=
  holds_blob id (cs_mode_blob s) + holds_blob id (cs_degamma_lut s)
  + holds_blob id (cs_ctm s) + holds_blob id (cs_gamma_lut s).

(** The same for framebuffers and the fb member of a plane snapshot. *)
Definition fb_refs (id : Z) (t : list event) : Z :=
  fold_right (fun e n => match e with
                         | EvFramebufferReference b => if b =? id then n + 1 else n
                         | EvFramebufferUnreference b => if b =? id then n - 1 else n
                         | _ => n
                         end) 0 t.

Definition holds_fb (id : Z) (f : option drm_framebuffer) : Z :=
  match f with
  | Some fb => if fb_base_id fb =? id then 1 else 0
  | None => 0
  end.

(** The same for connectors and the CRTC link of a connector snapshot. *)
Definition connector_refs (c : nat) (t : list event) : Z :=
  fold_right (fun e n => match e with
                         | EvConnectorReference b => if (b =? c)%nat then n + 1 else n
                         | EvConnectorUnreference b => if (b =? c)%nat then n - 1 else n
                         | _ => n
                         end) 0 t.

(** A blob of the size of a mode, for the examples. *)
Definition demo_mode_blob : drm_property_blob :=
  {| blob_base_id := 41; blob_length := 68; blob_data := [] |}.

(** A driver that knows the blob 41. *)
Definition blob_driver : drm_driver :=
  {| drm_modeset_lock := drm_modeset_lock demo_driver;
     crtc_atomic_duplicate_state := crtc_atomic_duplicate_state demo_driver;
     plane_atomic_duplicate_state := plane_atomic_duplicate_state demo_driver;
     connector_atomic_duplicate_state := connector_atomic_duplicate_state demo_driver;
     crtc_atomic_set_property := crtc_atomic_set_property demo_driver;
     plane_atomic_set_property := plane_atomic_set_property demo_driver;
     connector_atomic_set_property := connector_atomic_set_property demo_driver;
     atomic_check := atomic_check demo_driver;
     atomic_commit := atomic_commit demo_driver;
     atomic_state_alloc := atomic_state_alloc demo_driver;
     atomic_state_clear := atomic_state_clear demo_driver;
     atomic_state_free := atomic_state_free demo_driver;
     kcalloc_ok := kcalloc_ok demo_driver;
     krealloc_ok := krealloc_ok demo_driver;
     kzalloc_ok := kzalloc_ok demo_driver;
     drm_property_lookup_blob := fun _ id => if id =? 41 then Some demo_mode_blob else None;
     drm_framebuffer_lookup := drm_framebuffer_lookup demo_driver;
     drm_crtc_find := drm_crtc_find demo_driver;
     drm_mode_convert_umode := drm_mode_convert_umode demo_driver;
     sizeof_drm_mode_modeinfo := sizeof_drm_mode_modeinfo demo_driver;
     sizeof_drm_color_ctm := sizeof_drm_color_ctm demo_driver;
     sync_file_get_fence := sync_file_get_fence demo_driver;
     drm_plane_check_pixel_format := drm_plane_check_pixel_format demo_driver;
     put_user := put_user demo_driver;
     get_user := get_user demo_driver;
     drm_mode_object_find := drm_mode_object_find demo_driver;
     drm_mode_obj_find_prop_id := drm_mode_obj_find_prop_id demo_driver;
     drm_property_change_valid_get := drm_property_change_valid_get demo_driver;
     drm_event_reserve_init := drm_event_reserve_init demo_driver;
     drm_crtc_create_fence := drm_crtc_create_fence demo_driver;
     get_unused_fd_flags := get_unused_fd_flags demo_driver;
     sync_file_create := sync_file_create demo_driver |}.

(** The machine after the state of CRTC 0 was acquired: its snapshot
    lives at address 100. *)
Definition demo_world_crtc0 : world :=
  Eval vm_compute in
    match drm_atomic_get_crtc_state demo_driver 0 demo_world with
    | Some (_, w) => set_trace [] w
    | None => demo_world
    end.

(** The events a get-or-create call on a CRTC logs: lock attempts and
    calls of the duplicate hook. *)
Definition is_lock_or_duplicate (e : event) : bool :=
  match e with
  | EvLock _ _ => true
  | EvDuplicate _ _ _ => true
  | _ => false
  end.

(** [f 0 + ... + f (n - 1)] *)
Fixpoint sum_upto (n : nat) (f : nat -> Z) : Z :=
  match n with
  | O => 0
  | S n' => sum_upto n' f + f n'
  end.

(** What a successful drm_atomic_clean_old_fb owes the framebuffer [id]
    for plane [i]: the reference of the new framebuffer less that of the
    old one, for a plane of the mask. *)
Definition clean_old_fb_gain (id : Z) (plane_mask : Z) (l : list drm_plane) (i : nat) : Z :=
  match l !! i with
  | Some plane =>
      if Z.testbit plane_mask (Z.of_nat i)
      then holds_fb id (ps_fb (plane_state plane)) - holds_fb id (plane_old_fb plane)
      else 0
  | None => 0
  end.

(** Whether a connector snapshot holds a reference to the connector [c]:
    a snapshot of [c] that is linked to a CRTC does. *)
Definition holds_connector (c : nat) (s : drm_connector_state) : Z :=
  match cns_crtc s with
  | Some _ => if (cns_connector s =? c)%nat then 1 else 0
  | None => 0
  end.

(** ** Adding the objects a CRTC affects *)

(** [for (...)] over [indices] whose body may [return]: the body yields
    [Some r] to return [r] from the function, [None] to go on. *)
Fixpoint for_each_return (indices : list nat) (body : nat -> M (option Z)) : M (option Z) :=
  match indices with
  | [] => ret None
  | i :: rest =>
      let* r := body i in
      match r with
      | Some _ => ret r
      | None => for_each_return rest body
      end
  end.

(** One turn of the loop over the connectors of the device. *)
Definition add_affected_connector (drv : drm_driver) (crtc : nat) (i : nat)
    : M (option Z) :=
  let* w := get_world in
  let* connector := deref (dev_connectors (w_dev w) !! i) in
  if decide (cns_crtc (connector_state connector) = Some crtc) then
    let* conn_state := drm_atomic_get_connector_state drv i in
    match conn_state with
    | ErrPtr e => ret (Some e)
    | Ptr _ => ret None
    end
  else ret None.

Definition drm_atomic_add_affected_connectors (drv : drm_driver) (crtc : nat) : M Z :=
  let* _ := state_config in
  let* r := modeset_lock drv ConnectionMutex in
  if negb (r =? 0) then ret r
  else
    let* w := get_world in
    let* r := for_each_return (seq 0 (length (dev_connectors (w_dev w))))
                (add_affected_connector drv crtc) in
    ret (default 0 r).

(** One turn of the loop over the planes of the device; the planes
    outside the mask are skipped. *)
Definition add_affected_plane (drv : drm_driver) (plane_mask : Z) (i : nat)
    : M (option Z) :=
  if Z.testbit plane_mask (Z.of_nat i) then
    let* plane_state := drm_atomic_get_plane_state drv i in
    match plane_state with
    | ErrPtr e => ret (Some e)
    | Ptr _ => ret None
    end
  else ret None.

(** The WARN_ON reads the entry of the CRTC and only warns. *)
Definition drm_atomic_add_affected_planes (drv : drm_driver) (crtc : nat) : M Z :=
  let* _ := drm_atomic_get_existing_crtc_state crtc in
  let* w := get_world in
  let* c := deref (dev_crtcs (w_dev w) !! crtc) in
  let* r := for_each_return (seq 0 (length (dev_planes (w_dev w))))
              (add_affected_plane drv (cs_plane_mask (crtc_state c))) in
  ret (default 0 r).

(** The rule the two WARN_ON tests of drm_atomic_crtc_check enforce: a
    CRTC snapshot is enabled exactly when it has a mode blob. *)
Definition mode_consistent (s : drm_crtc_state) : Prop :=
  cs_enable s = bool_decide (is_Some (cs_mode_blob s)).

(** The out-fence array is within bounds: [num_fences] slots exist. *)
Definition fences_in_bounds (fences : fence_array) : Prop :=
  match fences with
  | (None, n) => n = 0%nat
  | (Some fs, n) => (n <= length fs)%nat
  end.

(** Every counted slot is ready to be installed: it has a sync file and a
    file descriptor that is not negative. *)
Definition fences_ready (fences : fence_array) : Prop :=
  fences_in_bounds fences /\
  forall fs i f, fst fences = Some fs -> (i < snd fences)%nat -> fs !! i = Some f ->
                 is_Some (sync_file f) /\ 0 <= fd f.

Definition is_fd_install (e : event) : bool :=
  match e with EvFdInstall _ _ => true | _ => false end.

(** The populated transaction with an out-fence pointer set for CRTC 0. *)
Definition demo_world_out_fence : world :=
  set_state
    (match w_state demo_world_populated with
     | Some st =>
         Some (set_crtcs
                 (<[0%nat := {| ce_ptr := Some 0%nat; ce_state := Some 101%nat;
                                ce_commit := None;
                                ce_out_fence_ptr := Some 5000 |}]> (crtcs st)) st)
     | None => None
     end) demo_world_populated.

(** Every snapshot the transaction holds in [w] it still holds in [w']. *)
Definition keeps (w w' : world) : Prop :=
  forall k o p, stored k o w = Some p -> stored k o w' = Some p.

(** ** Properties *)

(** *** The CRTC check and completion events (C8) *)

Section CrtcCheck.

Variables (dev : drm_device) (crtc : drm_crtc) (state : drm_crtc_state).
Hypothesis Hevent : is_Some (cs_event state).

Lemma crtc_check_off_stays_off :
  cs_active state = false -> cs_active (crtc_state crtc) = false ->
  drm_atomic_crtc_check dev crtc state = - EINVAL.
Proof.
  intros Hnew Hold. unfold drm_atomic_crtc_check.
  rewrite Hnew, Hold. simpl.
  rewrite (bool_decide_eq_true_2 _ Hevent). simpl.
  repeat match goal with |- context [if ?b then _ else _] => destruct b end; reflexivity.
Qed.

Lemma crtc_check_event_ignored_when_active :
  cs_active state = true ->
  drm_atomic_crtc_check dev crtc state
  = drm_atomic_crtc_check dev crtc (cs_with_event None state).
Proof.
  intros Hnew. unfold drm_atomic_crtc_check. simpl.
  rewrite Hnew. simpl. rewrite !andb_false_r. reflexivity.
Qed.

Lemma crtc_check_switch_on :
  cs_active state = true -> cs_enable state = true -> is_Some (cs_mode_blob state) ->
  drm_atomic_crtc_check dev crtc state = 0.
Proof.
  intros Hnew Hen Hblob. unfold drm_atomic_crtc_check.
  rewrite Hnew, Hen. simpl.
  rewrite (bool_decide_eq_true_2 _ Hblob). simpl.
  rewrite !andb_false_r. reflexivity.
Qed.

End CrtcCheck.

(** C8.  A CRTC state that carries a completion event is rejected with
    -EINVAL (InvalidUsage) when the CRTC is inactive in its current state
    and in the new state.  When the new state is active the event plays no
    part in the verdict: the check returns what it returns for the same
    state without the event, and it succeeds for a CRTC that is switched on
    (enabled, with its mode blob), whatever the current state is. *)
Theorem crtc_check_completion_event (dev : drm_device) (crtc : drm_crtc)
    (state : drm_crtc_state) :
  is_Some (cs_event state) ->
  (cs_active state = false -> cs_active (crtc_state crtc) = false ->
   drm_atomic_crtc_check dev crtc state = - EINVAL) /\
  (cs_active state = true ->
   drm_atomic_crtc_check dev crtc state
   = drm_atomic_crtc_check dev crtc (cs_with_event None state)) /\
  (cs_active (crtc_state crtc) = false -> cs_active state = true ->
   cs_enable state = true -> is_Some (cs_mode_blob state) ->
   drm_atomic_crtc_check dev crtc state = 0).
Proof.
  intros Hevent. split; [|split].
  - apply crtc_check_off_stays_off; assumption.
  - apply crtc_check_event_ignored_when_active.
  - intros _. apply crtc_check_switch_on.
Qed.

Lemma crtc_check_completion_event_witness :
  drm_atomic_crtc_check demo_device
    {| crtc_base_id := 21; crtc_state := demo_crtc_state 1 false 0 |}
    (cs_with_event (Some 5%nat) (demo_crtc_state 1 false 0)) = - EINVAL /\
  drm_atomic_crtc_check demo_device
    {| crtc_base_id := 21; crtc_state := demo_crtc_state 1 false 0 |}
    (cs_with_event (Some 5%nat) (demo_crtc_state 1 true 0)) = 0.
Proof.
  split.
  - apply (crtc_check_completion_event demo_device
             {| crtc_base_id := 21; crtc_state := demo_crtc_state 1 false 0 |}
             (cs_with_event (Some 5%nat) (demo_crtc_state 1 false 0)));
      [ eexists; reflexivity | reflexivity | reflexivity ].
  - apply (crtc_check_completion_event demo_device
             {| crtc_base_id := 21; crtc_state := demo_crtc_state 1 false 0 |}
             (cs_with_event (Some 5%nat) (demo_crtc_state 1 true 0)));
      [ eexists; reflexivity | reflexivity | reflexivity | reflexivity
      | eexists; reflexivity ].
Defined.

(** *** Reasoning about computations *)

Lemma bind_Some {A B} (m : M A) (k : A -> M B) w b w' :
  bind m k w = Some (b, w') <-> exists a w1, m w = Some (a, w1) /\ k a w1 = Some (b, w').
Proof.
  unfold bind. split.
  - destruct (m w) as [[a w1]|]; [eauto | discriminate].
  - intros (a & w1 & -> & Hk). exact Hk.
Qed.

Lemma bind_eq {A B} (m : M A) (k : A -> M B) w a w1 :
  m w = Some (a, w1) -> bind m k w = k a w1.
Proof. unfold bind. intros ->. reflexivity. Qed.

Lemma ret_Some {A} (a b : A) w w' : ret a w = Some (b, w') <-> a = b /\ w = w'.
Proof. unfold ret. split; [intros [= -> ->] | intros [-> ->]]; auto. Qed.

Lemma deref_Some {A} (o : option A) w a w' :
  deref o w = Some (a, w') <-> o = Some a /\ w = w'.
Proof.
  destruct o; simpl; unfold ret, ub; split; intros H.
  - injection H as -> ->. auto.
  - destruct H as [[= ->] ->]. reflexivity.
  - discriminate.
  - destruct H as [[=] _].
Qed.

(** Peels the head computation off a run that is known to succeed. *)
Ltac mstep H :=
  match type of H with
  | bind _ _ _ = Some _ =>
      let a := fresh "a" in let w1 := fresh "w" in
      let H1 := fresh "H" in
      apply bind_Some in H; destruct H as (a & w1 & H1 & H)
  | ret _ _ = Some _ => apply ret_Some in H; destruct H as [? ?]; subst
  | deref _ _ = Some _ => apply deref_Some in H; destruct H as [? ?]; subst
  | get_world _ = Some _ => unfold get_world in H; injection H as ? ?; subst
  | modify _ _ = Some _ => unfold modify in H; injection H as ? ?; subst
  | ub _ = Some _ => discriminate H
  | None = Some _ => discriminate H
  end.

(** *** The in-fence property of a plane (C9) *)

Section InFence.

Variable drv : drm_driver.
Variables (w : world) (plane : nat) (pl : drm_plane) (state : ptr) (s : drm_plane_state).
Variable property : drm_property.

Hypothesis Hplane : dev_planes (w_dev w) !! plane = Some pl.
Hypothesis Hstate : w_plane_states w !! state = Some s.
Hypothesis Hprop : property = prop_in_fence_fd (mode_config (w_dev w)).
Hypothesis Hnot_fb : property <> prop_fb_id (mode_config (w_dev w)).

Lemma in_fence_dispatch val :
  drm_atomic_plane_set_property drv plane state property val w
  = if bool_decide (is_Some (ps_fence s)) then Some (- EINVAL, w)
    else if U642I64 val =? -1 then Some (0, w)
    else match sync_file_get_fence drv w (to_s32 val) with
         | Some fence =>
             Some (0, set_plane_states
                        (<[state := ps_with_fence (Some fence) s]> (w_plane_states w)) w)
         | None => Some (- EINVAL, w)
         end.
Proof.
  unfold drm_atomic_plane_set_property, bind, get_world, load_plane_state, bind, get_world.
  rewrite Hplane. simpl. rewrite Hstate. simpl.
  destruct (decide (property = prop_fb_id (mode_config (w_dev w)))) as [E|_];
    [contradiction|].
  destruct (decide (property = prop_in_fence_fd (mode_config (w_dev w)))) as [_|N];
    [|contradiction].
  destruct (bool_decide (is_Some (ps_fence s))); [reflexivity|].
  destruct (U642I64 val =? -1); [reflexivity|].
  destruct (sync_file_get_fence drv w (to_s32 val)); [|reflexivity].
  unfold store_plane_state, load_plane_state, bind, get_world, modify, ret.
  rewrite Hstate. reflexivity.
Qed.

End InFence.

(** C9.  On a plane state whose fence is already set, setting the
    in-fence property fails with -EINVAL (InvalidUsage) for every value and
    changes nothing.  On a plane state without a fence, the value -1 ("no
    fence") returns 0 and changes nothing.  And once a set with another
    value has succeeded, a second set on the same plane state fails with
    -EINVAL: the property is set-once. *)
Theorem in_fence_fd_set_once (drv : drm_driver) (w : world) (plane : nat) (pl : drm_plane)
    (state : ptr) (s : drm_plane_state) (property : drm_property) :
  dev_planes (w_dev w) !! plane = Some pl ->
  w_plane_states w !! state = Some s ->
  property = prop_in_fence_fd (mode_config (w_dev w)) ->
  property <> prop_fb_id (mode_config (w_dev w)) ->
  (is_Some (ps_fence s) ->
   forall val, drm_atomic_plane_set_property drv plane state property val w
               = Some (- EINVAL, w)) /\
  (ps_fence s = None ->
   forall val, U642I64 val = -1 ->
               drm_atomic_plane_set_property drv plane state property val w = Some (0, w)) /\
  (forall val w1,
     U642I64 val <> -1 ->
     drm_atomic_plane_set_property drv plane state property val w = Some (0, w1) ->
     forall val', drm_atomic_plane_set_property drv plane state property val' w1
                  = Some (- EINVAL, w1)).
Proof.
  intros Hplane Hstate Hprop Hnot_fb. split; [|split].
  - intros Hset val. rewrite (in_fence_dispatch drv w plane pl state s property); auto.
    rewrite (bool_decide_eq_true_2 _ Hset). reflexivity.
  - intros Hunset val Hval. rewrite (in_fence_dispatch drv w plane pl state s property); auto.
    rewrite bool_decide_eq_false_2 by (rewrite Hunset; intros [? [=]]).
    rewrite Hval. reflexivity.
  - intros val w1 Hval Hfirst val'.
    rewrite (in_fence_dispatch drv w plane pl state s property) in Hfirst; auto.
    destruct (bool_decide (is_Some (ps_fence s))); [discriminate|].
    destruct (U642I64 val =? -1) eqn:E; [apply Z.eqb_eq in E; contradiction|].
    destruct (sync_file_get_fence drv w (to_s32 val)) as [fence|]; [|discriminate].
    injection Hfirst as <-.
    rewrite (in_fence_dispatch drv _ plane pl state (ps_with_fence (Some fence) s) property);
      simpl; auto.
    apply lookup_insert_eq.
Qed.

Lemma in_fence_fd_set_once_witness :
  drm_atomic_plane_set_property demo_driver 1 100%nat 8%nat (2 ^ 64 - 1) demo_world_plane1
  = Some (0, demo_world_plane1) /\
  drm_atomic_plane_set_property demo_driver 1 100%nat 8%nat 6 demo_world_plane1_fenced
  = Some (- EINVAL, demo_world_plane1_fenced).
Proof.
  destruct (in_fence_fd_set_once demo_driver demo_world_plane1 1%nat (demo_plane 1 None)
              100%nat demo_plane1_state 8%nat)
    as (_ & Hsentinel & Hsecond);
    [ reflexivity | reflexivity | reflexivity | discriminate | ].
  split.
  - apply Hsentinel; reflexivity.
  - apply (Hsecond 5); [ discriminate | reflexivity ].
Defined.

(** *** Source geometry of a plane (C7) *)

Lemma wrap32_small v : 0 <= v < 2 ^ 32 -> wrap32 v = v.
Proof. intros H. unfold wrap32. apply Z.mod_small. exact H. Qed.

Lemma fb_dim_shift v : 0 <= v < 2 ^ 16 -> wrap32 (Z.shiftl v 16) = v * 2 ^ 16.
Proof.
  intros H. rewrite Z.shiftl_mul_pow2 by lia. apply wrap32_small. lia.
Qed.

Section SourceGeometry.

Variables (state : drm_plane_state) (fb : drm_framebuffer).
Hypothesis Hx : is_u32 (ps_src_x state).
Hypothesis Hy : is_u32 (ps_src_y state).
Hypothesis Hw : is_u32 (ps_src_w state).
Hypothesis Hh : is_u32 (ps_src_h state).
Hypothesis Hfbw : 0 <= fb_width fb < 2 ^ 16.
Hypothesis Hfbh : 0 <= fb_height fb < 2 ^ 16.

Lemma src_coords_outside_fb_false :
  src_coords_outside_fb state fb = false <-> src_rect_inside_fb state fb.
Proof.
  unfold src_coords_outside_fb, src_rect_inside_fb, is_u32 in *.
  rewrite !fb_dim_shift by assumption.
  rewrite !orb_false_iff, !Z.ltb_ge.
  split.
  - intros [[[H1 H2] H3] H4].
    rewrite wrap32_small in H2 by lia. rewrite wrap32_small in H4 by lia. lia.
  - intros [H1 H2].
    assert (ps_src_w state <= fb_width fb * 2 ^ 16) by lia.
    assert (ps_src_h state <= fb_height fb * 2 ^ 16) by lia.
    rewrite !wrap32_small by lia. lia.
Qed.

Lemma src_coords_outside_fb_true :
  src_coords_outside_fb state fb = true <-> ~ src_rect_inside_fb state fb.
Proof.
  rewrite <- src_coords_outside_fb_false.
  destruct (src_coords_outside_fb state fb); split; intros; congruence.
Qed.

End SourceGeometry.

(** What drm_atomic_plane_check returns once the checks before the source
    geometry have passed. *)
Lemma plane_check_after_range (drv : drm_driver) (index : nat) (plane : drm_plane)
    (state : drm_plane_state) (crtc : nat) (fb : drm_framebuffer) :
  ps_crtc state = Some crtc -> ps_fb state = Some fb ->
  Z.land (plane_possible_crtcs plane) (drm_crtc_mask crtc) <> 0 ->
  drm_plane_check_pixel_format drv index (fb_pixel_format fb) = 0 ->
  ps_crtc_w state <= INT_MAX -> ps_crtc_x state <= INT_MAX - to_s32 (ps_crtc_w state) ->
  ps_crtc_h state <= INT_MAX -> ps_crtc_y state <= INT_MAX - to_s32 (ps_crtc_h state) ->
  drm_atomic_plane_check drv index plane state
  = if src_coords_outside_fb state fb then - ENOSPC
    else if plane_switching_crtc plane state then - EINVAL else 0.
Proof.
  intros Hc Hf Hposs Hfmt H1 H2 H3 H4. unfold drm_atomic_plane_check.
  rewrite Hc, Hf.
  rewrite (proj2 (Z.eqb_neq _ _) Hposs). rewrite Hfmt. simpl.
  rewrite (proj2 (Z.ltb_ge _ _) H1), (proj2 (Z.ltb_ge _ _) H2),
          (proj2 (Z.ltb_ge _ _) H3), (proj2 (Z.ltb_ge _ _) H4).
  reflexivity.
Qed.

(** C7, as the code has it.  Take an enabled plane state (CRTC and
    framebuffer set) that passes the checks placed before the source
    geometry (the plane may be used on the CRTC, the pixel format is
    supported, the CRTC rectangle is in range), with a framebuffer narrower
    and lower than 65536 pixels, so that its size fits 16.16 fixed point in
    32 bits.  Then the plane check returns -ENOSPC (OutOfBounds) exactly
    when the source rectangle does not lie within the framebuffer; a
    rectangle that lies within passes the source-geometry check, and the
    verdict is then that of the last check (0, or -EINVAL for a plane
    switched directly between two CRTCs). *)
Theorem plane_check_source_geometry (drv : drm_driver) (index : nat) (plane : drm_plane)
    (state : drm_plane_state) (crtc : nat) (fb : drm_framebuffer) :
  ps_crtc state = Some crtc -> ps_fb state = Some fb ->
  Z.land (plane_possible_crtcs plane) (drm_crtc_mask crtc) <> 0 ->
  drm_plane_check_pixel_format drv index (fb_pixel_format fb) = 0 ->
  ps_crtc_w state <= INT_MAX -> ps_crtc_x state <= INT_MAX - to_s32 (ps_crtc_w state) ->
  ps_crtc_h state <= INT_MAX -> ps_crtc_y state <= INT_MAX - to_s32 (ps_crtc_h state) ->
  is_u32 (ps_src_x state) -> is_u32 (ps_src_y state) ->
  is_u32 (ps_src_w state) -> is_u32 (ps_src_h state) ->
  0 <= fb_width fb < 2 ^ 16 -> 0 <= fb_height fb < 2 ^ 16 ->
  (drm_atomic_plane_check drv index plane state = - ENOSPC
   <-> ~ src_rect_inside_fb state fb) /\
  (src_rect_inside_fb state fb ->
   drm_atomic_plane_check drv index plane state
   = if plane_switching_crtc plane state then - EINVAL else 0).
Proof.
  intros Hc Hf Hposs Hfmt H1 H2 H3 H4 Hx Hy Hw Hh Hfbw Hfbh.
  rewrite (plane_check_after_range drv index plane state crtc fb) by assumption.
  pose proof (src_coords_outside_fb_true state fb Hx Hy Hw Hh Hfbw Hfbh) as Ht.
  pose proof (src_coords_outside_fb_false state fb Hx Hy Hw Hh Hfbw Hfbh) as Hfl.
  destruct (src_coords_outside_fb state fb).
  - split.
    + split; intros _; [apply Ht|]; reflexivity.
    + intros Hin. exfalso. apply (proj1 Ht); [reflexivity | exact Hin].
  - split.
    + split.
      * intros E. exfalso.
        destruct (plane_switching_crtc plane state); unfold EINVAL, ENOSPC in E; lia.
      * intros Hout. exfalso. apply Hout, Hfl. reflexivity.
    + intros _. reflexivity.
Qed.

Lemma plane_check_source_geometry_witness :
  drm_atomic_plane_check demo_driver 0 (demo_plane 0 (Some 0%nat))
    (demo_src_100 (demo_fb 50 50)) = - ENOSPC /\
  drm_atomic_plane_check demo_driver 0 (demo_plane 0 (Some 0%nat))
    (demo_src_100 (demo_fb 200 200)) = 0.
Proof.
  split.
  - apply (plane_check_source_geometry demo_driver 0 (demo_plane 0 (Some 0%nat))
             (demo_src_100 (demo_fb 50 50)) 0%nat (demo_fb 50 50));
      try reflexivity; try (vm_compute; intuition congruence).
  - etransitivity.
    + apply (plane_check_source_geometry demo_driver 0 (demo_plane 0 (Some 0%nat))
               (demo_src_100 (demo_fb 200 200)) 0%nat (demo_fb 200 200));
        try reflexivity; try (vm_compute; intuition congruence).
    + reflexivity.
Defined.

(** C7 as stated fails in two ways.  A source rectangle of one pixel lies
    within a framebuffer of 65536x65536 pixels, yet it is rejected with
    -ENOSPC: [fb->width << 16] wraps to 0 in 32 bits.  And a source
    rectangle outside its framebuffer is rejected with -ERANGE, not with
    -ENOSPC, when the CRTC rectangle is out of range: that check comes
    first. *)
Lemma plane_check_source_geometry_counterexample :
  (src_rect_inside_fb (demo_src_1 (demo_fb 65536 65536)) (demo_fb 65536 65536) /\
   drm_atomic_plane_check demo_driver 0 (demo_plane 0 (Some 0%nat))
     (demo_src_1 (demo_fb 65536 65536)) = - ENOSPC) /\
  (~ src_rect_inside_fb (demo_src_100_wide_crtc (demo_fb 50 50)) (demo_fb 50 50) /\
   drm_atomic_plane_check demo_driver 0 (demo_plane 0 (Some 0%nat))
     (demo_src_100_wide_crtc (demo_fb 50 50)) = - ERANGE).
Proof.
  split; split.
  - vm_compute. split; discriminate.
  - reflexivity.
  - vm_compute. intros [H _]. apply H. reflexivity.
  - reflexivity.
Qed.

(** *** Get-or-create, case by case *)

Section GetOrCreate.

Variable drv : drm_driver.

Lemma get_crtc_state_eq crtc w :
  drm_atomic_get_crtc_state drv crtc w =
  match w_state w with
  | None => None
  | Some st =>
      match crtcs st !! crtc with
      | None => None
      | Some e =>
          match ce_state e with
          | Some p => Some (Ptr p, w)
          | None =>
              let r := drm_modeset_lock drv w (CrtcMutex crtc) in
              let w1 := logged (EvLock (CrtcMutex crtc) r) w in
              if negb (r =? 0) then Some (ErrPtr r, w1)
              else
                match crtc_atomic_duplicate_state drv w1 crtc with
                | None => Some (ErrPtr (- ENOMEM), logged (EvDuplicate KCrtc crtc None) w1)
                | Some snapshot =>
                    Some (Ptr (w_next w), crtc_state_added crtc snapshot st e w1)
                end
          end
      end
  end.
Proof.
  unfold drm_atomic_get_crtc_state, drm_atomic_get_existing_crtc_state, crtcs_at,
    get_state, bind, get_world, deref, ret.
  destruct (w_state w) as [st|] eqn:Hst; [|reflexivity]. simpl.
  destruct (crtcs st !! crtc) as [e|] eqn:He; [|reflexivity]. simpl.
  destruct (ce_state e) as [p|]; [reflexivity|].
  unfold modeset_lock, bind, get_world, log, modify, ret. simpl.
  destruct (negb (drm_modeset_lock drv w (CrtcMutex crtc) =? 0)); [reflexivity|].
  unfold logged.
  destruct (crtc_atomic_duplicate_state drv _ crtc) as [snapshot|]; [|reflexivity].
  unfold alloc, crtcs_store, store_crtc_state, load_crtc_state, put_state,
    get_state, bind, get_world, deref, modify, ret. simpl.
  repeat (simpl; rewrite ?Hst, ?He, ?lookup_insert_eq). reflexivity.
Qed.

Lemma get_plane_state_eq plane w :
  drm_atomic_get_plane_state drv plane w =
  match w_state w with
  | None => None
  | Some st =>
      match planes st !! plane with
      | None => None
      | Some e =>
          match pe_state e with
          | Some p => Some (Ptr p, w)
          | None =>
              let r := drm_modeset_lock drv w (PlaneMutex plane) in
              let w1 := logged (EvLock (PlaneMutex plane) r) w in
              if negb (r =? 0) then Some (ErrPtr r, w1)
              else
                match plane_atomic_duplicate_state drv w1 plane with
                | None => Some (ErrPtr (- ENOMEM), logged (EvDuplicate KPlane plane None) w1)
                | Some snapshot =>
                    let w2 := plane_state_added plane snapshot st w1 in
                    match ps_crtc snapshot with
                    | Some crtc =>
                        match drm_atomic_get_crtc_state drv crtc w2 with
                        | Some (ErrPtr err, w3) => Some (ErrPtr err, w3)
                        | Some (Ptr _, w3) => Some (Ptr (w_next w), w3)
                        | None => None
                        end
                    | None => Some (Ptr (w_next w), w2)
                    end
                end
          end
      end
  end.
Proof.
  unfold drm_atomic_get_plane_state, drm_atomic_get_existing_plane_state, planes_at,
    get_state, bind, get_world, deref, ret.
  destruct (w_state w) as [st|] eqn:Hst; [|reflexivity]. simpl.
  destruct (planes st !! plane) as [e|] eqn:He; [|reflexivity]. simpl.
  destruct (pe_state e) as [p|]; [reflexivity|].
  unfold modeset_lock, bind, get_world, log, modify, ret. simpl.
  destruct (negb (drm_modeset_lock drv w (PlaneMutex plane) =? 0)); [reflexivity|].
  unfold logged.
  destruct (plane_atomic_duplicate_state drv _ plane) as [snapshot|]; [|reflexivity].
  unfold alloc, planes_store, store_plane_state, load_plane_state, put_state,
    get_state, bind, get_world, deref, modify, ret.
  repeat (simpl; rewrite ?Hst, ?He, ?lookup_insert_eq).
  unfold plane_state_added. simpl.
  destruct (ps_crtc snapshot) as [crtc|]; [|reflexivity].
  match goal with
  | |- match ?a with _ => _ end = match ?b with _ => _ end =>
      replace a with b by reflexivity; destruct b as [[[?|?] ?]|]; reflexivity
  end.
Qed.

Local Ltac connector_tail Hst c :=
  unfold connector_lookup_or_add, connectors_at, get_state, bind, get_world, deref, ret,
    logged, connectors_grown;
  repeat (simpl; rewrite ?Hst);
  let He := fresh "He" in
  let e := fresh "e" in
  let snapshot := fresh "snapshot" in
  match goal with
  | |- context [@lookup _ connectors_entry _ _ c ?l] =>
      destruct (@lookup _ connectors_entry _ _ c l) as [e|] eqn:He; [|reflexivity]
  end;
  simpl; destruct (cne_state e); [reflexivity|];
  match goal with
  | |- context [connector_atomic_duplicate_state ?d ?w0 c] =>
      destruct (connector_atomic_duplicate_state d w0 c) as [snapshot|]; [|reflexivity]
  end;
  unfold alloc, connectors_store, store_connector_state, load_connector_state,
    put_state, drm_connector_reference, log, get_state, bind, get_world, deref,
    modify, ret;
  repeat (simpl; rewrite ?Hst, ?He, ?lookup_insert_eq);
  unfold connector_state_added, logged; simpl; rewrite <- ?app_assoc; simpl;
  destruct (cns_crtc snapshot); [|reflexivity];
  match goal with
  | |- match ?a with _ => _ end = match ?b with _ => _ end =>
      replace a with b by reflexivity; destruct b as [[[?|?] ?]|]; reflexivity
  end.

Lemma get_connector_state_eq connector w :
  drm_atomic_get_connector_state drv connector w =
  let r := drm_modeset_lock drv w ConnectionMutex in
  let w1 := logged (EvLock ConnectionMutex r) w in
  if negb (r =? 0) then Some (ErrPtr r, w1)
  else
    match w_state w with
    | None => None
    | Some st =>
        if (length (connectors st) <=? connector)%nat then
          let ok := krealloc_ok drv w1 in
          let w2 := logged (EvAlloc ok) w1 in
          if negb ok then Some (ErrPtr (- ENOMEM), w2)
          else
            let st' := connectors_grown
                         (Nat.max (connector + 1) (num_connector (mode_config (w_dev w)))) st in
            connector_lookup_or_add drv connector st' (set_state (Some st') w2)
        else connector_lookup_or_add drv connector st w1
    end.
Proof.
  unfold drm_atomic_get_connector_state, modeset_lock, bind, get_world, log, modify, ret.
  simpl.
  destruct (negb (drm_modeset_lock drv w ConnectionMutex =? 0)); [reflexivity|].
  unfold get_state, bind, get_world, deref, ret. simpl.
  destruct (w_state w) as [st|] eqn:Hst; [|reflexivity]. simpl.
  destruct (length (connectors st) <=? connector)%nat.
  - unfold krealloc, bind, get_world, log, modify, ret. simpl.
    destruct (negb (krealloc_ok drv _)); [reflexivity|].
    unfold put_state, modify, bind. simpl.
    connector_tail Hst connector.
  - simpl. connector_tail Hst connector.
Qed.

End GetOrCreate.

(** *** What the steps of a get-or-create call preserve *)

Lemma stored_logged k o e w : stored k o (logged e w) = stored k o w.
Proof. reflexivity. Qed.

Lemma stored_step k o p w w' :
  acquire_step w w' -> stored k o w = Some p -> stored k o w' = Some p.
Proof.
  intros Hstep. destruct Hstep as
    [l r w | ok w | k' o' w Hnone | alloc st w Hst
    | crtc snapshot st e w Hst He Hnone
    | plane snapshot st e w Hst He Hnone
    | connector snapshot st e w Hst He Hnone]; try (intros H; exact H).
  - unfold stored. rewrite Hst. simpl. destruct k; auto.
    destruct (connectors st !! o) as [e|] eqn:He; [|discriminate].
    intros H. rewrite lookup_app_l by (eapply lookup_lt_Some; eauto).
    rewrite He. exact H.
  - unfold stored. rewrite Hst. simpl. destruct k; auto.
    destruct (decide (o = crtc)) as [->|Hne].
    + rewrite He, Hnone. discriminate.
    + rewrite list_lookup_insert_ne by auto. auto.
  - unfold stored. rewrite Hst. simpl. destruct k; auto.
    destruct (decide (o = plane)) as [->|Hne].
    + rewrite He, Hnone. discriminate.
    + rewrite list_lookup_insert_ne by auto. auto.
  - unfold stored. rewrite Hst. simpl. destruct k; auto.
    destruct (decide (o = connector)) as [->|Hne].
    + rewrite He, Hnone. discriminate.
    + rewrite list_lookup_insert_ne by auto. auto.
Qed.

Lemma stored_steps k o p w w' :
  rtc acquire_step w w' -> stored k o w = Some p -> stored k o w' = Some p.
Proof. induction 1; eauto using stored_step. Qed.

Lemma hook_calls_app k o t1 t2 :
  hook_calls k o (t1 ++ t2) = (hook_calls k o t1 + hook_calls k o t2)%nat.
Proof. unfold hook_calls. rewrite List.filter_app, length_app. reflexivity. Qed.

Lemma snapshots_app k o t1 t2 :
  snapshots k o (t1 ++ t2) = (snapshots k o t1 + snapshots k o t2)%nat.
Proof. unfold snapshots. rewrite List.filter_app, length_app. reflexivity. Qed.

Lemma is_hook_call_true k o k' o' r :
  is_hook_call k o (EvDuplicate k' o' r) = true -> k' = k /\ o' = o.
Proof.
  simpl. intros H. apply andb_true_iff in H as [H1 H2].
  apply bool_decide_eq_true in H1. apply bool_decide_eq_true in H2. auto.
Qed.

(** Once an object has its snapshot, no step calls its duplicate hook. *)
Lemma hook_calls_step k o p w w' :
  acquire_step w w' -> stored k o w = Some p ->
  hook_calls k o (w_trace w') = hook_calls k o (w_trace w).
Proof.
  intros Hstep Hs. destruct Hstep as
    [l r w | ok w | k' o' w Hnone | alloc st w Hst
    | crtc snapshot st e w Hst He Hnone
    | plane snapshot st e w Hst He Hnone
    | connector snapshot st e w Hst He Hnone]; simpl; try reflexivity;
    rewrite ?hook_calls_app; unfold hook_calls at 2; simpl; try lia.
  - destruct (bool_decide (k' = k) && bool_decide (o' = o)) eqn:E; [|simpl; lia].
    apply (is_hook_call_true k o k' o' None) in E as [-> ->]. congruence.
  - destruct (bool_decide (KCrtc = k) && bool_decide (crtc = o)) eqn:E; [|simpl; lia].
    apply (is_hook_call_true k o KCrtc crtc None) in E as [<- <-].
    unfold stored in Hs. rewrite Hst, He, Hnone in Hs. discriminate.
  - destruct (bool_decide (KPlane = k) && bool_decide (plane = o)) eqn:E; [|simpl; lia].
    apply (is_hook_call_true k o KPlane plane None) in E as [<- <-].
    unfold stored in Hs. rewrite Hst, He, Hnone in Hs. discriminate.
  - destruct (bool_decide (KConnector = k) && bool_decide (connector = o)) eqn:E;
      [|simpl; lia].
    apply (is_hook_call_true k o KConnector connector None) in E as [<- <-].
    unfold stored in Hs. rewrite Hst, He, Hnone in Hs. discriminate.
Qed.

Lemma hook_calls_steps k o p w w' :
  rtc acquire_step w w' -> stored k o w = Some p ->
  hook_calls k o (w_trace w') = hook_calls k o (w_trace w).
Proof.
  induction 1 as [|w1 w2 w3 Hs Hr IH]; [reflexivity|]. intros Hp.
  rewrite IH by eauto using stored_step. eauto using hook_calls_step.
Qed.

Lemma snapshots_step k o w w' :
  acquire_step w w' ->
  (snapshots k o (w_trace w') + owed k o w' <= snapshots k o (w_trace w) + owed k o w)%nat.
Proof.
  intros Hstep.
  destruct (stored k o w) as [p|] eqn:Hs.
  - assert (Hs' := stored_step k o p w w' Hstep Hs).
    unfold owed. rewrite Hs, Hs'.
    assert (snapshots k o (w_trace w') = snapshots k o (w_trace w)); [|lia].
    destruct Hstep as
      [l r w | ok w | k' o' w Hnone | alloc st w Hst
      | crtc snapshot st e w Hst He Hnone
      | plane snapshot st e w Hst He Hnone
      | connector snapshot st e w Hst He Hnone]; simpl; try reflexivity;
      rewrite ?snapshots_app; unfold snapshots at 2; simpl; try lia.
    + destruct (bool_decide (KCrtc = k) && bool_decide (crtc = o)) eqn:E; [|simpl; lia].
      apply (is_hook_call_true k o KCrtc crtc None) in E as [<- <-].
      unfold stored in Hs. rewrite Hst, He, Hnone in Hs. discriminate.
    + destruct (bool_decide (KPlane = k) && bool_decide (plane = o)) eqn:E; [|simpl; lia].
      apply (is_hook_call_true k o KPlane plane None) in E as [<- <-].
      unfold stored in Hs. rewrite Hst, He, Hnone in Hs. discriminate.
    + destruct (bool_decide (KConnector = k) && bool_decide (connector = o)) eqn:E;
        [|simpl; lia].
      apply (is_hook_call_true k o KConnector connector None) in E as [<- <-].
      unfold stored in Hs. rewrite Hst, He, Hnone in Hs. discriminate.
  - unfold owed at 2. rewrite Hs.
    destruct Hstep as
      [l r w | ok w | k' o' w Hnone | alloc st w Hst
      | crtc snapshot st e w Hst He Hnone
      | plane snapshot st e w Hst He Hnone
      | connector snapshot st e w Hst He Hnone]; simpl;
      rewrite ?snapshots_app; unfold snapshots at 2; simpl;
      try (unfold owed; rewrite ?stored_logged, ?Hs; simpl; lia).
    + unfold owed, snapshots. clear Hs. destruct (stored k o _); lia.
    + destruct (bool_decide (KCrtc = k) && bool_decide (crtc = o)) eqn:E.
      * apply (is_hook_call_true k o KCrtc crtc None) in E as [<- <-].
        unfold owed, stored. simpl. rewrite list_lookup_insert_eq
          by (eapply lookup_lt_Some; eauto). simpl. lia.
      * unfold owed. clear Hs. destruct (stored k o _); simpl; lia.
    + destruct (bool_decide (KPlane = k) && bool_decide (plane = o)) eqn:E.
      * apply (is_hook_call_true k o KPlane plane None) in E as [<- <-].
        unfold owed, stored. simpl. rewrite list_lookup_insert_eq
          by (eapply lookup_lt_Some; eauto). simpl. lia.
      * unfold owed. clear Hs. destruct (stored k o _); simpl; lia.
    + destruct (bool_decide (KConnector = k) && bool_decide (connector = o)) eqn:E.
      * apply (is_hook_call_true k o KConnector connector None) in E as [<- <-].
        unfold owed, stored. simpl. rewrite list_lookup_insert_eq
          by (eapply lookup_lt_Some; eauto). simpl. lia.
      * unfold owed. clear Hs. destruct (stored k o _); simpl; lia.
Qed.

Lemma snapshots_steps k o w w' :
  rtc acquire_step w w' ->
  (snapshots k o (w_trace w') + owed k o w' <= snapshots k o (w_trace w) + owed k o w)%nat.
Proof.
  induction 1 as [|w1 w2 w3 Hs Hr IH]; [lia|].
  pose proof (snapshots_step k o _ _ Hs). lia.
Qed.

(** *** Every get-or-create call is a sequence of such steps *)

Section GetSteps.

Variable drv : drm_driver.

Lemma stored_crtc_added crtc snapshot st e w :
  crtcs st !! crtc = Some e ->
  stored KCrtc crtc (crtc_state_added crtc snapshot st e w) = Some (w_next w).
Proof.
  intros He. unfold stored. simpl.
  rewrite list_lookup_insert_eq by (eapply lookup_lt_Some; eauto). reflexivity.
Qed.

Lemma stored_plane_added plane snapshot st e w :
  planes st !! plane = Some e ->
  stored KPlane plane (plane_state_added plane snapshot st w) = Some (w_next w).
Proof.
  intros He. unfold stored. simpl.
  rewrite list_lookup_insert_eq by (eapply lookup_lt_Some; eauto). reflexivity.
Qed.

Lemma stored_connector_added connector snapshot st e w :
  connectors st !! connector = Some e ->
  stored KConnector connector (connector_state_added connector snapshot st w)
  = Some (w_next w).
Proof.
  intros He. unfold stored. simpl.
  rewrite list_lookup_insert_eq by (eapply lookup_lt_Some; eauto). reflexivity.
Qed.

Lemma get_crtc_state_steps crtc w r w' :
  drm_atomic_get_crtc_state drv crtc w = Some (r, w') ->
  rtc acquire_step w w' /\ (forall p, r = Ptr p -> stored KCrtc crtc w' = Some p).
Proof.
  rewrite get_crtc_state_eq.
  destruct (w_state w) as [st|] eqn:Hst; [|discriminate].
  destruct (crtcs st !! crtc) as [e|] eqn:He; [|discriminate].
  destruct (ce_state e) as [p|] eqn:Hp.
  - intros [= <- <-]. split; [apply rtc_refl|].
    intros q [= <-]. unfold stored. rewrite Hst, He. exact Hp.
  - cbv zeta.
    destruct (negb (drm_modeset_lock drv w (CrtcMutex crtc) =? 0)).
    + intros [= <- <-]. split; [apply rtc_once, step_lock | discriminate].
    + destruct (crtc_atomic_duplicate_state drv _ crtc) as [snapshot|].
      * intros [= <- <-]. split.
        -- eapply rtc_l; [apply step_lock|].
           apply rtc_once. eapply step_add_crtc; eauto.
        -- intros q [= <-]. erewrite stored_crtc_added by eauto. reflexivity.
      * intros [= <- <-]. split; [|discriminate].
        eapply rtc_l; [apply step_lock|].
        apply rtc_once, step_refused. unfold stored. simpl. rewrite Hst, He. exact Hp.
Qed.

Lemma get_plane_state_steps plane w r w' :
  drm_atomic_get_plane_state drv plane w = Some (r, w') ->
  rtc acquire_step w w' /\ (forall p, r = Ptr p -> stored KPlane plane w' = Some p).
Proof.
  rewrite get_plane_state_eq.
  destruct (w_state w) as [st|] eqn:Hst; [|discriminate].
  destruct (planes st !! plane) as [e|] eqn:He; [|discriminate].
  destruct (pe_state e) as [p|] eqn:Hp.
  - intros [= <- <-]. split; [apply rtc_refl|].
    intros q [= <-]. unfold stored. rewrite Hst, He. exact Hp.
  - cbv zeta.
    destruct (negb (drm_modeset_lock drv w (PlaneMutex plane) =? 0)).
    + intros [= <- <-]. split; [apply rtc_once, step_lock | discriminate].
    + destruct (plane_atomic_duplicate_state drv _ plane) as [snapshot|].
      * set (w1 := logged _ w).
        assert (Hadd : rtc acquire_step w (plane_state_added plane snapshot st w1)).
        { eapply rtc_l; [apply step_lock|].
          apply rtc_once. eapply step_add_plane; eauto. }
        assert (Hsto : stored KPlane plane (plane_state_added plane snapshot st w1)
                       = Some (w_next w)).
        { erewrite stored_plane_added by eauto. reflexivity. }
        destruct (ps_crtc snapshot) as [crtc|].
        -- destruct (drm_atomic_get_crtc_state drv crtc _) as [[rc w3]|] eqn:Hc;
             [|discriminate].
           apply get_crtc_state_steps in Hc as [Hc _].
           destruct rc; intros [= <- <-]; (split; [etrans; eauto|]);
             [|discriminate].
           intros q [= <-]. eapply stored_steps; eauto.
        -- intros [= <- <-]. split; [exact Hadd|]. intros q [= <-]. exact Hsto.
      * intros [= <- <-]. split; [|discriminate].
        eapply rtc_l; [apply step_lock|].
        apply rtc_once, step_refused. unfold stored. simpl. rewrite Hst, He. exact Hp.
Qed.

Lemma connector_lookup_or_add_steps connector st w r w' :
  w_state w = Some st ->
  connector_lookup_or_add drv connector st w = Some (r, w') ->
  rtc acquire_step w w' /\ (forall p, r = Ptr p -> stored KConnector connector w' = Some p).
Proof.
  intros Hst. unfold connector_lookup_or_add.
  destruct (connectors st !! connector) as [e|] eqn:He; [|discriminate].
  destruct (cne_state e) as [p|] eqn:Hp.
  - intros [= <- <-]. split; [apply rtc_refl|].
    intros q [= <-]. unfold stored. rewrite Hst, He. exact Hp.
  - destruct (connector_atomic_duplicate_state drv w connector) as [snapshot|].
    + cbv zeta.
      assert (Hadd : rtc acquire_step w (connector_state_added connector snapshot st w)).
      { apply rtc_once. eapply step_add_connector; eauto. }
      assert (Hsto : stored KConnector connector
                       (connector_state_added connector snapshot st w) = Some (w_next w)).
      { erewrite stored_connector_added by eauto. reflexivity. }
      destruct (cns_crtc snapshot) as [crtc|].
      * destruct (drm_atomic_get_crtc_state drv crtc _) as [[rc w3]|] eqn:Hc;
          [|discriminate].
        apply get_crtc_state_steps in Hc as [Hc _].
        destruct rc; intros [= <- <-]; (split; [etrans; eauto|]); [|discriminate].
        intros q [= <-]. eapply stored_steps; eauto.
      * intros [= <- <-]. split; [exact Hadd|]. intros q [= <-]. exact Hsto.
    + intros [= <- <-]. split; [|discriminate].
      apply rtc_once, step_refused. unfold stored. rewrite Hst, He. exact Hp.
Qed.

Lemma get_connector_state_steps connector w r w' :
  drm_atomic_get_connector_state drv connector w = Some (r, w') ->
  rtc acquire_step w w' /\ (forall p, r = Ptr p -> stored KConnector connector w' = Some p).
Proof.
  rewrite get_connector_state_eq. cbv zeta.
  destruct (negb (drm_modeset_lock drv w ConnectionMutex =? 0)).
  { intros [= <- <-]. split; [apply rtc_once, step_lock | discriminate]. }
  destruct (w_state w) as [st|] eqn:Hst; [|discriminate].
  destruct (length (connectors st) <=? connector)%nat.
  - destruct (negb (krealloc_ok drv _)).
    + intros [= <- <-]. split; [|discriminate].
      eapply rtc_l; [apply step_lock|]. apply rtc_once, step_alloc.
    + intros H. apply connector_lookup_or_add_steps in H as [H1 H2]; [|reflexivity].
      split; [|exact H2].
      eapply rtc_l; [apply step_lock|]. eapply rtc_l; [apply step_alloc|].
      eapply rtc_l; [|exact H1]. apply step_grow. exact Hst.
  - intros H. apply connector_lookup_or_add_steps in H as [H1 H2]; [|exact Hst].
    split; [|exact H2]. eapply rtc_l; [apply step_lock|]. exact H1.
Qed.

Lemma get_or_create_steps k o w r w' :
  get_or_create drv k o w = Some (r, w') ->
  rtc acquire_step w w' /\ (forall p, r = Ptr p -> stored k o w' = Some p).
Proof.
  destruct k; simpl.
  - apply get_crtc_state_steps.
  - apply get_plane_state_steps.
  - apply get_connector_state_steps.
Qed.

End GetSteps.

(** *** Get-or-create returns one snapshot per object (C1) *)

Section Stability.

Variable drv : drm_driver.

Lemma run_gets_steps calls : forall w results w',
  run_gets drv calls w = Some (results, w') -> rtc acquire_step w w'.
Proof.
  induction calls as [|[k o] rest IH]; intros w results w' H; simpl in H.
  - mstep H. apply rtc_refl.
  - mstep H. mstep H. mstep H.
    apply get_or_create_steps in H0 as [H0 _].
    etrans; eauto.
Qed.

Lemma run_gets_returned calls k o : forall w results w' i p,
  run_gets drv calls w = Some (results, w') ->
  calls !! i = Some (k, o) -> results !! i = Some (Ptr p) ->
  stored k o w' = Some p.
Proof.
  induction calls as [|[k0 o0] rest IH]; intros w results w' i p H Hc Hr; simpl in H.
  - rewrite lookup_nil in Hc. discriminate.
  - mstep H. mstep H. mstep H.
    destruct i as [|i]; simpl in Hc, Hr.
    + injection Hc as -> ->. injection Hr as ->.
      apply get_or_create_steps in H0 as [_ H0].
      eapply stored_steps; [eapply run_gets_steps; eauto | eauto].
    + eapply IH; eauto.
Qed.

(** A call on an object whose entry holds a snapshot is defined and
    returns it, with the machine as it was; the connector getter takes the
    connection lock first and returns the lock's error if it is refused. *)
Lemma get_or_create_stored k o p w :
  stored k o w = Some p ->
  get_or_create drv k o w =
  match k with
  | KConnector =>
      let r := drm_modeset_lock drv w ConnectionMutex in
      Some (if r =? 0 then Ptr p else ErrPtr r, logged (EvLock ConnectionMutex r) w)
  | _ => Some (Ptr p, w)
  end.
Proof.
  intros Hs. unfold stored in Hs. destruct k; simpl.
  - rewrite get_crtc_state_eq.
    destruct (w_state w) as [st|]; [|discriminate].
    destruct (crtcs st !! o) as [e|]; [|discriminate].
    rewrite Hs. reflexivity.
  - rewrite get_plane_state_eq.
    destruct (w_state w) as [st|]; [|discriminate].
    destruct (planes st !! o) as [e|]; [|discriminate].
    rewrite Hs. reflexivity.
  - rewrite get_connector_state_eq. cbv zeta.
    destruct (drm_modeset_lock drv w ConnectionMutex =? 0); [|reflexivity]. simpl.
    destruct (w_state w) as [st|] eqn:Hst; [|discriminate].
    destruct (connectors st !! o) as [e|] eqn:He; [|discriminate].
    apply lookup_lt_Some in He as Hlt.
    rewrite (proj2 (Nat.leb_gt _ _) Hlt).
    unfold connector_lookup_or_add. rewrite He, Hs. reflexivity.
Qed.

(** What a call on an object whose entry holds [p] may return. *)
Lemma get_or_create_stored_result k o p w r w1 :
  stored k o w = Some p ->
  get_or_create drv k o w = Some (r, w1) ->
  r = Ptr p \/
  (k = KConnector /\ r = ErrPtr (drm_modeset_lock drv w ConnectionMutex) /\
   drm_modeset_lock drv w ConnectionMutex <> 0).
Proof.
  intros Hs Hget. rewrite (get_or_create_stored k o p w Hs) in Hget.
  destruct k; try (injection Hget as <- _; left; reflexivity).
  cbv zeta in Hget.
  destruct (drm_modeset_lock drv w ConnectionMutex =? 0) eqn:E;
    injection Hget as <- _; [left; reflexivity|].
  right. split; [reflexivity|]. split; [reflexivity|].
  apply Z.eqb_neq. exact E.
Qed.

Lemma run_gets_stored calls k o p : forall w results w' j,
  run_gets drv calls w = Some (results, w') ->
  stored k o w = Some p ->
  calls !! j = Some (k, o) ->
  results !! j = Some (Ptr p) \/
  (k = KConnector /\ exists e, e <> 0 /\ results !! j = Some (ErrPtr e)).
Proof.
  induction calls as [|[k0 o0] rest IH]; intros w results w' j H Hs Hc; simpl in H.
  - rewrite lookup_nil in Hc. discriminate.
  - apply bind_Some in H as (r & w1 & Hget & H).
    apply bind_Some in H as (rs & w2 & Hrest & H).
    apply ret_Some in H as [<- <-].
    destruct j as [|j]; simpl in Hc |- *.
    + injection Hc as -> ->.
      destruct (get_or_create_stored_result k o p w r w1 Hs Hget)
        as [-> | (-> & -> & Hne)]; [left; reflexivity|].
      right. split; [reflexivity|]. eauto.
    + eapply IH; eauto.
      eapply stored_steps; [|exact Hs].
      eapply get_or_create_steps. exact Hget.
Qed.

Lemma run_gets_later calls k o p : forall w results w' i j,
  run_gets drv calls w = Some (results, w') ->
  (i < j)%nat ->
  calls !! i = Some (k, o) -> results !! i = Some (Ptr p) ->
  calls !! j = Some (k, o) ->
  results !! j = Some (Ptr p) \/
  (k = KConnector /\ exists e, e <> 0 /\ results !! j = Some (ErrPtr e)).
Proof.
  induction calls as [|[k0 o0] rest IH]; intros w results w' i j H Hij Hi Hr Hj; simpl in H.
  - rewrite lookup_nil in Hi. discriminate.
  - apply bind_Some in H as (r & w1 & Hget & H).
    apply bind_Some in H as (rs & w2 & Hrest & H).
    apply ret_Some in H as [<- <-].
    destruct j as [|j]; [lia|]. simpl in Hj |- *.
    destruct i as [|i]; simpl in Hi, Hr.
    + injection Hi as -> ->. injection Hr as ->.
      apply get_or_create_steps in Hget as [_ Hsto].
      eapply run_gets_stored; eauto.
    + eapply (IH w1 rs w2 i j); eauto. lia.
Qed.

End Stability.

(** C1, as the code has it.  Take any sequence of get-or-create calls on
    CRTCs, planes and connectors of one transaction, with no clear of the
    transaction in between, and any object.  (a) Every call on the object
    that returns a snapshot returns the snapshot the object's entry holds at
    the end, so all of them return the identical snapshot.  (b) During the
    sequence the object's duplicate hook returns a snapshot at most once.
    (c) If the object's entry already holds a snapshot when the sequence
    starts, it still holds it at the end, the object's duplicate hook is
    not called at all, and every call on the object that returns a snapshot
    returns that one.  (d) A call on an object whose entry holds a snapshot
    is defined and returns that snapshot, leaving the machine as it is; the
    connector getter takes the connection lock before it consults the
    table, logs that, and returns the lock's error instead if the lock is
    refused.  (e) Hence after a call on the object has returned a snapshot,
    and from the start if the entry holds one then, every call on the
    object returns that snapshot, or, for a connector, the non-zero error
    of the refused connection lock. *)
Theorem get_or_create_reuses_snapshot (drv : drm_driver) (calls : list (obj_kind * nat))
    (w : world) (results : list errptr) (w' : world) (k : obj_kind) (o : nat) :
  run_gets drv calls w = Some (results, w') ->
  (forall i p, calls !! i = Some (k, o) -> results !! i = Some (Ptr p) ->
               stored k o w' = Some p) /\
  (forall i j p q, calls !! i = Some (k, o) -> results !! i = Some (Ptr p) ->
                   calls !! j = Some (k, o) -> results !! j = Some (Ptr q) -> p = q) /\
  (snapshots k o (w_trace w') <= snapshots k o (w_trace w) + 1)%nat /\
  (forall p, stored k o w = Some p ->
             stored k o w' = Some p /\
             hook_calls k o (w_trace w') = hook_calls k o (w_trace w) /\
             forall i q, calls !! i = Some (k, o) -> results !! i = Some (Ptr q) -> q = p) /\
  (forall v p, stored k o v = Some p ->
             get_or_create drv k o v =
             match k with
             | KConnector =>
                 let r := drm_modeset_lock drv v ConnectionMutex in
                 Some (if r =? 0 then Ptr p else ErrPtr r, logged (EvLock ConnectionMutex r) v)
             | _ => Some (Ptr p, v)
             end) /\
  (forall i j p, (i < j)%nat ->
             calls !! i = Some (k, o) -> results !! i = Some (Ptr p) ->
             calls !! j = Some (k, o) ->
             results !! j = Some (Ptr p) \/
             (k = KConnector /\ exists e, e <> 0 /\ results !! j = Some (ErrPtr e))) /\
  (forall j p, stored k o w = Some p ->
             calls !! j = Some (k, o) ->
             results !! j = Some (Ptr p) \/
             (k = KConnector /\ exists e, e <> 0 /\ results !! j = Some (ErrPtr e))).
Proof.
  intros Hrun.
  pose proof (run_gets_steps drv calls w results w' Hrun) as Hsteps.
  pose proof (run_gets_returned drv calls k o w results w') as Hret.
  split; [|split; [|split; [|split; [|split; [|split]]]]].
  - intros i p Hc Hr. eapply Hret; eauto.
  - intros i j p q Hi Hp Hj Hq.
    assert (Some p = Some q) as [= ->]; [|reflexivity].
    rewrite <- (Hret i p Hrun Hi Hp). eapply Hret; eauto.
  - pose proof (snapshots_steps k o w w' Hsteps) as H.
    unfold owed in H. destruct (stored k o w), (stored k o w'); lia.
  - intros p Hp. split; [eapply stored_steps; eauto|]. split.
    + eapply hook_calls_steps; eauto.
    + intros i q Hi Hq.
      assert (Some q = Some p) as [= ->]; [|reflexivity].
      rewrite <- (Hret i q Hrun Hi Hq). eapply stored_steps; eauto.
  - intros v p Hv. apply get_or_create_stored. exact Hv.
  - intros i j p Hij Hi Hr Hj. eapply run_gets_later; eauto.
  - intros j p Hs Hj. eapply run_gets_stored; eauto.
Qed.

Lemma get_or_create_reuses_snapshot_witness :
  match run_gets demo_driver demo_calls demo_world with
  | Some (results, w') =>
      results !! 0%nat = Some (Ptr 100%nat) /\
      results !! 2%nat = Some (Ptr 100%nat) /\
      stored KPlane 0 w' = Some 100%nat /\
      (snapshots KPlane 0 (w_trace w') <= snapshots KPlane 0 (w_trace demo_world) + 1)%nat /\
      get_or_create demo_driver KPlane 0 w' = Some (Ptr 100%nat, w')
  | None => False
  end.
Proof.
  destruct (run_gets demo_driver demo_calls demo_world) as [[results w']|] eqn:Hrun.
  - destruct (get_or_create_reuses_snapshot demo_driver demo_calls demo_world
                results w' KPlane 0%nat Hrun) as (Hret & _ & Hcount & _ & Hcall & Hlater & _).
    assert (Hres : results !! 0%nat = Some (Ptr 100%nat)).
    { vm_compute in Hrun. injection Hrun as <- _. reflexivity. }
    pose proof (Hret 0%nat 100%nat eq_refl Hres) as Hsto.
    split; [exact Hres|]. split.
    + destruct (Hlater 0%nat 2%nat 100%nat ltac:(lia) eq_refl Hres eq_refl)
        as [H2 | (Hk & _)]; [exact H2 | discriminate Hk].
    + split; [exact Hsto|]. split; [exact Hcount|].
      exact (Hcall w' 100%nat Hsto).
  - vm_compute in Hrun. discriminate Hrun.
Defined.

(** C1 as stated fails in three ways.  Within the lifetime of one
    transaction the ioctl clears it on -EDEADLK and assembles it again:
    the duplicate hook of a CRTC is then called a second time and returns
    another snapshot.  A duplicate hook that returns nothing leaves the
    entry empty, so the next call on the object calls the hook again.  And
    the connector getter takes the connection lock before it looks at the
    table: when the lock is refused on a later call, that call returns the
    lock's error although the connector's snapshot is stored. *)
Lemma get_or_create_reuses_snapshot_counterexample :
  match get_clear_get demo_driver 0 demo_world with
  | Some ((a, b), w') =>
      a = Ptr 100%nat /\ b = Ptr 101%nat /\ hook_calls KCrtc 0 (w_trace w') = 2%nat
  | None => False
  end /\
  match run_gets flaky_driver [(KCrtc, 0%nat); (KCrtc, 0%nat)] demo_world with
  | Some (results, w') =>
      results = [ErrPtr (- ENOMEM); Ptr 100%nat] /\ hook_calls KCrtc 0 (w_trace w') = 2%nat
  | None => False
  end /\
  match run_gets relock_refusing_driver [(KConnector, 0%nat); (KConnector, 0%nat)]
          demo_world with
  | Some (results, w') =>
      results = [Ptr 100%nat; ErrPtr (- EDEADLK)] /\ stored KConnector 0 w' = Some 100%nat
  | None => False
  end.
Proof. vm_compute. auto. Qed.

(** *** Acquiring a plane or connector acquires its CRTC (C10) *)

Lemma allocated_step w w' :
  acquire_step w w' -> snapshots_allocated w -> snapshots_allocated w'.
Proof.
  intros Hstep Ha k o p. destruct Hstep as
    [l r w | ok w | k' o' w Hnone | alloc st w Hst
    | crtc snapshot st e w Hst He Hnone
    | plane snapshot st e w Hst He Hnone
    | connector snapshot st e w Hst He Hnone]; try (apply Ha).
  - unfold stored. simpl. intros H. apply (Ha k o). unfold stored. rewrite Hst.
    destruct k; auto.
    destruct (decide (o < length (connectors st))%nat) as [Hlt|Hge].
    + rewrite lookup_app_l in H by exact Hlt. exact H.
    + rewrite lookup_app_r in H by lia.
      destruct (replicate _ _ !! _) as [e|] eqn:He; [|discriminate].
      apply lookup_replicate in He as [-> _]. discriminate.
  - unfold stored. simpl. intros H.
    assert (Hold : forall k', k' <> KCrtc \/ o <> crtc ->
                   stored k' o w = Some p -> (p < S (w_next w))%nat)
      by (intros k' _ Hk'; apply Nat.lt_lt_succ_r, (Ha k' o), Hk').
    destruct k; [|apply (Hold KPlane); [auto | unfold stored; rewrite Hst; exact H]
                 |apply (Hold KConnector); [auto | unfold stored; rewrite Hst; exact H]].
    destruct (decide (o = crtc)) as [->|Hne].
    + rewrite list_lookup_insert_eq in H by (eapply lookup_lt_Some; eauto).
      injection H as <-. lia.
    + rewrite list_lookup_insert_ne in H by auto.
      apply (Hold KCrtc); [auto | unfold stored; rewrite Hst; exact H].
  - unfold stored. simpl. intros H.
    assert (Hold : forall k', stored k' o w = Some p -> (p < S (w_next w))%nat)
      by (intros k' Hk'; apply Nat.lt_lt_succ_r, (Ha k' o), Hk').
    destruct k; [apply (Hold KCrtc); unfold stored; rewrite Hst; exact H|
                |apply (Hold KConnector); unfold stored; rewrite Hst; exact H].
    destruct (decide (o = plane)) as [->|Hne].
    + rewrite list_lookup_insert_eq in H by (eapply lookup_lt_Some; eauto).
      injection H as <-. lia.
    + rewrite list_lookup_insert_ne in H by auto.
      apply (Hold KPlane). unfold stored. rewrite Hst. exact H.
  - unfold stored. simpl. intros H.
    assert (Hold : forall k', stored k' o w = Some p -> (p < S (w_next w))%nat)
      by (intros k' Hk'; apply Nat.lt_lt_succ_r, (Ha k' o), Hk').
    destruct k; [apply (Hold KCrtc); unfold stored; rewrite Hst; exact H
                |apply (Hold KPlane); unfold stored; rewrite Hst; exact H|].
    destruct (decide (o = connector)) as [->|Hne].
    + rewrite list_lookup_insert_eq in H by (eapply lookup_lt_Some; eauto).
      injection H as <-. lia.
    + rewrite list_lookup_insert_ne in H by auto.
      apply (Hold KConnector). unfold stored. rewrite Hst. exact H.
Qed.

Lemma allocated_steps w w' :
  rtc acquire_step w w' -> snapshots_allocated w -> snapshots_allocated w'.
Proof. induction 1; eauto using allocated_step. Qed.

Section Linking.

Variable drv : drm_driver.

(** drm_atomic_get_crtc_state leaves the plane and connector tables and
    their snapshots alone. *)
Lemma get_crtc_state_frame crtc w r w' :
  drm_atomic_get_crtc_state drv crtc w = Some (r, w') ->
  (forall k o, k <> KCrtc -> stored k o w' = stored k o w) /\
  w_plane_states w' = w_plane_states w /\
  w_connector_states w' = w_connector_states w.
Proof.
  rewrite get_crtc_state_eq.
  destruct (w_state w) as [st|] eqn:Hst; [|discriminate].
  destruct (crtcs st !! crtc) as [e|] eqn:He; [|discriminate].
  destruct (ce_state e) as [p|] eqn:Hp.
  - intros [= <- <-]. auto.
  - cbv zeta.
    destruct (negb (drm_modeset_lock drv w (CrtcMutex crtc) =? 0)).
    + intros [= <- <-]. auto.
    + destruct (crtc_atomic_duplicate_state drv _ crtc) as [snapshot|].
      * intros [= <- <-]. split; [|auto].
        intros k o Hk. unfold stored. simpl. rewrite Hst. destruct k; congruence.
      * intros [= <- <-]. auto.
Qed.

Lemma linked_except_after_crtc k0 o0 crtc w r w' :
  drm_atomic_get_crtc_state drv crtc w = Some (r, w') ->
  linked_except k0 o0 w -> linked_except k0 o0 w'.
Proof.
  intros Hget Hl k o p c Hne Hs Hc.
  pose proof (get_crtc_state_frame _ _ _ _ Hget) as (Hsto & Hpl & Hcn).
  pose proof (get_crtc_state_steps drv _ _ _ _ Hget) as [Hsteps _].
  destruct k; [discriminate Hc| |].
  - rewrite Hsto in Hs by discriminate.
    assert (Hc' : crtc_of KPlane p w = Some c) by (unfold crtc_of in *; rewrite <- Hpl; exact Hc).
    destruct (Hl KPlane o p c Hne Hs Hc') as [q Hq].
    exists q. eapply stored_steps; eauto.
  - rewrite Hsto in Hs by discriminate.
    assert (Hc' : crtc_of KConnector p w = Some c)
      by (unfold crtc_of in *; rewrite <- Hcn; exact Hc).
    destruct (Hl KConnector o p c Hne Hs Hc') as [q Hq].
    exists q. eapply stored_steps; eauto.
Qed.

Lemma linked_weaken k0 o0 w : linked w -> linked_except k0 o0 w.
Proof. intros Hl k o p c _. apply Hl. Qed.

Lemma linked_logged e w : linked w -> linked (logged e w).
Proof. intros Hl. exact Hl. Qed.

Lemma linked_except_plane_added plane snapshot st e w :
  w_state w = Some st -> planes st !! plane = Some e ->
  snapshots_allocated w -> linked w ->
  linked_except KPlane plane (plane_state_added plane snapshot st w).
Proof.
  intros Hst He Ha Hl k o p c Hne Hs Hc.
  assert (Hold : stored k o w = Some p).
  { revert Hs. unfold stored. simpl. rewrite Hst. destruct k; auto.
    destruct (decide (o = plane)) as [->|Hn]; [congruence|].
    rewrite list_lookup_insert_ne by auto. auto. }
  assert (Hlt := Ha k o p Hold).
  assert (Hc' : crtc_of k p w = Some c).
  { revert Hc. unfold crtc_of. simpl. destruct k; auto.
    rewrite !lookup_insert_ne by lia. auto. }
  destruct (Hl k o p c Hold Hc') as [q Hq]. exists q.
  revert Hq. unfold stored. simpl. rewrite Hst. auto.
Qed.

Lemma linked_except_connector_added connector snapshot st e w :
  w_state w = Some st -> connectors st !! connector = Some e ->
  snapshots_allocated w -> linked w ->
  linked_except KConnector connector (connector_state_added connector snapshot st w).
Proof.
  intros Hst He Ha Hl k o p c Hne Hs Hc.
  assert (Hold : stored k o w = Some p).
  { revert Hs. unfold stored. simpl. rewrite Hst. destruct k; auto.
    destruct (decide (o = connector)) as [->|Hn]; [congruence|].
    rewrite list_lookup_insert_ne by auto. auto. }
  assert (Hlt := Ha k o p Hold).
  assert (Hc' : crtc_of k p w = Some c).
  { revert Hc. unfold crtc_of. simpl. destruct k; auto.
    rewrite !lookup_insert_ne by lia. auto. }
  destruct (Hl k o p c Hold Hc') as [q Hq]. exists q.
  revert Hq. unfold stored. simpl. rewrite Hst. auto.
Qed.

(** Closing the gap: once the CRTC of the pending object is there, the
    transaction is linked. *)
Lemma linked_close k0 o0 w :
  linked_except k0 o0 w ->
  (forall p c, stored k0 o0 w = Some p -> crtc_of k0 p w = Some c ->
               is_Some (stored KCrtc c w)) ->
  linked w.
Proof.
  intros Hl Hown k o p c Hs Hc.
  destruct (decide ((k, o) = (k0, o0))) as [[= -> ->]|Hne]; eauto.
Qed.

End Linking.

Section AcquireCrtc.

Variable drv : drm_driver.

Lemma allocated_logged e w : snapshots_allocated w -> snapshots_allocated (logged e w).
Proof. intros H. exact H. Qed.

(** A successful drm_atomic_get_plane_state either found the snapshot, or
    made it and then acquired the CRTC the snapshot references. *)
Lemma get_plane_state_link plane w p w' :
  drm_atomic_get_plane_state drv plane w = Some (Ptr p, w') ->
  (stored KPlane plane w = Some p /\ w' = w) \/
  (stored KPlane plane w = None /\
   (forall c, crtc_of KPlane p w' = Some c -> is_Some (stored KCrtc c w')) /\
   (snapshots_allocated w -> linked w -> linked_except KPlane plane w')).
Proof.
  rewrite get_plane_state_eq. unfold stored at 1 2.
  destruct (w_state w) as [st|] eqn:Hst; [|discriminate].
  destruct (planes st !! plane) as [e|] eqn:He; [|discriminate].
  destruct (pe_state e) as [p0|] eqn:Hp.
  { intros [= <- <-]. left. auto. }
  cbv zeta.
  destruct (negb (drm_modeset_lock drv w (PlaneMutex plane) =? 0)); [discriminate|].
  destruct (plane_atomic_duplicate_state drv _ plane) as [snapshot|]; [|discriminate].
  set (w1 := logged _ w).
  assert (Hex : snapshots_allocated w -> linked w ->
                linked_except KPlane plane (plane_state_added plane snapshot st w1)).
  { intros Ha Hl. eapply linked_except_plane_added; eauto. }
  destruct (ps_crtc snapshot) as [crtc|] eqn:Hcrtc.
  - destruct (drm_atomic_get_crtc_state drv crtc _) as [[[q|err] w3]|] eqn:Hget;
      [|discriminate|discriminate].
    intros [= <- <-]. right. split; [reflexivity|].
    pose proof (get_crtc_state_frame drv _ _ _ _ Hget) as (_ & Hpl & _).
    pose proof (get_crtc_state_steps drv _ _ _ _ Hget) as [_ Hq].
    split.
    + intros c. unfold crtc_of. rewrite Hpl. simpl. rewrite lookup_insert_eq. simpl.
      rewrite Hcrtc. intros [= <-]. exists q. apply Hq. reflexivity.
    + intros Ha Hl. eapply linked_except_after_crtc; eauto.
  - intros [= <- <-]. right. split; [reflexivity|]. split.
    + intros c. unfold crtc_of. simpl. rewrite lookup_insert_eq. simpl.
      rewrite Hcrtc. discriminate.
    + exact Hex.
Qed.

Lemma connector_lookup_or_add_link connector st w p w' :
  w_state w = Some st ->
  connector_lookup_or_add drv connector st w = Some (Ptr p, w') ->
  (stored KConnector connector w = Some p /\ w' = w) \/
  (stored KConnector connector w = None /\
   (forall c, crtc_of KConnector p w' = Some c -> is_Some (stored KCrtc c w')) /\
   (snapshots_allocated w -> linked w -> linked_except KConnector connector w')).
Proof.
  intros Hst. unfold connector_lookup_or_add, stored at 1 2. rewrite Hst.
  destruct (connectors st !! connector) as [e|] eqn:He; [|discriminate].
  destruct (cne_state e) as [p0|] eqn:Hp.
  { intros [= <- <-]. left. auto. }
  destruct (connector_atomic_duplicate_state drv w connector) as [snapshot|];
    [|discriminate].
  cbv zeta.
  assert (Hex : snapshots_allocated w -> linked w ->
                linked_except KConnector connector
                  (connector_state_added connector snapshot st w)).
  { intros Ha Hl. eapply linked_except_connector_added; eauto. }
  destruct (cns_crtc snapshot) as [crtc|] eqn:Hcrtc.
  - destruct (drm_atomic_get_crtc_state drv crtc _) as [[[q|err] w3]|] eqn:Hget;
      [|discriminate|discriminate].
    intros [= <- <-]. right. split; [reflexivity|].
    pose proof (get_crtc_state_frame drv _ _ _ _ Hget) as (_ & _ & Hcn).
    pose proof (get_crtc_state_steps drv _ _ _ _ Hget) as [_ Hq].
    split.
    + intros c. unfold crtc_of. rewrite Hcn. simpl. rewrite lookup_insert_eq. simpl.
      rewrite Hcrtc. intros [= <-]. exists q. apply Hq. reflexivity.
    + intros Ha Hl. eapply linked_except_after_crtc; eauto.
  - intros [= <- <-]. right. split; [reflexivity|]. split.
    + intros c. unfold crtc_of. simpl. rewrite lookup_insert_eq. simpl.
      rewrite Hcrtc. discriminate.
    + exact Hex.
Qed.

(** Growing the connector table changes no entry. *)
Lemma stored_grown k o alloc st w :
  w_state w = Some st ->
  stored k o (set_state (Some (connectors_grown alloc st)) w) = stored k o w.
Proof.
  intros Hst. unfold stored. simpl. rewrite Hst. destruct k; auto.
  destruct (decide (o < length (connectors st))%nat) as [Hlt|Hge].
  - rewrite lookup_app_l by exact Hlt. reflexivity.
  - rewrite lookup_app_r by lia. rewrite (lookup_ge_None_2 (connectors st)) by lia.
    destruct (replicate _ _ !! _) as [e|] eqn:He; [|reflexivity].
    apply lookup_replicate in He as [-> _]. reflexivity.
Qed.

Lemma get_connector_state_link connector w p w' :
  drm_atomic_get_connector_state drv connector w = Some (Ptr p, w') ->
  (stored KConnector connector w = Some p) \/
  (stored KConnector connector w = None /\
   (forall c, crtc_of KConnector p w' = Some c -> is_Some (stored KCrtc c w')) /\
   (snapshots_allocated w -> linked w -> linked_except KConnector connector w')).
Proof.
  rewrite get_connector_state_eq. cbv zeta.
  destruct (negb (drm_modeset_lock drv w ConnectionMutex =? 0)); [discriminate|].
  destruct (w_state w) as [st|] eqn:Hst; [|discriminate].
  set (w1 := logged _ w).
  destruct (length (connectors st) <=? connector)%nat.
  - destruct (negb (krealloc_ok drv w1)); [discriminate|].
    set (w2 := logged _ w1).
    intros H. apply connector_lookup_or_add_link in H; [|reflexivity].
    rewrite (stored_grown KConnector connector _ st w2) in H by exact Hst.
    destruct H as [[H _]|(H1 & H2 & H3)]; [left; exact H|right].
    split; [exact H1|]. split; [exact H2|].
    intros Ha Hl. apply H3.
    + intros k o q. rewrite stored_grown by exact Hst. apply Ha.
    + intros k o q c. rewrite !stored_grown by exact Hst. apply Hl.
  - intros H. apply connector_lookup_or_add_link in H; [|exact Hst].
    destruct H as [[H _]|H]; [left|right]; exact H.
Qed.

Lemma linked_unchanged_if_stored k o w p w' :
  get_or_create drv k o w = Some (Ptr p, w') ->
  stored k o w = Some p -> linked w -> linked w'.
Proof.
  intros Hget Hs Hl. destruct k; simpl in Hget.
  - rewrite get_crtc_state_eq in Hget. unfold stored in Hs.
    destruct (w_state w) as [st|]; [|discriminate].
    destruct (crtcs st !! o) as [e|]; [|discriminate].
    rewrite Hs in Hget. injection Hget as <-. exact Hl.
  - rewrite get_plane_state_eq in Hget. unfold stored in Hs.
    destruct (w_state w) as [st|]; [|discriminate].
    destruct (planes st !! o) as [e|]; [|discriminate].
    rewrite Hs in Hget. injection Hget as <-. exact Hl.
  - rewrite get_connector_state_eq in Hget. cbv zeta in Hget. unfold stored in Hs.
    destruct (negb (drm_modeset_lock drv w ConnectionMutex =? 0)); [discriminate|].
    destruct (w_state w) as [st|] eqn:Hst; [|discriminate].
    destruct (connectors st !! o) as [e|] eqn:He; [|discriminate].
    apply lookup_lt_Some in He as Hlt.
    rewrite (proj2 (Nat.leb_gt _ _) Hlt) in Hget.
    unfold connector_lookup_or_add in Hget. rewrite He, Hs in Hget.
    injection Hget as <-. exact Hl.
Qed.

End AcquireCrtc.

(** C10, as the code has it.  Let get-or-create of a plane or connector
    state succeed.  If the object had no snapshot before the call (the call
    duplicated one), every CRTC the returned snapshot references has its
    own snapshot in the transaction when the call returns.  If the object
    had a snapshot, the call returns that one and acquires nothing: the
    snapshot references the CRTC it referenced before, and every CRTC entry
    is as it was before the call, populated or not.  And on a transaction
    that satisfies the linking invariant (each plane or connector snapshot
    that references a CRTC has that CRTC's snapshot in the transaction)
    with allocated snapshots, the call preserves both, so that there the
    CRTC of the returned snapshot, found or made, has its entry
    populated. *)
Theorem get_state_acquires_crtc (drv : drm_driver) (k : obj_kind) (o : nat)
    (w : world) (p : ptr) (w' : world) :
  k <> KCrtc ->
  get_or_create drv k o w = Some (Ptr p, w') ->
  (stored k o w = None ->
   forall c, crtc_of k p w' = Some c -> is_Some (stored KCrtc c w')) /\
  (forall p0, stored k o w = Some p0 ->
   p = p0 /\ crtc_of k p w' = crtc_of k p w /\
   forall c, stored KCrtc c w' = stored KCrtc c w) /\
  (snapshots_allocated w -> linked w ->
   snapshots_allocated w' /\ linked w' /\
   forall c, crtc_of k p w' = Some c -> is_Some (stored KCrtc c w')).
Proof.
  intros Hk Hget.
  pose proof (get_or_create_steps drv k o w _ w' Hget) as [Hsteps Hsto].
  specialize (Hsto p eq_refl).
  assert (Hcases : stored k o w = Some p \/
    (stored k o w = None /\
     (forall c, crtc_of k p w' = Some c -> is_Some (stored KCrtc c w')) /\
     (snapshots_allocated w -> linked w -> linked_except k o w'))).
  { destruct k; [contradiction| |]; simpl in Hget.
    - apply get_plane_state_link in Hget as [[H _]|H]; auto.
    - apply get_connector_state_link in Hget; auto. }
  split; [|split].
  - intros Hnone. destruct Hcases as [H|(_ & H & _)]; [congruence | exact H].
  - intros p0 Hp0. rewrite (get_or_create_stored drv k o p0 w Hp0) in Hget.
    destruct k; [contradiction| |].
    + injection Hget as <- <-. auto.
    + cbv zeta in Hget.
      destruct (drm_modeset_lock drv w ConnectionMutex =? 0); [|discriminate Hget].
      injection Hget as <- <-. auto.
  - intros Ha Hl.
    assert (Hl' : linked w').
    { destruct Hcases as [H|(_ & Hown & Hex)].
      - eapply linked_unchanged_if_stored; eauto.
      - apply (linked_close k o); [auto|].
        intros q c Hq. rewrite Hsto in Hq. injection Hq as <-. apply Hown. }
    split; [eapply allocated_steps; eauto|]. split; [exact Hl'|].
    intros c Hc. eapply Hl'; eauto.
Qed.

Lemma get_state_acquires_crtc_witness :
  match get_or_create demo_driver KPlane 0 demo_world with
  | Some (Ptr p, w') =>
      crtc_of KPlane p w' = Some 0%nat /\ is_Some (stored KCrtc 0 w') /\ linked w'
  | _ => False
  end.
Proof.
  assert (Hnone : forall k o, stored k o demo_world = None).
  { intros [] [|[|o]]; reflexivity. }
  destruct (get_or_create demo_driver KPlane 0 demo_world) as [[[p|err] w']|] eqn:Hget;
    [| vm_compute in Hget; discriminate Hget | vm_compute in Hget; discriminate Hget ].
  destruct (get_state_acquires_crtc demo_driver KPlane 0%nat demo_world p w')
    as (Hfresh & _ & Hinv); [discriminate | exact Hget |].
  destruct Hinv as (_ & Hlinked & _).
  { intros k o q Hq. rewrite Hnone in Hq. discriminate Hq. }
  { intros k o q c Hq. rewrite Hnone in Hq. discriminate Hq. }
  assert (Hc : crtc_of KPlane p w' = Some 0%nat).
  { vm_compute in Hget. injection Hget as <- <-. reflexivity. }
  split; [exact Hc|]. split; [|exact Hlinked].
  apply Hfresh; [apply Hnone | exact Hc].
Defined.

(** C10 as stated fails for a snapshot that is found in the table.  On a
    driver whose CRTC locks meet a deadlock, the first call for plane 0
    stores the plane's snapshot and then fails to acquire CRTC 0; the
    second call finds the snapshot and returns it as a success, with its
    reference to CRTC 0, while the entry of CRTC 0 is empty. *)
Lemma get_state_acquires_crtc_counterexample :
  match run_gets crtc_contended_driver [(KPlane, 0%nat); (KPlane, 0%nat)] demo_world with
  | Some (results, w') =>
      results = [ErrPtr (- EDEADLK); Ptr 100%nat] /\
      crtc_of KPlane 100%nat w' = Some 0%nat /\ stored KCrtc 0 w' = None
  | None => False
  end.
Proof. vm_compute. auto. Qed.

(** *** Relations that computations preserve *)

Section Preserves.

Context (R : world -> world -> Prop) `{!PreOrder R}.

Lemma preserves_ret {A} (a : A) : preserves R (ret a).
Proof. intros w b w' H. mstep H. reflexivity. Qed.

Lemma preserves_ub {A} : preserves R (@ub A).
Proof. intros w b w' H. discriminate H. Qed.

Lemma preserves_get_world : preserves R get_world.
Proof. intros w b w' H. mstep H. reflexivity. Qed.

Lemma preserves_deref {A} (o : option A) : preserves R (deref o).
Proof. intros w b w' H. mstep H. reflexivity. Qed.

Lemma preserves_bind {A B} (m : M A) (k : A -> M B) :
  preserves R m -> (forall a, preserves R (k a)) -> preserves R (bind m k).
Proof.
  intros Hm Hk w b w' H. mstep H. etrans; [eapply Hm | eapply Hk]; eauto.
Qed.

Lemma preserves_for_loop n body :
  (forall i, preserves R (body i)) -> preserves R (for_loop n body).
Proof.
  intros Hb. induction n as [|n IH]; simpl.
  - apply preserves_ret.
  - apply preserves_bind; auto.
Qed.

Lemma preserves_first_error indices body :
  (forall i, preserves R (body i)) -> preserves R (first_error indices body).
Proof.
  intros Hb. induction indices as [|i rest IH]; simpl.
  - apply preserves_ret.
  - apply preserves_bind; [auto|]. intros r.
    destruct (negb (r =? 0)); [apply preserves_ret | exact IH].
Qed.

Lemma preserves_first_error_acc {A} indices (body : nat -> A -> M (Z * A)) :
  (forall i a, preserves R (body i a)) ->
  forall a, preserves R (first_error_acc indices body a).
Proof.
  intros Hb. induction indices as [|i rest IH]; intros a; simpl.
  - apply preserves_ret.
  - apply preserves_bind; [auto|]. intros [r a'].
    destruct (negb (r =? 0)); [apply preserves_ret | apply IH].
Qed.

Lemma preserves_get_state : preserves R get_state.
Proof. apply preserves_bind; [apply preserves_get_world | intros; apply preserves_deref]. Qed.

Lemma preserves_state_config : preserves R state_config.
Proof.
  apply preserves_bind; [apply preserves_get_state | intros st].
  destruct (st_dev st); [|apply preserves_ub].
  apply preserves_bind; [apply preserves_get_world | intros; apply preserves_ret].
Qed.

Lemma preserves_crtcs_at i : preserves R (crtcs_at i).
Proof. apply preserves_bind; [apply preserves_get_state | intros; apply preserves_deref]. Qed.

Lemma preserves_planes_at i : preserves R (planes_at i).
Proof. apply preserves_bind; [apply preserves_get_state | intros; apply preserves_deref]. Qed.

Lemma preserves_connectors_at i : preserves R (connectors_at i).
Proof. apply preserves_bind; [apply preserves_get_state | intros; apply preserves_deref]. Qed.

Lemma preserves_load_crtc_state p : preserves R (load_crtc_state p).
Proof. apply preserves_bind; [apply preserves_get_world | intros; apply preserves_deref]. Qed.

Lemma preserves_load_plane_state p : preserves R (load_plane_state p).
Proof. apply preserves_bind; [apply preserves_get_world | intros; apply preserves_deref]. Qed.

Lemma preserves_load_connector_state p : preserves R (load_connector_state p).
Proof. apply preserves_bind; [apply preserves_get_world | intros; apply preserves_deref]. Qed.

Lemma preserves_user_get drv a : preserves R (user_get drv a).
Proof. apply preserves_bind; [apply preserves_get_world | intros; apply preserves_ret]. Qed.

End Preserves.

Create HintDb pres.

(** Splits a goal [preserves R m] along the structure of [m]; what is
    left are the calls for which no lemma is known. *)
Ltac pres_step :=
  match goal with
  | |- preserves ?R (bind _ _) => apply (preserves_bind R); [|intros ?]
  | |- preserves ?R (for_loop _ _) => apply (preserves_for_loop R); intros ?
  | |- preserves ?R (first_error _ _) => apply (preserves_first_error R); intros ?
  | |- preserves ?R (first_error_acc _ _ _) =>
      apply (preserves_first_error_acc R); intros ? ?
  | |- preserves ?R (ret _) => apply (preserves_ret R)
  | |- preserves ?R ub => apply (preserves_ub R)
  | |- preserves ?R get_world => apply (preserves_get_world R)
  | |- preserves ?R (deref _) => apply (preserves_deref R)
  | |- preserves ?R get_state => apply (preserves_get_state R)
  | |- preserves ?R state_config => apply (preserves_state_config R)
  | |- preserves ?R (crtcs_at _) => apply (preserves_crtcs_at R)
  | |- preserves ?R (planes_at _) => apply (preserves_planes_at R)
  | |- preserves ?R (connectors_at _) => apply (preserves_connectors_at R)
  | |- preserves ?R (load_crtc_state _) => apply (preserves_load_crtc_state R)
  | |- preserves ?R (load_plane_state _) => apply (preserves_load_plane_state R)
  | |- preserves ?R (load_connector_state _) => apply (preserves_load_connector_state R)
  | |- preserves ?R (user_get _ _) => apply (preserves_user_get R)
  | |- preserves _ (match ?x with _ => _ end) => destruct x
  | |- preserves _ _ => solve [eauto with pres]
  end.

Ltac pres := repeat pres_step.

(** *** The check is read-only but for the driver's hook *)

Section CheckOnly.

Context (R : world -> world -> Prop) `{!PreOrder R}.
Variable drv : drm_driver.
Hypothesis Hhook : forall h, atomic_check drv = Some h -> preserves R (run_hook h).

Lemma check_only_preserves : preserves R (drm_atomic_check_only drv).
Proof.
  unfold drm_atomic_check_only, check_plane_entry, check_crtc_entry, check_modeset_entry.
  pres.
Qed.

End CheckOnly.

Global Instance same_trace_preorder : PreOrder same_trace.
Proof. split; unfold same_trace; [intros w | intros a b c H1 H2]; congruence. Qed.

Global Instance same_device_preorder : PreOrder same_device.
Proof. split; unfold same_device; [intros w | intros a b c H1 H2]; congruence. Qed.

Lemma set_trace_same w : set_trace (w_trace w) w = w.
Proof. destruct w. reflexivity. Qed.

Lemma run_hook_same_trace {A} (h : hook A) : preserves same_trace (run_hook h).
Proof.
  intros w a w' H. unfold run_hook in H. destruct (h w) as [a0 w0].
  injection H as <- <-. reflexivity.
Qed.

Lemma check_only_same_trace drv w r w' :
  drm_atomic_check_only drv w = Some (r, w') -> w_trace w' = w_trace w.
Proof.
  apply (check_only_preserves same_trace drv). intros h _. apply run_hook_same_trace.
Qed.

(** *** Commit validates first (C5) *)

Lemma state_config_inv w cfg w1 :
  state_config w = Some (cfg, w1) -> w1 = w.
Proof.
  intros H. symmetry. revert H. apply (preserves_state_config eq).
Qed.

Lemma check_only_needs_config drv w r w1 :
  drm_atomic_check_only drv w = Some (r, w1) ->
  exists cfg, state_config w = Some (cfg, w).
Proof.
  unfold drm_atomic_check_only. intros H. mstep H.
  pose proof (state_config_inv _ _ _ H0) as ->. eauto.
Qed.

Lemma commit_calls_app t1 t2 : commit_calls (t1 ++ t2) = commit_calls t1 ++ commit_calls t2.
Proof. unfold commit_calls. apply flat_map_app. Qed.

Section Commit.

Variable drv : drm_driver.
Variables (w w1 : world) (r : Z).
Hypothesis Hcheck : drm_atomic_check_only drv w = Some (r, w1).

Lemma commit_entry_eq (nonblock : bool) :
  (if nonblock then drm_atomic_nonblocking_commit drv w else drm_atomic_commit drv w)
  = if negb (r =? 0) then Some (r, w1) else call_atomic_commit drv nonblock w1.
Proof.
  destruct (check_only_needs_config _ _ _ _ Hcheck) as [cfg Hcfg].
  destruct nonblock; unfold drm_atomic_nonblocking_commit, drm_atomic_commit;
    rewrite (bind_eq _ _ _ _ _ Hcfg), (bind_eq _ _ _ _ _ Hcheck);
    destruct (negb (r =? 0)); reflexivity.
Qed.

Lemma call_atomic_commit_eq (nonblock : bool) :
  call_atomic_commit drv nonblock w1
  = Some (fst (atomic_commit drv nonblock w1),
          logged (EvAtomicCommit nonblock (fst (atomic_commit drv nonblock w1)))
            (set_trace (w_trace w1) (snd (atomic_commit drv nonblock w1)))).
Proof.
  unfold call_atomic_commit, run_hook, bind, log, modify, ret, logged.
  destruct (atomic_commit drv nonblock w1) as [r' w2]. reflexivity.
Qed.

End Commit.

(** C5.  Both commit entry points run drm_atomic_check_only first.  If
    the check returns an error, each of them returns that error and leaves
    the machine as the check left it: the commit hook is not called and the
    transaction is neither cleared nor freed, it stays with the caller.  If
    the check returns 0, the commit hook is called once, with the
    nonblocking flag false by drm_atomic_commit and true by
    drm_atomic_nonblocking_commit, on the machine the check left, and its
    return value is returned. *)
Theorem commit_checks_first (drv : drm_driver) (w w1 : world) (r : Z) :
  drm_atomic_check_only drv w = Some (r, w1) ->
  (r <> 0 ->
   drm_atomic_commit drv w = Some (r, w1) /\
   drm_atomic_nonblocking_commit drv w = Some (r, w1) /\
   commit_calls (w_trace w1) = commit_calls (w_trace w)) /\
  (r = 0 ->
   forall nonblock : bool,
   exists r' w',
     (if nonblock then drm_atomic_nonblocking_commit drv w else drm_atomic_commit drv w)
     = Some (r', w') /\
     r' = fst (atomic_commit drv nonblock w1) /\
     w_trace w' = w_trace w ++ [EvAtomicCommit nonblock r'] /\
     commit_calls (w_trace w') = commit_calls (w_trace w) ++ [nonblock]).
Proof.
  intros Hcheck. split.
  - intros Hr.
    pose proof (commit_entry_eq drv w w1 r Hcheck false) as Hc.
    pose proof (commit_entry_eq drv w w1 r Hcheck true) as Hn.
    simpl in Hc, Hn. rewrite (proj2 (Z.eqb_neq _ _) Hr) in Hc, Hn. simpl in Hc, Hn.
    rewrite (check_only_same_trace _ _ _ _ Hcheck). auto.
  - intros -> nonblock.
    pose proof (commit_entry_eq drv w w1 0 Hcheck nonblock) as Hc. simpl in Hc.
    rewrite call_atomic_commit_eq in Hc.
    eexists _, _. split; [exact Hc|]. split; [reflexivity|].
    assert (Ht : w_trace (logged (EvAtomicCommit nonblock (fst (atomic_commit drv nonblock w1)))
                   (set_trace (w_trace w1) (snd (atomic_commit drv nonblock w1))))
                 = w_trace w ++ [EvAtomicCommit nonblock (fst (atomic_commit drv nonblock w1))]).
    { simpl. rewrite (check_only_same_trace _ _ _ _ Hcheck). reflexivity. }
    split; [exact Ht|]. rewrite Ht, commit_calls_app. reflexivity.
Qed.

Lemma commit_checks_first_witness :
  drm_atomic_commit demo_driver demo_world_plane1_bad
  = Some (- EINVAL, demo_world_plane1_bad) /\
  exists r' w',
    drm_atomic_nonblocking_commit demo_driver demo_world_plane1 = Some (r', w') /\
    w_trace w' = w_trace demo_world_plane1 ++ [EvAtomicCommit true r'].
Proof.
  split.
  - apply (commit_checks_first demo_driver demo_world_plane1_bad demo_world_plane1_bad
             (- EINVAL)); [ vm_compute; reflexivity | discriminate ].
  - destruct (commit_checks_first demo_driver demo_world_plane1 demo_world_plane1 0)
      as [_ Hok]; [ vm_compute; reflexivity | ].
    destruct (Hok eq_refl true) as (r' & w' & Hrun & _ & Htrace & _).
    exists r', w'. split; [exact Hrun | exact Htrace].
Defined.

(** *** The check has no effect of its own (C6) *)

Lemma run_hook_pure {A} (h : hook A) :
  (forall w0, snd (h w0) = w0) -> preserves eq (run_hook h).
Proof.
  intros Hpure w a w' H. unfold run_hook in H.
  specialize (Hpure w). destruct (h w) as [a0 w0]. simpl in Hpure. subst w0.
  injection H as <- <-. symmetry. apply set_trace_same.
Qed.

Lemma run_hook_same_device {A} (h : hook A) :
  (forall w0, w_dev (snd (h w0)) = w_dev w0) -> preserves same_device (run_hook h).
Proof.
  intros Hdev w a w' H. unfold run_hook in H.
  specialize (Hdev w). destruct (h w) as [a0 w0]. simpl in Hdev.
  injection H as <- <-. exact Hdev.
Qed.

Lemma check_times_fixed drv w r :
  drm_atomic_check_only drv w = Some (r, w) ->
  forall n, check_times drv n w = Some (replicate n r, w).
Proof.
  intros Hcheck. induction n as [|n IH]; simpl; [reflexivity|].
  rewrite (bind_eq _ _ _ _ _ Hcheck), (bind_eq _ _ _ _ _ IH). reflexivity.
Qed.

(** C6.  drm_atomic_check_only applies nothing to the device: if the
    driver's atomic_check hook leaves the device (with the committed state
    of every object) as it is, so does the check.  And if that hook has no
    side effect at all, the check leaves the whole machine as it is, so
    that any number of calls on the same transaction and device return the
    same result each time. *)
Theorem check_only_no_side_effect (drv : drm_driver) (w : world) (r : Z) (w' : world) :
  drm_atomic_check_only drv w = Some (r, w') ->
  ((forall h, atomic_check drv = Some h -> forall w0, w_dev (snd (h w0)) = w_dev w0) ->
   w_dev w' = w_dev w) /\
  ((forall h, atomic_check drv = Some h -> forall w0, snd (h w0) = w0) ->
   w' = w /\ forall n, check_times drv n w = Some (replicate n r, w)).
Proof.
  intros Hcheck. split.
  - intros Hdev. revert Hcheck.
    apply (check_only_preserves same_device drv).
    intros h Hh. apply run_hook_same_device. exact (Hdev h Hh).
  - intros Hpure.
    assert (Heq : w = w').
    { revert Hcheck. apply (check_only_preserves eq drv).
      intros h Hh. apply run_hook_pure. exact (Hpure h Hh). }
    subst w'. split; [reflexivity|]. apply check_times_fixed. exact Hcheck.
Qed.

Lemma check_only_no_side_effect_witness :
  w_dev demo_world_plane1_bad = demo_device /\
  check_times demo_driver 3 demo_world_plane1_bad
  = Some ([- EINVAL; - EINVAL; - EINVAL], demo_world_plane1_bad).
Proof.
  destruct (check_only_no_side_effect demo_driver demo_world_plane1_bad (- EINVAL)
              demo_world_plane1_bad) as [Hdev Hpure]; [ vm_compute; reflexivity | ].
  split.
  - apply Hdev. intros h [= <-] w0. reflexivity.
  - destruct Hpure as [_ Htimes]; [ intros h [= <-] w0; reflexivity | ].
    exact (Htimes 3%nat).
Defined.

(** *** Linking a plane to a CRTC (C3) *)

Lemma stored_inv_step k o p w w' :
  acquire_step w w' -> stored k o w' = Some p ->
  stored k o w = Some p \/ (stored k o w = None /\ p = w_next w).
Proof.
  intros Hstep. destruct Hstep as
    [l r w | ok w | k' o' w Hnone | alloc st w Hst
    | crtc snapshot st e w Hst He Hnone
    | plane snapshot st e w Hst He Hnone
    | connector snapshot st e w Hst He Hnone]; auto.
  - rewrite stored_grown by exact Hst. auto.
  - unfold stored. simpl. rewrite Hst. destruct k; auto.
    destruct (decide (o = crtc)) as [->|Hne].
    + rewrite list_lookup_insert_eq by (eapply lookup_lt_Some; eauto).
      rewrite He, Hnone. intros [= <-]. auto.
    + rewrite list_lookup_insert_ne by auto. auto.
  - unfold stored. simpl. rewrite Hst. destruct k; auto.
    destruct (decide (o = plane)) as [->|Hne].
    + rewrite list_lookup_insert_eq by (eapply lookup_lt_Some; eauto).
      rewrite He, Hnone. intros [= <-]. auto.
    + rewrite list_lookup_insert_ne by auto. auto.
  - unfold stored. simpl. rewrite Hst. destruct k; auto.
    destruct (decide (o = connector)) as [->|Hne].
    + rewrite list_lookup_insert_eq by (eapply lookup_lt_Some; eauto).
      rewrite He, Hnone. intros [= <-]. auto.
    + rewrite list_lookup_insert_ne by auto. auto.
Qed.

Lemma distinct_step w w' :
  acquire_step w w' -> snapshots_allocated w -> snapshots_distinct w ->
  snapshots_distinct w'.
Proof.
  intros Hstep Ha Hd k o o' p H1 H2.
  destruct (stored_inv_step k o p w w' Hstep H1) as [Ho|[Ho Hp]];
    destruct (stored_inv_step k o' p w w' Hstep H2) as [Ho'|[Ho' Hp']].
  - eapply Hd; eauto.
  - apply Ha in Ho. lia.
  - apply Ha in Ho'. lia.
  - destruct (decide (o = o')) as [|Hne]; [assumption|]. exfalso.
    destruct Hstep as
      [l r w | ok w | k' o'' w Hnone | alloc st w Hst
      | crtc snapshot st e w Hst He Hnone
      | plane snapshot st e w Hst He Hnone
      | connector snapshot st e w Hst He Hnone];
      try (rewrite ?stored_logged, ?stored_grown in H1 by assumption; congruence).
    + unfold stored in H1, H2, Ho, Ho'. simpl in H1, H2. rewrite Hst in Ho, Ho'.
      destruct k; try (rewrite Ho in H1; discriminate).
      destruct (decide (o = crtc)) as [->|Hn1].
      * destruct (decide (o' = crtc)) as [->|Hn2]; [contradiction|].
        rewrite list_lookup_insert_ne in H2 by auto. rewrite Ho' in H2. discriminate.
      * rewrite list_lookup_insert_ne in H1 by auto. rewrite Ho in H1. discriminate.
    + unfold stored in H1, H2, Ho, Ho'. simpl in H1, H2. rewrite Hst in Ho, Ho'.
      destruct k; try (rewrite Ho in H1; discriminate).
      destruct (decide (o = plane)) as [->|Hn1].
      * destruct (decide (o' = plane)) as [->|Hn2]; [contradiction|].
        rewrite list_lookup_insert_ne in H2 by auto. rewrite Ho' in H2. discriminate.
      * rewrite list_lookup_insert_ne in H1 by auto. rewrite Ho in H1. discriminate.
    + unfold stored in H1, H2, Ho, Ho'. simpl in H1, H2. rewrite Hst in Ho, Ho'.
      destruct k; try (rewrite Ho in H1; discriminate).
      destruct (decide (o = connector)) as [->|Hn1].
      * destruct (decide (o' = connector)) as [->|Hn2]; [contradiction|].
        rewrite list_lookup_insert_ne in H2 by auto. rewrite Ho' in H2. discriminate.
      * rewrite list_lookup_insert_ne in H1 by auto. rewrite Ho in H1. discriminate.
Qed.

Lemma allocated_distinct_steps w w' :
  rtc acquire_step w w' -> snapshots_allocated w -> snapshots_distinct w ->
  snapshots_allocated w' /\ snapshots_distinct w'.
Proof.
  induction 1 as [|w1 w2 w3 Hs Hr IH]; [auto|]. intros Ha Hd.
  apply IH; [eapply allocated_step | eapply distinct_step]; eauto.
Qed.

(** The steps leave the CRTC snapshots below the allocator's mark alone. *)
Lemma crtc_heap_step w w' q :
  acquire_step w w' -> (q < w_next w)%nat ->
  w_crtc_states w' !! q = w_crtc_states w !! q /\ (q < w_next w')%nat.
Proof.
  intros Hstep Hq. destruct Hstep as
    [l r w | ok w | k' o' w Hnone | alloc st w Hst
    | crtc snapshot st e w Hst He Hnone
    | plane snapshot st e w Hst He Hnone
    | connector snapshot st e w Hst He Hnone]; simpl; auto.
  rewrite !lookup_insert_ne by lia. auto.
Qed.

Lemma crtc_heap_steps w w' q :
  rtc acquire_step w w' -> (q < w_next w)%nat ->
  w_crtc_states w' !! q = w_crtc_states w !! q.
Proof.
  induction 1 as [|w1 w2 w3 Hs Hr IH]; [reflexivity|]. intros Hq.
  destruct (crtc_heap_step _ _ q Hs Hq) as [H1 H2]. rewrite IH by exact H2. exact H1.
Qed.

Lemma plane_mask_of_steps w w' c m :
  rtc acquire_step w w' -> snapshots_allocated w ->
  plane_mask_of c w = Some m -> plane_mask_of c w' = Some m.
Proof.
  intros Hsteps Ha. unfold plane_mask_of.
  destruct (stored KCrtc c w) as [q|] eqn:Hq; [|discriminate].
  rewrite (stored_steps _ _ _ _ _ Hsteps Hq). cbv beta iota.
  intros H. rewrite <- H. f_equal.
  apply crtc_heap_steps; [exact Hsteps | eapply Ha; eauto].
Qed.

Section LinkPlane.

Variable drv : drm_driver.

(** Acquire the state of a CRTC and rewrite its plane mask with [f]: the
    common shape of unlinking from the old and linking to the new CRTC. *)
Lemma acquire_and_update crtc w (q : ptr) w1 cs (f : Z -> Z) :
  snapshots_allocated w -> snapshots_distinct w ->
  drm_atomic_get_crtc_state drv crtc w = Some (Ptr q, w1) ->
  w_crtc_states w1 !! q = Some cs ->
  let w2 := set_crtc_states
              (<[q := cs_with_plane_mask (f (cs_plane_mask cs)) cs]> (w_crtc_states w1)) w1 in
  plane_mask_of crtc w2 = Some (f (cs_plane_mask cs)) /\
  (forall m, plane_mask_of crtc w = Some m -> cs_plane_mask cs = m) /\
  (forall c' m, c' <> crtc -> plane_mask_of c' w = Some m -> plane_mask_of c' w2 = Some m) /\
  snapshots_allocated w2 /\ snapshots_distinct w2 /\
  w_plane_states w2 = w_plane_states w.
Proof.
  intros Ha Hd Hget Hcs w2.
  pose proof (get_crtc_state_steps drv _ _ _ _ Hget) as [Hsteps Hq].
  specialize (Hq q eq_refl).
  pose proof (get_crtc_state_frame drv _ _ _ _ Hget) as (_ & Hpl & _).
  destruct (allocated_distinct_steps _ _ Hsteps Ha Hd) as [Ha1 Hd1].
  assert (Hsto : forall k o, stored k o w2 = stored k o w1) by reflexivity.
  split; [|split; [|split; [|split; [|split]]]].
  - unfold plane_mask_of. rewrite Hsto, Hq. simpl. rewrite lookup_insert_eq. reflexivity.
  - intros m Hm. pose proof (plane_mask_of_steps _ _ _ _ Hsteps Ha Hm) as Hm1.
    unfold plane_mask_of in Hm1. rewrite Hq in Hm1.
    change (cs_plane_mask <$> w_crtc_states w1 !! q = Some m) in Hm1.
    rewrite Hcs in Hm1. injection Hm1 as <-. reflexivity.
  - intros c' m Hne Hm. pose proof (plane_mask_of_steps _ _ _ _ Hsteps Ha Hm) as Hm1.
    unfold plane_mask_of in *. rewrite Hsto.
    destruct (stored KCrtc c' w1) as [q'|] eqn:Hq'; [|discriminate].
    simpl. rewrite lookup_insert_ne; [exact Hm1|].
    intros ->. apply Hne. eapply Hd1; eauto.
  - intros k o p. rewrite Hsto. apply Ha1.
  - intros k o o' p. rewrite !Hsto. apply Hd1.
  - exact Hpl.
Qed.

Lemma plane_bit_set (m : Z) (plane : nat) :
  (plane < 32)%nat ->
  mask_has (wrap32 (Z.lor m (drm_plane_bit plane))) plane = true /\
  forall j : nat, (j < 32)%nat -> j <> plane ->
    mask_has (wrap32 (Z.lor m (drm_plane_bit plane))) j = mask_has m j.
Proof.
  intros Hp. unfold mask_has, wrap32, drm_plane_bit. rewrite Z.shiftl_1_l. split.
  - rewrite Z.mod_pow2_bits_low by lia.
    rewrite Z.lor_spec, Z.pow2_bits_eqb, Z.eqb_refl by lia. apply orb_true_r.
  - intros j Hj Hne. rewrite Z.mod_pow2_bits_low by lia.
    rewrite Z.lor_spec, Z.pow2_bits_eqb by lia.
    rewrite (proj2 (Z.eqb_neq _ _)) by lia. apply orb_false_r.
Qed.

Lemma plane_bit_cleared (m : Z) (plane : nat) :
  (plane < 32)%nat ->
  mask_has (wrap32 (Z.land m (Z.lnot (drm_plane_bit plane)))) plane = false /\
  forall j : nat, (j < 32)%nat -> j <> plane ->
    mask_has (wrap32 (Z.land m (Z.lnot (drm_plane_bit plane)))) j = mask_has m j.
Proof.
  intros Hp. unfold mask_has, wrap32, drm_plane_bit. rewrite Z.shiftl_1_l. split.
  - rewrite Z.mod_pow2_bits_low by lia.
    rewrite Z.land_spec, Z.lnot_spec, Z.pow2_bits_eqb, Z.eqb_refl by lia.
    apply andb_false_r.
  - intros j Hj Hne. rewrite Z.mod_pow2_bits_low by lia.
    rewrite Z.land_spec, Z.lnot_spec, Z.pow2_bits_eqb by lia.
    rewrite (proj2 (Z.eqb_neq _ _)) by lia. apply andb_true_r.
Qed.

End LinkPlane.

Section SetCrtcForPlane.

Variable drv : drm_driver.

Lemma get_crtc_state_error crtc w e w' :
  drm_atomic_get_crtc_state drv crtc w = Some (ErrPtr e, w') -> e <> 0.
Proof.
  rewrite get_crtc_state_eq.
  destruct (w_state w) as [st|]; [|discriminate].
  destruct (crtcs st !! crtc) as [en|]; [|discriminate].
  destruct (ce_state en); [discriminate|]. cbv zeta.
  destruct (negb (drm_modeset_lock drv w (CrtcMutex crtc) =? 0)) eqn:E.
  - intros [= <- _]. apply negb_true_iff, Z.eqb_neq in E. exact E.
  - destruct (crtc_atomic_duplicate_state drv _ crtc); [discriminate|].
    intros [= <- _]. discriminate.
Qed.

Lemma store_crtc_state_inv q s w u w' :
  store_crtc_state q s w = Some (u, w') ->
  w' = set_crtc_states (<[q := s]> (w_crtc_states w)) w.
Proof.
  unfold store_crtc_state, load_crtc_state. intros H.
  mstep H. mstep H0. mstep H0. mstep H1. mstep H. reflexivity.
Qed.

Lemma load_crtc_state_inv q w cs w' :
  load_crtc_state q w = Some (cs, w') -> w_crtc_states w !! q = Some cs /\ w' = w.
Proof.
  unfold load_crtc_state. intros H. mstep H. mstep H0. mstep H. auto.
Qed.

Lemma load_plane_state_inv q w ps w' :
  load_plane_state q w = Some (ps, w') -> w_plane_states w !! q = Some ps /\ w' = w.
Proof.
  unfold load_plane_state. intros H. mstep H. mstep H0. mstep H. auto.
Qed.

Lemma store_plane_state_inv q s w u w' :
  store_plane_state q s w = Some (u, w') ->
  w' = set_plane_states (<[q := s]> (w_plane_states w)) w.
Proof.
  unfold store_plane_state, load_plane_state. intros H.
  mstep H. mstep H0. mstep H0. mstep H1. mstep H. reflexivity.
Qed.

(** A successful drm_atomic_set_crtc_for_plane that has something to do,
    phase by phase: unlink from the old CRTC, store the new CRTC in the
    plane state, link to the new CRTC. *)
Lemma set_crtc_for_plane_phases (pstate : ptr) crtc w ps w' :
  w_plane_states w !! pstate = Some ps -> ps_crtc ps <> crtc ->
  drm_atomic_set_crtc_for_plane drv pstate crtc w = Some (0, w') ->
  exists wa wb,
    match ps_crtc ps with
    | None => wa = w
    | Some oc =>
        exists q w1 cs,
          drm_atomic_get_crtc_state drv oc w = Some (Ptr q, w1) /\
          w_crtc_states w1 !! q = Some cs /\
          wa = mask_stored q cs
                 (wrap32 (Z.land (cs_plane_mask cs) (Z.lnot (drm_plane_bit (ps_plane ps))))) w1
    end /\
    (exists ps', w_plane_states wa !! pstate = Some ps' /\
       wb = set_plane_states (<[pstate := ps_with_crtc crtc ps']> (w_plane_states wa)) wa) /\
    match crtc with
    | None => w' = wb
    | Some nc =>
        exists q w4 cs,
          drm_atomic_get_crtc_state drv nc wb = Some (Ptr q, w4) /\
          w_crtc_states w4 !! q = Some cs /\
          w' = mask_stored q cs
                 (wrap32 (Z.lor (cs_plane_mask cs) (drm_plane_bit (ps_plane ps)))) w4
    end.
Proof.
  intros Hps Hne H. unfold drm_atomic_set_crtc_for_plane in H.
  mstep H. apply load_plane_state_inv in H0 as [Hps0 ->].
  rewrite Hps in Hps0. injection Hps0 as <-.
  destruct (decide (ps_crtc ps = crtc)) as [|_]; [contradiction|].
  mstep H. rename H0 into Hunlink.
  match type of H with
  | context [match ?u with Some _ => _ | None => _ end] => rename u into unlinked
  end.
  match type of Hunlink with _ = Some (_, ?x) => rename x into wa end.
  assert (Hun : unlinked = None /\
    match ps_crtc ps with
    | None => wa = w
    | Some oc =>
        exists q w1 cs,
          drm_atomic_get_crtc_state drv oc w = Some (Ptr q, w1) /\
          w_crtc_states w1 !! q = Some cs /\
          wa = mask_stored q cs
                 (wrap32 (Z.land (cs_plane_mask cs) (Z.lnot (drm_plane_bit (ps_plane ps))))) w1
    end).
  { destruct (ps_crtc ps) as [oc|].
    - destruct (negb (ps_state ps)); [discriminate Hunlink|].
      mstep Hunlink.
      match type of Hunlink with
      | context [match ?r with Ptr _ => _ | ErrPtr _ => _ end] => destruct r as [q|e]
      end.
      + mstep Hunlink. mstep Hunlink. mstep Hunlink.
        match goal with
        | Hl : load_crtc_state _ _ = Some _ |- _ =>
            apply load_crtc_state_inv in Hl as [Hcs ->]
        end.
        match goal with
        | Hs : store_crtc_state _ _ _ = Some _ |- _ => apply store_crtc_state_inv in Hs as ->
        end.
        split; [reflexivity|]. eexists _, _, _. split; [eassumption|].
        split; [eassumption | reflexivity].
      + mstep Hunlink. mstep H.
        match goal with
        | Hg : drm_atomic_get_crtc_state _ _ _ = Some (ErrPtr _, _) |- _ =>
            apply get_crtc_state_error in Hg; contradiction
        end.
    - mstep Hunlink. auto. }
  destruct Hun as (-> & Hun).
  mstep H.
  match goal with
  | Hl : load_plane_state _ _ = Some (?x, _) |- _ =>
      rename x into ps'; apply load_plane_state_inv in Hl as [Hps' ->]
  end.
  mstep H.
  match goal with
  | Hs : store_plane_state _ _ _ = Some _ |- _ => apply store_plane_state_inv in Hs as ->
  end.
  assert (Hsame : ps' = ps).
  { destruct (ps_crtc ps) as [oc|].
    - destruct Hun as (q0 & w1 & cs & Hg & _ & ->).
      apply get_crtc_state_frame in Hg as (_ & Hpl & _).
      unfold mask_stored in Hps'. simpl in Hps'. rewrite Hpl, Hps in Hps'.
      injection Hps' as <-. reflexivity.
    - subst wa. rewrite Hps in Hps'. injection Hps' as <-. reflexivity. }
  subst ps'.
  exists wa, (set_plane_states (<[pstate := ps_with_crtc crtc ps]> (w_plane_states wa)) wa).
  split; [exact Hun|]. split; [eauto|].
  destruct crtc as [nc|].
  - destruct (negb (ps_state ps)); [discriminate H|].
    mstep H.
    match type of H with
    | context [match ?r with Ptr _ => _ | ErrPtr _ => _ end] => destruct r as [q|e]
    end.
    + mstep H. mstep H. mstep H.
      match goal with
      | Hl : load_crtc_state _ _ = Some _ |- _ =>
          apply load_crtc_state_inv in Hl as [Hcs ->]
      end.
      match goal with
      | Hs : store_crtc_state _ _ _ = Some _ |- _ => apply store_crtc_state_inv in Hs as ->
      end.
      eexists _, _, _. split; [eassumption|]. split; [eassumption | reflexivity].
    + mstep H.
      match goal with
      | Hg : drm_atomic_get_crtc_state _ _ _ = Some (ErrPtr _, _) |- _ =>
          apply get_crtc_state_error in Hg; contradiction
      end.
  - mstep H. reflexivity.
Qed.

End SetCrtcForPlane.

(** C3.  drm_atomic_set_crtc_for_plane on a plane state of a transaction
    whose snapshots are allocated and distinct, for a plane of index below
    32.  If the CRTC given is the one the plane state already names, the
    call returns 0 and changes nothing.  Otherwise, when the call returns 0,
    the plane state names the new CRTC afterwards; the mask of the old
    CRTC's state (which is part of the transaction) no longer has the
    plane's bit and has every other bit as before; and the mask of the new
    CRTC's state has the plane's bit, and every other bit as before if that
    state was already part of the transaction. *)
Theorem set_crtc_for_plane_masks (drv : drm_driver) (w : world) (pstate : ptr)
    (ps : drm_plane_state) (crtc : option nat) :
  w_plane_states w !! pstate = Some ps ->
  (ps_plane ps < 32)%nat ->
  snapshots_allocated w -> snapshots_distinct w ->
  (ps_crtc ps = crtc -> drm_atomic_set_crtc_for_plane drv pstate crtc w = Some (0, w)) /\
  (forall w', drm_atomic_set_crtc_for_plane drv pstate crtc w = Some (0, w') ->
   ps_crtc ps <> crtc ->
   w_plane_states w' !! pstate = Some (ps_with_crtc crtc ps) /\
   (forall oc m, ps_crtc ps = Some oc -> plane_mask_of oc w = Some m ->
      exists m', plane_mask_of oc w' = Some m' /\
                 mask_has m' (ps_plane ps) = false /\
                 forall j : nat, (j < 32)%nat -> j <> ps_plane ps ->
                                 mask_has m' j = mask_has m j) /\
   (forall nc, crtc = Some nc ->
      exists m', plane_mask_of nc w' = Some m' /\
                 mask_has m' (ps_plane ps) = true /\
                 forall m (j : nat), plane_mask_of nc w = Some m ->
                                     (j < 32)%nat -> j <> ps_plane ps ->
                                     mask_has m' j = mask_has m j)).
Proof.
  intros Hps Hplane Ha Hd. split.
  - intros Heq. subst crtc.
    unfold drm_atomic_set_crtc_for_plane, load_plane_state, bind, get_world.
    rewrite Hps. simpl.
    destruct (decide (ps_crtc ps = ps_crtc ps)); [reflexivity | contradiction].
  - intros w' Hcall Hne.
    destruct (set_crtc_for_plane_phases drv pstate crtc w ps w' Hps Hne Hcall)
      as (wa & wb0 & Hun & (ps' & Hps' & ->) & Hlk).
    set (clr := fun m => wrap32 (Z.land m (Z.lnot (drm_plane_bit (ps_plane ps))))).
    set (set := fun m => wrap32 (Z.lor m (drm_plane_bit (ps_plane ps)))).
    (* the unlink phase *)
    assert (Hpha : snapshots_allocated wa /\ snapshots_distinct wa /\
                   w_plane_states wa = w_plane_states w /\
                   (forall oc m, ps_crtc ps = Some oc -> plane_mask_of oc w = Some m ->
                                 plane_mask_of oc wa = Some (clr m)) /\
                   (forall c m, ps_crtc ps <> Some c -> plane_mask_of c w = Some m ->
                                plane_mask_of c wa = Some m)).
    { destruct (ps_crtc ps) as [oc|].
      - destruct Hun as (q & w1 & cs & Hget & Hcs & ->).
        destruct (acquire_and_update drv oc w q w1 cs clr Ha Hd Hget Hcs)
          as (A1 & A2 & A3 & A4 & A5 & A6).
        split; [exact A4|]. split; [exact A5|]. split; [exact A6|]. split.
        + intros oc' m [= <-] Hm. rewrite <- (A2 m Hm). exact A1.
        + intros c m Hc Hm. apply A3; [congruence | exact Hm].
      - subst wa. split; [exact Ha|]. split; [exact Hd|]. split; [reflexivity|].
        split; [discriminate | auto]. }
    destruct Hpha as (Ha' & Hd' & Hpl & Hold & Hother).
    rewrite Hpl, Hps in Hps'. injection Hps' as <-.
    set (wb := set_plane_states _ wa) in *.
    assert (Hwb : forall c, plane_mask_of c wb = plane_mask_of c wa) by reflexivity.
    (* the link phase *)
    destruct crtc as [nc|].
    + destruct Hlk as (q & w4 & cs & Hget & Hcs & ->).
      destruct (acquire_and_update drv nc wb q w4 cs set Ha' Hd' Hget Hcs)
        as (B1 & B2 & B3 & _ & _ & B6).
      split; [|split].
      * unfold mask_stored. change (w_plane_states w4 !! pstate = Some (ps_with_crtc (Some nc) ps)).
        apply get_crtc_state_frame in Hget as (_ & -> & _).
        unfold wb. simpl. apply lookup_insert_eq.
      * intros oc m Hoc Hm. exists (clr m).
        split; [|apply plane_bit_cleared; exact Hplane].
        apply B3; [congruence|]. rewrite Hwb. eapply Hold; eauto.
      * intros nc' [= <-]. exists (set (cs_plane_mask cs)).
        split; [exact B1|].
        destruct (plane_bit_set (cs_plane_mask cs) (ps_plane ps) Hplane) as [Hbit Hrest].
        split; [exact Hbit|]. intros m j Hm Hj Hjne.
        rewrite <- (B2 m); [apply Hrest; assumption|].
        rewrite Hwb. apply Hother; [exact Hne | exact Hm].
    + subst w'. split; [|split].
      * unfold wb. simpl. apply lookup_insert_eq.
      * intros oc m Hoc Hm. exists (clr m).
        split; [|apply plane_bit_cleared; exact Hplane].
        rewrite Hwb. eapply Hold; eauto.
      * discriminate.
Qed.

Lemma set_crtc_for_plane_masks_witness :
  match get_or_create demo_driver KPlane 0 demo_world with
  | Some (Ptr p, w) =>
      match drm_atomic_set_crtc_for_plane demo_driver p (Some 1%nat) w with
      | Some (Z0, w') =>
          drm_atomic_set_crtc_for_plane demo_driver p (Some 0%nat) w = Some (0, w) /\
          plane_mask_of 0 w = Some 1 /\
          (exists m', plane_mask_of 0 w' = Some m' /\ mask_has m' 0 = false) /\
          (exists m', plane_mask_of 1 w' = Some m' /\ mask_has m' 0 = true)
      | _ => False
      end
  | _ => False
  end.
Proof.
  destruct (get_or_create demo_driver KPlane 0 demo_world) as [[[p|err] w]|] eqn:Hget;
    [| vm_compute in Hget; discriminate Hget | vm_compute in Hget; discriminate Hget ].
  assert (Hnone : forall k o, stored k o demo_world = None).
  { intros [] [|[|o]]; reflexivity. }
  destruct (allocated_distinct_steps demo_world w) as [Ha Hd].
  { eapply get_or_create_steps. exact Hget. }
  { intros k o q Hq. rewrite Hnone in Hq. discriminate Hq. }
  { intros k o o' q Hq. rewrite Hnone in Hq. discriminate Hq. }
  assert (Hw : p = 100%nat /\
               w_plane_states w !! 100%nat
               = Some (ps_with_state true (plane_state (demo_plane 0 (Some 0%nat)))) /\
               plane_mask_of 0 w = Some 1).
  { vm_compute in Hget. injection Hget as <- <-. repeat split. }
  destruct Hw as (-> & Hps & Hmask).
  destruct (drm_atomic_set_crtc_for_plane demo_driver 100%nat (Some 1%nat) w)
    as [[r w']|] eqn:Hset.
  - assert (r = 0) as ->.
    { vm_compute in Hget. injection Hget as <-. vm_compute in Hset.
      injection Hset as <- _. reflexivity. }
    destruct (set_crtc_for_plane_masks demo_driver w 100%nat _ (Some 1%nat)
                Hps ltac:(simpl; lia) Ha Hd) as [_ Hlink].
    destruct (Hlink w' Hset) as (_ & Hold & Hnew); [discriminate|].
    split.
    { exact (proj1 (set_crtc_for_plane_masks demo_driver w 100%nat _ (Some 0%nat)
                      Hps ltac:(simpl; lia) Ha Hd) eq_refl). }
    split; [exact Hmask|]. split.
    + destruct (Hold 0%nat 1 eq_refl Hmask) as (m' & H1 & H2 & _). eauto.
    + destruct (Hnew 1%nat eq_refl) as (m' & H1 & H2 & _). eauto.
  - vm_compute in Hget. injection Hget as <-. vm_compute in Hset. discriminate Hset.
Defined.

(** *** Clearing a transaction (C4) *)

(** The rule for a counted loop whose body never fails. *)
Lemma for_loop_inv (I : nat -> world -> Prop) (n : nat) (body : nat -> M unit) :
  (forall i w, (i < n)%nat -> I i w -> exists w', body i w = Some (tt, w') /\ I (S i) w') ->
  forall w, I O w -> exists w', for_loop n body w = Some (tt, w') /\ I n w'.
Proof.
  induction n as [|n IH]; intros Hbody w H0; simpl.
  - exists w. split; [reflexivity | exact H0].
  - destruct (IH (fun i w Hi => Hbody i w (Nat.lt_lt_succ_r _ _ Hi)) w H0) as (w1 & Hrun & Hn).
    destruct (Hbody n w1 (Nat.lt_succ_diag_r n) Hn) as (w2 & Hb & HS).
    exists w2. split; [|exact HS]. rewrite (bind_eq _ _ _ _ _ Hrun). exact Hb.
Qed.

Lemma done_upto_0 {E} (f : E -> E) l : done_upto f 0 l = l.
Proof. unfold done_upto. rewrite take_0, drop_0. reflexivity. Qed.

Lemma done_upto_all {E} (f : E -> E) l : done_upto f (length l) l = map f l.
Proof. unfold done_upto. rewrite firstn_all, drop_all, app_nil_r. reflexivity. Qed.

Lemma done_upto_length {E} (f : E -> E) i l : length (done_upto f i l) = length l.
Proof.
  unfold done_upto. rewrite length_app, length_map, length_take, length_drop. lia.
Qed.

Lemma done_upto_lookup {E} (f : E -> E) i l e :
  l !! i = Some e -> done_upto f i l !! i = Some e.
Proof.
  intros He. unfold done_upto. apply lookup_lt_Some in He as Hlt.
  rewrite lookup_app_r by (rewrite length_map, length_take; lia).
  rewrite length_map, length_take, lookup_drop.
  replace (i + (i - i `min` length l))%nat with i by lia. exact He.
Qed.

Lemma done_upto_S {E} (f : E -> E) i l e :
  l !! i = Some e -> <[i := f e]> (done_upto f i l) = done_upto f (S i) l.
Proof.
  intros He. unfold done_upto. apply lookup_lt_Some in He as Hlt.
  rewrite (take_S_r _ _ _ He), map_app. simpl.
  rewrite (drop_S _ _ _ He).
  rewrite insert_app_r_alt by (rewrite length_map, length_take; lia).
  rewrite length_map, length_take.
  replace (i - i `min` length l)%nat with O by lia. simpl.
  rewrite <- app_assoc. reflexivity.
Qed.

Lemma flat_map_take_S {E B} (g : E -> list B) i l e :
  l !! i = Some e -> flat_map g (take (S i) l) = flat_map g (take i l) ++ g e.
Proof.
  intros He. rewrite (take_S_r _ _ _ He), flat_map_app. simpl.
  rewrite app_nil_r. reflexivity.
Qed.

Lemma destroyed_app t1 t2 : destroyed (t1 ++ t2) = destroyed t1 ++ destroyed t2.
Proof. apply flat_map_app. Qed.

Lemma duplicated_app t1 t2 : duplicated (t1 ++ t2) = duplicated t1 ++ duplicated t2.
Proof. apply flat_map_app. Qed.

Lemma with_tables_same st : with_tables (connectors st) (crtcs st) (planes st) st = st.
Proof. destruct st. reflexivity. Qed.

(** The primitive actions of clear, as equations. *)

Lemma connectors_at_eq i w st e :
  w_state w = Some st -> connectors st !! i = Some e -> connectors_at i w = Some (e, w).
Proof.
  intros Hst He. unfold connectors_at, get_state, bind, get_world, deref, ret.
  rewrite Hst. simpl. rewrite He. reflexivity.
Qed.

Lemma crtcs_at_eq i w st e :
  w_state w = Some st -> crtcs st !! i = Some e -> crtcs_at i w = Some (e, w).
Proof.
  intros Hst He. unfold crtcs_at, get_state, bind, get_world, deref, ret.
  rewrite Hst. simpl. rewrite He. reflexivity.
Qed.

Lemma planes_at_eq i w st e :
  w_state w = Some st -> planes st !! i = Some e -> planes_at i w = Some (e, w).
Proof.
  intros Hst He. unfold planes_at, get_state, bind, get_world, deref, ret.
  rewrite Hst. simpl. rewrite He. reflexivity.
Qed.

Lemma connectors_store_eq i e' w st e :
  w_state w = Some st -> connectors st !! i = Some e ->
  connectors_store i e' w
  = Some (tt, set_state (Some (set_connectors (<[i := e']> (connectors st)) st)) w).
Proof.
  intros Hst He. unfold connectors_store, put_state, get_state, bind, get_world, deref,
    modify, ret.
  rewrite Hst. simpl. rewrite He. reflexivity.
Qed.

Lemma crtcs_store_eq i e' w st e :
  w_state w = Some st -> crtcs st !! i = Some e ->
  crtcs_store i e' w = Some (tt, set_state (Some (set_crtcs (<[i := e']> (crtcs st)) st)) w).
Proof.
  intros Hst He. unfold crtcs_store, put_state, get_state, bind, get_world, deref,
    modify, ret.
  rewrite Hst. simpl. rewrite He. reflexivity.
Qed.

Lemma planes_store_eq i e' w st e :
  w_state w = Some st -> planes st !! i = Some e ->
  planes_store i e' w
  = Some (tt, set_state (Some (set_planes (<[i := e']> (planes st)) st)) w).
Proof.
  intros Hst He. unfold planes_store, put_state, get_state, bind, get_world, deref,
    modify, ret.
  rewrite Hst. simpl. rewrite He. reflexivity.
Qed.

Lemma connector_destroy_eq c s w :
  connector_atomic_destroy_state c s w
  = Some (tt, set_connector_states
                (match s with
                 | Some p => delete p (w_connector_states w)
                 | None => w_connector_states w
                 end) (logged (EvDestroy KConnector c s) w)).
Proof. destruct s; reflexivity. Qed.

Lemma crtc_destroy_eq c s w :
  crtc_atomic_destroy_state c s w
  = Some (tt, set_crtc_states
                (match s with
                 | Some p => delete p (w_crtc_states w)
                 | None => w_crtc_states w
                 end) (logged (EvDestroy KCrtc c s) w)).
Proof. destruct s; reflexivity. Qed.

Lemma plane_destroy_eq c s w :
  plane_atomic_destroy_state c s w
  = Some (tt, set_plane_states
                (match s with
                 | Some p => delete p (w_plane_states w)
                 | None => w_plane_states w
                 end) (logged (EvDestroy KPlane c s) w)).
Proof. destruct s; reflexivity. Qed.

Section Clear.

Variables (w0 : world) (st0 : drm_atomic_state).
Hypothesis Hready : clear_ready w0 st0.

Lemma clear_connector_turn i w :
  (i < length (connectors st0))%nat -> connectors_cleared w0 st0 i w ->
  exists w', clear_connector i w = Some (tt, w') /\ connectors_cleared w0 st0 (S i) w'.
Proof.
  intros Hi (Hdev & Hst & Hcm & delta & Htr & Hdes & Hdup).
  destruct (lookup_lt_is_Some_2 _ _ Hi) as [e He].
  pose proof (done_upto_lookup cleared_connectors_entry i _ e He) as Hcur.
  unfold clear_connector.
  rewrite (bind_eq _ _ _ _ _ (connectors_at_eq i w _ e Hst Hcur)).
  destruct (cne_ptr e) as [connector|] eqn:Hptr.
  - rewrite (bind_eq _ _ _ _ _ (connector_destroy_eq connector (cne_state e) w)).
    erewrite bind_eq by (eapply connectors_store_eq; [exact Hst | exact Hcur]).
    eexists. split; [reflexivity|].
    split; [exact Hdev|]. split; [|split; [exact Hcm|]].
    + simpl. f_equal. unfold with_tables, set_planes, set_crtcs, set_connectors. simpl.
      rewrite <- (done_upto_S cleared_connectors_entry i _ e He).
      unfold cleared_connectors_entry. rewrite Hptr. reflexivity.
    + exists (delta ++ [EvDestroy KConnector connector (cne_state e);
                        EvConnectorUnreference connector]).
      simpl. rewrite Htr, <- !app_assoc. split; [reflexivity|].
      rewrite destroyed_app, duplicated_app, Hdes, Hdup.
      unfold held_connectors. rewrite (flat_map_take_S _ i _ e He), Hptr. auto.
  - exists w. split; [reflexivity|].
    split; [exact Hdev|]. split; [|split; [exact Hcm|]].
    + rewrite Hst. f_equal. f_equal.
      rewrite <- (done_upto_S cleared_connectors_entry i _ e He).
      unfold cleared_connectors_entry. rewrite Hptr.
      symmetry. apply list_insert_id. exact Hcur.
    + exists delta. split; [exact Htr|]. split; [|exact Hdup].
      unfold held_connectors. rewrite (flat_map_take_S _ i _ e He), Hptr, app_nil_r.
      exact Hdes.
Qed.

Lemma cancel_commit_turn commit cc w :
  w_commits w !! commit = Some cc -> cc_ref cc <> O ->
  exists w', cancel_commit commit w = Some (tt, w') /\
             w_dev w' = w_dev w /\ w_state w' = w_state w /\
             w_trace w' = w_trace w ++ [EvKfreeEvent (cc_event cc); EvCommitPut commit] /\
             forall c', c' <> commit -> w_commits w' !! c' = w_commits w !! c'.
Proof.
  intros Hcc Href. unfold cancel_commit, drm_crtc_commit_put, log, modify, bind, get_world,
    deref, ret.
  rewrite Hcc. simpl. rewrite lookup_insert_eq. simpl.
  destruct (cc_ref cc) as [|[|n]]; [contradiction| |].
  - eexists. split; [reflexivity|]. simpl. rewrite <- app_assoc.
    repeat split; auto.
    intros c' Hne. rewrite lookup_delete_ne, lookup_insert_ne by auto. reflexivity.
  - eexists. split; [reflexivity|]. simpl. rewrite <- app_assoc.
    repeat split; auto.
    intros c' Hne. rewrite !lookup_insert_ne by auto. reflexivity.
Qed.

Lemma clear_crtc_turn i w :
  (i < length (crtcs st0))%nat -> crtcs_cleared w0 st0 i w ->
  exists w', clear_crtc i w = Some (tt, w') /\ crtcs_cleared w0 st0 (S i) w'.
Proof.
  intros Hi (Hdev & Hst & Hlive & delta & Htr & Hdes & Hdup).
  destruct (lookup_lt_is_Some_2 _ _ Hi) as [e He].
  pose proof (done_upto_lookup cleared_crtcs_entry i _ e He) as Hcur.
  unfold clear_crtc.
  rewrite (bind_eq _ _ _ _ _ (crtcs_at_eq i w _ e Hst Hcur)).
  destruct (ce_ptr e) as [crtc|] eqn:Hptr.
  - rewrite (bind_eq _ _ _ _ _ (crtc_destroy_eq crtc (ce_state e) w)).
    set (w1 := set_crtc_states _ _).
    assert (Hnext : forall e1 e2 j, crtcs st0 !! j = Some e2 -> is_Some (ce_ptr e2) ->
                    (S i <= j)%nat -> ce_commit e = Some e1 -> ce_commit e2 = Some e1 -> False).
    { intros c e2 j Hj Hp2 Hlt Hc1 Hc2.
      assert (i = j); [|lia].
      eapply (cr_commit_own _ _ Hready i j e e2 c); eauto. }
    assert (Hcancel : exists w2,
      match ce_commit e with Some commit => cancel_commit commit | None => ret tt end w1
      = Some (tt, w2) /\
      w_dev w2 = w_dev w1 /\ w_state w2 = w_state w1 /\
      (exists d, w_trace w2 = w_trace w1 ++ d /\ destroyed d = [] /\ duplicated d = []) /\
      forall j e2 c, (S i <= j)%nat -> crtcs st0 !! j = Some e2 -> is_Some (ce_ptr e2) ->
                     ce_commit e2 = Some c ->
                     exists cc, w_commits w2 !! c = Some cc /\ cc_ref cc <> O).
    { destruct (ce_commit e) as [commit|] eqn:Hcommit.
      - destruct (Hlive i e commit (Nat.le_refl i) He ltac:(rewrite Hptr; eauto) Hcommit)
          as (cc & Hcc & Href).
        destruct (cancel_commit_turn commit cc w1 Hcc Href)
          as (w2 & Hrun & Hd2 & Hs2 & Ht2 & Hc2).
        exists w2. split; [exact Hrun|]. split; [exact Hd2|]. split; [exact Hs2|].
        split; [eexists; split; [exact Ht2|]; split; reflexivity|].
        intros j e2 c Hj He2 Hp2 Hcm2.
        rewrite Hc2; [apply (Hlive j e2 c); auto; lia|].
        intros ->. eapply Hnext; eauto.
      - exists w1. split; [reflexivity|]. split; [reflexivity|]. split; [reflexivity|].
        split; [exists []; rewrite app_nil_r; auto|].
        intros j e2 c Hj. apply Hlive. lia. }
    destruct Hcancel as (w2 & Hrun & Hd2 & Hs2 & (d & Ht2 & Hdd & Hdu) & Hlive2).
    rewrite (bind_eq _ _ _ _ _ Hrun).
    assert (Hst2 : w_state w2 = Some (with_tables
                      (map cleared_connectors_entry (connectors st0))
                      (done_upto cleared_crtcs_entry i (crtcs st0)) (planes st0) st0)).
    { rewrite Hs2. exact Hst. }
    erewrite crtcs_store_eq by (first [exact Hst2 | exact Hcur]).
    eexists. split; [reflexivity|].
    split; [simpl; rewrite Hd2; exact Hdev|]. split; [|split; [exact Hlive2|]].
    + simpl. f_equal. unfold with_tables, set_planes, set_crtcs, set_connectors. simpl.
      rewrite <- (done_upto_S cleared_crtcs_entry i _ e He).
      unfold cleared_crtcs_entry. rewrite Hptr. reflexivity.
    + exists ((delta ++ [EvDestroy KCrtc crtc (ce_state e)]) ++ d). split.
      { simpl. rewrite Ht2. unfold w1. simpl. rewrite Htr, <- !app_assoc. reflexivity. }
      rewrite !destroyed_app, !duplicated_app, Hdes, Hdup, Hdd, Hdu.
      unfold held_crtcs. rewrite (flat_map_take_S _ i _ e He), Hptr.
      simpl. rewrite !app_nil_r, <- app_assoc. auto.
  - exists w. split; [reflexivity|].
    split; [exact Hdev|]. split; [|split].
    + rewrite Hst. f_equal. f_equal.
      rewrite <- (done_upto_S cleared_crtcs_entry i _ e He).
      unfold cleared_crtcs_entry. rewrite Hptr.
      symmetry. apply list_insert_id. exact Hcur.
    + intros j e2 c Hj. apply Hlive. lia.
    + exists delta. split; [exact Htr|]. split; [|exact Hdup].
      unfold held_crtcs. rewrite (flat_map_take_S _ i _ e He), Hptr, app_nil_r.
      exact Hdes.
Qed.

Lemma clear_plane_turn i w :
  (i < length (planes st0))%nat -> planes_cleared w0 st0 i w ->
  exists w', clear_plane i w = Some (tt, w') /\ planes_cleared w0 st0 (S i) w'.
Proof.
  intros Hi (Hdev & Hst & delta & Htr & Hdes & Hdup).
  destruct (lookup_lt_is_Some_2 _ _ Hi) as [e He].
  pose proof (done_upto_lookup cleared_planes_entry i _ e He) as Hcur.
  unfold clear_plane.
  rewrite (bind_eq _ _ _ _ _ (planes_at_eq i w _ e Hst Hcur)).
  destruct (pe_ptr e) as [plane|] eqn:Hptr.
  - rewrite (bind_eq _ _ _ _ _ (plane_destroy_eq plane (pe_state e) w)).
    erewrite planes_store_eq by (first [exact Hst | exact Hcur]).
    eexists. split; [reflexivity|].
    split; [exact Hdev|]. split.
    + simpl. f_equal. unfold with_tables, set_planes, set_crtcs, set_connectors. simpl.
      rewrite <- (done_upto_S cleared_planes_entry i _ e He).
      unfold cleared_planes_entry. rewrite Hptr. reflexivity.
    + exists (delta ++ [EvDestroy KPlane plane (pe_state e)]).
      simpl. rewrite Htr, <- !app_assoc. split; [reflexivity|].
      rewrite destroyed_app, duplicated_app, Hdes, Hdup.
      unfold held_planes. rewrite (flat_map_take_S _ i _ e He), Hptr.
      simpl. rewrite <- !app_assoc. auto.
  - exists w. split; [reflexivity|].
    split; [exact Hdev|]. split.
    + rewrite Hst. f_equal. f_equal.
      rewrite <- (done_upto_S cleared_planes_entry i _ e He).
      unfold cleared_planes_entry. rewrite Hptr.
      symmetry. apply list_insert_id. exact Hcur.
    + exists delta. split; [exact Htr|]. split; [|exact Hdup].
      unfold held_planes. rewrite (flat_map_take_S _ i _ e He), Hptr, app_nil_r.
      exact Hdes.
Qed.

End Clear.

Lemma state_config_eq w st :
  w_state w = Some st -> st_dev st = true ->
  state_config w = Some (mode_config (w_dev w), w).
Proof.
  intros Hst Hdev. unfold state_config, get_state, bind, get_world, deref, ret.
  rewrite Hst. simpl. rewrite Hdev. reflexivity.
Qed.

Lemma get_state_eq w st : w_state w = Some st -> get_state w = Some (st, w).
Proof.
  intros Hst. unfold get_state, bind, get_world, deref, ret. rewrite Hst. reflexivity.
Qed.

Lemma default_clear_run w0 st0 :
  clear_ready w0 st0 ->
  exists w', drm_atomic_state_default_clear w0 = Some (tt, w') /\
             planes_cleared w0 st0 (length (planes st0)) w'.
Proof.
  intros Hready. pose proof Hready as [Hst Hdev Hcl Hpl Hcp Hpp Hnp Hlive Hown].
  unfold drm_atomic_state_default_clear.
  rewrite (bind_eq _ _ _ _ _ (state_config_eq w0 st0 Hst Hdev)).
  rewrite (bind_eq _ _ _ _ _ (get_state_eq w0 st0 Hst)).
  (* the connectors *)
  destruct (for_loop_inv (connectors_cleared w0 st0) (length (connectors st0))
              clear_connector (clear_connector_turn w0 st0) w0) as (w1 & Hrun1 & H1).
  { split; [reflexivity|]. split; [|split; [reflexivity|]].
    - rewrite done_upto_0, with_tables_same. exact Hst.
    - exists []. rewrite app_nil_r. auto. }
  rewrite (bind_eq _ _ _ _ _ Hrun1).
  (* the CRTCs *)
  destruct H1 as (Hdev1 & Hst1 & Hcm1 & delta1 & Htr1 & Hdes1 & Hdup1).
  rewrite done_upto_all in Hst1. rewrite firstn_all in Hdes1.
  destruct (for_loop_inv (crtcs_cleared w0 st0) (num_crtc (mode_config (w_dev w0)))
              clear_crtc) with (w := w1) as (w2 & Hrun2 & H2).
  { intros i w Hi. apply (clear_crtc_turn w0 st0 Hready). rewrite Hcl. exact Hi. }
  { split; [exact Hdev1|]. split; [|split].
    - rewrite done_upto_0. exact Hst1.
    - intros j e c _ He Hp Hc. rewrite Hcm1. eapply Hlive; eauto.
    - exists delta1. rewrite app_nil_r. auto. }
  rewrite (bind_eq _ _ _ _ _ Hrun2).
  (* the planes *)
  destruct H2 as (Hdev2 & Hst2 & _ & delta2 & Htr2 & Hdes2 & Hdup2).
  rewrite <- Hcl, done_upto_all in Hst2. rewrite <- Hcl, firstn_all in Hdes2.
  destruct (for_loop_inv (planes_cleared w0 st0) (num_total_plane (mode_config (w_dev w0)))
              clear_plane) with (w := w2) as (w3 & Hrun3 & H3).
  { intros i w Hi. apply (clear_plane_turn w0 st0). rewrite Hpl. exact Hi. }
  { split; [exact Hdev2|]. split.
    - rewrite done_upto_0. exact Hst2.
    - exists delta2. simpl. rewrite app_nil_r. auto. }
  exists w3. split; [exact Hrun3|]. rewrite <- Hpl in H3. exact H3.
Qed.



Lemma flat_map_nil {E B} (g : E -> list B) (l : list E) :
  (forall i e, l !! i = Some e -> g e = []) -> flat_map g l = [].
Proof.
  induction l as [|x l IH]; intros H; [reflexivity|]. simpl.
  rewrite (H O x eq_refl), IH; [reflexivity|].
  intros i e He. apply (H (S i) e He).
Qed.


(** The hypothesis on the duplicated snapshots is an invariant of
    get-or-create. *)

Lemma flat_map_insert {E B} (g : E -> list B) (l : list E) i e e' :
  l !! i = Some e -> g e = [] ->
  Permutation (flat_map g (<[i := e']> l)) (g e' ++ flat_map g l).
Proof.
  revert i. induction l as [|x l IH]; intros i He Hg; [destruct i; discriminate|].
  destruct i as [|i]; simpl in *.
  - injection He as ->. rewrite Hg. reflexivity.
  - rewrite (IH i He Hg). rewrite !app_assoc.
    apply Permutation_app_tail, Permutation_app_comm.
Qed.

Lemma tight_step w w' : acquire_step w w' -> tight w -> tight w'.
Proof.
  intros Hstep Ht. destruct Hstep as
    [l r w | ok w | k' o' w Hnone | alloc st w Hst
    | crtc snapshot st e w Hst He Hnone
    | plane snapshot st e w Hst He Hnone
    | connector snapshot st e w Hst He Hnone]; try exact Ht;
    intros st' [= <-]; destruct (Ht st Hst) as (Hc & Hp & Hn); simpl;
    (split; [|split]); auto.
  - intros i e He. destruct (decide (i < length (connectors st))%nat) as [Hlt|Hge].
    + rewrite lookup_app_l in He by exact Hlt. eauto.
    + rewrite lookup_app_r in He by lia. apply lookup_replicate in He as [-> _].
      split; reflexivity.
  - intros i e' He'. destruct (decide (i = crtc)) as [->|Hne].
    + rewrite list_lookup_insert_eq in He' by (eapply lookup_lt_Some; eauto).
      injection He' as <-. simpl. split; discriminate.
    + rewrite list_lookup_insert_ne in He' by auto. eauto.
  - intros i e' He'. destruct (decide (i = plane)) as [->|Hne].
    + rewrite list_lookup_insert_eq in He' by (eapply lookup_lt_Some; eauto).
      injection He' as <-. simpl. split; discriminate.
    + rewrite list_lookup_insert_ne in He' by auto. eauto.
  - intros i e' He'. destruct (decide (i = connector)) as [->|Hne].
    + rewrite list_lookup_insert_eq in He' by (eapply lookup_lt_Some; eauto).
      injection He' as <-. simpl. split; discriminate.
    + rewrite list_lookup_insert_ne in He' by auto. eauto.
Qed.

Lemma balanced_step w w' : acquire_step w w' -> tight w -> balanced w -> balanced w'.
Proof.
  intros Hstep Ht. unfold balanced. destruct Hstep as
    [l r w | ok w | k' o' w Hnone | alloc st w Hst
    | crtc snapshot st e w Hst He Hnone
    | plane snapshot st e w Hst He Hnone
    | connector snapshot st e w Hst He Hnone].
  - unfold logged, held. simpl. rewrite duplicated_app, destroyed_app. simpl. rewrite !app_nil_r. auto.
  - unfold logged, held. simpl. rewrite duplicated_app, destroyed_app. simpl. rewrite !app_nil_r. auto.
  - unfold logged, held. simpl. rewrite duplicated_app, destroyed_app. simpl. rewrite !app_nil_r. auto.
  - unfold held. simpl. rewrite Hst. 
    assert (Hg : held_connectors (connectors st ++
          replicate (alloc - length (connectors st)) empty_connectors_entry)
          = held_connectors (connectors st)).
    { unfold held_connectors. rewrite flat_map_app.
      rewrite (flat_map_nil _ (replicate _ _)); [apply app_nil_r|].
      intros i e He. apply lookup_replicate in He as [-> _]. reflexivity. }
    rewrite Hg. auto.
  - destruct (Ht st Hst) as (Hc & _ & _). intros Hbal.
    unfold held in *. simpl. rewrite Hst in Hbal.
    rewrite duplicated_app, destroyed_app. simpl. rewrite !app_nil_r.
    unfold held_crtcs at 1.
    rewrite flat_map_insert with (e := e); [|exact He|].
    2: { rewrite (proj2 (Hc crtc e He) Hnone). reflexivity. }
    simpl. fold (held_crtcs (crtcs st)). rewrite Hbal.
    rewrite <- !app_assoc. do 2 apply Permutation_app_head.
    rewrite app_assoc. symmetry. apply Permutation_cons_append.
  - destruct (Ht st Hst) as (_ & Hp & _). intros Hbal.
    unfold held in *. simpl. rewrite Hst in Hbal.
    rewrite duplicated_app, destroyed_app. simpl. rewrite !app_nil_r.
    unfold held_planes at 1.
    rewrite flat_map_insert with (e := e); [|exact He|].
    2: { rewrite (proj2 (Hp plane e He) Hnone). reflexivity. }
    simpl. fold (held_planes (planes st)). rewrite Hbal.
    rewrite <- !app_assoc. do 3 apply Permutation_app_head.
    symmetry. apply Permutation_cons_append.
  - destruct (Ht st Hst) as (_ & _ & Hn). intros Hbal.
    unfold held in *. simpl. rewrite Hst in Hbal.
    rewrite duplicated_app, destroyed_app. simpl. rewrite !app_nil_r.
    unfold held_connectors at 1.
    rewrite flat_map_insert with (e := e); [|exact He|].
    2: { rewrite (proj2 (Hn connector e He) Hnone). reflexivity. }
    simpl. fold (held_connectors (connectors st)). rewrite Hbal.
    rewrite <- !app_assoc. apply Permutation_app_head.
    simpl. rewrite !app_assoc. symmetry. apply Permutation_cons_append.
Qed.

Lemma balanced_steps w w' :
  rtc acquire_step w w' -> tight w -> balanced w -> tight w' /\ balanced w'.
Proof.
  induction 1 as [|w1 w2 w3 Hs Hr IH]; [auto|]. intros Ht Hb.
  apply IH; [eapply tight_step | eapply balanced_step]; eauto.
Qed.

(** Whatever get-or-create calls were made on a balanced transaction, the
    snapshots it holds are the duplicated ones not yet destroyed. *)
Lemma run_gets_balanced drv calls w results w' :
  run_gets drv calls w = Some (results, w') -> tight w -> balanced w ->
  tight w' /\ balanced w'.
Proof.
  intros Hrun. apply balanced_steps. eapply run_gets_steps. exact Hrun.
Qed.


(** ** The ioctl loop *)

#[export] Instance silent_preorder p : PreOrder (silent p).
Proof.
  split.
  - intros w. reflexivity.
  - intros w1 w2 w3 H1 H2. unfold silent in *. congruence.
Qed.


Lemma quiet_modify p f :
  (forall w, w_trace (f w) = w_trace w) -> preserves (silent p) (modify f).
Proof. intros Hf w b w' H. mstep H. unfold silent. rewrite Hf. reflexivity. Qed.

Lemma quiet_log p e : p e = false -> preserves (silent p) (log e).
Proof.
  intros He w b w' H. unfold log in H. mstep H. unfold silent. simpl.
  rewrite List.filter_app. simpl. rewrite He. apply app_nil_r.
Qed.

Lemma quiet_alloc p : preserves (silent p) alloc.
Proof. intros w b w' H. unfold alloc in H. injection H as <- <-. reflexivity. Qed.

Lemma quiet_run_hook {A} p (h : hook A) : preserves (silent p) (run_hook h).
Proof.
  intros w b w' H. unfold run_hook in H. destruct (h w) as [a w1].
  injection H as <- <-. reflexivity.
Qed.

Lemma quiet_step w w' : acquire_step w w' -> silent is_restart w w'.
Proof.
  intros []; unfold silent, logged; simpl; rewrite ?List.filter_app; simpl;
    rewrite ?app_nil_r; reflexivity.
Qed.

Lemma quiet_steps w w' : rtc acquire_step w w' -> silent is_restart w w'.
Proof.
  induction 1 as [|w1 w2 w3 Hs Hr IH]; [reflexivity|].
  etrans; [apply quiet_step|]; eauto.
Qed.

Lemma quiet_get_crtc_state drv crtc :
  preserves (silent is_restart) (drm_atomic_get_crtc_state drv crtc).
Proof. intros w r w' H. apply quiet_steps. eapply get_crtc_state_steps; eauto. Qed.

Lemma quiet_get_plane_state drv plane :
  preserves (silent is_restart) (drm_atomic_get_plane_state drv plane).
Proof. intros w r w' H. apply quiet_steps. eapply get_plane_state_steps; eauto. Qed.

Lemma quiet_get_connector_state drv connector :
  preserves (silent is_restart) (drm_atomic_get_connector_state drv connector).
Proof. intros w r w' H. apply quiet_steps. eapply get_connector_state_steps; eauto. Qed.

#[export] Hint Resolve quiet_alloc quiet_run_hook quiet_get_crtc_state
  quiet_get_plane_state quiet_get_connector_state : pres.

Ltac head_of t :=
  match t with
  | ?f _ => head_of f
  | _ => t
  end.

(** Proves that a function logs no event selected by [p], along its
    structure, opening the definitions of the functions it calls. *)
Ltac quiet_step :=
  match goal with
  | |- preserves (silent _) (modify _) =>
      apply quiet_modify; intros ?;
      repeat match goal with |- context [match ?x with _ => _ end] => destruct x end;
      reflexivity
  | |- preserves (silent _) (log _) => apply quiet_log; reflexivity
  | |- _ => pres_step
  | |- preserves (silent _) ?m => let h := head_of m in unfold h
  end.

Ltac quiet := repeat quiet_step.

(** Nothing below the loop clears the transaction or backs off. *)






Lemma quiet_state_clear drv : preserves (silent is_backoff) (drm_atomic_state_clear drv).
Proof. unfold drm_atomic_state_clear. quiet. Qed.

(** The loop, one round at a time. *)
Lemma atomic_ioctl_retry_round drv fuel arg fp w :
  atomic_ioctl_retry drv (S fuel) arg fp w =
  match atomic_ioctl_round drv arg fp w with
  | None => None
  | Some (r, w1) =>
      if r =? - EDEADLK then
        match drm_atomic_state_clear drv w1 with
        | Some (_, w2) => atomic_ioctl_retry drv fuel arg fp (logged EvBackoff w2)
        | None => None
        end
      else if negb (r =? 0) || has_flag (flags arg) DRM_MODE_ATOMIC_TEST_ONLY then
        match drm_atomic_state_free drv true w1 with
        | Some (_, w2) => Some (Some r, logged EvDropLocks w2)
        | None => None
        end
      else Some (Some r, logged EvDropLocks w1)
  end.
Proof.
  simpl. unfold atomic_ioctl_round, bind.
  destruct (atomic_ioctl_attempt drv arg fp w) as [[[[r mask] fences] w1]|]; [|reflexivity].
  destruct (drm_atomic_clean_old_fb mask r w1) as [[[] w2]|]; [|reflexivity].
  destruct (complete_crtc_signaling drv fences (r =? 0) w2) as [[[] w3]|]; [|reflexivity].
  simpl. destruct (r =? - EDEADLK).
  - destruct (drm_atomic_state_clear drv w3) as [[[] w4]|]; reflexivity.
  - unfold atomic_ioctl_finish, bind.
    destruct (negb (r =? 0) || has_flag (flags arg) DRM_MODE_ATOMIC_TEST_ONLY).
    + destruct (drm_atomic_state_free drv true w3) as [[[] w4]|]; reflexivity.
    + reflexivity.
Qed.



(** The teardown frees the transaction once; with the default hook no
    transaction is left. *)
Lemma state_free_torn_down drv w w' :
  drm_atomic_state_free drv true w = Some (tt, w') ->
  List.filter is_free (w_trace w') = List.filter is_free (w_trace w) ++ [EvStateFree] /\
  (atomic_state_free drv = None -> w_state w' = None).
Proof.
  unfold drm_atomic_state_free. simpl. intros H.
  apply bind_Some in H as (c & wa & Hc & H).
  apply bind_Some in H as ([] & wb & Hclear & H).
  apply bind_Some in H as ([] & wc & Hl & H).
  apply (preserves_state_config eq) in Hc. subst wa.
  assert (Hs1 : silent is_free w wb).
  { assert (Hq : preserves (silent is_free) (drm_atomic_state_clear drv))
      by (unfold drm_atomic_state_clear; quiet).
    exact (Hq _ _ _ Hclear). }
  unfold log, modify in Hl. injection Hl as <-.
  split.
  - assert (Hs2 : silent is_free (set_trace (w_trace wb ++ [EvStateFree]) wb) w').
    { destruct (atomic_state_free drv) as [h|].
      - eapply quiet_run_hook; eauto.
      - assert (Hq : preserves (silent is_free)
                       (let* _ := drm_atomic_state_default_release in modify (set_state None)))
          by quiet.
        exact (Hq _ _ _ H). }
    unfold silent in Hs1, Hs2. rewrite Hs2. simpl. rewrite List.filter_app, Hs1. reflexivity.
  - intros Hnone. rewrite Hnone in H.
    apply bind_Some in H as ([] & wd & _ & H).
    unfold modify in H. injection H as <-. reflexivity.
Qed.

(** *** A refused lock ends the assembly with its error *)

Lemma outcome_silent r w w' : silent is_refusal w w' -> refusal_outcome r w w'.
Proof. intros H. left. exact H. Qed.

Lemma outcome_zero w w' : refusal_outcome 0 w w' -> silent is_refusal w w'.
Proof. intros [H|(l & Hne & _)]; [exact H | contradiction]. Qed.

Lemma outcome_after r w w1 w2 :
  silent is_refusal w w1 -> refusal_outcome r w1 w2 -> refusal_outcome r w w2.
Proof.
  intros Hs [H|(l & Hne & H)].
  - left. etrans; eauto.
  - right. exists l. split; [exact Hne|]. rewrite H, Hs. reflexivity.
Qed.

Lemma outcome_before r w w1 w2 :
  refusal_outcome r w w1 -> silent is_refusal w1 w2 -> refusal_outcome r w w2.
Proof.
  intros [H|(l & Hne & H)] Hs.
  - left. etrans; eauto.
  - right. exists l. split; [exact Hne|]. rewrite Hs, H. reflexivity.
Qed.

Lemma propagates_quiet {A} (code : A -> Z) (m : M A) :
  preserves (silent is_refusal) m -> propagates code m.
Proof. intros Hm w a w' H. left. eapply Hm; eauto. Qed.

(** The rule for a call followed by a test of its result: on code 0 the
    rest must propagate, on another code the rest logs no refusal and
    returns that code. *)
Lemma propagates_bind {A B} (c1 : A -> Z) (c2 : B -> Z) (m : M A) (k : A -> M B) :
  propagates c1 m ->
  (forall a, c1 a = 0 -> propagates c2 (k a)) ->
  (forall a, c1 a <> 0 -> preserves (silent is_refusal) (k a)) ->
  (forall a w b w', c1 a <> 0 -> k a w = Some (b, w') -> c2 b = c1 a) ->
  propagates c2 (bind m k).
Proof.
  intros Hm Hok Hq Hc w b w' H.
  apply bind_Some in H as (a & w1 & Hrun & Hk).
  specialize (Hm _ _ _ Hrun).
  destruct (Z.eq_dec (c1 a) 0) as [Hz|Hnz].
  - rewrite Hz in Hm. apply outcome_zero in Hm.
    eapply outcome_after; [exact Hm|]. exact (Hok a Hz _ _ _ Hk).
  - rewrite <- (Hc _ _ _ _ Hnz Hk) in Hm.
    eapply outcome_before; [exact Hm|]. exact (Hq a Hnz _ _ _ Hk).
Qed.

Lemma propagates_bind_quiet {A B} (c2 : B -> Z) (m : M A) (k : A -> M B) :
  preserves (silent is_refusal) m ->
  (forall a, propagates c2 (k a)) ->
  propagates c2 (bind m k).
Proof.
  intros Hm Hk w b w' H.
  apply bind_Some in H as (a & w1 & Hrun & Hrest).
  eapply outcome_after; [exact (Hm _ _ _ Hrun) | exact (Hk a _ _ _ Hrest)].
Qed.


Lemma propagates_modeset_lock drv l : propagates id (modeset_lock drv l).
Proof.
  intros w r w' H. unfold modeset_lock, bind, get_world, log, modify, ret in H.
  injection H as <- <-. unfold refusal_outcome, silent. simpl.
  rewrite List.filter_app. simpl.
  destruct (drm_modeset_lock drv w l =? 0) eqn:Hz; simpl.
  - left. apply app_nil_r.
  - right. exists l. split; [apply Z.eqb_neq; exact Hz | reflexivity].
Qed.

(** Splits a goal [propagates c m] along the structure of [m]: a call
    that logs no refusal is passed over, a call known to propagate is
    followed by the two exits of the test of its result. *)
Ltac exit_code :=
  let a := fresh "a" in let w := fresh "w" in let b := fresh "b" in
  let w' := fresh "w" in let Hne := fresh "Hne" in let Hk := fresh "Hk" in
  intros a w b w' Hne Hk; simpl in Hne;
  try (destruct a; simpl in Hne, Hk; try congruence);
  rewrite ?(proj2 (Z.eqb_neq _ _) Hne) in Hk; simpl in Hk;
  repeat match goal with
  | H : bind _ _ _ = Some _ |- _ => mstep H
  | H : ret _ _ = Some _ |- _ => mstep H
  | H : Some _ = Some _ |- _ => injection H as ? ?; subst
  end; simpl; try congruence; try reflexivity.

Ltac exit_quiet :=
  let a := fresh "a" in let Hne := fresh "Hne" in
  intros a Hne; simpl in Hne;
  try (destruct a; simpl in Hne; try congruence);
  rewrite ?(proj2 (Z.eqb_neq _ _) Hne); simpl;
  solve [quiet].

Ltac prop_step :=
  match goal with
  | |- propagates _ (ret _) => apply propagates_quiet; apply (preserves_ret (silent is_refusal))
  | |- propagates _ ub => apply propagates_quiet; apply (preserves_ub (silent is_refusal))
  | |- propagates _ (bind _ _) =>
      first [ apply propagates_bind_quiet; [solve [quiet] | intros ?]
            | eapply propagates_bind;
              [solve [eauto with propag] | | exit_quiet | exit_code ] ]
  | |- propagates _ (match ?x with _ => _ end) => destruct x
  | |- propagates _ _ => apply propagates_quiet; solve [quiet]
  end.

Create HintDb propag.

#[export] Hint Resolve propagates_modeset_lock : propag.

Lemma propagates_get_crtc_state drv crtc :
  propagates PTR_ERR_OR_ZERO (drm_atomic_get_crtc_state drv crtc).
Proof.
  unfold drm_atomic_get_crtc_state. cbv zeta.
  prop_step. prop_step; [prop_step|].
  prop_step. intros r Hr. unfold id in Hr. subst r. simpl.
  repeat prop_step.
Qed.

#[export] Hint Resolve propagates_get_crtc_state : propag.

Lemma propagates_get_plane_state drv plane :
  propagates PTR_ERR_OR_ZERO (drm_atomic_get_plane_state drv plane).
Proof.
  unfold drm_atomic_get_plane_state. cbv zeta.
  prop_step. prop_step; [prop_step|].
  prop_step. intros r Hr. unfold id in Hr. subst r. simpl.
  repeat prop_step.
  intros [p|e] He; simpl in He; [|subst e]; prop_step.
Qed.

Lemma propagates_get_connector_state drv connector :
  propagates PTR_ERR_OR_ZERO (drm_atomic_get_connector_state drv connector).
Proof.
  unfold drm_atomic_get_connector_state. cbv zeta.
  prop_step. prop_step. intros r Hr. unfold id in Hr. subst r. simpl.
  repeat prop_step.
  intros [p|e] He; simpl in He; [|subst e]; prop_step.
Qed.

#[export] Hint Resolve propagates_get_plane_state propagates_get_connector_state : propag.

Lemma propagates_set_crtc_for_plane drv state crtc :
  propagates id (drm_atomic_set_crtc_for_plane drv state crtc).
Proof.
  unfold drm_atomic_set_crtc_for_plane.
  prop_step. prop_step; [prop_step|].
  eapply (propagates_bind (fun u : option Z => default 0 u)); [| |exit_quiet|exit_code].
  - destruct (ps_crtc a); [|prop_step]. destruct (negb (ps_state a)); [prop_step|].
    prop_step. intros [p|e] He; simpl in He; [|subst e]; repeat prop_step.
  - intros [e|] He; simpl in He; [subst e; prop_step|].
    prop_step. prop_step. destruct crtc; [|prop_step].
    destruct (negb (ps_state _)); [prop_step|].
    prop_step. intros [p|e] He'; simpl in He'; [|subst e]; repeat prop_step.
Qed.

Lemma propagates_set_crtc_for_connector drv state crtc :
  propagates id (drm_atomic_set_crtc_for_connector drv state crtc).
Proof.
  unfold drm_atomic_set_crtc_for_connector.
  prop_step. prop_step; [prop_step|].
  prop_step. destruct crtc; [|prop_step].
  destruct (negb (cns_state _)); [prop_step|].
  prop_step. intros [p|e] He; simpl in He; [|subst e]; repeat prop_step.
Qed.

#[export] Hint Resolve propagates_set_crtc_for_plane propagates_set_crtc_for_connector : propag.

Lemma propagates_plane_set_property drv plane state property val :
  propagates id (drm_atomic_plane_set_property drv plane state property val).
Proof.
  unfold drm_atomic_plane_set_property. cbv zeta.
  prop_step. prop_step. prop_step.
  repeat match goal with
  | |- propagates _ (if decide ?P then _ else _) => destruct (decide P)
  end;
  try solve [auto with propag];
  apply propagates_quiet; quiet.
Qed.

Lemma propagates_connector_set_property drv connector state property val :
  propagates id (drm_atomic_connector_set_property drv connector state property val).
Proof.
  unfold drm_atomic_connector_set_property. cbv zeta.
  prop_step.
  repeat match goal with
  | |- propagates _ (if decide ?P then _ else _) => destruct (decide P)
  end;
  try solve [auto with propag];
  apply propagates_quiet; quiet.
Qed.

Lemma quiet_refusal_crtc_set_property drv crtc state property val :
  preserves (silent is_refusal) (drm_atomic_crtc_set_property drv crtc state property val).
Proof. unfold drm_atomic_crtc_set_property. quiet. Qed.

#[export] Hint Resolve propagates_plane_set_property propagates_connector_set_property : propag.

Lemma propagates_atomic_set_prop drv obj prop prop_value :
  propagates id (atomic_set_prop drv obj prop prop_value).
Proof.
  unfold atomic_set_prop.
  prop_step. prop_step; [prop_step|].
  destruct (obj_type obj); [| | |prop_step];
    (prop_step; intros [p|e] He; simpl in He; [|subst e]; [|prop_step]);
    first [ apply propagates_quiet, quiet_refusal_crtc_set_property
          | solve [auto with propag] ].
Qed.

#[export] Hint Resolve propagates_atomic_set_prop : propag.











(** *** The clear of the loop empties the transaction *)


(** *** The commit hook is called at most once in a round *)

Lemma quiet_commit_objs drv arg n acc :
  preserves (silent is_commit)
    (first_error_acc (seq 0 n) (atomic_ioctl_obj drv arg) acc).
Proof. quiet. Qed.

Lemma quiet_commit_prepare drv arg fp fences :
  preserves (silent is_commit) (prepare_crtc_signaling drv arg fp fences).
Proof. unfold prepare_crtc_signaling. quiet. Qed.

Lemma quiet_commit_check_only drv :
  preserves (silent is_commit) (drm_atomic_check_only drv).
Proof. unfold drm_atomic_check_only. quiet. Qed.

Lemma quiet_commit_clean_old_fb mask r :
  preserves (silent is_commit) (drm_atomic_clean_old_fb mask r).
Proof. unfold drm_atomic_clean_old_fb. quiet. Qed.

Lemma quiet_commit_complete drv fences install :
  preserves (silent is_commit) (complete_crtc_signaling drv fences install).
Proof. unfold complete_crtc_signaling. quiet. Qed.

Lemma quiet_commit_state_clear drv :
  preserves (silent is_commit) (drm_atomic_state_clear drv).
Proof. unfold drm_atomic_state_clear. quiet. Qed.

Lemma quiet_commit_state_free drv present :
  preserves (silent is_commit) (drm_atomic_state_free drv present).
Proof. unfold drm_atomic_state_free. quiet. Qed.

Lemma call_atomic_commit_trace drv nonblock w r w1 :
  call_atomic_commit drv nonblock w = Some (r, w1) ->
  List.filter is_commit (w_trace w1)
  = List.filter is_commit (w_trace w) ++ [EvAtomicCommit nonblock r].
Proof.
  unfold call_atomic_commit. intros H. mstep H. rename H0 into Hh.
  pose proof (quiet_run_hook is_commit (atomic_commit drv nonblock) _ _ _ Hh) as Hs.
  unfold log in H. mstep H. mstep H0. mstep H. simpl.
  rewrite List.filter_app, Hs. reflexivity.
Qed.

Lemma commit_trace drv (nonblock : bool) w r w1 :
  (if nonblock then drm_atomic_nonblocking_commit drv w else drm_atomic_commit drv w)
  = Some (r, w1) ->
  (silent is_commit w w1 /\ r <> 0) \/
  List.filter is_commit (w_trace w1)
  = List.filter is_commit (w_trace w) ++ [EvAtomicCommit nonblock r].
Proof.
  intros H.
  assert (H' : (let* _ := state_config in
                let* r := drm_atomic_check_only drv in
                if negb (r =? 0) then ret r else call_atomic_commit drv nonblock) w
               = Some (r, w1)) by (destruct nonblock; exact H).
  clear H. mstep H'. rename H into Hcfg. apply state_config_inv in Hcfg. subst.
  mstep H'. rename H into Hcheck.
  pose proof (quiet_commit_check_only drv _ _ _ Hcheck) as Hs.
  destruct (negb (a0 =? 0)) eqn:Hz.
  - mstep H'. left. split; [exact Hs|]. apply negb_true_iff, Z.eqb_neq in Hz. exact Hz.
  - right. apply call_atomic_commit_trace in H'. rewrite H', Hs. reflexivity.
Qed.

Lemma attempt_commits drv arg fp w r mask fences w1 :
  atomic_ioctl_attempt drv arg fp w = Some (r, mask, fences, w1) ->
  (silent is_commit w w1 /\
   (r <> 0 \/ has_flag (flags arg) DRM_MODE_ATOMIC_TEST_ONLY = true)) \/
  (has_flag (flags arg) DRM_MODE_ATOMIC_TEST_ONLY = false /\
   List.filter is_commit (w_trace w1)
   = List.filter is_commit (w_trace w)
     ++ [EvAtomicCommit (has_flag (flags arg) DRM_MODE_ATOMIC_NONBLOCK) r]).
Proof.
  unfold atomic_ioctl_attempt. intros H.
  mstep H. rename H0 into Hobjs. destruct a as [r0 [[co cp] pm]].
  pose proof (quiet_commit_objs drv arg _ _ _ _ _ Hobjs) as Hs1.
  destruct (negb (r0 =? 0)) eqn:Hz0.
  { mstep H. left. split; [exact Hs1|]. left. apply negb_true_iff, Z.eqb_neq in Hz0. congruence. }
  mstep H. rename H0 into Hprep. destruct a as [r1 fences1].
  pose proof (quiet_commit_prepare drv arg _ _ _ _ _ Hprep) as Hs2.
  assert (Hs12 : silent is_commit w w2) by (etrans; eauto).
  destruct (negb (r1 =? 0)) eqn:Hz1.
  { mstep H. left. split; [exact Hs12|]. left. apply negb_true_iff, Z.eqb_neq in Hz1. congruence. }
  mstep H. rename H0 into Hrun. mstep H. injection H as -> -> ->.
  destruct (has_flag (flags arg) DRM_MODE_ATOMIC_TEST_ONLY) eqn:Htest.
  - left. split; [|right; reflexivity].
    etrans; [exact Hs12|]. exact (quiet_commit_check_only drv _ _ _ Hrun).
  - assert (Hrun' : (if has_flag (flags arg) DRM_MODE_ATOMIC_NONBLOCK
                     then drm_atomic_nonblocking_commit drv w2 else drm_atomic_commit drv w2)
                    = Some (r, w1))
      by (destruct (has_flag (flags arg) DRM_MODE_ATOMIC_NONBLOCK); exact Hrun).
    destruct (commit_trace drv _ _ _ _ Hrun') as [[Hs Hnz]|Hc].
    + left. split; [etrans; eauto | left; exact Hnz].
    + right. split; [reflexivity|]. rewrite Hc, Hs12. reflexivity.
Qed.

Lemma round_commits drv arg fp w r w1 :
  atomic_ioctl_round drv arg fp w = Some (r, w1) ->
  (silent is_commit w w1 /\
   (r <> 0 \/ has_flag (flags arg) DRM_MODE_ATOMIC_TEST_ONLY = true)) \/
  (has_flag (flags arg) DRM_MODE_ATOMIC_TEST_ONLY = false /\
   List.filter is_commit (w_trace w1)
   = List.filter is_commit (w_trace w)
     ++ [EvAtomicCommit (has_flag (flags arg) DRM_MODE_ATOMIC_NONBLOCK) r]).
Proof.
  unfold atomic_ioctl_round. intros H.
  mstep H. rename H0 into Hatt. destruct a as [[r0 mask] fences].
  mstep H. rename H0 into Hclean. mstep H. rename H0 into Hsig. mstep H.
  pose proof (quiet_commit_clean_old_fb _ _ _ _ _ Hclean) as Hs1.
  pose proof (quiet_commit_complete drv _ _ _ _ _ Hsig) as Hs2.
  assert (Hs : silent is_commit w0 w1) by (etrans; eauto).
  destruct (attempt_commits _ _ _ _ _ _ _ _ Hatt) as [[Ha Hc]|[Ht Ha]].
  - left. split; [etrans; eauto | exact Hc].
  - right. split; [exact Ht|]. rewrite Hs. exact Ha.
Qed.



(** Over the whole loop: the ioctl never returns the deadlock signal to
    its caller. *)
Lemma ioctl_never_returns_deadlock drv arg fp fuel :
  forall w r w', atomic_ioctl_retry drv fuel arg fp w = Some (Some r, w') -> r <> - EDEADLK.
Proof.
  induction fuel as [|fuel IH]; intros w r w' H; [discriminate|].
  rewrite atomic_ioctl_retry_round in H.
  destruct (atomic_ioctl_round drv arg fp w) as [[r0 w1]|]; [|discriminate].
  destruct (r0 =? - EDEADLK) eqn:Hr.
  - destruct (drm_atomic_state_clear drv w1) as [[[] w2]|]; [|discriminate]. eauto.
  - apply Z.eqb_neq in Hr.
    destruct (negb (r0 =? 0) || has_flag (flags arg) DRM_MODE_ATOMIC_TEST_ONLY).
    + destruct (drm_atomic_state_free drv true w1) as [[[] w2]|]; [|discriminate].
      injection H as <- _. exact Hr.
    + injection H as <- _. exact Hr.
Qed.

(** A commit that meets a deadlock at its first lock: one clear, one
    back-off, a second assembly, success; and a commit whose object list
    cannot be read: the fault is returned and the transaction freed. *)
Example ioctl_deadlock_then_success :
  (fun x => (fst x, List.filter is_restart (w_trace (snd x)))) <$>
    drm_mode_atomic_ioctl contended_driver 2 demo_arg demo_file demo_idle
  = Some (Some 0, [EvStateClear; EvBackoff]) /\
  (fun x => (fst x, List.filter is_backoff (w_trace (snd x)), w_state (snd x))) <$>
    drm_mode_atomic_ioctl demo_driver 1 demo_arg demo_file demo_idle
  = Some (Some (- EFAULT), [], None).
Proof. split; vm_compute; reflexivity. Qed.

(** On a transaction ready to be cleared, with the default clear and free
    hooks, the teardown returns and leaves no transaction. *)
Lemma state_free_returns drv w st :
  clear_ready w st ->
  atomic_state_clear drv = None -> atomic_state_free drv = None ->
  exists w', drm_atomic_state_free drv true w = Some (tt, w') /\ w_state w' = None.
Proof.
  intros Hready Hclear Hfree.
  pose proof Hready as [Hst Hdev Hcl Hpl Hcp Hpp Hnp Hlive Hown].
  set (wl := set_trace (w_trace w ++ [EvStateClear]) w).
  assert (Hready' : clear_ready wl st) by (split; assumption).
  destruct (default_clear_run wl st Hready') as (w2 & Hrun & _ & Hst2 & _).
  unfold drm_atomic_state_free, drm_atomic_state_clear. simpl.
  rewrite Hclear, Hfree.
  rewrite (bind_eq _ _ _ _ _ (state_config_eq w st Hst Hdev)).
  erewrite (bind_eq (let* _ := state_config in _)); cycle 1.
  { rewrite (bind_eq _ _ _ _ _ (state_config_eq w st Hst Hdev)).
    unfold log at 1. erewrite (bind_eq (modify _)) by reflexivity. exact Hrun. }
  unfold log. erewrite (bind_eq (modify _)) by reflexivity.
  unfold drm_atomic_state_default_release.
  erewrite (bind_eq (let* _ := get_state in _)); cycle 1.
  { erewrite bind_eq by (apply get_state_eq; simpl; exact Hst2). reflexivity. }
  eexists. split; reflexivity.
Qed.

(** ** Further properties of the engine *)

(** *** Allocation and teardown *)

Lemma stored_fresh k o w st :
  w_state w = Some st ->
  (forall i e, crtcs st !! i = Some e -> ce_state e = None) ->
  (forall i e, planes st !! i = Some e -> pe_state e = None) ->
  (forall i e, connectors st !! i = Some e -> cne_state e = None) ->
  stored k o w = None.
Proof.
  intros Hst Hc Hp Hn. unfold stored. rewrite Hst. destruct k.
  - destruct (crtcs st !! o) eqn:E; [eauto | reflexivity].
  - destruct (planes st !! o) eqn:E; [eauto | reflexivity].
  - destruct (connectors st !! o) eqn:E; [eauto | reflexivity].
Qed.

(** X1.  With the default allocation hook, drm_atomic_state_alloc on a
    machine without transaction always returns and leaves the device as it
    is.  When it fails no transaction is left behind.  When it succeeds the
    transaction allows modesets, its CRTC and plane tables have one empty
    entry per CRTC and plane of the device, its connector table is empty,
    and it satisfies what the other operations rely on: it is ready to be
    cleared, holds nothing, and the linking, pairing and distinctness
    invariants hold. *)
Theorem state_alloc_fresh (drv : drm_driver) (w : world) :
  atomic_state_alloc drv = None -> w_state w = None ->
  exists b w',
    drm_atomic_state_alloc drv w = Some (b, w') /\
    w_dev w' = w_dev w /\
    (b = false -> w_state w' = None) /\
    (b = true ->
     exists st,
       w_state w' = Some st /\
       allow_modeset st = true /\
       crtcs st = replicate (num_crtc (mode_config (w_dev w))) empty_crtcs_entry /\
       planes st = replicate (num_total_plane (mode_config (w_dev w))) empty_planes_entry /\
       connectors st = [] /\
       clear_ready w' st /\ held w' = [] /\
       tight w' /\ linked w' /\ snapshots_distinct w' /\ snapshots_allocated w').
Proof.
  intros Hhook Hnone.
  unfold drm_atomic_state_alloc. rewrite Hhook.
  unfold kzalloc, bind, get_world, log, modify, ret. simpl.
  destruct (kzalloc_ok drv w) eqn:Hz; simpl.
  2: { eexists _, _. split; [reflexivity|]. split; [reflexivity|].
       split; [intros _; exact Hnone | discriminate]. }
  unfold drm_atomic_state_init, put_state, get_state, kcalloc, drm_atomic_state_default_release,
    bind, get_world, deref, log, modify, ret. simpl.
  match goal with |- context [kcalloc_ok drv ?w1] => destruct (kcalloc_ok drv w1) eqn:Hc1 end; simpl.
  2: { eexists _, _. split; [reflexivity|]. split; [reflexivity|].
       split; [reflexivity | discriminate]. }
  match goal with |- context [kcalloc_ok drv ?w1] => destruct (kcalloc_ok drv w1) eqn:Hc2 end; simpl.
  2: { eexists _, _. split; [reflexivity|]. split; [reflexivity|].
       split; [reflexivity | discriminate]. }
  eexists _, _. split; [reflexivity|]. split; [reflexivity|].
  split; [discriminate|]. intros _. eexists. split; [reflexivity|].
  simpl.
  assert (Hce : forall i e, replicate (num_crtc (mode_config (w_dev w))) empty_crtcs_entry !! i
                            = Some e -> e = empty_crtcs_entry)
    by (intros i e He; apply lookup_replicate in He as [-> _]; reflexivity).
  assert (Hpe : forall i e, replicate (num_total_plane (mode_config (w_dev w)))
                              empty_planes_entry !! i
                            = Some e -> e = empty_planes_entry)
    by (intros i e He; apply lookup_replicate in He as [-> _]; reflexivity).
  assert (Hsto : forall k o w0 st,
            w_state w0 = Some st ->
            crtcs st = replicate (num_crtc (mode_config (w_dev w))) empty_crtcs_entry ->
            planes st = replicate (num_total_plane (mode_config (w_dev w))) empty_planes_entry ->
            connectors st = [] -> stored k o w0 = None).
  { intros k o w0 st Hst H1 H2 H3. apply (stored_fresh k o w0 st Hst).
    - rewrite H1. intros i e He. rewrite (Hce i e He). reflexivity.
    - rewrite H2. intros i e He. rewrite (Hpe i e He). reflexivity.
    - rewrite H3. intros i e He. rewrite lookup_nil in He. discriminate. }
  set (w' := set_state _ _).
  assert (Hnone' : forall k o, stored k o w' = None)
    by (intros k o; eapply Hsto; reflexivity).
  split; [reflexivity|]. split; [reflexivity|]. split; [reflexivity|].
  split; [reflexivity|]. split; [|split; [|split; [|split; [|split]]]].
  - split; simpl; try reflexivity.
    + apply length_replicate.
    + apply length_replicate.
    + intros i e He _. rewrite (Hce i e He). auto.
    + intros i e He _. rewrite (Hpe i e He). reflexivity.
    + intros i e He. rewrite lookup_nil in He. discriminate.
    + intros i e c He [x Hx]. rewrite (Hce i e He) in Hx. discriminate.
    + intros i j e e' c He _ [x Hx]. rewrite (Hce i e He) in Hx. discriminate.
  - unfold held. simpl. unfold held_connectors, held_crtcs, held_planes. simpl.
    rewrite !flat_map_nil; [reflexivity| |].
    + intros i e He. rewrite (Hpe i e He). reflexivity.
    + intros i e He. rewrite (Hce i e He). reflexivity.
  - intros st [= <-]. simpl. split; [|split]; intros i e He.
    + rewrite (Hce i e He). split; reflexivity.
    + rewrite (Hpe i e He). split; reflexivity.
    + rewrite lookup_nil in He. discriminate.
  - intros k o p c Hs. rewrite Hnone' in Hs. discriminate.
  - intros k o o' p Hs. rewrite Hnone' in Hs. discriminate.
  - intros k o p Hs. rewrite Hnone' in Hs. discriminate.
Qed.

Lemma state_alloc_fresh_witness :
  exists w' st, drm_atomic_state_alloc demo_driver demo_idle = Some (true, w') /\
                w_state w' = Some st /\ clear_ready w' st /\ held w' = [].
Proof.
  destruct (state_alloc_fresh demo_driver demo_idle eq_refl eq_refl)
    as (b & w' & Hrun & _ & _ & Hok).
  assert (Hb : b = true) by (vm_compute in Hrun; injection Hrun as <- _; reflexivity).
  subst b. destruct (Hok eq_refl) as (st & Hst & _ & _ & _ & _ & Hready & Hheld & _).
  exists w', st. auto.
Defined.

Lemma demo_committing_ready :
  exists st, w_state demo_world_committing = Some st /\ clear_ready demo_world_committing st.
Proof.
  eexists. split; [reflexivity|]. split; try reflexivity.
  - intros i e He.
    destruct i as [|[|i]]; simpl in He; try discriminate;
      injection He as <-; simpl; intros; try discriminate; auto.
  - intros i e He.
    destruct i as [|[|i]]; simpl in He; try discriminate;
      injection He as <-; simpl; intros; try discriminate; auto.
  - intros i e He.
    destruct i as [|i]; simpl in He; try discriminate;
      injection He as <-; simpl; intros; try discriminate; auto.
  - intros i e c He Hp Hc.
    destruct i as [|[|i]]; simpl in He; try discriminate;
      injection He as <-; simpl in Hc; try discriminate.
    injection Hc as <-. eexists. split; [reflexivity|]. simpl. lia.
  - intros i j e e' c He He' Hp Hp' Hc Hc'.
    destruct i as [|[|i]]; simpl in He; try discriminate;
      injection He as <-; simpl in Hc; try discriminate.
    destruct j as [|[|j]]; simpl in He'; try discriminate;
      injection He' as <-; simpl in Hc'; try discriminate.
    reflexivity.
Qed.

(** X2.  On a transaction ready to be cleared, with the default clear and
    free hooks, drm_atomic_state_free returns; afterwards the machine has no
    transaction, the device is as before, every snapshot the transaction
    held was handed to its destroy hook exactly once, in table order, and
    nothing was duplicated. *)
Theorem state_free_tears_down (drv : drm_driver) (w : world) (st : drm_atomic_state) :
  clear_ready w st ->
  atomic_state_clear drv = None -> atomic_state_free drv = None ->
  exists w',
    drm_atomic_state_free drv true w = Some (tt, w') /\
    w_state w' = None /\ w_dev w' = w_dev w /\
    exists delta, w_trace w' = w_trace w ++ delta /\
                  destroyed delta = held w /\ duplicated delta = [].
Proof.
  intros Hready Hclear Hfree.
  pose proof Hready as [Hst Hdev Hcl Hpl Hcp Hpp Hnp Hlive Hown].
  set (wl := set_trace (w_trace w ++ [EvStateClear]) w).
  assert (Hready' : clear_ready wl st) by (split; assumption).
  destruct (default_clear_run wl st Hready') as (w2 & Hrun & Hdev2 & Hst2 & delta & Htr & Hdes & Hdup).
  unfold drm_atomic_state_free, drm_atomic_state_clear. simpl.
  rewrite Hclear, Hfree.
  rewrite (bind_eq _ _ _ _ _ (state_config_eq w st Hst Hdev)).
  erewrite (bind_eq (let* _ := state_config in _)); cycle 1.
  { rewrite (bind_eq _ _ _ _ _ (state_config_eq w st Hst Hdev)).
    unfold log at 1. erewrite (bind_eq (modify _)) by reflexivity. exact Hrun. }
  unfold log. erewrite (bind_eq (modify _)) by reflexivity.
  unfold drm_atomic_state_default_release.
  erewrite (bind_eq (let* _ := get_state in _)); cycle 1.
  { erewrite bind_eq by (apply get_state_eq; simpl; exact Hst2). reflexivity. }
  eexists. split; [reflexivity|]. simpl. split; [reflexivity|]. split; [exact Hdev2|].
  exists ([EvStateClear] ++ delta ++ [EvStateFree]). split; [|split].
  - rewrite Htr. simpl. rewrite <- !app_assoc. reflexivity.
  - rewrite !destroyed_app. simpl. rewrite app_nil_r, Hdes, firstn_all.
    unfold held. simpl. rewrite Hst. reflexivity.
  - rewrite !duplicated_app. simpl. rewrite app_nil_r. exact Hdup.
Qed.

Lemma state_free_tears_down_witness :
  exists w', drm_atomic_state_free demo_driver true demo_world_committing = Some (tt, w') /\
             w_state w' = None /\
             destroyed (w_trace w') = [(KConnector, 0%nat, Some 102%nat);
                                       (KCrtc, 0%nat, Some 101%nat);
                                       (KPlane, 0%nat, Some 100%nat)].
Proof.
  destruct demo_committing_ready as (st & Hst & Hready).
  destruct (state_free_tears_down demo_driver _ _ Hready eq_refl eq_refl)
    as (w' & Hrun & Hnone & _ & delta & Htr & Hdes & _).
  exists w'. split; [exact Hrun|]. split; [exact Hnone|].
  rewrite Htr, destroyed_app, Hdes. reflexivity.
Defined.

(** *** What get-or-create keeps *)

Lemma frame_step w w' :
  acquire_step w w' ->
  w_dev w' = w_dev w /\ w_commits w' = w_commits w /\ w_events w' = w_events w /\
  (w_next w <= w_next w')%nat /\
  (forall q, (q < w_next w)%nat ->
     w_crtc_states w' !! q = w_crtc_states w !! q /\
     w_plane_states w' !! q = w_plane_states w !! q /\
     w_connector_states w' !! q = w_connector_states w !! q).
Proof.
  intros []; simpl; repeat split; auto; try lia;
    rewrite ?lookup_insert_ne by lia; reflexivity.
Qed.

Lemma frame_steps w w' :
  rtc acquire_step w w' ->
  w_dev w' = w_dev w /\ w_commits w' = w_commits w /\ w_events w' = w_events w /\
  (w_next w <= w_next w')%nat /\
  (forall q, (q < w_next w)%nat ->
     w_crtc_states w' !! q = w_crtc_states w !! q /\
     w_plane_states w' !! q = w_plane_states w !! q /\
     w_connector_states w' !! q = w_connector_states w !! q).
Proof.
  induction 1 as [w|w1 w2 w3 Hs Hr IH].
  - repeat split; auto.
  - destruct (frame_step _ _ Hs) as (H1 & H2 & H3 & H4 & H5).
    destruct IH as (I1 & I2 & I3 & I4 & I5).
    split; [congruence|]. split; [congruence|]. split; [congruence|].
    split; [lia|]. intros q Hq.
    destruct (H5 q Hq) as (A & B & C). destruct (I5 q ltac:(lia)) as (A' & B' & C').
    repeat split; congruence.
Qed.

(** X3.  Get-or-create calls only add to a transaction.  Whatever calls
    are made, with whatever results, the device (the committed state of
    every object), the commit records and the pending events are as before,
    every snapshot the transaction held is still held by the same object,
    and the contents of every snapshot allocated before are unchanged. *)
Theorem get_or_create_only_adds (drv : drm_driver) (calls : list (obj_kind * nat))
    (w : world) (results : list errptr) (w' : world) :
  run_gets drv calls w = Some (results, w') ->
  w_dev w' = w_dev w /\ w_commits w' = w_commits w /\ w_events w' = w_events w /\
  (forall k o p, stored k o w = Some p -> stored k o w' = Some p) /\
  (forall q, (q < w_next w)%nat ->
     w_crtc_states w' !! q = w_crtc_states w !! q /\
     w_plane_states w' !! q = w_plane_states w !! q /\
     w_connector_states w' !! q = w_connector_states w !! q).
Proof.
  intros Hrun. pose proof (run_gets_steps drv calls w results w' Hrun) as Hsteps.
  destruct (frame_steps w w' Hsteps) as (H1 & H2 & H3 & _ & H5).
  split; [exact H1|]. split; [exact H2|]. split; [exact H3|]. split; [|exact H5].
  intros k o p. apply stored_steps. exact Hsteps.
Qed.

Lemma get_or_create_only_adds_witness :
  match run_gets demo_driver demo_calls demo_world_plane1 with
  | Some (_, w') => w_dev w' = demo_device /\ stored KPlane 1 w' = Some 100%nat /\
                    w_plane_states w' !! 100%nat = Some demo_plane1_state
  | None => False
  end.
Proof.
  destruct (run_gets demo_driver demo_calls demo_world_plane1) as [[results w']|] eqn:Hrun;
    [|vm_compute in Hrun; discriminate].
  destruct (get_or_create_only_adds _ _ _ _ _ Hrun) as (Hdev & _ & _ & Hsto & Hheap).
  split; [exact Hdev|]. split; [apply Hsto; reflexivity|].
  destruct (Hheap 100%nat) as (_ & Hp & _); [simpl; lia|]. rewrite Hp. reflexivity.
Defined.

Lemma demo_world_tight : tight demo_world.
Proof.
  intros st [= <-]. simpl. split; [|split]; intros i e He.
  - destruct i as [|[|i]]; simpl in He; try discriminate; injection He as <-; split; reflexivity.
  - destruct i as [|[|i]]; simpl in He; try discriminate; injection He as <-; split; reflexivity.
  - rewrite lookup_nil in He. discriminate.
Qed.

(** X4.  Get-or-create keeps the books of a transaction.  If in every
    entry the object pointer and the snapshot are set together, and the
    snapshots duplicated so far are those destroyed so far and those the
    transaction holds, the same is true after any sequence of get-or-create
    calls, whatever their results: a snapshot returned by a duplicate hook
    is always put into the table, also when the call then fails to acquire
    the CRTC the snapshot references. *)
Theorem get_or_create_keeps_books (drv : drm_driver) (calls : list (obj_kind * nat))
    (w : world) (results : list errptr) (w' : world) :
  run_gets drv calls w = Some (results, w') -> tight w -> balanced w ->
  tight w' /\ balanced w'.
Proof.
  intros Hrun. apply balanced_steps. eapply run_gets_steps. exact Hrun.
Qed.

Lemma get_or_create_keeps_books_witness :
  match run_gets demo_driver demo_calls demo_world with
  | Some (_, w') => tight w' /\ balanced w'
  | None => False
  end.
Proof.
  destruct (run_gets demo_driver demo_calls demo_world) as [[results w']|] eqn:Hrun;
    [|vm_compute in Hrun; discriminate].
  apply (get_or_create_keeps_books _ _ _ _ _ Hrun demo_world_tight).
  unfold balanced. vm_compute. constructor.
Defined.

(** X5.  Get-or-create never lets two objects of a kind share a snapshot:
    on a transaction whose snapshots were handed out by the allocator and
    are pairwise distinct, both remain true after any sequence of
    get-or-create calls. *)
Theorem get_or_create_keeps_snapshots_apart (drv : drm_driver)
    (calls : list (obj_kind * nat)) (w : world) (results : list errptr) (w' : world) :
  run_gets drv calls w = Some (results, w') ->
  snapshots_allocated w -> snapshots_distinct w ->
  snapshots_allocated w' /\ snapshots_distinct w'.
Proof.
  intros Hrun. apply allocated_distinct_steps. eapply run_gets_steps. exact Hrun.
Qed.

Lemma get_or_create_keeps_snapshots_apart_witness :
  match run_gets demo_driver demo_calls demo_world with
  | Some (_, w') => snapshots_allocated w' /\ snapshots_distinct w'
  | None => False
  end.
Proof.
  destruct (run_gets demo_driver demo_calls demo_world) as [[results w']|] eqn:Hrun;
    [|vm_compute in Hrun; discriminate].
  assert (Hnone : forall k o, stored k o demo_world = None).
  { intros k o. unfold stored. simpl.
    destruct k; [destruct o as [|[|o]] | destruct o as [|[|o]] | destruct o]; reflexivity. }
  apply (get_or_create_keeps_snapshots_apart _ _ _ _ _ Hrun).
  - intros k o p Hs. rewrite Hnone in Hs. discriminate.
  - intros k o o' p Hs. rewrite Hnone in Hs. discriminate.
Defined.

(** *** Failing get-or-create calls *)

(** X6.  When the lock a get-or-create call needs is refused with the code
    [r], the call returns [r] as its error and leaves the machine as it
    was, but for the record of the lock attempt: no hook is called, nothing
    is stored.  For a CRTC or a plane this concerns an object without
    snapshot (with one, no lock is taken); for a connector it holds on
    every call, since the connection lock is taken before the table is
    looked at. *)
Theorem get_or_create_lock_refused (drv : drm_driver) (k : obj_kind) (o : nat)
    (w : world) (res : errptr) (w' : world) :
  drm_modeset_lock drv w (lock_of k o) <> 0 ->
  k = KConnector \/ stored k o w = None ->
  get_or_create drv k o w = Some (res, w') ->
  res = ErrPtr (drm_modeset_lock drv w (lock_of k o)) /\
  w' = logged (EvLock (lock_of k o) (drm_modeset_lock drv w (lock_of k o))) w.
Proof.
  intros Hr Hk Hget. apply Z.eqb_neq in Hr.
  destruct k; simpl in *.
  - destruct Hk as [Hk|Hk]; [discriminate|].
    rewrite get_crtc_state_eq in Hget. unfold stored in Hk.
    destruct (w_state w) as [st|]; [|discriminate].
    destruct (crtcs st !! o) as [e|]; [|discriminate].
    rewrite Hk in Hget. cbv zeta in Hget. rewrite Hr in Hget. simpl in Hget.
    injection Hget as <- <-. auto.
  - destruct Hk as [Hk|Hk]; [discriminate|].
    rewrite get_plane_state_eq in Hget. unfold stored in Hk.
    destruct (w_state w) as [st|]; [|discriminate].
    destruct (planes st !! o) as [e|]; [|discriminate].
    rewrite Hk in Hget. cbv zeta in Hget. rewrite Hr in Hget. simpl in Hget.
    injection Hget as <- <-. auto.
  - rewrite get_connector_state_eq in Hget. cbv zeta in Hget. rewrite Hr in Hget.
    simpl in Hget. injection Hget as <- <-. auto.
Qed.

Lemma get_or_create_lock_refused_witness :
  get_or_create contended_driver KPlane 0 demo_world
  = Some (ErrPtr (- EDEADLK), logged (EvLock (PlaneMutex 0) (- EDEADLK)) demo_world).
Proof.
  destruct (get_or_create contended_driver KPlane 0 demo_world) as [[res w']|] eqn:Hget;
    [|vm_compute in Hget; discriminate].
  destruct (get_or_create_lock_refused contended_driver KPlane 0 demo_world res w')
    as [-> ->]; [discriminate | right; reflexivity | exact Hget | reflexivity].
Defined.

(** X7.  A get-or-create call on a plane that fails returns a non-zero
    code, and either leaves the plane without snapshot, or leaves it with
    the freshly duplicated snapshot whose CRTC could not be acquired: the
    snapshot stays in the transaction, its CRTC has no snapshot, and the
    next call on the plane returns it as a success without touching the
    machine. *)
Theorem failed_plane_get_keeps_snapshot (drv : drm_driver) (plane : nat)
    (w : world) (e : Z) (w' : world) :
  drm_atomic_get_plane_state drv plane w = Some (ErrPtr e, w') ->
  e <> 0 /\
  (stored KPlane plane w' = None \/
   exists p c, stored KPlane plane w' = Some p /\ crtc_of KPlane p w' = Some c /\
               stored KCrtc c w' = None /\
               drm_atomic_get_plane_state drv plane w' = Some (Ptr p, w')).
Proof.
  intros Hget. rewrite get_plane_state_eq in Hget.
  destruct (w_state w) as [st|] eqn:Hst; [|discriminate].
  destruct (planes st !! plane) as [en|] eqn:Hen; [|discriminate].
  destruct (pe_state en) eqn:Hpe; [discriminate|]. cbv zeta in Hget.
  assert (Hnone : stored KPlane plane w = None)
    by (unfold stored; rewrite Hst, Hen; exact Hpe).
  destruct (negb (drm_modeset_lock drv w (PlaneMutex plane) =? 0)) eqn:Hr.
  { injection Hget as <- <-. split; [apply negb_true_iff, Z.eqb_neq in Hr; exact Hr|].
    left. exact Hnone. }
  destruct (plane_atomic_duplicate_state drv _ plane) as [snapshot|] eqn:Hdup.
  2: { injection Hget as <- <-. split; [discriminate|]. left. exact Hnone. }
  destruct (ps_crtc snapshot) as [c|] eqn:Hc; [|discriminate].
  set (w1 := logged (EvLock (PlaneMutex plane) (drm_modeset_lock drv w (PlaneMutex plane))) w)
    in *.
  set (w2 := plane_state_added plane snapshot st w1) in *.
  destruct (drm_atomic_get_crtc_state drv c w2) as [[[q|e'] w3]|] eqn:Hcrtc;
    try discriminate.
  injection Hget as <- <-.
  split; [eapply get_crtc_state_error; eauto|]. right.
  assert (Hlt : (plane < length (planes st))%nat) by (eapply lookup_lt_Some; eauto).
  assert (Hw3 : exists ev ev', w3 = logged ev w2 \/ w3 = logged ev' (logged ev w2)).
  { rewrite get_crtc_state_eq in Hcrtc. simpl in Hcrtc.
    destruct (crtcs st !! c) as [ec|]; [|discriminate].
    destruct (ce_state ec); [discriminate|]. cbv zeta in Hcrtc.
    destruct (negb (drm_modeset_lock drv w2 (CrtcMutex c) =? 0)).
    - injection Hcrtc as _ <-. eexists _, (EvAlloc true). left. reflexivity.
    - destruct (crtc_atomic_duplicate_state drv _ c); [discriminate|].
      injection Hcrtc as _ <-. eexists _, _. right. reflexivity. }
  assert (Hc3 : stored KCrtc c w3 = None).
  { rewrite get_crtc_state_eq in Hcrtc. simpl in Hcrtc.
    destruct (crtcs st !! c) as [ec|] eqn:Hec; [|discriminate].
    destruct (ce_state ec) eqn:Hce; [discriminate|].
    destruct Hw3 as (ev & ev' & [-> | ->]); unfold stored; simpl; rewrite Hec; exact Hce. }
  assert (Hshape : w_state w3 = w_state w2 /\ w_plane_states w3 = w_plane_states w2)
    by (destruct Hw3 as (ev & ev' & [-> | ->]); split; reflexivity).
  destruct Hshape as [Hs3 Hh3].
  exists (w_next w), c. split; [|split; [|split]].
  - unfold stored. rewrite Hs3. simpl. rewrite list_lookup_insert_eq by exact Hlt. reflexivity.
  - unfold crtc_of. rewrite Hh3. simpl. rewrite lookup_insert_eq. simpl. exact Hc.
  - exact Hc3.
  - rewrite get_plane_state_eq, Hs3. simpl.
    rewrite list_lookup_insert_eq by exact Hlt. reflexivity.
Qed.

Lemma failed_plane_get_keeps_snapshot_witness :
  exists w', drm_atomic_get_plane_state crtc_contended_driver 0 demo_world
             = Some (ErrPtr (- EDEADLK), w') /\
             stored KPlane 0 w' = Some 100%nat /\ stored KCrtc 0 w' = None /\
             drm_atomic_get_plane_state crtc_contended_driver 0 w' = Some (Ptr 100%nat, w').
Proof.
  destruct (drm_atomic_get_plane_state crtc_contended_driver 0 demo_world)
    as [[[p|e] w']|] eqn:Hget; try (vm_compute in Hget; discriminate).
  pose proof (failed_plane_get_keeps_snapshot _ _ _ _ _ Hget) as [_ Hcases].
  assert (He : e = - EDEADLK) by (vm_compute in Hget; injection Hget as <- _; reflexivity).
  assert (Hp : stored KPlane 0 w' = Some 100%nat)
    by (vm_compute in Hget; injection Hget as _ <-; reflexivity).
  assert (Hc : stored KCrtc 0 w' = None)
    by (vm_compute in Hget; injection Hget as _ <-; reflexivity).
  subst e. exists w'. split; [reflexivity|]. split; [exact Hp|]. split; [exact Hc|].
  destruct Hcases as [Hnone | (p & c & Hp' & _ & _ & Hnext)]; [congruence|].
  rewrite Hp in Hp'. injection Hp' as <-. exact Hnext.
Defined.

(** *** The connector table *)

Lemma get_crtc_state_tables drv crtc w st r w' :
  w_state w = Some st ->
  drm_atomic_get_crtc_state drv crtc w = Some (r, w') ->
  exists st', w_state w' = Some st' /\ planes st' = planes st /\
              connectors st' = connectors st.
Proof.
  intros Hst Hget. rewrite get_crtc_state_eq, Hst in Hget.
  destruct (crtcs st !! crtc) as [e|]; [|discriminate].
  destruct (ce_state e).
  { injection Hget as _ <-. eauto. }
  cbv zeta in Hget.
  destruct (negb (drm_modeset_lock drv w (CrtcMutex crtc) =? 0)).
  { injection Hget as _ <-. simpl. eauto. }
  destruct (crtc_atomic_duplicate_state drv _ crtc).
  - injection Hget as _ <-. simpl. eauto.
  - injection Hget as _ <-. simpl. eauto.
Qed.

Lemma connector_lookup_or_add_table drv connector st w r w' :
  w_state w = Some st ->
  connector_lookup_or_add drv connector st w = Some (r, w') ->
  exists st', w_state w' = Some st' /\ planes st' = planes st /\
    length (connectors st') = length (connectors st) /\
    (forall i, i <> connector -> connectors st' !! i = connectors st !! i) /\
    (forall p, r = Ptr p ->
       exists e, connectors st' !! connector = Some e /\ cne_state e = Some p) /\
    (forall e, r = ErrPtr e -> e <> 0).
Proof.
  intros Hst Hget. unfold connector_lookup_or_add in Hget.
  destruct (connectors st !! connector) as [en|] eqn:Hen; [|discriminate].
  destruct (cne_state en) as [p|] eqn:Hp.
  { injection Hget as <- <-. exists st. repeat split; auto; try discriminate.
    intros q [= <-]. eauto. }
  destruct (connector_atomic_duplicate_state drv w connector) as [snapshot|].
  2: { injection Hget as <- <-. exists st. simpl. repeat split; auto; try discriminate.
       intros e [= <-]. discriminate. }
  assert (Hlt : (connector < length (connectors st))%nat) by (eapply lookup_lt_Some; eauto).
  set (w2 := connector_state_added connector snapshot st w) in *.
  set (st2 := set_connectors
                (<[connector := {| cne_ptr := Some connector; cne_state := Some (w_next w) |}]>
                   (connectors st)) st).
  assert (Hst2 : w_state w2 = Some st2) by reflexivity.
  assert (Hfinal : forall st', planes st' = planes st2 -> connectors st' = connectors st2 ->
            planes st' = planes st /\
            length (connectors st') = length (connectors st) /\
            (forall i, i <> connector -> connectors st' !! i = connectors st !! i) /\
            exists e, connectors st' !! connector = Some e /\ cne_state e = Some (w_next w)).
  { intros st' H1 H2. rewrite H1, H2. simpl. split; [reflexivity|].
    split; [apply length_insert|]. split.
    - intros i Hi. apply list_lookup_insert_ne. auto.
    - rewrite list_lookup_insert_eq by exact Hlt. eauto. }
  destruct (cns_crtc snapshot) as [crtc|].
  - destruct (drm_atomic_get_crtc_state drv crtc w2) as [[[q|e] w3]|] eqn:Hcrtc;
      try discriminate; injection Hget as <- <-;
      destruct (get_crtc_state_tables _ _ _ _ _ _ Hst2 Hcrtc) as (st3 & Hst3 & Hp3 & Hc3);
      destruct (Hfinal st3 Hp3 Hc3) as (F1 & F2 & F3 & F4);
      exists st3; repeat split; auto; try discriminate.
    + intros p' [= <-]. exact F4.
    + intros e' [= <-]. eapply get_crtc_state_error; eauto.
  - injection Hget as <- <-.
    destruct (Hfinal st2 eq_refl eq_refl) as (F1 & F2 & F3 & F4).
    exists st2. repeat split; auto; try discriminate.
    intros p' [= <-]. exact F4.
Qed.

(** X8.  drm_atomic_get_connector_state keeps the connector table in
    bounds.  Whatever the call returns, the table does not shrink, the
    entries of the other connectors are as before (new ones are empty), and
    the plane table is untouched.  A call that returns a snapshot has made
    the table long enough for the connector's index and the snapshot sits in
    the connector's entry; a call that fails returns a non-zero code. *)
Theorem get_connector_state_bounds (drv : drm_driver) (connector : nat)
    (w : world) (st : drm_atomic_state) (r : errptr) (w' : world) :
  w_state w = Some st ->
  drm_atomic_get_connector_state drv connector w = Some (r, w') ->
  exists st',
    w_state w' = Some st' /\ planes st' = planes st /\
    (length (connectors st) <= length (connectors st'))%nat /\
    (forall i, i <> connector ->
       connectors st' !! i
       = (connectors st
          ++ replicate (length (connectors st') - length (connectors st))
               empty_connectors_entry) !! i) /\
    (forall p, r = Ptr p ->
       (connector < length (connectors st'))%nat /\
       exists e, connectors st' !! connector = Some e /\ cne_state e = Some p) /\
    (forall e, r = ErrPtr e -> e <> 0).
Proof.
  intros Hst Hget. rewrite get_connector_state_eq in Hget. cbv zeta in Hget.
  assert (Hsame : forall (l : list connectors_entry) i,
            l !! i = (l ++ replicate (length l - length l) empty_connectors_entry) !! i).
  { intros l i. rewrite Nat.sub_diag. simpl. rewrite app_nil_r. reflexivity. }
  destruct (negb (drm_modeset_lock drv w ConnectionMutex =? 0)) eqn:Hr.
  { injection Hget as <- <-. exists st. simpl. repeat split; auto; try discriminate.
    intros e [= <-]. apply negb_true_iff, Z.eqb_neq in Hr. exact Hr. }
  rewrite Hst in Hget.
  destruct (length (connectors st) <=? connector)%nat eqn:Hlen.
  - destruct (negb (krealloc_ok drv _)) eqn:Hok.
    { injection Hget as <- <-. exists st. simpl. repeat split; auto; try discriminate.
      intros e [= <-]. discriminate. }
    match type of Hget with
    | connector_lookup_or_add _ _ ?s ?v = _ =>
        destruct (connector_lookup_or_add_table drv connector s v r w' eq_refl Hget)
          as (st' & Hst' & Hp' & Hl' & Hi' & Hptr & Herr)
    end.
    unfold connectors_grown in *. simpl in *.
    exists st'. split; [exact Hst'|]. split; [exact Hp'|].
    rewrite Hl', length_app, length_replicate.
    split; [lia|]. split; [|split; [|exact Herr]].
    + intros i Hi. rewrite (Hi' i Hi). f_equal. f_equal. f_equal. lia.
    + intros p Hp. destruct (Hptr p Hp) as (e & He & Hs). split; [|eauto].
      apply lookup_lt_Some in He. rewrite Hl', length_app, length_replicate in He. exact He.
  - destruct (connector_lookup_or_add_table drv connector st (logged _ w) r w' Hst Hget)
      as (st' & Hst' & Hp' & Hl' & Hi' & Hptr & Herr).
    exists st'. split; [exact Hst'|]. split; [exact Hp'|]. rewrite Hl'.
    split; [lia|]. split; [|split; [|exact Herr]].
    + intros i Hi. rewrite (Hi' i Hi). apply Hsame.
    + intros p Hp. destruct (Hptr p Hp) as (e & He & Hs). split; [|eauto].
      apply lookup_lt_Some in He. rewrite Hl' in He. exact He.
Qed.

Lemma get_connector_state_bounds_witness :
  exists p w' st', drm_atomic_get_connector_state demo_driver 0 demo_world = Some (Ptr p, w') /\
                   w_state w' = Some st' /\ (0 < length (connectors st'))%nat.
Proof.
  destruct (drm_atomic_get_connector_state demo_driver 0 demo_world)
    as [[[p|e] w']|] eqn:Hget; try (vm_compute in Hget; discriminate).
  destruct (get_connector_state_bounds demo_driver 0 demo_world _ _ _ eq_refl Hget)
    as (st' & Hst' & _ & _ & _ & Hptr & _).
  destruct (Hptr p eq_refl) as [Hlt _].
  exists p, w', st'. split; [reflexivity|]. split; [exact Hst' | exact Hlt].
Defined.

(** *** Writing and reading properties *)

Lemma store_plane_state_eq p s0 s w :
  w_plane_states w !! p = Some s0 ->
  store_plane_state p s w = Some (tt, set_plane_states (<[p := s]> (w_plane_states w)) w).
Proof.
  intros H. unfold store_plane_state, load_plane_state, bind, get_world, deref, modify.
  rewrite H. reflexivity.
Qed.

Lemma store_crtc_state_eq p s0 s w :
  w_crtc_states w !! p = Some s0 ->
  store_crtc_state p s w = Some (tt, set_crtc_states (<[p := s]> (w_crtc_states w)) w).
Proof.
  intros H. unfold store_crtc_state, load_crtc_state, bind, get_world, deref, modify.
  rewrite H. reflexivity.
Qed.

Lemma store_connector_state_eq p s0 s w :
  w_connector_states w !! p = Some s0 ->
  store_connector_state p s w
  = Some (tt, set_connector_states (<[p := s]> (w_connector_states w)) w).
Proof.
  intros H. unfold store_connector_state, load_connector_state, bind, get_world, deref, modify.
  rewrite H. reflexivity.
Qed.

Lemma wrap_neg m v : 0 < m -> - m <= v < 0 -> v mod m = v + m.
Proof. intros Hm Hv. symmetry. apply Z.mod_unique with (-1); lia. Qed.

Lemma s32_round_trip v :
  - 2 ^ 31 <= v < 2 ^ 31 -> I642U64 (to_s32 (U642I64 (wrap64 v))) = wrap64 v.
Proof.
  intros Hv. unfold I642U64, to_s32, U642I64, wrap64, wrap32.
  rewrite Z.mod_mod by lia.
  destruct (Z.neg_nonneg_cases v) as [Hneg|Hpos].
  - rewrite (wrap_neg (2 ^ 64) v) by lia.
    destruct (v + 2 ^ 64 <? 2 ^ 63) eqn:E1; [apply Z.ltb_lt in E1; lia|].
    replace (v + 2 ^ 64 - 2 ^ 64) with v by lia.
    rewrite (wrap_neg (2 ^ 32) v) by lia.
    destruct (v + 2 ^ 32 <? 2 ^ 31) eqn:E2; [apply Z.ltb_lt in E2; lia|].
    replace (v + 2 ^ 32 - 2 ^ 32) with v by lia.
    apply wrap_neg; lia.
  - rewrite (Z.mod_small v (2 ^ 64)) by lia.
    destruct (v <? 2 ^ 63) eqn:E1; [|apply Z.ltb_ge in E1; lia].
    rewrite (Z.mod_small v (2 ^ 32)) by lia.
    destruct (v <? 2 ^ 31) eqn:E2; [|apply Z.ltb_ge in E2; lia].
    apply Z.mod_small. lia.
Qed.

(** Splits [NoDup] of an explicit list into its disequalities. *)
Ltac nodup_split H :=
  repeat match type of H with
  | NoDup (_ :: _) =>
      let Hn := fresh "Hn" in
      apply NoDup_cons in H as [Hn H];
      repeat (apply not_elem_of_cons in Hn as [? Hn])
  end.

(** Decides the comparisons of a property with the core properties, given
    such disequalities. *)
Ltac pick_property :=
  repeat match goal with
  | |- context [decide (?a = ?b)] =>
      destruct (decide (a = b)); [try (exfalso; congruence) | try congruence]
  end.

(** X9.  Writing a scalar property of a plane (CRTC or source rectangle,
    rotation, z position) and reading it back.  With pairwise distinct core
    property descriptors, drm_atomic_plane_set_property returns 0 and
    changes only the plane snapshot; drm_atomic_plane_get_property on the
    new snapshot returns for that property the value written, truncated to
    the width of the field (exactly the value written when it fits), and for
    every other core property what it returned on the old snapshot. *)
Theorem plane_scalar_round_trip (drv : drm_driver) (g : drm_getters)
    (plane : nat) (pl : drm_plane) (state : ptr) (s : drm_plane_state)
    (property : drm_property) (val : Z) (w : world) :
  dev_planes (w_dev w) !! plane = Some pl ->
  w_plane_states w !! state = Some s ->
  NoDup (plane_core_props (mode_config (w_dev w)) pl) ->
  property ∈ plane_scalar_props (mode_config (w_dev w)) pl ->
  exists s',
    drm_atomic_plane_set_property drv plane state property val w
    = Some (0, set_plane_states (<[state := s']> (w_plane_states w)) w) /\
    (forall w0, w_dev w0 = w_dev w ->
       drm_atomic_plane_get_property g plane s' property w0
       = Some (0, Some (plane_scalar_kept (mode_config (w_dev w)) property val), w0)) /\
    (plane_scalar_fits (mode_config (w_dev w)) property val ->
     plane_scalar_kept (mode_config (w_dev w)) property val = val) /\
    (forall q w0, w_dev w0 = w_dev w ->
       q ∈ plane_core_props (mode_config (w_dev w)) pl -> q <> property ->
       drm_atomic_plane_get_property g plane s' q w0
       = drm_atomic_plane_get_property g plane s q w0).
Proof.
  intros Hpl Hs Hnd Hin.
  unfold plane_core_props in Hnd. unfold plane_scalar_props, plane_core_props in Hin.
  simpl in Hin.
  assert (Hget : forall st q w0, w_dev w0 = w_dev w ->
            drm_atomic_plane_get_property g plane st q w0
            = (let config := mode_config (w_dev w) in
               if decide (q = prop_fb_id config) then
                 Some (0, Some (match ps_fb st with Some fb => fb_base_id fb | None => 0 end), w0)
               else if decide (q = prop_in_fence_fd config) then Some (0, Some (wrap64 (-1)), w0)
               else if decide (q = prop_crtc_id config) then
                 (let* id := crtc_id_or_0 (ps_crtc st) in ret (0, Some id)) w0
               else if decide (q = prop_crtc_x config) then
                 Some (0, Some (I642U64 (ps_crtc_x st)), w0)
               else if decide (q = prop_crtc_y config) then
                 Some (0, Some (I642U64 (ps_crtc_y st)), w0)
               else if decide (q = prop_crtc_w config) then Some (0, Some (ps_crtc_w st), w0)
               else if decide (q = prop_crtc_h config) then Some (0, Some (ps_crtc_h st), w0)
               else if decide (q = prop_src_x config) then Some (0, Some (ps_src_x st), w0)
               else if decide (q = prop_src_y config) then Some (0, Some (ps_src_y st), w0)
               else if decide (q = prop_src_w config) then Some (0, Some (ps_src_w st), w0)
               else if decide (q = prop_src_h config) then Some (0, Some (ps_src_h st), w0)
               else if decide (q = rotation_property config) then
                 Some (0, Some (ps_rotation st), w0)
               else if decide (q = plane_zpos_property pl) then Some (0, Some (ps_zpos st), w0)
               else match plane_atomic_get_property g plane with
                    | Some h => Some (h st q, w0)
                    | None => Some (- EINVAL, None, w0)
                    end)).
  { intros st q w0 Hdev.
    unfold drm_atomic_plane_get_property, bind, get_world, deref, ret. rewrite Hdev, Hpl.
    cbv zeta. repeat (destruct (decide _); [reflexivity|]).
    destruct (plane_atomic_get_property g plane); reflexivity. }
  assert (Hset : forall s',
            store_plane_state state s' w
            = Some (tt, set_plane_states (<[state := s']> (w_plane_states w)) w))
    by (intros; eapply store_plane_state_eq; eauto).
  assert (Hload : load_plane_state state w = Some (s, w))
    by (unfold load_plane_state, bind, get_world; rewrite Hs; reflexivity).
  unfold drm_atomic_plane_set_property.
  erewrite (bind_eq get_world) by reflexivity. cbv zeta.
  erewrite (bind_eq (deref _)) by (rewrite Hpl; reflexivity).
  rewrite (bind_eq _ _ _ _ _ Hload).
  unfold plane_scalar_kept, plane_scalar_fits.
  nodup_split Hnd.
  assert (Hu32 : 0 <= val < 2 ^ 32 -> wrap32 val = val)
    by (intros; apply Z.mod_small; assumption).
  repeat (apply elem_of_cons in Hin as [-> | Hin]);
    [.. | apply elem_of_nil in Hin; contradiction];
    pick_property; erewrite bind_eq by apply Hset; eexists; (split; [reflexivity|]);
    (split; [intros w0 Hdev; rewrite (Hget _ _ w0 Hdev); cbv zeta; pick_property; reflexivity|]);
    (split; [destruct (decide (_ \/ _)) as [[Hd|Hd]|Hd];
             first [ congruence
                   | exact Hu32
                   | intros (v & Hv & ->); apply s32_round_trip; exact Hv
                   | exfalso; apply Hd; auto ]|]).
  all: (intros q w0 Hdev Hq Hne; rewrite !(Hget _ _ w0 Hdev); cbv zeta;
        repeat (destruct (decide (q = _)); [first [reflexivity | congruence]|]);
        exfalso; unfold plane_core_props in Hq;
        repeat (apply elem_of_cons in Hq as [? | Hq]); try congruence;
        apply elem_of_nil in Hq; exact Hq).
Qed.

Lemma demo_plane_props_distinct : NoDup (plane_core_props demo_config (demo_plane 1 None)).
Proof. apply (bool_decide_unpack _). vm_compute. exact I. Qed.

Lemma plane_scalar_round_trip_witness :
  exists s',
    drm_atomic_plane_set_property demo_driver 1%nat 100%nat (prop_crtc_x demo_config) (wrap64 (-5))
      demo_world_plane1
    = Some (0, set_plane_states (<[100%nat := s']> (w_plane_states demo_world_plane1))
                 demo_world_plane1) /\
    ps_crtc_x s' = -5 /\
    drm_atomic_plane_get_property demo_getters 1%nat s' (prop_crtc_x demo_config) demo_world_plane1
    = Some (0, Some (wrap64 (-5)), demo_world_plane1).
Proof.
  destruct (plane_scalar_round_trip demo_driver demo_getters 1%nat (demo_plane 1 None) 100%nat
              demo_plane1_state (prop_crtc_x demo_config) (wrap64 (-5)) demo_world_plane1
              eq_refl eq_refl demo_plane_props_distinct)
    as (s' & Hset & Hget & Hfits & _).
  { apply (bool_decide_unpack _). vm_compute. exact I. }
  exists s'. split; [exact Hset|]. split.
  - vm_compute in Hset. injection Hset as <-. reflexivity.
  - rewrite (Hget demo_world_plane1 eq_refl). rewrite Hfits; [reflexivity|].
    unfold plane_scalar_fits. simpl. exists (-5). split; [lia | reflexivity].
Defined.

(** *** Blob references *)

Lemma blob_refs_app id t1 t2 : blob_refs id (t1 ++ t2) = blob_refs id t1 + blob_refs id t2.
Proof.
  induction t1 as [|e t1 IH]; simpl; [lia|].
  destruct e; try exact IH; destruct (_ =? id); lia.
Qed.

(** Runs a computation that is known to return, step by step. *)
Ltac mrun :=
  repeat match goal with
  | H : bind _ _ _ = Some _ |- _ => mstep H
  | H : ret _ _ = Some _ |- _ => mstep H
  | H : deref _ _ = Some _ |- _ => mstep H
  | H : get_world _ = Some _ |- _ => mstep H
  | H : modify _ _ = Some _ |- _ => mstep H
  | H : ub _ = Some _ |- _ => discriminate H
  | H : None = Some _ |- _ => discriminate H
  | H : Some _ = Some _ |- _ => injection H as ? ?; subst
  | H : log _ _ = Some _ |- _ => unfold log in H
  | H : load_crtc_state _ _ = Some _ |- _ => unfold load_crtc_state in H
  | H : store_crtc_state _ _ _ = Some _ |- _ => unfold store_crtc_state in H
  | H : load_plane_state _ _ = Some _ |- _ => unfold load_plane_state in H
  | H : store_plane_state _ _ _ = Some _ |- _ => unfold store_plane_state in H
  | H : load_connector_state _ _ = Some _ |- _ => unfold load_connector_state in H
  | H : store_connector_state _ _ _ = Some _ |- _ => unfold store_connector_state in H
  | H : drm_property_reference_blob _ _ = Some _ |- _ => unfold drm_property_reference_blob in H
  | H : drm_property_unreference_blob _ _ = Some _ |- _ =>
      unfold drm_property_unreference_blob in H
  | H : (if ?b then _ else _) _ = Some _ |- _ => destruct b eqn:?
  | H : (match ?x with _ => _ end) _ = Some _ |- _ => destruct x eqn:?
  | H : (let '(_, _) := ?x in _) _ = Some _ |- _ => destruct x eqn:?
  end.

Lemma bind_None {A B} (m : M A) (k : A -> M B) w :
  bind m k w = None -> m w = None \/ exists a w1, m w = Some (a, w1) /\ k a w1 = None.
Proof. unfold bind. destruct (m w) as [[a w1]|]; eauto. Qed.

(** Runs a computation that is supposed not to return, to the places
    where it can stop. *)
Ltac mstuck :=
  repeat match goal with
  | H : bind _ _ _ = None |- _ =>
      let a := fresh "a" in let w1 := fresh "w" in let H1 := fresh "H" in
      apply bind_None in H as [H | (a & w1 & H1 & H)]
  | H : ret _ _ = None |- _ => discriminate H
  | H : get_world _ = None |- _ => discriminate H
  | H : modify _ _ = None |- _ => discriminate H
  | H : Some _ = None |- _ => discriminate H
  | H : deref ?o _ = None |- _ => destruct o eqn:?; [discriminate H|clear H]
  | H : log _ _ = None |- _ => discriminate H
  | H : load_crtc_state _ _ = None |- _ => unfold load_crtc_state in H
  | H : store_crtc_state _ _ _ = None |- _ => unfold store_crtc_state in H
  | H : load_plane_state _ _ = None |- _ => unfold load_plane_state in H
  | H : store_plane_state _ _ _ = None |- _ => unfold store_plane_state in H
  | H : load_connector_state _ _ = None |- _ => unfold load_connector_state in H
  | H : store_connector_state _ _ _ = None |- _ => unfold store_connector_state in H
  | H : drm_property_reference_blob _ _ = None |- _ => discriminate H
  | H : drm_property_unreference_blob ?b _ = None |- _ => destruct b; discriminate H
  | H : (if ?b then _ else _) _ = None |- _ => destruct b eqn:?
  | H : (match ?x with _ => _ end) _ = None |- _ => destruct x eqn:?
  | H : (let '(_, _) := ?x in _) _ = None |- _ => destruct x eqn:?
  | _ => progress mrun
  end.

Lemma set_mode_prop_run drv state s blob w r w' :
  w_crtc_states w !! state = Some s ->
  drm_atomic_set_mode_prop_for_crtc drv state blob w = Some (r, w') ->
  exists s' delta,
    w_crtc_states w' = <[state := s']> (w_crtc_states w) /\
    w_trace w' = w_trace w ++ delta /\
    w' = set_trace (w_trace w') (set_crtc_states (w_crtc_states w') w) /\
    (forall id, blob_refs id delta - holds_blob id (cs_mode_blob s')
                = - holds_blob id (cs_mode_blob s)) /\
    cs_degamma_lut s' = cs_degamma_lut s /\ cs_ctm s' = cs_ctm s /\
    cs_gamma_lut s' = cs_gamma_lut s /\
    cs_active s' = cs_active s /\ cs_state s' = cs_state s /\
    cs_color_mgmt_changed s' = cs_color_mgmt_changed s /\
    ((r = 0 /\ cs_mode_blob s' = blob /\
      (blob <> cs_mode_blob s -> cs_enable s' = bool_decide (is_Some blob))) \/
     (r = - EINVAL /\ is_Some blob /\ cs_mode_blob s' = None /\ cs_enable s' = cs_enable s)).
Proof.
  intros Hs H. unfold drm_atomic_set_mode_prop_for_crtc in H.
  mrun; simpl in *; simplify_map_eq.
  1: { exists s, []. split; [symmetry; apply insert_id; assumption|].
       split; [symmetry; apply app_nil_r|]. split; [destruct w'; reflexivity|].
       split; [intros id; simpl; lia|]. repeat (split; [reflexivity|]).
       left. split; [reflexivity|]. split; [reflexivity|]. intros Hne. contradiction. }
  all: eexists _, _; (split; [rewrite ?insert_insert_eq; reflexivity|]);
       (split; [rewrite <- ?app_assoc; first [reflexivity | symmetry; apply app_nil_r]|]);
       (split; [rewrite ?insert_insert_eq; reflexivity|]);
       simpl; repeat match goal with H : cs_mode_blob _ = _ |- _ => rewrite H end;
       (split; [intros id; simpl; repeat destruct (_ =? id); lia|]);
       repeat (split; [reflexivity|]);
       first [ left; split; [reflexivity|]; split; [reflexivity|]; intros; reflexivity
             | right; split; [reflexivity|]; split; [eauto|]; split; reflexivity ].
Qed.

Lemma replace_blob_from_id_run drv old blob_id size replaced w r b rep w' :
  drm_atomic_replace_property_blob_from_id drv old blob_id size replaced w
  = Some ((r, b, rep), w') ->
  exists delta,
    w' = set_trace (w_trace w ++ delta) w /\
    (forall id, blob_refs id delta - holds_blob id b = - holds_blob id old) /\
    ((r = 0 /\
      b = (if blob_id =? 0 then None else drm_property_lookup_blob drv w (wrap32 blob_id)) /\
      rep = (replaced || negb (bool_decide (b = old)))) \/
     (r = - EINVAL /\ blob_id <> 0 /\ b = old /\ rep = replaced)).
Proof.
  intros H.
  unfold drm_atomic_replace_property_blob_from_id, lookup_blob,
    drm_atomic_replace_property_blob in H.
  mrun; simpl in *; simplify_eq.
  all: match goal with
       | H : negb (?x =? 0) = true |- _ =>
           apply negb_true_iff in H; pose proof (proj1 (Z.eqb_neq _ _) H); rewrite ?H
       | H : negb (?x =? 0) = false |- _ => apply negb_false_iff in H; rewrite ?H
       end.
  all: first [ eexists; split; [rewrite <- ?app_assoc; reflexivity|]
             | exists []; split;
               [destruct w'; unfold set_trace; simpl; rewrite app_nil_r; reflexivity|] ].
  all: (split; [intros id; simpl; repeat destruct (_ =? id); lia|]).
  all: first [ right; repeat split; solve [auto]
             | left; split; [reflexivity|]; split; [reflexivity|];
               rewrite ?bool_decide_eq_true_2 by reflexivity;
               rewrite ?bool_decide_eq_false_2 by congruence;
               simpl; rewrite ?orb_false_r, ?orb_true_r; reflexivity ].
Qed.

Lemma crtc_set_property_run drv crtc state s property val w r w' :
  w_crtc_states w !! state = Some s ->
  crtc_atomic_set_property drv crtc = None \/
    property ∈ crtc_core_props (mode_config (w_dev w)) ->
  drm_atomic_crtc_set_property drv crtc state property val w = Some (r, w') ->
  exists s',
    w_crtc_states w' = <[state := s']> (w_crtc_states w) /\
    w_dev w' = w_dev w /\
    forall id, blob_refs id (w_trace w') - crtc_blobs_held id s'
               = blob_refs id (w_trace w) - crtc_blobs_held id s.
Proof.
  intros Hs Hcore H.
  unfold drm_atomic_crtc_set_property, lookup_blob, user_put, set_out_fence_for_crtc,
    crtcs_at, crtcs_store, get_state, put_state in H.
  mrun; simpl in *; simplify_map_eq.
  all: try match goal with
       | H : drm_atomic_set_mode_prop_for_crtc _ _ _ _ = Some _ |- _ =>
           eapply set_mode_prop_run in H as (s' & delta & Hh & Ht & Hw & Hb & Hd1 & Hd2 & Hd3 & _);
             [|simpl; eassumption]
       | H : drm_atomic_replace_property_blob_from_id _ _ _ _ _ _ = Some _ |- _ =>
           apply replace_blob_from_id_run in H as (delta & -> & Hb & _)
       end.
  all: try match goal with
       | Hc : _ \/ ?p ∈ crtc_core_props _, Hh : crtc_atomic_set_property _ _ = Some _ |- _ =>
           exfalso; destruct Hc as [Hc|Hc]; [congruence|];
           unfold crtc_core_props in Hc;
           repeat (apply elem_of_cons in Hc as [Hc|Hc]; [congruence|]);
           apply elem_of_nil in Hc; exact Hc
       end.
  all: simpl in *.
  all: first [ exists s'; split; [exact Hh|]
             | eexists; split; [reflexivity|]
             | exists s; split; [symmetry; apply insert_id; assumption|] ].
  all: (split; [first [reflexivity | rewrite Hw; reflexivity]|]).
  all: intros id; try specialize (Hb id); rewrite ?Ht; simpl;
       rewrite ?blob_refs_app; simpl; unfold crtc_blobs_held in *; simpl;
       rewrite ?Hd1, ?Hd2, ?Hd3; repeat destruct (_ =? id); lia.
Qed.

(** X10.  drm_atomic_crtc_set_property keeps the blob references in step
    with the snapshot.  For a core property (or any property of a CRTC
    without set-property extension), whatever the call returns, for every
    blob the references taken minus those dropped during the call equal the
    change in the number of blob members of the snapshot (mode, degamma,
    CTM, gamma) that hold the blob; the reference that comes with a looked
    up blob is dropped again.  Only that snapshot changes: the other
    snapshots and the device are as before. *)
Theorem crtc_set_property_conserves_blob_refs (drv : drm_driver) (crtc : nat)
    (state : ptr) (s : drm_crtc_state) (property : drm_property) (val : Z)
    (w : world) (r : Z) (w' : world) :
  w_crtc_states w !! state = Some s ->
  crtc_atomic_set_property drv crtc = None \/
    property ∈ crtc_core_props (mode_config (w_dev w)) ->
  drm_atomic_crtc_set_property drv crtc state property val w = Some (r, w') ->
  exists s',
    w_crtc_states w' !! state = Some s' /\
    (forall q, q <> state -> w_crtc_states w' !! q = w_crtc_states w !! q) /\
    w_dev w' = w_dev w /\
    forall id, blob_refs id (w_trace w') - crtc_blobs_held id s'
               = blob_refs id (w_trace w) - crtc_blobs_held id s.
Proof.
  intros Hs Hcore H.
  destruct (crtc_set_property_run _ _ _ _ _ _ _ _ _ Hs Hcore H) as (s' & Hh & Hd & Hb).
  exists s'. rewrite Hh. split; [apply lookup_insert_eq|].
  split; [|split; [exact Hd | exact Hb]].
  intros q Hq. apply lookup_insert_ne. auto.
Qed.

Lemma demo_world_crtc0_lookup :
  w_crtc_states demo_world_crtc0 !! 100%nat
  = Some (cs_with_state true (demo_crtc_state 0 true 1)).
Proof. vm_compute. reflexivity. Qed.

Lemma crtc_set_property_conserves_blob_refs_witness :
  exists w' s',
    drm_atomic_crtc_set_property blob_driver 0%nat 100%nat (prop_mode_id demo_config) 41
      demo_world_crtc0 = Some (0, w') /\
    w_crtc_states w' !! 100%nat = Some s' /\
    cs_mode_blob s' = Some demo_mode_blob /\
    blob_refs 41 (w_trace w') = 1 /\ blob_refs 40 (w_trace w') = -1.
Proof.
  destruct (drm_atomic_crtc_set_property blob_driver 0%nat 100%nat (prop_mode_id demo_config) 41
              demo_world_crtc0) as [[r w']|] eqn:Hrun; [|vm_compute in Hrun; discriminate].
  destruct (crtc_set_property_conserves_blob_refs blob_driver 0%nat 100%nat _ _ _ _ _ _
              demo_world_crtc0_lookup (or_introl eq_refl) Hrun) as (s' & Hs' & _ & _ & Hb).
  assert (Hr : r = 0) by (vm_compute in Hrun; injection Hrun as <- _; reflexivity).
  assert (Hblob : cs_mode_blob s' = Some demo_mode_blob).
  { vm_compute in Hrun. injection Hrun as _ <-. vm_compute in Hs'.
    injection Hs' as <-. reflexivity. }
  subst r. exists w', s'. split; [reflexivity|]. split; [exact Hs'|]. split; [exact Hblob|].
  pose proof (Hb 41) as H41. pose proof (Hb 40) as H40.
  unfold crtc_blobs_held in H41, H40. rewrite Hblob in H41, H40.
  assert (Hluts : cs_degamma_lut s' = None /\ cs_ctm s' = None /\ cs_gamma_lut s' = None).
  { vm_compute in Hrun. injection Hrun as <-. vm_compute in Hs'.
    injection Hs' as <-. auto. }
  destruct Hluts as (Hd & Hc & Hg). rewrite Hd, Hc, Hg in H41, H40.
  simpl in H41, H40. split; lia.
Defined.

Lemma set_mode_prop_returns drv state s blob w :
  w_crtc_states w !! state = Some s ->
  exists r w', drm_atomic_set_mode_prop_for_crtc drv state blob w = Some (r, w').
Proof.
  intros Hs.
  destruct (drm_atomic_set_mode_prop_for_crtc drv state blob w) as [[r w']|] eqn:H; [eauto|].
  exfalso. unfold drm_atomic_set_mode_prop_for_crtc in H.
  mstuck; simpl in *; simplify_map_eq.
Qed.

(** X11.  drm_atomic_set_mode_prop_for_crtc on a CRTC snapshot always
    returns, with 0 or -EINVAL, and changes that snapshot only.  On
    success the snapshot holds the blob given, and unless that was the blob
    it held already the CRTC is enabled exactly if a blob was given.  A
    blob of the wrong length, or one that does not convert to a mode, is
    refused with -EINVAL, and then the snapshot is left without mode blob
    (the one it held was dropped) and with its enable flag as before.  In
    every case the blob references taken and dropped match what the
    snapshot holds. *)
Theorem set_mode_prop_for_crtc_outcome (drv : drm_driver) (state : ptr)
    (s : drm_crtc_state) (blob : option drm_property_blob) (w : world) :
  w_crtc_states w !! state = Some s ->
  exists r w' s',
    drm_atomic_set_mode_prop_for_crtc drv state blob w = Some (r, w') /\
    w_crtc_states w' = <[state := s']> (w_crtc_states w) /\
    w' = set_trace (w_trace w') (set_crtc_states (w_crtc_states w') w) /\
    ((r = 0 /\ cs_mode_blob s' = blob /\
      (blob <> cs_mode_blob s -> cs_enable s' = bool_decide (is_Some blob))) \/
     (r = - EINVAL /\ is_Some blob /\ cs_mode_blob s' = None /\
      cs_enable s' = cs_enable s)) /\
    (forall id, blob_refs id (w_trace w') - holds_blob id (cs_mode_blob s')
                = blob_refs id (w_trace w) - holds_blob id (cs_mode_blob s)).
Proof.
  intros Hs. destruct (set_mode_prop_returns drv state s blob w Hs) as (r & w' & Hrun).
  destruct (set_mode_prop_run _ _ _ _ _ _ _ Hs Hrun)
    as (s' & delta & Hh & Ht & Hw & Hb & _ & _ & _ & _ & _ & _ & Hcases).
  exists r, w', s'. split; [exact Hrun|]. split; [exact Hh|]. split; [exact Hw|].
  split; [exact Hcases|].
  intros id. rewrite Ht, blob_refs_app. specialize (Hb id). lia.
Qed.

Lemma set_mode_prop_for_crtc_outcome_witness :
  exists w' s',
    drm_atomic_set_mode_prop_for_crtc demo_driver 100%nat
      (Some {| blob_base_id := 42; blob_length := 4; blob_data := [] |}) demo_world_crtc0
    = Some (- EINVAL, w') /\
    w_crtc_states w' !! 100%nat = Some s' /\
    cs_mode_blob s' = None /\ cs_enable s' = true /\
    blob_refs 40 (w_trace w') = -1 /\
    drm_atomic_crtc_check demo_device
      {| crtc_base_id := 20; crtc_state := demo_crtc_state 0 true 1 |} s' = - EINVAL.
Proof.
  destruct (set_mode_prop_for_crtc_outcome demo_driver 100%nat _
              (Some {| blob_base_id := 42; blob_length := 4; blob_data := [] |})
              demo_world_crtc0 demo_world_crtc0_lookup)
    as (r & w' & s' & Hrun & Hh & _ & Hcases & Hb).
  assert (Hr : r = - EINVAL) by (vm_compute in Hrun; injection Hrun as <- _; reflexivity).
  assert (Hs' : w_crtc_states w' !! 100%nat = Some s')
    by (rewrite Hh; apply lookup_insert_eq).
  assert (Hact : cs_active s' = true).
  { vm_compute in Hrun. injection Hrun as _ <-. vm_compute in Hs'.
    injection Hs' as <-. reflexivity. }
  subst r. destruct Hcases as [[Hr _]|(_ & _ & Hblob & Hen)]; [discriminate|].
  exists w', s'. split; [exact Hrun|]. split; [exact Hs'|].
  split; [exact Hblob|]. split; [exact Hen|].
  pose proof (Hb 40) as H40. rewrite Hblob in H40.
  assert (Hrhs : blob_refs 40 (w_trace demo_world_crtc0)
                 - holds_blob 40 (cs_mode_blob (cs_with_state true (demo_crtc_state 0 true 1)))
                 = -1) by reflexivity.
  rewrite Hrhs in H40. simpl in H40.
  split; [lia|].
  unfold drm_atomic_crtc_check. rewrite Hen, Hblob, Hact. reflexivity.
Defined.

(** *** Framebuffer references *)

Lemma fb_refs_app id t1 t2 : fb_refs id (t1 ++ t2) = fb_refs id t1 + fb_refs id t2.
Proof.
  induction t1 as [|e t1 IH]; simpl; [lia|].
  destruct e; try exact IH; destruct (_ =? id); lia.
Qed.

Lemma connector_refs_app c t1 t2 :
  connector_refs c (t1 ++ t2) = connector_refs c t1 + connector_refs c t2.
Proof.
  induction t1 as [|e t1 IH]; simpl; [lia|].
  destruct e; try exact IH; destruct (_ =? c)%nat; lia.
Qed.

Lemma refs_lock_or_duplicate delta :
  Forall (fun e => is_lock_or_duplicate e = true) delta ->
  (forall id, fb_refs id delta = 0) /\ (forall id, blob_refs id delta = 0) /\
  (forall c, connector_refs c delta = 0).
Proof.
  induction 1 as [|e delta He _ IH]; [auto|].
  destruct IH as (I1 & I2 & I3).
  destruct e; try discriminate; simpl; auto.
Qed.

(** What a get-or-create call on a CRTC changes: the trace grows by lock
    attempts and duplicate calls; the plane and connector snapshots, the
    plane and connector tables and the device are untouched. *)
Lemma get_crtc_state_shape drv crtc w r w' :
  drm_atomic_get_crtc_state drv crtc w = Some (r, w') ->
  exists delta,
    w_trace w' = w_trace w ++ delta /\
    Forall (fun e => is_lock_or_duplicate e = true) delta /\
    w_plane_states w' = w_plane_states w /\
    w_connector_states w' = w_connector_states w /\
    w_dev w' = w_dev w /\ w_commits w' = w_commits w /\ w_events w' = w_events w /\
    (forall e, r = ErrPtr e -> e <> 0).
Proof.
  intros H. pose proof (get_crtc_state_error drv crtc w) as Herr.
  assert (Herr' : forall e, r = ErrPtr e -> e <> 0)
    by (intros e ->; eapply Herr; eauto).
  clear Herr. rewrite get_crtc_state_eq in H.
  destruct (w_state w) as [st|]; [|discriminate].
  destruct (crtcs st !! crtc) as [e|]; [|discriminate].
  destruct (ce_state e).
  { injection H as _ <-. exists []. rewrite app_nil_r. repeat split; auto. }
  cbv zeta in H.
  destruct (negb (drm_modeset_lock drv w (CrtcMutex crtc) =? 0)).
  { injection H as _ <-. eexists [_]. simpl. repeat split; auto. }
  destruct (crtc_atomic_duplicate_state drv _ crtc).
  - injection H as _ <-. eexists [_; _]. simpl. rewrite <- app_assoc.
    repeat split; auto.
  - injection H as _ <-. eexists [_; _]. simpl. rewrite <- app_assoc.
    repeat split; auto.
Qed.

Lemma set_crtc_for_plane_shape drv state s crtc w r w' :
  w_plane_states w !! state = Some s ->
  drm_atomic_set_crtc_for_plane drv state crtc w = Some (r, w') ->
  exists c' delta,
    w_plane_states w' = <[state := ps_with_crtc c' s]> (w_plane_states w) /\
    w_trace w' = w_trace w ++ delta /\
    Forall (fun e => is_lock_or_duplicate e = true) delta /\
    w_dev w' = w_dev w /\
    (r = 0 -> c' = crtc).
Proof.
  intros Hs H. unfold drm_atomic_set_crtc_for_plane in H.
  mrun;
  repeat match goal with
  | H : drm_atomic_get_crtc_state _ _ _ = Some _ |- _ =>
      apply get_crtc_state_shape in H as (? & ? & ? & ? & ? & ? & ? & ? & ?)
  end; simpl in *;
  repeat match goal with
  | H : w_plane_states ?a = _ |- _ => is_var a; rewrite H in *; clear H
  | H : w_trace ?a = _ |- _ => is_var a; rewrite H in *; clear H
  | H : w_dev ?a = _ |- _ => is_var a; rewrite H in *; clear H
  end; simplify_map_eq.
  all: first [ exists (ps_crtc s); eexists; split;
               [replace (ps_with_crtc (ps_crtc s) s) with s by (destruct s; reflexivity);
                symmetry; apply insert_id; assumption|]
             | eexists _, _; split; [rewrite ?insert_insert_eq; reflexivity|] ].
  all: (split; [rewrite <- ?app_assoc; first [reflexivity | symmetry; apply app_nil_r]|]).
  all: (split; [repeat apply Forall_app_2; auto|]).
  all: (split; [reflexivity|]).
  all: try (intros _; congruence).
  all: intros ->; exfalso;
       match goal with H : forall e, ErrPtr 0 = ErrPtr e -> e <> 0 |- _ =>
         exact (H 0 eq_refl eq_refl) end.
Qed.

Lemma plane_set_property_run drv plane pl state s property val w r w' :
  dev_planes (w_dev w) !! plane = Some pl ->
  w_plane_states w !! state = Some s ->
  plane_atomic_set_property drv plane = None \/
    property ∈ plane_core_props (mode_config (w_dev w)) pl ->
  drm_atomic_plane_set_property drv plane state property val w = Some (r, w') ->
  exists s',
    w_plane_states w' = <[state := s']> (w_plane_states w) /\
    w_dev w' = w_dev w /\
    (forall id, fb_refs id (w_trace w') - holds_fb id (ps_fb s')
                = fb_refs id (w_trace w) - holds_fb id (ps_fb s)) /\
    (property = prop_fb_id (mode_config (w_dev w)) ->
     r = 0 /\ ps_fb s' = drm_framebuffer_lookup drv w (wrap32 val)).
Proof.
  intros Hpl Hs Hcore H.
  unfold drm_atomic_plane_set_property, drm_atomic_set_fb_for_plane,
    drm_framebuffer_reference, drm_framebuffer_unreference in H.
  mrun;
  repeat match goal with
  | H : drm_atomic_set_crtc_for_plane _ _ _ _ = Some _ |- _ =>
      eapply set_crtc_for_plane_shape in H as (c' & delta & Hh & Ht & Hf & Hd & _);
        [|eassumption]
  end; simpl in *; simplify_map_eq.
  all: try match goal with
       | Hc : _ \/ ?p ∈ plane_core_props _ _, Hh : plane_atomic_set_property _ _ = Some _ |- _ =>
           exfalso; destruct Hc as [Hc|Hc]; [congruence|];
           unfold plane_core_props in Hc;
           repeat (apply elem_of_cons in Hc as [Hc|Hc]; [congruence|]);
           apply elem_of_nil in Hc; exact Hc
       end.
  all: first [ eexists; split; [first [exact Hh | rewrite ?insert_insert_eq; reflexivity]|]
             | exists s; split; [symmetry; apply insert_id; assumption|] ].
  all: (split; [first [reflexivity | assumption]|]).
  all: (split; [intros id; rewrite ?Ht; simpl; rewrite ?fb_refs_app; simpl;
                try (rewrite (proj1 (refs_lock_or_duplicate _ Hf) id));
                repeat match goal with H : ps_fb _ = _ |- _ => rewrite H end;
                simpl; repeat destruct (_ =? id); lia|]).
  all: first [ intros _; split; [reflexivity|]; simpl;
               repeat match goal with H : drm_framebuffer_lookup _ _ _ = _ |- _ => rewrite H end;
               reflexivity
             | intros ?; contradiction
             | intros ?; congruence ].
Qed.

(** X12.  drm_atomic_plane_set_property keeps framebuffer references in
    step with the snapshot.  For a core property (or any property of a plane
    without set-property extension), whatever the call returns, for every
    framebuffer the references taken minus those dropped during the call
    equal the change in whether the snapshot's fb member holds it; the
    reference that comes with the looked up framebuffer is dropped again.
    Only that snapshot changes.  Writing FB_ID never fails: the id looked
    up is the 64-bit value narrowed to its low 32 bits, the snapshot gets
    the framebuffer found for that id, and no framebuffer when the id is
    unknown. *)
Theorem plane_set_property_conserves_fb_refs (drv : drm_driver) (plane : nat)
    (pl : drm_plane) (state : ptr) (s : drm_plane_state) (property : drm_property)
    (val : Z) (w : world) (r : Z) (w' : world) :
  dev_planes (w_dev w) !! plane = Some pl ->
  w_plane_states w !! state = Some s ->
  plane_atomic_set_property drv plane = None \/
    property ∈ plane_core_props (mode_config (w_dev w)) pl ->
  drm_atomic_plane_set_property drv plane state property val w = Some (r, w') ->
  exists s',
    w_plane_states w' !! state = Some s' /\
    (forall q, q <> state -> w_plane_states w' !! q = w_plane_states w !! q) /\
    w_dev w' = w_dev w /\
    (forall id, fb_refs id (w_trace w') - holds_fb id (ps_fb s')
                = fb_refs id (w_trace w) - holds_fb id (ps_fb s)) /\
    (property = prop_fb_id (mode_config (w_dev w)) ->
     r = 0 /\ ps_fb s' = drm_framebuffer_lookup drv w (wrap32 val)).
Proof.
  intros Hpl Hs Hcore H.
  destruct (plane_set_property_run _ _ _ _ _ _ _ _ _ _ Hpl Hs Hcore H)
    as (s' & Hh & Hd & Hb & Hfb).
  exists s'. rewrite Hh. split; [apply lookup_insert_eq|].
  split; [|split; [exact Hd | split; [exact Hb | exact Hfb]]].
  intros q Hq. apply lookup_insert_ne. auto.
Qed.

Lemma plane_set_property_conserves_fb_refs_witness :
  exists w' s',
    drm_atomic_plane_set_property demo_driver 1%nat 100%nat (prop_fb_id demo_config) (2 ^ 32 + 50)
      demo_world_plane1 = Some (0, w') /\
    w_plane_states w' !! 100%nat = Some s' /\
    ps_fb s' = Some (demo_fb 200 200) /\
    fb_refs 50 (w_trace w') = 1.
Proof.
  destruct (drm_atomic_plane_set_property demo_driver 1%nat 100%nat (prop_fb_id demo_config) (2 ^ 32 + 50)
              demo_world_plane1) as [[r w']|] eqn:Hrun; [|vm_compute in Hrun; discriminate].
  destruct (plane_set_property_conserves_fb_refs demo_driver 1%nat (demo_plane 1 None) 100%nat
              demo_plane1_state (prop_fb_id demo_config) (2 ^ 32 + 50) demo_world_plane1 r w'
              eq_refl eq_refl (or_introl eq_refl) Hrun)
    as (s' & Hs' & _ & _ & Hb & Hfb).
  destruct (Hfb eq_refl) as [-> Hfb'].
  exists w', s'. split; [reflexivity|]. split; [exact Hs'|]. split; [exact Hfb'|].
  pose proof (Hb 50) as H50. rewrite Hfb' in H50. simpl in H50. lia.
Defined.

(** *** Properties the core does not know *)

Lemma not_elem_of_list_ne {A} (x : A) (l : list A) y : x ∉ l -> y ∈ l -> x <> y.
Proof. intros Hn Hy ->. contradiction. Qed.

(** X13.  A property that is not a core property of the object, on an
    object without set-property extension, is refused with -EINVAL by each
    of the three set-property functions, and the machine is left exactly as
    it was.  For a connector the DPMS property is refused in the same way
    even when the connector has an extension: the driver is not asked. *)
Theorem unknown_property_refused (drv : drm_driver) (w : world) (property : drm_property)
    (val : Z) :
  (forall crtc state s,
     w_crtc_states w !! state = Some s ->
     property ∉ crtc_core_props (mode_config (w_dev w)) ->
     crtc_atomic_set_property drv crtc = None ->
     drm_atomic_crtc_set_property drv crtc state property val w = Some (- EINVAL, w)) /\
  (forall plane pl state s,
     dev_planes (w_dev w) !! plane = Some pl ->
     w_plane_states w !! state = Some s ->
     property ∉ plane_core_props (mode_config (w_dev w)) pl ->
     plane_atomic_set_property drv plane = None ->
     drm_atomic_plane_set_property drv plane state property val w = Some (- EINVAL, w)) /\
  (forall connector state,
     property <> prop_crtc_id (mode_config (w_dev w)) ->
     property = dpms_property (mode_config (w_dev w)) \/
       connector_atomic_set_property drv connector = None ->
     drm_atomic_connector_set_property drv connector state property val w
     = Some (- EINVAL, w)).
Proof.
  split; [|split].
  - intros crtc state s Hs Hnot Hhook.
    unfold drm_atomic_crtc_set_property.
    erewrite (bind_eq get_world) by reflexivity. cbv zeta.
    erewrite (bind_eq (load_crtc_state _))
      by (unfold load_crtc_state, bind, get_world; rewrite Hs; reflexivity).
    unfold crtc_core_props in Hnot.
    repeat (destruct (decide _) as [->|_];
            [exfalso; apply Hnot; repeat (apply elem_of_cons; first [left; reflexivity | right])|]).
    rewrite Hhook. reflexivity.
  - intros plane pl state s Hpl Hs Hnot Hhook.
    unfold drm_atomic_plane_set_property.
    erewrite (bind_eq get_world) by reflexivity. cbv zeta.
    erewrite (bind_eq (deref _)) by (rewrite Hpl; reflexivity).
    erewrite (bind_eq (load_plane_state _))
      by (unfold load_plane_state, bind, get_world; rewrite Hs; reflexivity).
    unfold plane_core_props in Hnot.
    repeat (destruct (decide _) as [->|_];
            [exfalso; apply Hnot; repeat (apply elem_of_cons; first [left; reflexivity | right])|]).
    rewrite Hhook. reflexivity.
  - intros connector state Hne Hor.
    unfold drm_atomic_connector_set_property.
    erewrite (bind_eq get_world) by reflexivity. cbv zeta.
    destruct (decide (property = prop_crtc_id _)); [contradiction|].
    destruct (decide (property = dpms_property _)) as [|Hnd]; [reflexivity|].
    destruct Hor as [Hd|Hhook]; [contradiction|]. rewrite Hhook. reflexivity.
Qed.

Lemma unknown_property_refused_witness :
  drm_atomic_plane_set_property demo_driver 1%nat 100%nat 99%nat 7 demo_world_plane1
  = Some (- EINVAL, demo_world_plane1) /\
  drm_atomic_connector_set_property demo_driver 0%nat 100%nat (dpms_property demo_config) 3
    demo_world_plane1 = Some (- EINVAL, demo_world_plane1).
Proof.
  destruct (unknown_property_refused demo_driver demo_world_plane1 99%nat 7) as (_ & Hp & _).
  destruct (unknown_property_refused demo_driver demo_world_plane1 (dpms_property demo_config) 3)
    as (_ & _ & Hc).
  split.
  - apply (Hp 1%nat (demo_plane 1 None) 100%nat demo_plane1_state eq_refl eq_refl);
      [|reflexivity].
    apply (bool_decide_unpack _). vm_compute. exact I.
  - apply Hc; [discriminate | left; reflexivity].
Defined.

(** *** The consistency checker *)

Lemma first_error_pure (body : nat -> M Z) l w r w' :
  (forall i, preserves eq (body i)) ->
  first_error l body w = Some (r, w') ->
  w' = w /\
  ((r = 0 /\ forall i, i ∈ l -> body i w = Some (0, w)) \/
   (r <> 0 /\ exists l1 i l2, l = l1 ++ i :: l2 /\ body i w = Some (r, w) /\
                              forall j, j ∈ l1 -> body j w = Some (0, w))).
Proof.
  intros Hpure. revert r w'. induction l as [|i l IH]; intros r w' H; simpl in H.
  - mstep H. split; [reflexivity|]. left. split; [reflexivity|].
    intros i Hi. apply elem_of_nil in Hi. contradiction.
  - mstep H. pose proof (Hpure i _ _ _ H0) as <-.
    destruct (negb (a =? 0)) eqn:Ha.
    + mstep H. split; [reflexivity|]. right.
      apply negb_true_iff, Z.eqb_neq in Ha. split; [exact Ha|].
      exists [], i, l. split; [reflexivity|]. split; [exact H0|].
      intros j Hj. apply elem_of_nil in Hj. contradiction.
    + apply negb_false_iff, Z.eqb_eq in Ha. subst a.
      destruct (IH _ _ H) as [-> Hcases]. split; [reflexivity|].
      destruct Hcases as [[-> Hall]|(Hr & l1 & k & l2 & -> & Hk & Hbefore)].
      * left. split; [reflexivity|]. intros j Hj.
        apply elem_of_cons in Hj as [->|Hj]; auto.
      * right. split; [exact Hr|]. exists (i :: l1), k, l2. split; [reflexivity|].
        split; [exact Hk|]. intros j Hj. apply elem_of_cons in Hj as [->|Hj]; auto.
Qed.

Lemma first_error_run (body : nat -> M Z) l1 i l2 w r :
  (forall j, j ∈ l1 -> body j w = Some (0, w)) ->
  body i w = Some (r, w) -> r <> 0 ->
  first_error (l1 ++ i :: l2) body w = Some (r, w).
Proof.
  intros Hbefore Hi Hr. induction l1 as [|j l1 IH]; simpl.
  - rewrite (bind_eq _ _ _ _ _ Hi). rewrite (proj2 (Z.eqb_neq _ _) Hr). reflexivity.
  - rewrite (bind_eq _ _ _ _ _ (Hbefore j ltac:(left))). simpl.
    apply IH. intros k Hk. apply Hbefore. right. exact Hk.
Qed.

Lemma first_error_all_zero (body : nat -> M Z) l w :
  (forall j, j ∈ l -> body j w = Some (0, w)) ->
  first_error l body w = Some (0, w).
Proof.
  intros Hall. induction l as [|j l IH]; simpl; [reflexivity|].
  rewrite (bind_eq _ _ _ _ _ (Hall j ltac:(left))). simpl.
  apply IH. intros k Hk. apply Hall. right. exact Hk.
Qed.

Ltac mworld :=
  repeat match goal with
  | Hg : get_world _ = Some _ |- _ => cbv [get_world ret] in Hg
  end; simplify_eq.

Lemma get_state_inv w st w1 :
  get_state w = Some (st, w1) -> w1 = w /\ w_state w = Some st.
Proof. intros H. unfold get_state in H. mrun; mworld; auto. Qed.

Lemma state_config_val w cfg w1 :
  state_config w = Some (cfg, w1) ->
  w1 = w /\ cfg = mode_config (w_dev w) /\ exists st, w_state w = Some st.
Proof. intros H. unfold state_config, get_state in H. mrun; mworld; eauto. Qed.

Lemma check_plane_entry_pure drv i : preserves eq (check_plane_entry drv i).
Proof. unfold check_plane_entry. pres. Qed.

Lemma check_crtc_entry_pure i : preserves eq (check_crtc_entry i).
Proof. unfold check_crtc_entry. pres. Qed.

Lemma check_modeset_entry_pure i : preserves eq (check_modeset_entry i).
Proof. unfold check_modeset_entry. pres. Qed.

Lemma check_plane_entry_inv drv i w r st e p :
  check_plane_entry drv i w = Some (r, w) ->
  w_state w = Some st -> planes st !! i = Some e -> pe_state e = Some p ->
  exists plane pl s,
    pe_ptr e = Some plane /\ dev_planes (w_dev w) !! plane = Some pl /\
    w_plane_states w !! p = Some s /\ r = drm_atomic_plane_check drv plane pl s.
Proof.
  intros H Hst He Hp. unfold check_plane_entry, planes_at, get_state in H.
  mrun; mworld; eauto 10.
Qed.

Lemma check_crtc_entry_inv i w r st e p :
  check_crtc_entry i w = Some (r, w) ->
  w_state w = Some st -> crtcs st !! i = Some e -> ce_state e = Some p ->
  exists crtc c s,
    ce_ptr e = Some crtc /\ dev_crtcs (w_dev w) !! crtc = Some c /\
    w_crtc_states w !! p = Some s /\ r = drm_atomic_crtc_check (w_dev w) c s.
Proof.
  intros H Hst He Hp. unfold check_crtc_entry, crtcs_at, get_state in H.
  mrun; mworld; eauto 10.
Qed.

Lemma check_modeset_entry_inv i w r st e p s :
  check_modeset_entry i w = Some (r, w) ->
  w_state w = Some st -> crtcs st !! i = Some e -> ce_state e = Some p ->
  w_crtc_states w !! p = Some s ->
  r = if drm_atomic_crtc_needs_modeset s then - EINVAL else 0.
Proof.
  intros H Hst He Hp Hs. unfold check_modeset_entry, crtcs_at, get_state in H.
  mrun; mworld;
  match goal with Hb : drm_atomic_crtc_needs_modeset _ = _ |- _ => rewrite Hb end;
  reflexivity.
Qed.

(** X14.  What a successful drm_atomic_check_only has checked.  If it
    returns 0, then on the machine it was called on every plane snapshot of
    the transaction passes drm_atomic_plane_check and every CRTC snapshot
    passes drm_atomic_crtc_check, the driver's atomic_check hook (if any)
    returned 0, and if the transaction as the hook left it does not allow
    modesets, none of its CRTC snapshots needs one. *)
Theorem check_only_sound (drv : drm_driver) (w w' : world) :
  drm_atomic_check_only drv w = Some (0, w') ->
  exists st,
    w_state w = Some st /\
    (forall i e p,
       (i < num_total_plane (mode_config (w_dev w)))%nat ->
       planes st !! i = Some e -> pe_state e = Some p ->
       exists plane pl s,
         pe_ptr e = Some plane /\ dev_planes (w_dev w) !! plane = Some pl /\
         w_plane_states w !! p = Some s /\ drm_atomic_plane_check drv plane pl s = 0) /\
    (forall i e p,
       (i < num_crtc (mode_config (w_dev w)))%nat ->
       crtcs st !! i = Some e -> ce_state e = Some p ->
       exists crtc c s,
         ce_ptr e = Some crtc /\ dev_crtcs (w_dev w) !! crtc = Some c /\
         w_crtc_states w !! p = Some s /\ drm_atomic_crtc_check (w_dev w) c s = 0) /\
    (forall h, atomic_check drv = Some h -> fst (h w) = 0) /\
    (forall st' i e p s,
       w_state w' = Some st' -> allow_modeset st' = false ->
       (i < num_crtc (mode_config (w_dev w')))%nat ->
       crtcs st' !! i = Some e -> ce_state e = Some p -> w_crtc_states w' !! p = Some s ->
       drm_atomic_crtc_needs_modeset s = false).
Proof.
  intros H. unfold drm_atomic_check_only in H.
  mstep H. rename H0 into Hcfg.
  destruct (state_config_val _ _ _ Hcfg) as (-> & -> & st & Hst). clear Hcfg.
  mstep H. rename H0 into Hplanes.
  destruct (first_error_pure _ _ _ _ _ (check_plane_entry_pure drv) Hplanes) as [-> Hp].
  destruct (negb (a =? 0)) eqn:Ha.
  { mstep H. apply negb_true_iff, Z.eqb_neq in Ha. contradiction. }
  apply negb_false_iff, Z.eqb_eq in Ha. subst a.
  destruct Hp as [[_ Hp]|[Hp _]]; [|contradiction].
  mstep H. rename H0 into Hcrtcs.
  destruct (first_error_pure _ _ _ _ _ check_crtc_entry_pure Hcrtcs) as [-> Hc].
  destruct (negb (a =? 0)) eqn:Ha.
  { mstep H. apply negb_true_iff, Z.eqb_neq in Ha. contradiction. }
  apply negb_false_iff, Z.eqb_eq in Ha. subst a.
  destruct Hc as [[_ Hc]|[Hc _]]; [|contradiction].
  mstep H. rename H0 into Hhook.
  destruct (negb (a =? 0)) eqn:Ha.
  { mstep H. apply negb_true_iff, Z.eqb_neq in Ha. contradiction. }
  apply negb_false_iff, Z.eqb_eq in Ha. subst a.
  exists st. split; [exact Hst|]. split; [|split; [|split]].
  - intros i e p Hi He Hpe.
    assert (Hin : i ∈ seq 0 (num_total_plane (mode_config (w_dev w))))
      by (apply elem_of_seq; lia).
    destruct (check_plane_entry_inv _ _ _ _ _ _ _ (Hp i Hin) Hst He Hpe)
      as (plane & pl & s & H1 & H2 & H3 & H4).
    exists plane, pl, s. auto.
  - intros i e p Hi He Hce.
    assert (Hin : i ∈ seq 0 (num_crtc (mode_config (w_dev w))))
      by (apply elem_of_seq; lia).
    destruct (check_crtc_entry_inv _ _ _ _ _ _ (Hc i Hin) Hst He Hce)
      as (crtc & c & s & H1 & H2 & H3 & H4).
    exists crtc, c, s. auto.
  - intros h Hh. rewrite Hh in Hhook. unfold run_hook in Hhook.
    destruct (h w) as [rh wh] eqn:Hh0. simpl in *. congruence.
  - intros st' i e p s Hst' Hallow Hi He Hce Hs.
    mstep H. rename H0 into Hget.
    destruct (get_state_inv _ _ _ Hget) as [-> Hst1]. clear Hget.
    destruct (negb (allow_modeset a)) eqn:Hal.
    + mstep H. rename H0 into Hcfg1.
      destruct (state_config_val _ _ _ Hcfg1) as (-> & -> & _). clear Hcfg1.
      destruct (first_error_pure _ _ _ _ _ check_modeset_entry_pure H) as [-> Hall].
      destruct Hall as [[_ Hall]|[Hall _]]; [|contradiction].
      specialize (Hall i ltac:(apply elem_of_seq; lia)).
      pose proof (check_modeset_entry_inv _ _ _ _ _ _ _ Hall Hst' He Hce Hs) as Hr.
      destruct (drm_atomic_crtc_needs_modeset s); [discriminate | reflexivity].
    + mstep H. rewrite Hst' in Hst1. injection Hst1 as <-.
      rewrite Hallow in Hal. discriminate.
Qed.

Lemma check_only_sound_witness :
  drm_atomic_check_only demo_driver demo_world_populated = Some (0, demo_world_populated) /\
  exists st, w_state demo_world_populated = Some st /\
    forall h, atomic_check demo_driver = Some h -> fst (h demo_world_populated) = 0.
Proof.
  assert (H : drm_atomic_check_only demo_driver demo_world_populated
              = Some (0, demo_world_populated)) by (vm_compute; reflexivity).
  split; [exact H|].
  destruct (check_only_sound _ _ _ H) as (st & Hst & _ & _ & Hh & _).
  exists st. split; [exact Hst | exact Hh].
Defined.

Lemma seq_split_at (n i : nat) :
  (i < n)%nat -> seq 0 n = seq 0 i ++ i :: seq (S i) (n - S i).
Proof.
  intros Hi. replace n with (i + S (n - S i))%nat at 1 by lia.
  rewrite seq_app. simpl. reflexivity.
Qed.

(** X15.  drm_atomic_check_only reports the first failure and stops there.
    If the check of plane entry [i] fails with [r] and the entries below it
    pass, the result is [r]; if all plane entries pass, CRTC entry [i] fails
    with [r] and the CRTC entries below it pass, the result is [r].  In both
    cases the machine is left as it was: the driver's atomic_check hook is
    not run. *)
Theorem check_only_reports_first_failure (drv : drm_driver) (w : world)
    (st : drm_atomic_state) (i : nat) (r : Z) :
  w_state w = Some st -> st_dev st = true -> r <> 0 ->
  ((i < num_total_plane (mode_config (w_dev w)))%nat ->
   check_plane_entry drv i w = Some (r, w) ->
   (forall j, (j < i)%nat -> check_plane_entry drv j w = Some (0, w)) ->
   drm_atomic_check_only drv w = Some (r, w)) /\
  ((i < num_crtc (mode_config (w_dev w)))%nat ->
   (forall j, (j < num_total_plane (mode_config (w_dev w)))%nat ->
              check_plane_entry drv j w = Some (0, w)) ->
   check_crtc_entry i w = Some (r, w) ->
   (forall j, (j < i)%nat -> check_crtc_entry j w = Some (0, w)) ->
   drm_atomic_check_only drv w = Some (r, w)).
Proof.
  intros Hst Hdev Hr. pose proof (state_config_eq _ _ Hst Hdev) as Hcfg.
  assert (Hnz : negb (r =? 0) = true) by (apply negb_true_iff, Z.eqb_neq; exact Hr).
  split.
  - intros Hi Hfail Hbelow. unfold drm_atomic_check_only.
    rewrite (bind_eq _ _ _ _ _ Hcfg).
    rewrite (seq_split_at _ _ Hi).
    erewrite bind_eq; [rewrite Hnz; reflexivity|].
    apply first_error_run; auto.
    intros j Hj. apply elem_of_seq in Hj. apply Hbelow. lia.
  - intros Hi Hplanes Hfail Hbelow. unfold drm_atomic_check_only.
    rewrite (bind_eq _ _ _ _ _ Hcfg).
    erewrite bind_eq;
      [|apply first_error_all_zero; intros j Hj; apply elem_of_seq in Hj;
        apply Hplanes; lia].
    simpl. rewrite (seq_split_at _ _ Hi).
    erewrite bind_eq; [rewrite Hnz; reflexivity|].
    apply first_error_run; auto.
    intros j Hj. apply elem_of_seq in Hj. apply Hbelow. lia.
Qed.

Lemma check_only_reports_first_failure_witness :
  drm_atomic_check_only demo_driver demo_world_plane1_bad
  = Some (- EINVAL, demo_world_plane1_bad).
Proof.
  destruct (w_state demo_world_plane1_bad) as [st|] eqn:Hst; [|discriminate Hst].
  refine (proj1 (check_only_reports_first_failure demo_driver demo_world_plane1_bad st 1%nat
                   (- EINVAL) Hst _ _) _ _ _).
  - injection Hst as <-. reflexivity.
  - discriminate.
  - simpl. lia.
  - vm_compute. reflexivity.
  - intros j Hj. assert (j = 0%nat) as -> by lia. vm_compute. reflexivity.
Defined.

(** *** Commit attempts of the ioctl *)

Lemma retry_commits drv arg fp fuel :
  forall w res w',
    atomic_ioctl_retry drv fuel arg fp w = Some (res, w') ->
    exists n last,
      List.filter is_commit (w_trace w')
      = List.filter is_commit (w_trace w)
        ++ replicate n (EvAtomicCommit (has_flag (flags arg) DRM_MODE_ATOMIC_NONBLOCK)
                          (- EDEADLK))
        ++ last /\
      (n <= fuel)%nat /\
      (has_flag (flags arg) DRM_MODE_ATOMIC_TEST_ONLY = true -> n = 0%nat /\ last = []) /\
      match res with
      | None => last = []
      | Some r =>
          (last = [] /\ (r <> 0 \/ has_flag (flags arg) DRM_MODE_ATOMIC_TEST_ONLY = true)) \/
          (last = [EvAtomicCommit (has_flag (flags arg) DRM_MODE_ATOMIC_NONBLOCK) r])
      end.
Proof.
  induction fuel as [|fuel IH]; intros w res w' H.
  { simpl in H. mstep H. exists 0%nat, []. simpl. rewrite app_nil_r. auto. }
  rewrite atomic_ioctl_retry_round in H.
  destruct (atomic_ioctl_round drv arg fp w) as [[r w1]|] eqn:Hround; [|discriminate].
  pose proof (round_commits _ _ _ _ _ _ Hround) as Hc.
  destruct (r =? - EDEADLK) eqn:Hr.
  - apply Z.eqb_eq in Hr. subst r.
    destruct (drm_atomic_state_clear drv w1) as [[[] w2]|] eqn:Hclear; [|discriminate].
    pose proof (quiet_commit_state_clear drv _ _ _ Hclear) as Hs.
    destruct (IH _ _ _ H) as (n & last & Ht & Hn & Htest & Hres).
    unfold logged in Ht. simpl in Ht. rewrite List.filter_app in Ht. simpl in Ht.
    rewrite app_nil_r, Hs in Ht.
    destruct Hc as [[Hc _]|[Hflag Hc]].
    + exists n, last. rewrite Ht, Hc. repeat split; auto; try lia. apply Htest; auto.
      apply Htest; auto.
    + exists (S n), last. rewrite Ht, Hc, <- app_assoc. simpl.
      split; [reflexivity|]. split; [lia|]. split; [|exact Hres].
      intros Hflag'. congruence.
  - assert (Hfin : exists w2, silent is_commit w1 w2 /\ res = Some r /\ w' = logged EvDropLocks w2).
    { destruct (negb (r =? 0) || has_flag (flags arg) DRM_MODE_ATOMIC_TEST_ONLY).
      - destruct (drm_atomic_state_free drv true w1) as [[[] w2]|] eqn:Hfree; [|discriminate].
        injection H as <- <-. exists w2. split; [|auto].
        exact (quiet_commit_state_free drv _ _ _ _ Hfree).
      - injection H as <- <-. exists w1. split; [reflexivity | auto]. }
    destruct Hfin as (w2 & Hs & -> & ->).
    assert (Ht : List.filter is_commit (w_trace (logged EvDropLocks w2))
                 = List.filter is_commit (w_trace w1)).
    { unfold logged. simpl. rewrite List.filter_app. simpl. rewrite app_nil_r. exact Hs. }
    destruct Hc as [[Hc Hnz]|[Hflag Hc]].
    + exists 0%nat, []. rewrite Ht, Hc. simpl. rewrite app_nil_r.
      split; [reflexivity|]. split; [lia|]. split; [auto|]. left. auto.
    + exists 0%nat, [EvAtomicCommit (has_flag (flags arg) DRM_MODE_ATOMIC_NONBLOCK) r].
      rewrite Ht, Hc. simpl. split; [reflexivity|]. split; [lia|].
      split; [intros; congruence|]. right. reflexivity.
Qed.

Lemma quiet_commit_state_alloc drv : preserves (silent is_commit) (drm_atomic_state_alloc drv).
Proof. unfold drm_atomic_state_alloc. quiet. Qed.

(** X16.  The commit attempts of one drm_mode_atomic_ioctl.  Every call of
    the driver's atomic_commit hook is made with the blocking mode the
    NONBLOCK flag asks for, and every call but the last returned -EDEADLK.
    If a last call with another result took place, its result is the
    result of the ioctl.  A TEST_ONLY ioctl never calls the hook; an ioctl
    without TEST_ONLY that returns 0 has ended with a commit that
    returned 0. *)
Theorem ioctl_commit_attempts (drv : drm_driver) (fuel : nat) (arg : drm_mode_atomic)
    (fp : drm_file) (w : world) (r : Z) (w' : world) :
  drm_mode_atomic_ioctl drv fuel arg fp w = Some (Some r, w') ->
  let nonblock := has_flag (flags arg) DRM_MODE_ATOMIC_NONBLOCK in
  exists n last,
    List.filter is_commit (w_trace w')
    = List.filter is_commit (w_trace w)
      ++ replicate n (EvAtomicCommit nonblock (- EDEADLK)) ++ last /\
    (last = [] \/ last = [EvAtomicCommit nonblock r]) /\
    (has_flag (flags arg) DRM_MODE_ATOMIC_TEST_ONLY = true -> n = 0%nat /\ last = []) /\
    (has_flag (flags arg) DRM_MODE_ATOMIC_TEST_ONLY = false -> r = 0 ->
     last = [EvAtomicCommit nonblock 0]).
Proof.
  intros H nonblock.
  assert (Hearly : forall w0, w' = w0 -> silent is_commit w w0 -> r <> 0 ->
            exists n last,
              List.filter is_commit (w_trace w')
              = List.filter is_commit (w_trace w)
                ++ replicate n (EvAtomicCommit nonblock (- EDEADLK)) ++ last /\
              (last = [] \/ last = [EvAtomicCommit nonblock r]) /\
              (has_flag (flags arg) DRM_MODE_ATOMIC_TEST_ONLY = true ->
               n = 0%nat /\ last = []) /\
              (has_flag (flags arg) DRM_MODE_ATOMIC_TEST_ONLY = false -> r = 0 ->
               last = [EvAtomicCommit nonblock 0])).
  { intros w0 -> Hs Hr. exists 0%nat, []. simpl. rewrite app_nil_r.
    split; [exact Hs|]. split; [auto|]. split; [auto|]. intros _ Hz. contradiction. }
  unfold drm_mode_atomic_ioctl in H. mstep H. mstep H0.
  repeat match type of H with
         | (if ?b then ret _ else _) _ = Some _ =>
             destruct b;
             [apply ret_Some in H; destruct H as [Hr Hw]; injection Hr as <-; subst;
              apply (Hearly _ eq_refl); [reflexivity | discriminate]|]
         end.
  match type of H with
  | bind ?m _ _ = _ => assert (Hq : preserves (silent is_commit) m) by quiet
  end.
  mstep H. rename H0 into Hboost. pose proof (Hq _ _ _ Hboost) as Hs0. clear Hq Hboost.
  mstep H. rename H0 into Halloc.
  pose proof (quiet_commit_state_alloc drv _ _ _ Halloc) as Hs1. clear Halloc.
  assert (Hs01 := transitivity Hs0 Hs1). clear Hs0 Hs1.
  match type of H with
  | (if ?b then _ else _) _ = _ => destruct b
  end.
  { apply ret_Some in H; destruct H as [Hr Hw]; injection Hr as <-; subst.
    apply (Hearly _ eq_refl); [exact Hs01 | discriminate]. }
  mstep H. rename H0 into Hget. destruct (get_state_inv _ _ _ Hget) as [-> Hst]. clear Hget.
  mstep H. rename H0 into Hput. unfold put_state in Hput. mstep Hput.
  destruct (retry_commits _ _ _ _ _ _ _ H) as (n & last & Ht & _ & Htest & Hres).
  simpl in Ht. exists n, last. fold nonblock in Ht, Hres.
  split; [rewrite Ht; unfold silent in Hs01; rewrite Hs01; reflexivity|].
  split; [destruct Hres as [[-> _] | ->]; auto|].
  split; [exact Htest|].
  intros Hflag Hz. destruct Hres as [[_ [Hnz|Hf]]|Hl]; [contradiction | congruence |].
  rewrite Hl, Hz. reflexivity.
Qed.

Lemma ioctl_commit_attempts_witness :
  exists w', drm_mode_atomic_ioctl contended_driver 2 demo_arg demo_file demo_idle
             = Some (Some 0, w') /\
             List.filter is_commit (w_trace w') = [EvAtomicCommit false 0].
Proof.
  destruct (drm_mode_atomic_ioctl contended_driver 2 demo_arg demo_file demo_idle)
    as [[[r|] w']|] eqn:H; [|vm_compute in H; discriminate..].
  assert (Hr : r = 0) by (vm_compute in H; injection H as <- _; reflexivity).
  subst r. exists w'. split; [reflexivity|].
  destruct (ioctl_commit_attempts _ _ _ _ _ _ _ H) as (n & last & Ht & _ & _ & Hl).
  rewrite (Hl eq_refl eq_refl) in Ht.
  assert (Hlen : length (List.filter is_commit (w_trace w')) = 1%nat)
    by (vm_compute in H; injection H as <-; reflexivity).
  rewrite Ht in Hlen. simpl in Hlen. rewrite length_app, length_replicate in Hlen.
  simpl in Hlen. assert (n = 0%nat) as -> by lia. exact Ht.
Defined.

(** *** What the ioctl leaves behind *)

Lemma retry_outcome drv arg fp fuel :
  atomic_state_free drv = None ->
  forall w r w',
    atomic_ioctl_retry drv fuel arg fp w = Some (Some r, w') ->
    r <> - EDEADLK /\
    (r <> 0 \/ has_flag (flags arg) DRM_MODE_ATOMIC_TEST_ONLY = true -> w_state w' = None).
Proof.
  intros Hfree. induction fuel as [|fuel IH]; intros w r w' H; [discriminate|].
  rewrite atomic_ioctl_retry_round in H.
  destruct (atomic_ioctl_round drv arg fp w) as [[r0 w1]|]; [|discriminate].
  destruct (r0 =? - EDEADLK) eqn:Hr.
  - destruct (drm_atomic_state_clear drv w1) as [[[] w2]|]; [|discriminate]. eauto.
  - apply Z.eqb_neq in Hr.
    destruct (negb (r0 =? 0) || has_flag (flags arg) DRM_MODE_ATOMIC_TEST_ONLY) eqn:Hc.
    + destruct (drm_atomic_state_free drv true w1) as [[[] w2]|] eqn:Hf; [|discriminate].
      injection H as <- <-. split; [exact Hr|]. intros _.
      apply state_free_torn_down in Hf. simpl. apply Hf. exact Hfree.
    + injection H as <- <-. split; [exact Hr|].
      apply orb_false_iff in Hc as [Hz Ht]. apply negb_false_iff, Z.eqb_eq in Hz.
      intros [Hnz|Hflag]; [contradiction | congruence].
Qed.

Lemma state_alloc_failed drv w w1 :
  drm_atomic_state_alloc drv w = Some (false, w1) ->
  w_state w = None -> w_state w1 = None.
Proof.
  unfold drm_atomic_state_alloc, kzalloc. intros H Hnone.
  destruct (atomic_state_alloc drv) as [h|].
  - mrun; mworld; try discriminate. exact Hnone.
  - mrun; mworld; try discriminate; simpl; auto.
Qed.

(** X17.  drm_mode_atomic_ioctl leaves no transaction behind when it fails
    or only tests.  Started on a machine without transaction, with a driver
    that uses the default free hook, an ioctl that returns an error, or that
    was called with TEST_ONLY, ends on a machine without transaction; and
    its result is never -EDEADLK. *)
Theorem ioctl_leaves_no_transaction (drv : drm_driver) (fuel : nat) (arg : drm_mode_atomic)
    (fp : drm_file) (w : world) (r : Z) (w' : world) :
  w_state w = None -> atomic_state_free drv = None ->
  drm_mode_atomic_ioctl drv fuel arg fp w = Some (Some r, w') ->
  r <> - EDEADLK /\
  (r <> 0 \/ has_flag (flags arg) DRM_MODE_ATOMIC_TEST_ONLY = true -> w_state w' = None).
Proof.
  intros Hnone Hfree H.
  unfold drm_mode_atomic_ioctl in H. mstep H. mstep H0.
  repeat match type of H with
         | (if ?b then ret _ else _) _ = Some _ =>
             destruct b;
             [apply ret_Some in H; destruct H as [Hr Hw]; injection Hr as <-; subst;
              split; [discriminate | intros _; exact Hnone]|]
         end.
  mstep H. rename H0 into Hboost.
  match type of Hboost with
  | _ = Some (_, ?wb) => assert (Hn0 : w_state wb = None)
  end.
  { match type of Hboost with (if ?b then _ else _) _ = _ => destruct b end.
    - cbv [log bind modify ret] in Hboost. injection Hboost as Hb. subst. exact Hnone.
    - cbv [ret] in Hboost. injection Hboost as Hb. subst. exact Hnone. }
  clear Hboost.
  mstep H. rename H0 into Halloc.
  destruct a0; simpl in H.
  - mstep H. mstep H. eapply retry_outcome; eauto.
  - apply ret_Some in H; destruct H as [Hr Hw]; injection Hr as <-; subst.
    split; [discriminate|]. intros _. eapply state_alloc_failed; eauto.
Qed.

Lemma ioctl_leaves_no_transaction_witness :
  exists w', drm_mode_atomic_ioctl demo_driver 1 demo_arg demo_file demo_idle
             = Some (Some (- EFAULT), w') /\ w_state w' = None.
Proof.
  destruct (drm_mode_atomic_ioctl demo_driver 1 demo_arg demo_file demo_idle)
    as [[[r|] w']|] eqn:H; [|vm_compute in H; discriminate..].
  assert (Hr : r = - EFAULT) by (vm_compute in H; injection H as <- _; reflexivity).
  subst r. exists w'. split; [reflexivity|].
  apply (ioctl_leaves_no_transaction demo_driver 1 demo_arg demo_file demo_idle (- EFAULT) w'
           eq_refl eq_refl H).
  left. discriminate.
Defined.

(** *** The legacy framebuffer pointers *)

Ltac clean_frame H :=
  match type of H with
  | ?w1 = set_trace _ (set_dev _ ?w) =>
      destruct w1 as [[] ? ? ? ? ? ? ?], w as [[] ? ? ? ? ? ? ?];
      simpl in *; injection H as ?; subst; reflexivity
  end.

Ltac clean_planes :=
  match goal with
  | Hplanes : forall i pl, _ !! i = Some pl -> _ !! i = Some _,
    Hlt : forall i, (i <? S _)%nat = _ |- _ =>
      let i := fresh "i" in let p := fresh "p" in let Hi := fresh "Hi" in
      intros i p Hi; simpl; rewrite Hlt;
      destruct (decide (i = _)) as [->|Hne];
      [rewrite list_lookup_insert_eq by (apply lookup_lt_is_Some; eauto);
       simplify_eq; simpl; rewrite ?Nat.ltb_irrefl; simpl;
       repeat match goal with
              | Hb : Z.testbit _ _ = _ |- _ => rewrite Hb
              | Hb : ps_fb _ = _ |- _ => rewrite Hb
              end;
       reflexivity
      |rewrite list_lookup_insert_ne by congruence; apply Hplanes; exact Hi]
  end.

Lemma clean_old_fb_loop mask r w n :
  (n <= length (dev_planes (w_dev w)))%nat ->
  exists w',
    for_loop n (clean_old_fb_plane mask r) w = Some (tt, w') /\
    w' = set_trace (w_trace w')
           (set_dev (dev_with_planes (dev_planes (w_dev w')) (w_dev w)) w) /\
    length (dev_planes (w_dev w')) = length (dev_planes (w_dev w)) /\
    (forall i pl,
       dev_planes (w_dev w) !! i = Some pl ->
       dev_planes (w_dev w') !! i
       = Some (if (i <? n)%nat && Z.testbit mask (Z.of_nat i)
               then if r =? 0
                    then pl_with_fbs (ps_fb (plane_state pl)) None (ps_crtc (plane_state pl)) pl
                    else pl_with_fbs (plane_fb pl) None (plane_crtc pl) pl
               else pl)) /\
    (forall id,
       fb_refs id (w_trace w')
       = fb_refs id (w_trace w)
         + if r =? 0 then sum_upto n (clean_old_fb_gain id mask (dev_planes (w_dev w))) else 0).
Proof.
  induction n as [|n IH]; intros Hn.
  - exists w. simpl. split; [reflexivity|]. split; [destruct w as [[] ?]; reflexivity|].
    split; [reflexivity|]. split; [intros; assumption|].
    intros id. destruct (r =? 0); lia.
  - destruct (IH ltac:(lia)) as (w1 & Hrun & Hframe & Hlen & Hplanes & Hrefs).
    destruct (lookup_lt_is_Some_2 (dev_planes (w_dev w)) n ltac:(lia)) as [pl Hpl].
    pose proof (Hplanes n pl Hpl) as Hpl1. rewrite Nat.ltb_irrefl in Hpl1. simpl in Hpl1.
    simpl. rewrite (bind_eq _ _ _ _ _ Hrun). unfold clean_old_fb_plane.
    destruct (Z.testbit mask (Z.of_nat n)) eqn:Hbit.
    + unfold bind at 1, get_world. rewrite Hpl1. simpl.
      assert (Hlt : forall i, (i <? S n)%nat = if decide (i = n) then true else (i <? n)%nat).
      { intros i. destruct (decide (i = n)) as [->|Hne].
        - apply Nat.ltb_lt. lia.
        - destruct (Nat.ltb_spec i n), (Nat.ltb_spec i (S n)); auto; lia. }
      destruct (r =? 0) eqn:Hr.
      * destruct (ps_fb (plane_state pl)) as [nf|] eqn:Hnew;
          destruct (plane_old_fb pl) as [ofb|] eqn:Hold;
          (eexists; split;
             [cbv [bind ret deref drm_framebuffer_reference drm_framebuffer_unreference
                   log modify store_plane]; rewrite ?Hnew, ?Hold; reflexivity|]);
          (split; [clean_frame Hframe|]);
          (split; [simpl; rewrite length_insert; exact Hlen|]);
          (split; [clean_planes|]);
          intros id; cbn [sum_upto];
          unfold clean_old_fb_gain at 2; rewrite Hpl, Hbit, Hnew, Hold;
          simpl; rewrite ?fb_refs_app, Hrefs; simpl;
          repeat match goal with |- context [?a =? id] => destruct (a =? id) end; lia.
      * eexists; split; [cbv [bind ret deref log modify store_plane]; reflexivity|].
        split; [clean_frame Hframe|].
        split; [simpl; rewrite length_insert; exact Hlen|].
        split; [clean_planes|].
        intros id. simpl. rewrite Hrefs. reflexivity.
    + eexists. split; [reflexivity|]. split; [exact Hframe|]. split; [exact Hlen|].
      split.
      * intros i p Hi. rewrite (Hplanes i p Hi).
        destruct (decide (i = n)) as [->|Hne].
        -- rewrite Hbit, !andb_false_r. reflexivity.
        -- replace (i <? S n)%nat with (i <? n)%nat; [reflexivity|].
           destruct (Nat.ltb_spec i n), (Nat.ltb_spec i (S n)); auto; lia.
      * intros id. rewrite Hrefs. destruct (r =? 0); [|reflexivity].
        cbn [sum_upto]. unfold clean_old_fb_gain at 3. rewrite Hpl, Hbit. lia.
Qed.

(** X18.  drm_atomic_clean_old_fb always succeeds and touches only the
    legacy pointers of the planes in the mask.  Those planes end with no
    old_fb; after a successful commit ([r] = 0) their fb and crtc are the
    ones of the plane's state, after a failed one they are as before.  All
    other planes, the plane states and the rest of the machine are
    unchanged.  For every framebuffer, the references taken less those
    dropped are, after a success, the sum over the planes of the mask of
    one for a new fb that is this framebuffer less one for an old_fb that
    was; after a failure no reference is taken or dropped. *)
Theorem clean_old_fb_outcome (plane_mask r : Z) (w : world) :
  exists w',
    drm_atomic_clean_old_fb plane_mask r w = Some (tt, w') /\
    w' = set_trace (w_trace w')
           (set_dev (dev_with_planes (dev_planes (w_dev w')) (w_dev w)) w) /\
    length (dev_planes (w_dev w')) = length (dev_planes (w_dev w)) /\
    (forall i pl,
       dev_planes (w_dev w) !! i = Some pl ->
       exists pl',
         dev_planes (w_dev w') !! i = Some pl' /\
         plane_state pl' = plane_state pl /\
         (Z.testbit plane_mask (Z.of_nat i) = false -> pl' = pl) /\
         (Z.testbit plane_mask (Z.of_nat i) = true ->
          plane_old_fb pl' = None /\
          (r = 0 -> plane_fb pl' = ps_fb (plane_state pl) /\
                    plane_crtc pl' = ps_crtc (plane_state pl)) /\
          (r <> 0 -> plane_fb pl' = plane_fb pl /\ plane_crtc pl' = plane_crtc pl))) /\
    (forall id,
       fb_refs id (w_trace w') - fb_refs id (w_trace w)
       = if r =? 0
         then sum_upto (length (dev_planes (w_dev w)))
                (clean_old_fb_gain id plane_mask (dev_planes (w_dev w)))
         else 0).
Proof.
  destruct (clean_old_fb_loop plane_mask r w (length (dev_planes (w_dev w))) ltac:(lia))
    as (w' & Hrun & Hframe & Hlen & Hplanes & Hrefs).
  exists w'. split; [exact Hrun|]. split; [exact Hframe|]. split; [exact Hlen|].
  split; [|intros id; rewrite Hrefs; lia].
  intros i pl Hi. eexists. split; [apply Hplanes; exact Hi|].
  apply lookup_lt_Some in Hi. apply Nat.ltb_lt in Hi. rewrite Hi. simpl.
  destruct (Z.testbit plane_mask (Z.of_nat i)).
  - split; [destruct (r =? 0); reflexivity|]. split; [discriminate|]. intros _.
    destruct (r =? 0) eqn:Hr.
    + apply Z.eqb_eq in Hr. repeat split; auto; contradiction.
    + apply Z.eqb_neq in Hr. repeat split; auto; contradiction.
  - split; [reflexivity|]. split; [reflexivity | discriminate].
Qed.

(** *** Linking a connector to a CRTC *)

Lemma set_crtc_for_connector_run drv conn_state s crtc w r w' :
  w_connector_states w !! conn_state = Some s ->
  drm_atomic_set_crtc_for_connector drv conn_state crtc w = Some (r, w') ->
  exists c',
    w_connector_states w' = <[conn_state := cns_with_crtc c' s]> (w_connector_states w) /\
    w_dev w' = w_dev w /\ w_plane_states w' = w_plane_states w /\
    (r = 0 -> c' = crtc) /\ (r <> 0 -> c' = None) /\
    (forall c, connector_refs c (w_trace w') - holds_connector c (cns_with_crtc c' s)
               = connector_refs c (w_trace w) - holds_connector c s).
Proof.
  intros Hs H.
  unfold drm_atomic_set_crtc_for_connector, drm_atomic_get_existing_crtc_state,
    drm_connector_reference, drm_connector_unreference, crtcs_at, get_state in H.
  mrun; mworld;
  repeat match goal with
  | H : drm_atomic_get_crtc_state _ _ _ = Some _ |- _ =>
      apply get_crtc_state_shape in H as (? & ? & ? & ? & ? & ? & ? & ? & ?)
  end; simpl in *;
  repeat match goal with
  | H : w_plane_states ?a = _ |- _ => is_var a; rewrite H in *; clear H
  | H : w_connector_states ?a = _ |- _ => is_var a; rewrite H in *; clear H
  | H : w_trace ?a = _ |- _ => is_var a; rewrite H in *; clear H
  | H : w_dev ?a = _ |- _ => is_var a; rewrite H in *; clear H
  end; simplify_map_eq.
  all: first
    [ eexists; split; [rewrite ?insert_insert_eq; reflexivity|]
    | match type of Hs with
      | _ = Some ?s0 =>
          exists (cns_crtc s0); split;
          [replace (cns_with_crtc (cns_crtc s0) s0) with s0 by (destruct s0; reflexivity);
           symmetry; apply insert_id; assumption|]
      end ].
  all: (split; [reflexivity|]); (split; [reflexivity|]).
  all: (split; [first [ intros _; congruence
                      | intros ->; exfalso;
                        match goal with H : forall e, ErrPtr 0 = ErrPtr e -> e <> 0 |- _ =>
                          exact (H 0 eq_refl eq_refl) end ]|]).
  all: (split; [first [ intros _; congruence | intros Hz; exfalso; apply Hz; reflexivity ]|]).
  all: intros c; rewrite ?connector_refs_app; simpl;
       repeat match goal with
       | Hf : Forall (fun e => is_lock_or_duplicate e = true) ?x |- _ =>
           rewrite (proj2 (proj2 (refs_lock_or_duplicate x Hf)) c); clear Hf
       end;
       unfold holds_connector; simpl;
       repeat match goal with Hc : cns_crtc _ = _ |- _ => rewrite Hc end;
       repeat destruct (_ =? c)%nat; lia.
Qed.

(** X19.  drm_atomic_set_crtc_for_connector keeps connector references in
    step with the link.  Whatever the call returns, it changes only the crtc
    member of the connector snapshot (and CRTC snapshots); on success the
    member is the requested CRTC, on failure the connector is left without
    CRTC; and for every connector the references taken less those dropped
    equal the change in whether the snapshot holds a reference, which it
    does exactly while it is linked to a CRTC. *)
Theorem set_crtc_for_connector_conserves_refs (drv : drm_driver) (conn_state : ptr)
    (s : drm_connector_state) (crtc : option nat) (w : world) (r : Z) (w' : world) :
  w_connector_states w !! conn_state = Some s ->
  drm_atomic_set_crtc_for_connector drv conn_state crtc w = Some (r, w') ->
  exists c',
    w_connector_states w' !! conn_state = Some (cns_with_crtc c' s) /\
    (forall q, q <> conn_state -> w_connector_states w' !! q = w_connector_states w !! q) /\
    w_dev w' = w_dev w /\ w_plane_states w' = w_plane_states w /\
    (r = 0 -> c' = crtc) /\ (r <> 0 -> c' = None) /\
    (forall c, connector_refs c (w_trace w') - holds_connector c (cns_with_crtc c' s)
               = connector_refs c (w_trace w) - holds_connector c s).
Proof.
  intros Hs H.
  destruct (set_crtc_for_connector_run _ _ _ _ _ _ _ Hs H)
    as (c' & Hh & Hd & Hp & Hok & Herr & Hrefs).
  exists c'. rewrite Hh. split; [apply lookup_insert_eq|].
  split; [intros q Hq; apply lookup_insert_ne; auto|]. auto.
Qed.

Lemma demo_world_populated_connector :
  w_connector_states demo_world_populated !! 102%nat
  = Some {| cns_connector := 0; cns_crtc := Some 0%nat; cns_state := true |}.
Proof. reflexivity. Qed.

Lemma set_crtc_for_connector_conserves_refs_witness :
  exists w',
    drm_atomic_set_crtc_for_connector demo_driver 102%nat (Some 1%nat) demo_world_populated
    = Some (0, w') /\
    cns_crtc <$> (w_connector_states w' !! 102%nat) = Some (Some 1%nat) /\
    connector_refs 0 (w_trace w') = connector_refs 0 (w_trace demo_world_populated).
Proof.
  destruct (drm_atomic_set_crtc_for_connector demo_driver 102%nat (Some 1%nat)
              demo_world_populated) as [[r w']|] eqn:Hrun; [|vm_compute in Hrun; discriminate].
  assert (Hr : r = 0) by (vm_compute in Hrun; injection Hrun as <- _; reflexivity).
  subst r.
  destruct (set_crtc_for_connector_conserves_refs demo_driver 102%nat _ (Some 1%nat)
              demo_world_populated 0 w' demo_world_populated_connector Hrun)
    as (c' & Hs' & _ & _ & _ & Hok & _ & Hrefs).
  rewrite (Hok eq_refl) in Hs', Hrefs.
  exists w'. split; [reflexivity|]. split; [exact (f_equal (fmap cns_crtc) Hs')|].
  pose proof (Hrefs 0%nat) as H0. unfold holds_connector in H0.
  cbn [cns_with_crtc cns_crtc cns_connector Nat.eqb] in H0. lia.
Defined.

(** *** Adding the objects a CRTC affects *)

Lemma get_plane_state_error drv plane w e w' :
  drm_atomic_get_plane_state drv plane w = Some (ErrPtr e, w') -> e <> 0.
Proof.
  rewrite get_plane_state_eq.
  destruct (w_state w) as [st|]; [|discriminate].
  destruct (planes st !! plane) as [en|]; [|discriminate].
  destruct (pe_state en); [discriminate|]. cbv zeta.
  destruct (negb (drm_modeset_lock drv w (PlaneMutex plane) =? 0)) eqn:E.
  { intros [= <- _]. apply negb_true_iff, Z.eqb_neq in E. exact E. }
  destruct (plane_atomic_duplicate_state drv _ plane) as [snapshot|].
  - destruct (ps_crtc snapshot) as [crtc|]; [|discriminate].
    destruct (drm_atomic_get_crtc_state drv crtc _) as [[[p|e'] w3]|] eqn:Hg;
      [discriminate| |discriminate].
    intros [= <- _]. eapply get_crtc_state_error; eauto.
  - intros [= <- _]. discriminate.
Qed.

Lemma get_connector_state_error drv connector w e w' :
  drm_atomic_get_connector_state drv connector w = Some (ErrPtr e, w') -> e <> 0.
Proof.
  intros H.
  unfold drm_atomic_get_connector_state, modeset_lock, krealloc, drm_connector_reference,
    connectors_at, connectors_store, get_state, put_state in H.
  mrun; mworld;
  try match goal with
      | Hz : negb (?r =? 0) = true |- ?r <> 0 => apply negb_true_iff, Z.eqb_neq in Hz; exact Hz
      end;
  try discriminate;
  try (eapply get_crtc_state_error; eassumption).
Qed.

Lemma for_each_return_steps (Q : nat -> world -> Prop) body l :
  (forall i w r w', body i w = Some (r, w') ->
     rtc acquire_step w w' /\ (r = None -> Q i w') /\ (r <> Some 0)) ->
  (forall i w w', rtc acquire_step w w' -> Q i w -> Q i w') ->
  forall w r w',
    for_each_return l body w = Some (r, w') ->
    rtc acquire_step w w' /\ (r <> Some 0) /\
    (r = None -> forall i, i ∈ l -> Q i w').
Proof.
  intros Hbody Hkeep. induction l as [|i l IH]; intros w r w' H; simpl in H.
  - mstep H. split; [apply rtc_refl|]. split; [discriminate|].
    intros _ i Hi. apply elem_of_nil in Hi. contradiction.
  - mstep H. destruct (Hbody _ _ _ _ H0) as (Hs & Hq & Hnz).
    destruct a as [e|].
    + mstep H. split; [exact Hs|]. split; [exact Hnz | discriminate].
    + destruct (IH _ _ _ H) as (Hs' & Hnz' & Hall).
      split; [etrans; eauto|]. split; [exact Hnz'|].
      intros Hr j Hj. apply elem_of_cons in Hj as [->|Hj].
      * eapply Hkeep; eauto.
      * apply Hall; auto.
Qed.

(** X20.  drm_atomic_add_affected_planes only adds to the transaction, and
    on success has added every plane of the CRTC's current plane mask: the
    device is unchanged, every snapshot the transaction held is still held,
    and if the call returns 0 every plane of the device whose bit is set in
    the plane mask of the CRTC's current state has a snapshot in the
    transaction. *)
Theorem add_affected_planes_covers (drv : drm_driver) (crtc : nat) (c : drm_crtc)
    (w : world) (r : Z) (w' : world) :
  dev_crtcs (w_dev w) !! crtc = Some c ->
  drm_atomic_add_affected_planes drv crtc w = Some (r, w') ->
  w_dev w' = w_dev w /\
  (forall k o p, stored k o w = Some p -> stored k o w' = Some p) /\
  (r = 0 ->
   forall plane,
     (plane < length (dev_planes (w_dev w)))%nat ->
     Z.testbit (cs_plane_mask (crtc_state c)) (Z.of_nat plane) = true ->
     is_Some (stored KPlane plane w')).
Proof.
  intros Hc H. unfold drm_atomic_add_affected_planes in H.
  mstep H. rename H0 into Hex.
  assert (Hpure : preserves eq (drm_atomic_get_existing_crtc_state crtc))
    by (unfold drm_atomic_get_existing_crtc_state; pres).
  apply Hpure in Hex. subst w0. clear Hpure.
  mstep H. mstep H0. mstep H. mstep H0.
  match goal with
  | Hd : dev_crtcs (w_dev w) !! crtc = Some ?x |- _ =>
      rewrite Hc in Hd; injection Hd as <-
  end.
  mstep H. rename H0 into Hloop. mstep H.
  set (mask := cs_plane_mask (crtc_state c)) in *.
  destruct (for_each_return_steps
              (fun i w1 => Z.testbit mask (Z.of_nat i) = true -> is_Some (stored KPlane i w1))
              (add_affected_plane drv mask) (seq 0 (length (dev_planes (w_dev w)))))
    with (3 := Hloop) as (Hsteps & Hnz & Hall).
  - intros i w1 r1 w2 Hb. unfold add_affected_plane in Hb.
    destruct (Z.testbit mask (Z.of_nat i)) eqn:Hbit.
    + apply bind_Some in Hb as (ps & w3 & Hget & Hb).
      destruct (get_plane_state_steps drv _ _ _ _ Hget) as [Hs Hp].
      destruct ps as [p|e].
      * mstep Hb. split; [exact Hs|]. split; [|discriminate].
        intros _ _. rewrite (Hp p eq_refl). eauto.
      * mstep Hb. split; [exact Hs|]. split; [discriminate|].
        intros [= ->]. eapply get_plane_state_error; eauto.
    + mstep Hb. split; [apply rtc_refl|]. split; [|discriminate].
      intros _ Hf. discriminate.
  - intros i w1 w2 Hs Hq Hbit. destruct (Hq Hbit) as [p Hp].
    rewrite (stored_steps _ _ _ _ _ Hs Hp). eauto.
  - destruct (frame_steps _ _ Hsteps) as (Hdev & _).
    split; [exact Hdev|]. split; [intros k o p; apply stored_steps; exact Hsteps|].
    intros Hr plane Hlt Hbit.
    match type of Hloop with
    | _ = Some (?x, _) => assert (Hnone : x = None)
    end.
    { match goal with |- ?x = None => destruct x as [e|] end; [|reflexivity].
      simpl in Hr. subst e. contradiction. }
    apply (Hall Hnone plane); [apply elem_of_seq; lia | exact Hbit].
Qed.

Lemma add_affected_planes_covers_witness :
  exists w', drm_atomic_add_affected_planes demo_driver 0 demo_world = Some (0, w') /\
             is_Some (stored KPlane 0 w').
Proof.
  destruct (drm_atomic_add_affected_planes demo_driver 0 demo_world) as [[r w']|] eqn:H;
    [|vm_compute in H; discriminate].
  assert (Hr : r = 0) by (vm_compute in H; injection H as <- _; reflexivity).
  subst r. exists w'. split; [reflexivity|].
  destruct (add_affected_planes_covers demo_driver 0 _ demo_world 0 w' eq_refl H)
    as (_ & _ & Hcov).
  apply (Hcov eq_refl 0%nat); [simpl; lia | reflexivity].
Defined.

Lemma modeset_lock_inv drv l w r w' :
  modeset_lock drv l w = Some (r, w') ->
  r = drm_modeset_lock drv w l /\ w' = logged (EvLock l r) w.
Proof.
  unfold modeset_lock, log, bind, get_world, modify, ret. intros [= <- <-]. auto.
Qed.

(** X21.  drm_atomic_add_affected_connectors only adds to the transaction,
    and on success has added every connector that currently uses the CRTC:
    the device is unchanged, every snapshot the transaction held is still
    held, and if the call returns 0 every connector of the device whose
    current state names the CRTC has a snapshot in the transaction.  When
    the connection lock is refused, its code is returned and nothing but
    the lock attempt has happened. *)
Theorem add_affected_connectors_covers (drv : drm_driver) (crtc : nat)
    (w : world) (r : Z) (w' : world) :
  drm_atomic_add_affected_connectors drv crtc w = Some (r, w') ->
  w_dev w' = w_dev w /\
  (forall k o p, stored k o w = Some p -> stored k o w' = Some p) /\
  (r = 0 ->
   forall i cn,
     dev_connectors (w_dev w) !! i = Some cn ->
     cns_crtc (connector_state cn) = Some crtc ->
     is_Some (stored KConnector i w')) /\
  (drm_modeset_lock drv w ConnectionMutex <> 0 ->
   r = drm_modeset_lock drv w ConnectionMutex /\
   w' = logged (EvLock ConnectionMutex r) w).
Proof.
  intros H. unfold drm_atomic_add_affected_connectors in H.
  mstep H. rename H0 into Hcfg. apply state_config_inv in Hcfg. subst w0.
  mstep H. rename H0 into Hlock.
  destruct (modeset_lock_inv _ _ _ _ _ Hlock) as [Hl0 ->]. clear Hlock.
  rewrite <- Hl0. rename a0 into l.
  assert (Hstep : rtc acquire_step w (logged (EvLock ConnectionMutex l) w))
    by (apply rtc_once, step_lock).
  destruct (negb (l =? 0)) eqn:Hl.
  { mstep H. apply negb_true_iff, Z.eqb_neq in Hl.
    destruct (frame_steps _ _ Hstep) as (Hdev & _).
    split; [exact Hdev|]. split; [intros k o p; apply stored_steps; exact Hstep|].
    split; [intros Hz; contradiction | auto]. }
  apply negb_false_iff, Z.eqb_eq in Hl.
  mstep H. mstep H0. mstep H. rename H0 into Hloop. mstep H.
  pose proof (fun Hb Hk =>
      for_each_return_steps
        (fun i w1 => forall cn, dev_connectors (w_dev w1) !! i = Some cn ->
                                cns_crtc (connector_state cn) = Some crtc ->
                                is_Some (stored KConnector i w1))
        (add_affected_connector drv crtc) _ Hb Hk _ _ _ Hloop) as Hfe.
  destruct Hfe as (Hsteps & Hnz & Hall).
  - intros i w1 r1 w2 Hb. unfold add_affected_connector in Hb.
    mstep Hb. mstep H. mstep Hb. mstep H.
    match type of Hb with
    | (if decide ?P then _ else _) _ = _ => destruct (decide P) as [Hon|Hoff]
    end.
    + apply bind_Some in Hb as (cs & w3 & Hget & Hb).
      destruct (get_connector_state_steps drv _ _ _ _ Hget) as [Hs Hp].
      destruct cs as [p|e].
      * mstep Hb. split; [exact Hs|]. split; [|discriminate].
        intros _ cn _ _. rewrite (Hp p eq_refl). eauto.
      * mstep Hb. split; [exact Hs|]. split; [discriminate|].
        intros [= ->]. eapply get_connector_state_error; eauto.
    + mstep Hb. split; [apply rtc_refl|]. split; [|discriminate].
      intros _ cn Hcn Hc. congruence.
  - intros i w1 w2 Hs Hq cn Hcn Hc.
    destruct (frame_steps _ _ Hs) as (Hdev & _). rewrite Hdev in Hcn.
    destruct (Hq cn Hcn Hc) as [p Hp]. rewrite (stored_steps _ _ _ _ _ Hs Hp). eauto.
  - assert (Hall_steps : rtc acquire_step w w') by (etrans; eauto).
    destruct (frame_steps _ _ Hall_steps) as (Hdev & _).
    split; [exact Hdev|]. split; [intros k o p; apply stored_steps; exact Hall_steps|].
    split; [|intros Hz; contradiction].
    intros Hr i cn Hcn Hc.
    match type of Hloop with
    | _ = Some (?x, _) => assert (Hnone : x = None)
    end.
    { match goal with |- ?x = None => destruct x as [e|] end; [|reflexivity].
      simpl in Hr. subst e. contradiction. }
    apply (Hall Hnone i) with (cn := cn); [|rewrite Hdev; exact Hcn | exact Hc].
    apply elem_of_seq. apply lookup_lt_Some in Hcn. simpl. lia.
Qed.

Lemma add_affected_connectors_covers_witness :
  exists w', drm_atomic_add_affected_connectors demo_driver 0 demo_world = Some (0, w') /\
             is_Some (stored KConnector 0 w').
Proof.
  destruct (drm_atomic_add_affected_connectors demo_driver 0 demo_world) as [[r w']|] eqn:H;
    [|vm_compute in H; discriminate].
  assert (Hr : r = 0) by (vm_compute in H; injection H as <- _; reflexivity).
  subst r. exists w'. split; [reflexivity|].
  destruct (add_affected_connectors_covers demo_driver 0 demo_world 0 w' H)
    as (_ & _ & Hcov & _).
  exact (Hcov eq_refl 0%nat _ eq_refl eq_refl).
Defined.

(** *** What the plane check accepts *)

Lemma land_bit_eqb (p : Z) (n : nat) :
  (Z.land p (Z.shiftl 1 (Z.of_nat n)) =? 0) = negb (Z.testbit p (Z.of_nat n)).
Proof.
  rewrite Z.shiftl_1_l.
  destruct (Z.testbit p (Z.of_nat n)) eqn:Hb; simpl.
  - apply Z.eqb_neq. intros Hz.
    assert (Ht : Z.testbit (Z.land p (2 ^ Z.of_nat n)) (Z.of_nat n) = true).
    { rewrite Z.land_spec, Hb, Z.pow2_bits_true by lia. reflexivity. }
    rewrite Hz, Z.bits_0 in Ht. discriminate.
  - apply Z.eqb_eq. apply Z.bits_inj'. intros i Hi.
    rewrite Z.land_spec, Z.bits_0, Z.pow2_bits_eqb by lia.
    destruct (Z.eqb_spec (Z.of_nat n) i) as [<-|Hne].
    + rewrite Hb. reflexivity.
    + apply andb_false_r.
Qed.

Lemma to_s32_small v : 0 <= v <= INT_MAX -> to_s32 v = v.
Proof.
  unfold to_s32, INT_MAX. intros H. rewrite wrap32_small by lia.
  destruct (Z.ltb_spec v (2 ^ 31)); lia.
Qed.

(** X22.  What drm_atomic_plane_check accepts.  For a plane state whose
    rectangle sizes and source coordinates are 32-bit unsigned values and
    whose framebuffer, if any, is narrower and lower than 65536 pixels, the
    check returns 0 exactly in two cases: the plane is disabled (neither
    CRTC nor framebuffer), or it has both, the plane may be used on that
    CRTC, the pixel format is supported, the CRTC rectangle is at most
    INT_MAX wide and high and ends at or below INT_MAX in both directions,
    the source rectangle lies within the framebuffer, and the plane is not
    currently on another CRTC. *)
Theorem plane_check_accepts (drv : drm_driver) (index : nat) (plane : drm_plane)
    (state : drm_plane_state) :
  is_u32 (ps_crtc_w state) -> is_u32 (ps_crtc_h state) ->
  is_u32 (ps_src_x state) -> is_u32 (ps_src_y state) ->
  is_u32 (ps_src_w state) -> is_u32 (ps_src_h state) ->
  (forall fb, ps_fb state = Some fb ->
              0 <= fb_width fb < 2 ^ 16 /\ 0 <= fb_height fb < 2 ^ 16) ->
  (drm_atomic_plane_check drv index plane state = 0 <->
   (ps_crtc state = None /\ ps_fb state = None) \/
   (exists crtc fb,
      ps_crtc state = Some crtc /\ ps_fb state = Some fb /\
      Z.testbit (plane_possible_crtcs plane) (Z.of_nat crtc) = true /\
      drm_plane_check_pixel_format drv index (fb_pixel_format fb) = 0 /\
      ps_crtc_w state <= INT_MAX /\ ps_crtc_x state + ps_crtc_w state <= INT_MAX /\
      ps_crtc_h state <= INT_MAX /\ ps_crtc_y state + ps_crtc_h state <= INT_MAX /\
      src_rect_inside_fb state fb /\
      (forall old, ps_crtc (plane_state plane) = Some old -> old = crtc))).
Proof.
  intros Hcw Hch Hx Hy Hw Hh Hfb. unfold drm_atomic_plane_check, drm_crtc_mask.
  destruct (ps_crtc state) as [crtc|] eqn:Hc; destruct (ps_fb state) as [fb|] eqn:Hf.
  2,3: split; [discriminate | intros [[? ?]|(? & ? & ? & ? & _)]; discriminate].
  2: split; auto.
  destruct (Hfb fb eq_refl) as [Hfw Hfh].
  rewrite land_bit_eqb.
  assert (Hsw : plane_switching_crtc plane state = false <->
                forall old, ps_crtc (plane_state plane) = Some old -> old = crtc).
  { unfold plane_switching_crtc. rewrite Hc.
    destruct (ps_crtc (plane_state plane)) as [old|].
    - rewrite negb_false_iff, bool_decide_eq_true. split.
      + intros -> o [= <-]. reflexivity.
      + intros H. apply H. reflexivity.
    - split; [intros _ o; discriminate | reflexivity]. }
  pose proof (src_coords_outside_fb_false state fb Hx Hy Hw Hh Hfw Hfh) as Hsrc.
  unfold is_u32 in Hcw, Hch.
  split.
  - intros H. right. exists crtc, fb.
    destruct (Z.testbit (plane_possible_crtcs plane) (Z.of_nat crtc)); [|discriminate H].
    simpl in H.
    destruct (drm_plane_check_pixel_format drv index (fb_pixel_format fb) =? 0) eqn:Hfmt;
      [|apply Z.eqb_neq in Hfmt; simpl in H; contradiction].
    apply Z.eqb_eq in Hfmt. simpl in H.
    destruct (_ || _ || _ || _) eqn:Hrange in H; [discriminate H|].
    apply orb_false_iff in Hrange as [Hrange H4].
    apply orb_false_iff in Hrange as [Hrange H3].
    apply orb_false_iff in Hrange as [H1 H2].
    apply Z.ltb_ge in H1, H2, H3, H4.
    rewrite to_s32_small in H2 by lia. rewrite to_s32_small in H4 by lia.
    destruct (src_coords_outside_fb state fb); [discriminate H|].
    destruct (plane_switching_crtc plane state); [discriminate H|].
    repeat split; auto; try lia.
    + apply Hsrc. reflexivity.
    + apply Hsrc. reflexivity.
    + apply Hsw. reflexivity.
  - intros [[? _]|(c & f & [= <-] & [= <-] & Hbit & Hfmt & H1 & H2 & H3 & H4 & Hin & Hold)];
      [discriminate|].
    rewrite Hbit, Hfmt. simpl.
    rewrite !to_s32_small by lia.
    rewrite (proj2 (Z.ltb_ge _ _) H1), (proj2 (Z.ltb_ge _ _) H3).
    rewrite (proj2 (Z.ltb_ge (INT_MAX - ps_crtc_w state) (ps_crtc_x state))) by lia.
    rewrite (proj2 (Z.ltb_ge (INT_MAX - ps_crtc_h state) (ps_crtc_y state))) by lia.
    simpl. rewrite (proj2 Hsrc Hin), (proj2 Hsw Hold). reflexivity.
Qed.

Lemma plane_check_accepts_witness :
  drm_atomic_plane_check demo_driver 0 (demo_plane 0 (Some 0%nat))
    (demo_src_100 (demo_fb 200 200)) = 0.
Proof.
  apply (plane_check_accepts demo_driver 0 (demo_plane 0 (Some 0%nat))
           (demo_src_100 (demo_fb 200 200))).
  - vm_compute; split; [discriminate | reflexivity].
  - vm_compute; split; [discriminate | reflexivity].
  - vm_compute; split; [discriminate | reflexivity].
  - vm_compute; split; [discriminate | reflexivity].
  - vm_compute; split; [discriminate | reflexivity].
  - vm_compute; split; [discriminate | reflexivity].
  - intros fb [= <-]. vm_compute. repeat split; discriminate.
  - right. exists 0%nat, (demo_fb 200 200).
    repeat split; try reflexivity; try (vm_compute; discriminate).
    intros old [= <-]. reflexivity.
Defined.

(** *** Mode and enable flag of a CRTC snapshot *)

Lemma set_mode_prop_consistent drv state s blob w r w' :
  w_crtc_states w !! state = Some s ->
  drm_atomic_set_mode_prop_for_crtc drv state blob w = Some (r, w') ->
  exists s',
    w_crtc_states w' = <[state := s']> (w_crtc_states w) /\
    (r = 0 -> mode_consistent s -> mode_consistent s').
Proof.
  intros Hs H. unfold drm_atomic_set_mode_prop_for_crtc in H.
  mrun; simpl in *; simplify_map_eq.
  1: { exists s. split; [symmetry; apply insert_id; assumption | auto]. }
  all: eexists; (split; [rewrite ?insert_insert_eq; reflexivity|]);
       unfold mode_consistent; simpl; intros Hr Hm;
       first [ discriminate Hr | reflexivity | idtac ].
Qed.

Lemma crtc_set_property_consistent drv crtc state s property val w r w' :
  w_crtc_states w !! state = Some s ->
  crtc_atomic_set_property drv crtc = None \/
    property ∈ crtc_core_props (mode_config (w_dev w)) ->
  drm_atomic_crtc_set_property drv crtc state property val w = Some (r, w') ->
  exists s',
    w_crtc_states w' = <[state := s']> (w_crtc_states w) /\
    (r = 0 \/ property <> prop_mode_id (mode_config (w_dev w)) ->
     mode_consistent s -> mode_consistent s').
Proof.
  intros Hs Hcore H.
  unfold drm_atomic_crtc_set_property, lookup_blob, user_put, set_out_fence_for_crtc,
    crtcs_at, crtcs_store, get_state, put_state in H.
  mrun; simpl in *; simplify_map_eq.
  all: try match goal with
       | H : drm_atomic_set_mode_prop_for_crtc _ _ _ _ = Some _ |- _ =>
           eapply set_mode_prop_consistent in H as (s' & Hh & Hm); [|simpl; eassumption]
       | H : drm_atomic_replace_property_blob_from_id _ _ _ _ _ _ = Some _ |- _ =>
           apply replace_blob_from_id_run in H as (delta & -> & Hb & _)
       end.
  all: try match goal with
       | Hc : _ \/ ?p ∈ crtc_core_props _, Hh : crtc_atomic_set_property _ _ = Some _ |- _ =>
           exfalso; destruct Hc as [Hc|Hc]; [congruence|];
           unfold crtc_core_props in Hc;
           repeat (apply elem_of_cons in Hc as [Hc|Hc]; [congruence|]);
           apply elem_of_nil in Hc; exact Hc
       end.
  all: simpl in *.
  all: first [ exists s'; split; [exact Hh|]; intros [Hr|Hne] Hc;
               [apply Hm; assumption | contradiction]
             | eexists; split; [rewrite ?insert_insert_eq; reflexivity|];
               intros _ Hc; exact Hc
             | exists s; split; [symmetry; apply insert_id; assumption|]; intros _ Hc; exact Hc ].
Qed.

Lemma crtc_check_consistent dev c s :
  mode_consistent s ->
  (drm_atomic_crtc_check dev c s = 0 <->
   (cs_active s = true -> cs_enable s = true) /\
   (is_Some (cs_event s) -> cs_active s = true \/ cs_active (crtc_state c) = true)).
Proof.
  unfold mode_consistent, drm_atomic_crtc_check. intros ->.
  destruct (cs_active s), (bool_decide (is_Some (cs_mode_blob s))),
    (driver_atomic dev), (cs_active (crtc_state c));
    destruct (bool_decide (is_Some (cs_event s))) eqn:He; simpl;
    try (apply bool_decide_eq_true in He); try (apply bool_decide_eq_false in He);
    split; try discriminate; try reflexivity; auto;
    try (intros [H1 H2]; first [ discriminate (H1 eq_refl)
                               | destruct (H2 He); discriminate ]);
    try (intros _; split; [auto | intros; contradiction]).
Qed.

(** X23.  Property writes keep a CRTC snapshot's enable flag and mode blob
    in step.  On a snapshot that is enabled exactly when it has a mode
    blob, a drm_atomic_crtc_set_property call on a core property (or on a
    CRTC without set-property extension) leaves that so, unless it is a
    failed write of MODE_ID.  drm_atomic_crtc_check then never fails on
    the enable/mode-blob tests: it returns 0 exactly when an active CRTC
    is enabled and a requested event has a CRTC that is or was active. *)
Theorem crtc_mode_stays_consistent (drv : drm_driver) (crtc : nat) (state : ptr)
    (s : drm_crtc_state) (property : drm_property) (val : Z) (w : world) (r : Z)
    (w' : world) :
  w_crtc_states w !! state = Some s ->
  mode_consistent s ->
  crtc_atomic_set_property drv crtc = None \/
    property ∈ crtc_core_props (mode_config (w_dev w)) ->
  r = 0 \/ property <> prop_mode_id (mode_config (w_dev w)) ->
  drm_atomic_crtc_set_property drv crtc state property val w = Some (r, w') ->
  exists s',
    w_crtc_states w' !! state = Some s' /\
    mode_consistent s' /\
    forall dev c,
      drm_atomic_crtc_check dev c s' = 0 <->
      (cs_active s' = true -> cs_enable s' = true) /\
      (is_Some (cs_event s') -> cs_active s' = true \/ cs_active (crtc_state c) = true).
Proof.
  intros Hs Hm Hcore Hr H.
  destruct (crtc_set_property_consistent _ _ _ _ _ _ _ _ _ Hs Hcore H) as (s' & Hh & Hc).
  exists s'. rewrite Hh. split; [apply lookup_insert_eq|].
  split; [auto|]. intros dev c. apply crtc_check_consistent. auto.
Qed.

Lemma crtc_mode_stays_consistent_witness :
  exists w' s',
    drm_atomic_crtc_set_property blob_driver 0 100%nat (prop_mode_id demo_config) 0
      demo_world_crtc0 = Some (0, w') /\
    w_crtc_states w' !! 100%nat = Some s' /\
    cs_enable s' = false /\ cs_mode_blob s' = None.
Proof.
  destruct (drm_atomic_crtc_set_property blob_driver 0 100%nat (prop_mode_id demo_config) 0
              demo_world_crtc0) as [[r w']|] eqn:Hrun; [|vm_compute in Hrun; discriminate].
  assert (Hr : r = 0) by (vm_compute in Hrun; injection Hrun as <- _; reflexivity).
  subst r.
  destruct (crtc_mode_stays_consistent blob_driver 0 100%nat _ (prop_mode_id demo_config) 0
              demo_world_crtc0 0 w' demo_world_crtc0_lookup eq_refl (or_introl eq_refl)
              (or_introl eq_refl) Hrun) as (s' & Hs' & Hm & _).
  exists w', s'. split; [reflexivity|]. split; [exact Hs'|].
  assert (Hnone : cs_mode_blob s' = None).
  { vm_compute in Hrun. injection Hrun as <-. vm_compute in Hs'.
    injection Hs' as <-. reflexivity. }
  split; [|exact Hnone]. unfold mode_consistent in Hm. rewrite Hm, Hnone. reflexivity.
Defined.

(** *** The out-fence array *)

Lemma first_error_acc_inv {A} (P Q : A -> Prop) (body : nat -> A -> M (Z * A)) l :
  (forall i a w r a' w', body i a w = Some ((r, a'), w') -> P a -> Q a' /\ (r = 0 -> P a')) ->
  (forall a, P a -> Q a) ->
  forall a w r a' w',
    first_error_acc l body a w = Some ((r, a'), w') -> P a -> Q a' /\ (r = 0 -> P a').
Proof.
  intros Hbody HPQ. induction l as [|i l IH]; intros a w r a' w' H HP; simpl in H.
  - mstep H. injection H as <- <-. auto.
  - mstep H. destruct a0 as [r0 a0]. destruct (Hbody _ _ _ _ _ _ H0 HP) as [HQ HP0].
    destruct (negb (r0 =? 0)) eqn:Hz.
    + mstep H. injection H as <- <-. split; [exact HQ|].
      apply negb_true_iff, Z.eqb_neq in Hz. intros; contradiction.
    + apply negb_false_iff, Z.eqb_eq in Hz. eapply IH; eauto.
Qed.

Lemma setup_out_fence_inv drv slot fence w r slot' w' :
  setup_out_fence drv slot fence w = Some ((r, slot'), w') ->
  r = 0 -> is_Some (sync_file slot') /\ 0 <= fd slot'.
Proof.
  intros H. unfold setup_out_fence, user_put in H.
  mrun; mworld; intros Hz; try discriminate Hz; simpl;
    try (split; [eauto | lia]).
  all: match goal with Hlt : (_ <? 0) = true |- _ => apply Z.ltb_lt in Hlt; lia end.
Qed.

Lemma prepare_crtc_entry_fences drv arg fp i fences w r fences' w' :
  prepare_crtc_entry drv arg fp i fences w = Some ((r, fences'), w') ->
  fences_ready fences ->
  fences_in_bounds fences' /\ (r = 0 -> fences_ready fences').
Proof.
  intros H Hready. destruct fences as [o n]. pose proof Hready as [Hb Hold].
  assert (Hlen : length (take n (default [] o)) = n).
  { rewrite length_take. destruct o as [fs|]; simpl in *; lia. }
  assert (Hslots : forall i f, (i < n)%nat -> take n (default [] o) !! i = Some f ->
                               is_Some (sync_file f) /\ 0 <= fd f).
  { intros j f Hj Hf. rewrite lookup_take_lt in Hf by lia.
    destruct o as [fs|]; simpl in *; [eapply Hold; eauto | discriminate]. }
  unfold prepare_crtc_entry, get_out_fence_for_crtc, create_vblank_event,
    kzalloc, krealloc, fence_put, crtcs_at, crtcs_store, get_state, put_state in H.
  mrun; mworld.
  all: try (split; [exact Hb | intros _; exact Hready]).
  all: (split; [simpl; rewrite ?length_app, ?Hlen; simpl; lia|]).
  all: intros Hz; try discriminate Hz.
  all: try match goal with
       | Hn : negb (?r =? 0) = true |- _ =>
           exfalso; apply negb_true_iff, Z.eqb_neq in Hn; contradiction
       end.
  all: match goal with
       | Hs : setup_out_fence _ _ _ _ = Some (?r1, _, _), Hn : negb (?r1 =? 0) = false |- _ =>
           apply negb_false_iff, Z.eqb_eq in Hn;
           destruct (setup_out_fence_inv _ _ _ _ _ _ _ Hs Hn) as [Hfile Hfd]
       end.
  all: split; [simpl; rewrite length_app, Hlen; simpl; lia|].
  all: intros fs j f [= <-] Hj Hf; simpl in Hj;
       destruct (decide (j = n)) as [->|Hne];
       [ rewrite lookup_app_r in Hf by lia; rewrite Hlen, Nat.sub_diag in Hf;
         injection Hf as <-; auto
       | rewrite lookup_app_l in Hf by lia; eapply Hslots; [|exact Hf]; lia ].
Qed.

Lemma install_loop fs n w :
  (forall i, (i < n)%nat -> exists f, fs !! i = Some f /\ is_Some (sync_file f)) ->
  exists delta,
    for_loop n (install_out_fence fs) w = Some (tt, set_trace (w_trace w ++ delta) w) /\
    length delta = n /\ Forall (fun e => is_fd_install e = true) delta.
Proof.
  induction n as [|n IH]; intros Hall.
  - exists []. simpl. rewrite app_nil_r. split; [destruct w; reflexivity | auto].
  - destruct IH as (delta & Hrun & Hlen & Hins); [intros i Hi; apply Hall; lia|].
    destruct (Hall n ltac:(lia)) as (f & Hf & [file Hfile]).
    exists (delta ++ [EvFdInstall (fd f) file]). simpl.
    rewrite (bind_eq _ _ _ _ _ Hrun).
    unfold install_out_fence, bind, deref, log, modify, ret. rewrite Hf, Hfile. simpl.
    rewrite app_assoc. split; [reflexivity|].
    split; [rewrite length_app; simpl; lia|].
    apply Forall_app_2; [exact Hins | repeat constructor].
Qed.

(** X24.  The out-fence array prepare_crtc_signaling builds is safe to
    complete.  Whatever it returns, the number of fences it reports does
    not exceed the slots of the array.  When it returns 0, every counted
    slot has a sync file and a file descriptor that is not negative, so
    complete_crtc_signaling with install_fds set is defined on every
    machine: it installs exactly one file descriptor per counted slot and
    does nothing else. *)
Theorem out_fences_installable (drv : drm_driver) (arg : drm_mode_atomic)
    (fp : option drm_file) (w : world) (r : Z) (fences : fence_array) (w1 : world) :
  prepare_crtc_signaling drv arg fp (None, 0%nat) w = Some ((r, fences), w1) ->
  fences_in_bounds fences /\
  (r = 0 ->
   fences_ready fences /\
   forall w2, exists delta,
     complete_crtc_signaling drv fences true w2
     = Some (tt, set_trace (w_trace w2 ++ delta) w2) /\
     length delta = snd fences /\
     Forall (fun e => is_fd_install e = true) delta).
Proof.
  intros H.
  assert (Hinit : fences_ready (None, 0%nat)).
  { split; [reflexivity|]. intros fs i f [=]. }
  assert (Hpre : fences_in_bounds fences /\ (r = 0 -> fences_ready fences)).
  { unfold prepare_crtc_signaling in H.
    destruct (has_flag (flags arg) DRM_MODE_ATOMIC_TEST_ONLY).
    - mstep H. injection H as <- <-. split; [reflexivity | auto].
    - mstep H. revert H Hinit.
      apply (first_error_acc_inv fences_ready fences_in_bounds).
      + intros i a0 w2 r2 a' w' Hb Hr. eapply prepare_crtc_entry_fences; eauto.
      + intros a0 [Hb _]. exact Hb. }
  destruct Hpre as [Hb Hr]. split; [exact Hb|]. intros Hz.
  specialize (Hr Hz). split; [exact Hr|]. intros w2.
  destruct fences as [[fs|] n]; unfold complete_crtc_signaling; simpl.
  - destruct Hr as [Hbound Hslots]. simpl in Hbound.
    apply install_loop. intros i Hi.
    destruct (lookup_lt_is_Some_2 fs i ltac:(lia)) as [f Hf].
    exists f. split; [exact Hf|]. apply (Hslots fs i f eq_refl Hi Hf).
  - destruct Hr as [Hbound _]. simpl in Hbound. subst n.
    exists []. simpl. rewrite app_nil_r. split; [destruct w2; reflexivity | auto].
Qed.

Lemma out_fences_installable_witness :
  exists fences w1,
    prepare_crtc_signaling demo_driver demo_arg (Some demo_file) (None, 0%nat)
      demo_world_out_fence = Some ((0, fences), w1) /\
    snd fences = 1%nat /\
    exists delta,
      complete_crtc_signaling demo_driver fences true w1
      = Some (tt, set_trace (w_trace w1 ++ delta) w1) /\ length delta = 1%nat.
Proof.
  destruct (prepare_crtc_signaling demo_driver demo_arg (Some demo_file) (None, 0%nat)
              demo_world_out_fence) as [[[r fences] w1]|] eqn:H;
    [|vm_compute in H; discriminate].
  assert (Hr : r = 0) by (vm_compute in H; injection H as <- _ _; reflexivity).
  assert (Hn : snd fences = 1%nat) by (vm_compute in H; injection H as _ <- _; reflexivity).
  subst r. exists fences, w1. split; [reflexivity|]. split; [exact Hn|].
  destruct (out_fences_installable _ _ _ _ _ _ _ H) as [_ Hok].
  destruct (Hok eq_refl) as [_ Hinst].
  destruct (Hinst w1) as (delta & Hrun & Hlen & _).
  exists delta. split; [exact Hrun | congruence].
Defined.

(** *** Reading CRTC properties back *)

Lemma set_mode_prop_blob drv state s blob w w' :
  w_crtc_states w !! state = Some s ->
  drm_atomic_set_mode_prop_for_crtc drv state blob w = Some (0, w') ->
  exists s', w_crtc_states w' = <[state := s']> (w_crtc_states w) /\
             w_dev w' = w_dev w /\ cs_mode_blob s' = blob.
Proof.
  intros Hs H. destruct (set_mode_prop_run _ _ _ _ _ _ _ Hs H)
    as (s' & delta & Hh & _ & Hw & _ & _ & _ & _ & _ & _ & _ & Hcases).
  exists s'. split; [exact Hh|]. split; [rewrite Hw; reflexivity|].
  destruct Hcases as [(_ & Hb & _)|(Hr & _)]; [exact Hb | discriminate Hr].
Qed.

Lemma lookup_blob_inv drv val w b w1 :
  lookup_blob drv val w = Some (b, w1) ->
  b = drm_property_lookup_blob drv w (wrap32 val) /\
  w_dev w1 = w_dev w /\ w_crtc_states w1 = w_crtc_states w.
Proof.
  unfold lookup_blob. intros H. mrun; mworld; auto.
Qed.

Lemma unreference_blob_inv b w u w1 :
  drm_property_unreference_blob b w = Some (u, w1) ->
  w_dev w1 = w_dev w /\ w_crtc_states w1 = w_crtc_states w.
Proof.
  unfold drm_property_unreference_blob. intros H. mrun; mworld; auto.
Qed.

Ltac crtc_getter :=
  unfold drm_atomic_crtc_get_property, bind, get_world, ret; simpl;
  repeat match goal with Hd : w_dev _ = w_dev _ |- _ => rewrite Hd end;
  pick_property; try reflexivity.

(** X25.  Writing a CRTC property and reading it back.  With pairwise
    distinct descriptors for ACTIVE, MODE_ID and the three colour
    properties, after a drm_atomic_crtc_set_property that returned 0
    drm_atomic_crtc_get_property on the new snapshot returns: for ACTIVE 1
    or 0 as the value written was non-zero or zero; for MODE_ID the id of
    the blob named by the value narrowed to its low 32 bits (the look-up
    takes a 32-bit id), 0 when it names none; for DEGAMMA_LUT, CTM and
    GAMMA_LUT the same, the 64-bit value 0 standing for no blob. *)
Theorem crtc_property_round_trip (g : drm_getters) (drv : drm_driver) (crtc : nat)
    (state : ptr) (s : drm_crtc_state) (property : drm_property) (val : Z)
    (w w' : world) :
  w_crtc_states w !! state = Some s ->
  NoDup [prop_active (mode_config (w_dev w)); prop_mode_id (mode_config (w_dev w));
         degamma_lut_property (mode_config (w_dev w)); ctm_property (mode_config (w_dev w));
         gamma_lut_property (mode_config (w_dev w))] ->
  property ∈ [prop_active (mode_config (w_dev w)); prop_mode_id (mode_config (w_dev w));
              degamma_lut_property (mode_config (w_dev w));
              ctm_property (mode_config (w_dev w));
              gamma_lut_property (mode_config (w_dev w))] ->
  drm_atomic_crtc_set_property drv crtc state property val w = Some (0, w') ->
  exists s',
    w_crtc_states w' !! state = Some s' /\
    (property = prop_active (mode_config (w_dev w)) ->
     drm_atomic_crtc_get_property g crtc s' property w'
     = Some ((0, Some (if val =? 0 then 0 else 1)), w')) /\
    (property = prop_mode_id (mode_config (w_dev w)) ->
     drm_atomic_crtc_get_property g crtc s' property w'
     = Some ((0, Some (blob_id_or_0 (drm_property_lookup_blob drv w (wrap32 val)))), w')) /\
    (property ∈ [degamma_lut_property (mode_config (w_dev w));
                 ctm_property (mode_config (w_dev w));
                 gamma_lut_property (mode_config (w_dev w))] ->
     drm_atomic_crtc_get_property g crtc s' property w'
     = Some ((0, Some (blob_id_or_0 (if val =? 0 then None
                                     else drm_property_lookup_blob drv w (wrap32 val)))), w')).
Proof.
  intros Hs Hnd Hprop H.
  unfold drm_atomic_crtc_set_property in H.
  apply bind_Some in H as (w0 & w1 & Hg & H). cbv [get_world] in Hg. injection Hg as <- <-.
  apply bind_Some in H as (s0 & w2 & Hl & H).
  apply load_crtc_state_inv in Hl as [Hs0 ->].
  rewrite Hs in Hs0. injection Hs0 as <-.
  nodup_split Hnd.
  assert (Hlut : forall q, q ∈ [degamma_lut_property (mode_config (w_dev w));
                                 ctm_property (mode_config (w_dev w));
                                 gamma_lut_property (mode_config (w_dev w))] ->
                 q <> prop_active (mode_config (w_dev w)) /\
                 q <> prop_mode_id (mode_config (w_dev w))).
  { intros q Hq. repeat (apply elem_of_cons in Hq as [->|Hq]); try (split; congruence);
      try (apply elem_of_nil in Hq; contradiction). }
  destruct (decide (property = prop_active (mode_config (w_dev w)))) as [->|Hna].
  { apply bind_Some in H as (u & w3 & Hst & H). mstep H.
    apply store_crtc_state_inv in Hst as ->.
    eexists. split; [apply lookup_insert_eq|].
    split; [intros _; crtc_getter; destruct (val =? 0); reflexivity|].
    split; [intros Heq; congruence|]. intros Hin. destruct (Hlut _ Hin). congruence. }
  destruct (decide (property = prop_mode_id (mode_config (w_dev w)))) as [->|Hnm].
  { apply bind_Some in H as (mode & w3 & Hlk & H).
    apply lookup_blob_inv in Hlk as (-> & Hd1 & Hc1).
    apply bind_Some in H as (r & w4 & Hset & H).
    apply bind_Some in H as (u & w5 & Hun & H). mstep H.
    eapply set_mode_prop_blob in Hset as (s' & Hh & Hd2 & Hb);
      [|rewrite Hc1; exact Hs].
    apply unreference_blob_inv in Hun as [Hd3 Hc3].
    exists s'. split; [rewrite Hc3, Hh; apply lookup_insert_eq|].
    assert (Hdev : w_dev w' = w_dev w) by congruence.
    split; [intros Heq; congruence|].
    split; [intros _; crtc_getter; rewrite Hb; reflexivity|].
    intros Hin. destruct (Hlut _ Hin). congruence. }
  destruct (decide (property = degamma_lut_property (mode_config (w_dev w)))) as [->|Hx1].
  { apply bind_Some in H as ([[r b] rep] & w3 & Hrep & H).
    apply replace_blob_from_id_run in Hrep as (delta & -> & _ & Hcases).
    apply bind_Some in H as (u & w4 & Hst & H). apply ret_Some in H as [-> <-].
    apply store_crtc_state_inv in Hst as ->.
    destruct Hcases as [(_ & -> & _)|(Hr & _)]; [|discriminate Hr].
    eexists. split; [apply lookup_insert_eq|].
    split; [intros Heq; congruence|]. split; [intros Heq; congruence|].
    intros _. crtc_getter. }
  destruct (decide (property = ctm_property (mode_config (w_dev w)))) as [->|Hx2].
  { apply bind_Some in H as ([[r b] rep] & w3 & Hrep & H).
    apply replace_blob_from_id_run in Hrep as (delta & -> & _ & Hcases).
    apply bind_Some in H as (u & w4 & Hst & H). apply ret_Some in H as [-> <-].
    apply store_crtc_state_inv in Hst as ->.
    destruct Hcases as [(_ & -> & _)|(Hr & _)]; [|discriminate Hr].
    eexists. split; [apply lookup_insert_eq|].
    split; [intros Heq; congruence|]. split; [intros Heq; congruence|].
    intros _. crtc_getter. }
  destruct (decide (property = gamma_lut_property (mode_config (w_dev w)))) as [->|Hx3].
  { apply bind_Some in H as ([[r b] rep] & w3 & Hrep & H).
    apply replace_blob_from_id_run in Hrep as (delta & -> & _ & Hcases).
    apply bind_Some in H as (u & w4 & Hst & H). apply ret_Some in H as [-> <-].
    apply store_crtc_state_inv in Hst as ->.
    destruct Hcases as [(_ & -> & _)|(Hr & _)]; [|discriminate Hr].
    eexists. split; [apply lookup_insert_eq|].
    split; [intros Heq; congruence|]. split; [intros Heq; congruence|].
    intros _. crtc_getter. }
  exfalso. repeat (apply elem_of_cons in Hprop as [->|Hprop]); try contradiction.
  apply elem_of_nil in Hprop. exact Hprop.
Qed.

Lemma crtc_property_round_trip_witness :
  exists w' s',
    drm_atomic_crtc_set_property blob_driver 0 100%nat (prop_mode_id demo_config) (2 ^ 32 + 41)
      demo_world_crtc0 = Some (0, w') /\
    w_crtc_states w' !! 100%nat = Some s' /\
    drm_atomic_crtc_get_property demo_getters 0 s' (prop_mode_id demo_config) w'
    = Some ((0, Some 41), w').
Proof.
  destruct (drm_atomic_crtc_set_property blob_driver 0 100%nat (prop_mode_id demo_config) (2 ^ 32 + 41)
              demo_world_crtc0) as [[r w']|] eqn:Hrun; [|vm_compute in Hrun; discriminate].
  assert (Hr : r = 0) by (vm_compute in Hrun; injection Hrun as <- _; reflexivity).
  subst r.
  destruct (crtc_property_round_trip demo_getters blob_driver 0 100%nat _
              (prop_mode_id demo_config) (2 ^ 32 + 41) demo_world_crtc0 w' demo_world_crtc0_lookup)
    as (s' & Hs' & _ & Hmode & _).
  - apply (bool_decide_unpack _). vm_compute. exact I.
  - right. left.
  - exact Hrun.
  - exists w', s'. split; [reflexivity|]. split; [exact Hs'|]. exact (Hmode eq_refl).
Defined.

(** *** Reading the current state *)

Lemma get_property_reads_device g obj property w w0 :
  w_dev w0 = w_dev w ->
  drm_atomic_get_property g obj property w0
  = match drm_atomic_get_property g obj property w with
    | Some (v, _) => Some (v, w0)
    | None => None
    end.
Proof.
  intros Hdev.
  unfold drm_atomic_get_property, drm_atomic_connector_get_property,
    drm_atomic_crtc_get_property, drm_atomic_plane_get_property, crtc_id_or_0,
    bind, get_world, deref, ret.
  rewrite Hdev.
  repeat (simpl; rewrite ?Hdev;
          match goal with
          | |- context [decide ?P] => destruct (decide P)
          | |- context [obj_type ?x] => destruct (obj_type x)
          | |- context [dev_connectors ?d !! ?i] => destruct (dev_connectors d !! i)
          | |- context [dev_crtcs ?d !! ?i] => destruct (dev_crtcs d !! i)
          | |- context [dev_planes ?d !! ?i] => destruct (dev_planes d !! i)
          | |- context [match cns_crtc ?x with _ => _ end] => destruct (cns_crtc x)
          | |- context [match ps_crtc ?x with _ => _ end] => destruct (ps_crtc x)
          | |- context [crtc_atomic_get_property g ?c] =>
              destruct (crtc_atomic_get_property g c)
          | |- context [plane_atomic_get_property g ?c] =>
              destruct (plane_atomic_get_property g c)
          | |- context [connector_atomic_get_property g ?c] =>
              destruct (connector_atomic_get_property g c)
          end); simpl; rewrite ?Hdev; reflexivity.
Qed.

(** X26.  What a transaction holds is not visible through
    drm_atomic_get_property before it is committed.  The function reads
    the current state of the object from the device and leaves the machine
    unchanged; so after a get-or-create call, and after a write of a core
    property to a CRTC, plane or connector snapshot (or of any property to
    a CRTC or plane without set-property extension), whatever the call
    returned, drm_atomic_get_property returns for every object and
    property what it returned before. *)
Theorem uncommitted_writes_invisible (g : drm_getters) (drv : drm_driver)
    (obj : drm_mode_object) (q : drm_property) (w : world) :
  let unchanged w' :=
    drm_atomic_get_property g obj q w'
    = match drm_atomic_get_property g obj q w with
      | Some (v, _) => Some (v, w')
      | None => None
      end in
  (forall k o r w', get_or_create drv k o w = Some (r, w') -> unchanged w') /\
  (forall crtc state s property val r w',
     w_crtc_states w !! state = Some s ->
     crtc_atomic_set_property drv crtc = None \/
       property ∈ crtc_core_props (mode_config (w_dev w)) ->
     drm_atomic_crtc_set_property drv crtc state property val w = Some (r, w') ->
     unchanged w') /\
  (forall plane pl state s property val r w',
     dev_planes (w_dev w) !! plane = Some pl ->
     w_plane_states w !! state = Some s ->
     plane_atomic_set_property drv plane = None \/
       property ∈ plane_core_props (mode_config (w_dev w)) pl ->
     drm_atomic_plane_set_property drv plane state property val w = Some (r, w') ->
     unchanged w') /\
  (forall connector state s val r w',
     w_connector_states w !! state = Some s ->
     drm_atomic_connector_set_property drv connector state
       (prop_crtc_id (mode_config (w_dev w))) val w = Some (r, w') ->
     unchanged w').
Proof.
  intros unchanged. unfold unchanged. repeat split.
  - intros k o r w' H. apply get_property_reads_device.
    apply get_or_create_steps in H as [Hsteps _].
    apply frame_steps in Hsteps as (Hdev & _). exact Hdev.
  - intros crtc state s property val r w' Hs Hcore H. apply get_property_reads_device.
    destruct (crtc_set_property_run _ _ _ _ _ _ _ _ _ Hs Hcore H) as (s' & _ & Hdev & _).
    exact Hdev.
  - intros plane pl state s property val r w' Hpl Hs Hcore H.
    apply get_property_reads_device.
    destruct (plane_set_property_run _ _ _ _ _ _ _ _ _ _ Hpl Hs Hcore H)
      as (s' & _ & Hdev & _).
    exact Hdev.
  - intros connector state s val r w' Hs H. apply get_property_reads_device.
    unfold drm_atomic_connector_set_property in H.
    apply bind_Some in H as (w0 & w1 & Hg & H). cbv [get_world] in Hg.
    injection Hg as <- <-.
    destruct (decide (prop_crtc_id (mode_config (w_dev w))
                      = prop_crtc_id (mode_config (w_dev w)))) as [_|Hne];
      [|contradiction].
    destruct (set_crtc_for_connector_run _ _ _ _ _ _ _ Hs H) as (c' & _ & Hdev & _).
    exact Hdev.
Qed.

Lemma uncommitted_writes_invisible_witness :
  exists w',
    drm_atomic_plane_set_property demo_driver 1%nat 100%nat (prop_fb_id demo_config) 50
      demo_world_plane1 = Some (0, w') /\
    fst <$> drm_atomic_get_property demo_getters
              {| obj_type := ObjPlane 1; obj_properties := true |}
              (prop_fb_id demo_config) w'
    = Some (0, Some 0).
Proof.
  destruct (drm_atomic_plane_set_property demo_driver 1%nat 100%nat (prop_fb_id demo_config) 50
              demo_world_plane1) as [[r w']|] eqn:Hrun; [|vm_compute in Hrun; discriminate].
  assert (Hr : r = 0) by (vm_compute in Hrun; injection Hrun as <- _; reflexivity).
  subst r. exists w'. split; [reflexivity|].
  destruct (uncommitted_writes_invisible demo_getters demo_driver
              {| obj_type := ObjPlane 1; obj_properties := true |}
              (prop_fb_id demo_config) demo_world_plane1) as (_ & _ & Hplane & _).
  rewrite (Hplane 1%nat (demo_plane 1 None) 100%nat demo_plane1_state
             (prop_fb_id demo_config) 50 0 w' eq_refl eq_refl (or_introl eq_refl) Hrun).
  reflexivity.
Defined.

(** *** Setting a property through the ioctl *)

#[local] Instance keeps_preorder : PreOrder keeps.
Proof.
  split.
  - intros w k o p H. exact H.
  - intros w1 w2 w3 H12 H23 k o p H. apply H23, H12, H.
Qed.

Lemma keeps_same_state w w' : w_state w' = w_state w -> keeps w w'.
Proof. intros H k o p. unfold stored. rewrite H. auto. Qed.

Lemma keeps_modify f :
  (forall w, w_state (f w) = w_state w) -> preserves keeps (modify f).
Proof. intros Hf w b w' H. mstep H. apply keeps_same_state, Hf. Qed.

Lemma keeps_log e : preserves keeps (log e).
Proof. intros w b w' H. unfold log in H. mstep H. apply keeps_same_state. reflexivity. Qed.

Lemma keeps_alloc : preserves keeps alloc.
Proof.
  intros w b w' H. unfold alloc in H. injection H as <- <-.
  apply keeps_same_state. reflexivity.
Qed.

Lemma keeps_get_crtc_state drv crtc : preserves keeps (drm_atomic_get_crtc_state drv crtc).
Proof.
  intros w r w' H k o p. apply stored_steps. eapply get_crtc_state_steps; eauto.
Qed.

Lemma keeps_set_out_fence crtc fence_ptr :
  preserves keeps (set_out_fence_for_crtc crtc fence_ptr).
Proof.
  intros w b w' H. unfold set_out_fence_for_crtc, crtcs_at, crtcs_store, get_state,
    put_state in H.
  mrun; mworld. intros k o p. unfold stored. simpl.
  match goal with Hst : w_state _ = Some _ |- _ => rewrite Hst end.
  destruct k; simpl; auto.
  destruct (decide (o = crtc)) as [->|Hne].
  - rewrite list_lookup_insert_eq by (eapply lookup_lt_Some; eauto).
    match goal with He : crtcs _ !! crtc = Some _ |- _ => rewrite He end. auto.
  - rewrite list_lookup_insert_ne by congruence. auto.
Qed.

Ltac keeps_step :=
  match goal with
  | |- preserves keeps (modify _) =>
      apply keeps_modify; intros ?;
      repeat match goal with |- context [match ?x with _ => _ end] => destruct x end;
      reflexivity
  | |- preserves keeps (log _) => apply keeps_log
  | |- preserves keeps alloc => apply keeps_alloc
  | |- preserves keeps (drm_atomic_get_crtc_state _ _) => apply keeps_get_crtc_state
  | |- preserves keeps (set_out_fence_for_crtc _ _) => apply keeps_set_out_fence
  | |- _ => pres_step
  | |- preserves keeps ?m => let h := head_of m in unfold h
  end.

Ltac keeps_all := repeat keeps_step.

Lemma keeps_crtc_set_property drv crtc state property val :
  crtc_atomic_set_property drv crtc = None ->
  preserves keeps (drm_atomic_crtc_set_property drv crtc state property val).
Proof. intros Hh. unfold drm_atomic_crtc_set_property. rewrite Hh. keeps_all. Qed.

Lemma keeps_plane_set_property drv plane state property val :
  plane_atomic_set_property drv plane = None ->
  preserves keeps (drm_atomic_plane_set_property drv plane state property val).
Proof. intros Hh. unfold drm_atomic_plane_set_property. rewrite Hh. keeps_all. Qed.

Lemma keeps_connector_set_property drv connector state property val :
  connector_atomic_set_property drv connector = None ->
  preserves keeps (drm_atomic_connector_set_property drv connector state property val).
Proof. intros Hh. unfold drm_atomic_connector_set_property. rewrite Hh. keeps_all. Qed.

(** X27.  atomic_set_prop puts the object it writes to into the
    transaction and never takes one out.  For a driver without
    set-property extensions: a value the property does not accept, and an
    object that is neither connector, CRTC nor plane, are refused with
    -EINVAL on an unchanged machine; every snapshot the transaction held
    before the call it holds afterwards; and when the call returns 0 the
    object written to has a snapshot in the transaction. *)
Theorem atomic_set_prop_adds_object (drv : drm_driver) (obj : drm_mode_object)
    (prop : drm_property) (prop_value : Z) (w : world) (r : Z) (w' : world) :
  (forall i, crtc_atomic_set_property drv i = None) ->
  (forall i, plane_atomic_set_property drv i = None) ->
  (forall i, connector_atomic_set_property drv i = None) ->
  atomic_set_prop drv obj prop prop_value w = Some (r, w') ->
  (drm_property_change_valid_get drv w prop prop_value = false \/ obj_type obj = ObjOther ->
   r = - EINVAL /\ w' = w) /\
  keeps w w' /\
  (r = 0 ->
   match obj_type obj with
   | ObjCrtc crtc => is_Some (stored KCrtc crtc w')
   | ObjPlane plane => is_Some (stored KPlane plane w')
   | ObjConnector connector => is_Some (stored KConnector connector w')
   | ObjOther => False
   end).
Proof.
  intros Hc Hp Hn H. unfold atomic_set_prop in H.
  apply bind_Some in H as (w0 & w1 & Hg & H). cbv [get_world] in Hg. injection Hg as <- <-.
  destruct (drm_property_change_valid_get drv w prop prop_value) eqn:Hvalid; simpl in H.
  2: { apply ret_Some in H as [<- <-]. split; [auto|]. split; [reflexivity | discriminate]. }
  destruct (obj_type obj) as [connector|crtc|plane|] eqn:Hobj.
  - apply bind_Some in H as (cs & w1 & Hget & H).
    destruct (get_connector_state_steps drv _ _ _ _ Hget) as [Hsteps Hsto].
    split; [intros [?|?]; discriminate|].
    destruct cs as [p|e].
    + pose proof (keeps_connector_set_property drv connector p prop prop_value
                    (Hn connector) _ _ _ H) as Hk.
      split; [intros k o q Hq; apply Hk; eapply stored_steps; eauto|].
      intros _. exists p. apply Hk, Hsto. reflexivity.
    + apply ret_Some in H as [<- <-].
      split; [intros k o q; apply stored_steps; exact Hsteps|].
      intros ->. exfalso. eapply get_connector_state_error; eauto.
  - apply bind_Some in H as (cs & w1 & Hget & H).
    destruct (get_crtc_state_steps drv _ _ _ _ Hget) as [Hsteps Hsto].
    split; [intros [?|?]; discriminate|].
    destruct cs as [p|e].
    + pose proof (keeps_crtc_set_property drv crtc p prop prop_value
                    (Hc crtc) _ _ _ H) as Hk.
      split; [intros k o q Hq; apply Hk; eapply stored_steps; eauto|].
      intros _. exists p. apply Hk, Hsto. reflexivity.
    + apply ret_Some in H as [<- <-].
      split; [intros k o q; apply stored_steps; exact Hsteps|].
      intros ->. exfalso. eapply get_crtc_state_error; eauto.
  - apply bind_Some in H as (cs & w1 & Hget & H).
    destruct (get_plane_state_steps drv _ _ _ _ Hget) as [Hsteps Hsto].
    split; [intros [?|?]; discriminate|].
    destruct cs as [p|e].
    + pose proof (keeps_plane_set_property drv plane p prop prop_value
                    (Hp plane) _ _ _ H) as Hk.
      split; [intros k o q Hq; apply Hk; eapply stored_steps; eauto|].
      intros _. exists p. apply Hk, Hsto. reflexivity.
    + apply ret_Some in H as [<- <-].
      split; [intros k o q; apply stored_steps; exact Hsteps|].
      intros ->. exfalso. eapply get_plane_state_error; eauto.
  - apply ret_Some in H as [<- <-]. split; [auto|]. split; [reflexivity | discriminate].
Qed.

Lemma atomic_set_prop_adds_object_witness :
  exists w',
    atomic_set_prop demo_driver {| obj_type := ObjPlane 0; obj_properties := true |}
      (prop_crtc_x demo_config) 5 demo_world = Some (0, w') /\
    is_Some (stored KPlane 0 w').
Proof.
  destruct (atomic_set_prop demo_driver {| obj_type := ObjPlane 0; obj_properties := true |}
              (prop_crtc_x demo_config) 5 demo_world) as [[r w']|] eqn:H;
    [|vm_compute in H; discriminate].
  assert (Hr : r = 0) by (vm_compute in H; injection H as <- _; reflexivity).
  subst r. exists w'. split; [reflexivity|].
  destruct (atomic_set_prop_adds_object demo_driver _ _ _ _ _ _
              (fun _ => eq_refl) (fun _ => eq_refl) (fun _ => eq_refl) H) as (_ & _ & Hin).
  exact (Hin eq_refl).
Defined.

(** *** The out-fence pointer of a CRTC *)

Lemma get_out_fence_run crtc w st e :
  w_state w = Some st -> crtcs st !! crtc = Some e ->
  get_out_fence_for_crtc crtc w
  = Some (ce_out_fence_ptr e,
          set_state (Some (set_crtcs
            (<[crtc := {| ce_ptr := ce_ptr e; ce_state := ce_state e;
                          ce_commit := ce_commit e; ce_out_fence_ptr := None |}]>
               (crtcs st)) st)) w).
Proof.
  intros Hst He.
  unfold get_out_fence_for_crtc, crtcs_at, crtcs_store, get_state, put_state,
    bind, get_world, deref, modify, ret.
  rewrite Hst. simpl. rewrite He. simpl. rewrite Hst. simpl. rewrite He. reflexivity.
Qed.

Lemma set_out_fence_run crtc fence_ptr w st e :
  w_state w = Some st -> crtcs st !! crtc = Some e ->
  set_out_fence_for_crtc crtc fence_ptr w
  = Some (tt,
          set_state (Some (set_crtcs
            (<[crtc := {| ce_ptr := ce_ptr e; ce_state := ce_state e;
                          ce_commit := ce_commit e; ce_out_fence_ptr := fence_ptr |}]>
               (crtcs st)) st)) w).
Proof.
  intros Hst He.
  unfold set_out_fence_for_crtc, crtcs_at, crtcs_store, get_state, put_state,
    bind, get_world, deref, modify, ret.
  rewrite Hst. simpl. rewrite He. simpl. rewrite Hst. simpl. rewrite He. reflexivity.
Qed.

(** X28.  An out-fence pointer is handed out once.  After
    drm_atomic_crtc_set_property has stored a non-null OUT_FENCE_PTR for a
    CRTC (the user address accepted the initial -1), the first
    get_out_fence_for_crtc returns that pointer and clears it, a second one
    returns none; the snapshots the transaction holds are the same
    throughout, and the user memory is written once. *)
Theorem out_fence_ptr_taken_once (drv : drm_driver) (crtc : nat) (state : ptr)
    (s : drm_crtc_state) (st : drm_atomic_state) (e : crtcs_entry) (val : Z) (w : world) :
  w_state w = Some st -> crtcs st !! crtc = Some e ->
  w_crtc_states w !! state = Some s -> cs_state s = true ->
  NoDup (crtc_core_props (mode_config (w_dev w))) ->
  wrap64 val <> 0 -> put_user drv w (wrap64 val) (-1) = false ->
  exists w1 w2 w3,
    drm_atomic_crtc_set_property drv crtc state (prop_out_fence_ptr (mode_config (w_dev w)))
      val w = Some (0, w1) /\
    get_out_fence_for_crtc crtc w1 = Some (Some (wrap64 val), w2) /\
    get_out_fence_for_crtc crtc w2 = Some (None, w3) /\
    (forall k o, stored k o w1 = stored k o w /\ stored k o w2 = stored k o w /\
                 stored k o w3 = stored k o w) /\
    w_trace w3 = w_trace w ++ [EvPutUser (wrap64 val) (-1)].
Proof.
  intros Hst He Hs Hcs Hnd Hnz Hput. unfold crtc_core_props in Hnd. nodup_split Hnd.
  set (e1 := {| ce_ptr := ce_ptr e; ce_state := ce_state e; ce_commit := ce_commit e;
                ce_out_fence_ptr := Some (wrap64 val) |}).
  set (e2 := {| ce_ptr := ce_ptr e; ce_state := ce_state e; ce_commit := ce_commit e;
                ce_out_fence_ptr := None |}).
  set (wl := set_trace (w_trace w ++ [EvPutUser (wrap64 val) (-1)]) w).
  set (w1 := set_state (Some (set_crtcs (<[crtc := e1]> (crtcs st)) st)) wl).
  set (st1 := set_crtcs (<[crtc := e1]> (crtcs st)) st).
  set (w2 := set_state (Some (set_crtcs (<[crtc := e2]> (crtcs st1)) st1)) w1).
  set (st2 := set_crtcs (<[crtc := e2]> (crtcs st1)) st1).
  set (w3 := set_state (Some (set_crtcs (<[crtc := e2]> (crtcs st2)) st2)) w2).
  assert (Hlt : (crtc < length (crtcs st))%nat) by (eapply lookup_lt_Some; eauto).
  exists w1, w2, w3. split; [|split; [|split; [|split]]].
  - unfold drm_atomic_crtc_set_property, load_crtc_state, user_put, bind, get_world, deref,
      log, modify, ret. rewrite Hs. simpl.
    pick_property.
    rewrite (proj2 (Z.eqb_neq _ _) Hnz), Hput. simpl. rewrite Hcs.
    change (set_trace (w_trace w ++ [EvPutUser (wrap64 val) (-1)]) w) with wl.
    rewrite (set_out_fence_run crtc (Some (wrap64 val)) wl st e Hst He). reflexivity.
  - rewrite (get_out_fence_run crtc w1 st1 e1 eq_refl); [reflexivity|].
    simpl. apply list_lookup_insert_eq. exact Hlt.
  - rewrite (get_out_fence_run crtc w2 st2 e2 eq_refl); [reflexivity|].
    simpl. apply list_lookup_insert_eq. rewrite length_insert. exact Hlt.
  - intros k o. unfold stored. simpl. rewrite Hst.
    destruct k; simpl; auto.
    destruct (decide (o = crtc)) as [->|Hne].
    + rewrite !list_lookup_insert_eq by (rewrite ?length_insert; exact Hlt).
      rewrite He. auto.
    + rewrite !list_lookup_insert_ne by congruence. auto.
  - reflexivity.
Qed.

Lemma out_fence_ptr_taken_once_witness :
  exists w1 w2,
    drm_atomic_crtc_set_property demo_driver 0 100%nat (prop_out_fence_ptr demo_config) 5000
      demo_world_crtc0 = Some (0, w1) /\
    get_out_fence_for_crtc 0 w1 = Some (Some 5000, w2) /\
    fst <$> get_out_fence_for_crtc 0 w2 = Some None.
Proof.
  destruct (w_state demo_world_crtc0) as [st|] eqn:Hst; [|vm_compute in Hst; discriminate].
  destruct (crtcs st !! 0%nat) as [e|] eqn:He;
    [|vm_compute in Hst; injection Hst as <-; vm_compute in He; discriminate].
  destruct (out_fence_ptr_taken_once demo_driver 0 100%nat _ st e 5000 demo_world_crtc0
              Hst He demo_world_crtc0_lookup eq_refl)
    as (w1 & w2 & w3 & Hset & Hget1 & Hget2 & _).
  - apply (bool_decide_unpack _). vm_compute. exact I.
  - discriminate.
  - reflexivity.
  - exists w1, w2. split; [exact Hset|]. split; [exact Hget1|]. rewrite Hget2. reflexivity.
Defined.
